(* ===== verification/_CoqProject ===== *)
-Q . S2P
Prelude.v
StdMap.v
Float32.v
Messages.v
CondVar.v
Locks.v
SafeQueue.v
StreamBuffer.v
BufferSpec.v
Scheduler.v
Common.v
Config.v
Sei.v
Socket.v
SenderStop.v
Ipc.v
Stats.v
Detector.v
Decoder.v
Puller.v
Mux.v
Recorder.v
Snapshot.v
Pipeline.v
Publish.v
Infer.v
EndToEnd.v
Interleaving.v
Progress.v
System.v
Loops.v
Waits.v
Lifecycle.v
Threads.v
Main.v
