(* ===== verification/Prelude.v ===== *)
(** * media_agent: verification development

    media_agent (src/src) is a video analytics agent.  A server sends it, over a Unix
    socket, the streams it wants; for each stream the agent pulls RTSP packets, decodes
    them, runs a detector on some of the frames, writes what was detected into the packets
    as SEI units, publishes them, and turns alarms into messages, recordings and snapshots.

    ** How the program runs, and where it is modelled

    The server's configurations arrive in [SocketSender] and [IpcClient] and are stored by
    [Pipeline::handleSocketConfig].  The main loop merges them (ConfigFilter) and starts,
    updates and stops streams.  Each stream has a puller thread, which fills the stream's
    buffer with packets and decoded frames, and a publishing thread, which empties it; the
    inference threads are shared by all streams, which take turns in the scheduler.  They
    file their results with the buffer, from where the publishing thread takes them.

    - Prelude, StdMap, Float32: machine integers, bytes, tactics and the hint database
      [media]; [std::map] as a list sorted by key; [float] with its IEEE 754 rounding.
    - Messages: the protobuf messages, StreamTypes.h, DmaImage.h, the AVPacket fields.
    - CondVar: [std::condition_variable] with its mutex, sleepers and notifications.
    - Locks: threads that lock mutexes, start and join one another, and when they cannot
      deadlock.
    - SafeQueue: common/ThreadSafeQueue.h.
    - StreamBuffer: pipeline/StreamBuffer.cpp.  [sb_call] lists its methods; an
      interleaving of the threads is a list of calls ([sb_run]).  BufferSpec: the contract
      of the class on plain lists ([spec_apply], [spec_publishable]), the [view] of a buffer,
      and [sb_equiv], buffers that look the same.
    - Scheduler: pipeline/InferScheduler.cpp, over the interface [FrameSource] that the
      stream buffer implements.
    - Common: common/Utils.h, Uuid.h, Config.cpp, CmdArgs.cpp.
    - Config: pipeline/ConfigFilter.cpp, over the interface [MessageDifferencer].
    - Sei: stream/SeiInjector.cpp and pipeline/Utils.cpp, with the receiver the protocol
      text prescribes.
    - Socket, Ipc: ipc/SocketSender.cpp, ipc/IpcClient.cpp, protocol/MessageMapper.cpp,
      over the interface [EnvelopeCodec].  SenderStop: [sendLoop], [recvLoop] and [stop] as
      interleaved threads ([sender_step]).
    - Stats: common/Statistics.cpp.
    - Detector: detector/ and tracker/.
    - Decoder, Puller: stream/MppDecoder.cpp, stream/RTSPPuller.cpp.
    - Mux, Recorder, Snapshot: stream/RtspPublisher.cpp and Utils.cpp, stream/Recorder.cpp,
      stream/Snapshotter.cpp.
    - Pipeline, Publish, Infer, Lifecycle: pipeline/Pipeline.cpp - the streams and their
      configurations; publishLoop; inferLoop with its alarms, the stream-ready callback and
      heartbeatLoop; start and stop.
    - EndToEnd: what the inference thread finds and the publishing thread sends, together.
    - Interleaving: the threads of one stream as a step relation on its buffer
      ([stream_step]), one rule for each call, in any interleaving; the bodies of publishLoop
      and inferLoop as runs of it.  Progress: publishing can always go on.
    - System: every stream with its buffers (a stream started again has several, of which the
      scheduler knows the last), the scheduler and the tasks in the inference
      threads' hands ([media_step]), with an executable counterpart ([media_run]).  Loops: a
      turn of inferLoop as a run of it.
    - Waits: the waits of the publishing thread, the inference threads, the consumers of a
      queue and the main loop as instances of CondVar, with the notifications each change
      sends.
    - Threads: the mutexes every thread of the process takes, one inside the other, and the
      threads it starts and joins, function by function.
    - Main: common/Logger.h ([logger_init]) and main.cpp ([main]).

    ** State, steps and errors

    A class is a record of its members; a method is a function that returns the new record
    and what the method returns.  A method that holds its mutex throughout is one step; one
    that releases it (a wait, a callback, a loop turn) is split there, and what the other
    threads do in between is an argument: a list of calls ([pa_peeked], [pa_injected] in
    Publish), a function of the shared state ([ia_meanwhile], [ia_during] in Infer, [env] of
    [acquireTask], [main_loop] of [agent_stop]), a predicate ([early], [late] in
    Pipeline), or a flag ([stop_answers] in Main, [move_first] in Puller and Waits for the
    order in which the compiler evaluates two arguments).  Where objects are shared through pointers and written, a store holds them:
    the frames of a buffer ([sb_store]), the stream contexts ([pl_contexts]) and buffers
    ([pl_buffers]).  [None] is an exception nobody catches or undefined behaviour; a [bool]
    result is the method's own.  Third-party code (FFmpeg, Rockchip MPP, EdgeInfer, the
    native tracker, protobuf, nlohmann::json, the kernel's sockets and files, the clocks)
    answers through arguments, and the resources it hands out are counted so that leaks and
    uses after release are visible.  Integers are [Z], with [wrap], [to_signed] and the
    ranges [in_unsigned], [in_signed] where the code relies on a width.

    Loops recurse on their input (packets, events, answers).  Three have fuel:
    [sei_length_loop] (enough: it ends below 255), [recvLoop] (one turn each; enough for all
    the frames received) and [dec_digits] (digits of a 64-bit number).

    ** What is shown

    - Buffer and publishing: the representation invariant over all interleavings
      ([sb_reachable_wf]); every method answers and acts as the contract says
      ([buffer_refines_spec]), which includes selection ([selectFrame_spec]) and what may be
      published ([waitForPublishable_video], [publish_safe]); packets leave in order, once each, changed only by an SEI unit in
      front ([published_in_order]); frames are freed with their packets
      ([frames_freed_with_packets]), given that the puller files them as it does
      ([frames_follow_packets]); a detection reaches its packet ([detection_reaches_packet]).
    - Threads of a stream: in any interleaving the frame an inference thread works on stays
      in the buffer, behind the packet being published, whose release leaves a decoded frame
      ([inference_frame_stays]); publishLoop and inferLoop make only the steps for which this
      is shown ([publishing_interleaves], [inference_interleaves]); from every state they
      reach, the queued packets can all still be sent in order ([publishing_not_stuck]).
    - All streams: sharing the scheduler and the inference threads they keep to all this,
      also when a stream is registered again with another buffer, as long as none is
      removed while it has a task ([streams_do_not_interfere]); and a
      turn of inferLoop, with whatever the others do around it, is a run of this system in
      which a task that was acquired is handed back ([infer_turn_in_system]).
    - Waits: neither the publishing thread ([publisher_never_oversleeps]) nor the inference
      threads ([inference_never_oversleeps]; [moved_frame_unheard] if the compiler moves a
      picture away before it is tested) nor a queue's consumers
      ([consumers_never_oversleep]) sleep through what they wait for, nor does the main loop
      sleep through a request ([main_hears_requests]).
    - Locks: however all threads are interleaved, they cannot deadlock on their mutexes and
      joins ([threads_cannot_deadlock]); calls of the system and waits are taken to end, and
      for the sender's blocking calls it is shown when they do ([sender_stop_ends]).
    - The process: how it ends and what it has shut down by then ([main_outcome]); a stop
      that does not return makes it hang, a leaked context terminates it.
    - Inference: round robin, fair, at most one task per stream ([tryAcquireLocked_spec],
      [round_robin_fair], [one_inflight_per_stream]); every task is given back
      ([task_given_back]) and comes to an end ([infer_task_defined]); the detector's result
      ([detect_spec]), the tracker's handles ([tracker_handles_safe]), alarm deduplication
      against the history of alarms ([dedup_refines_history]).
    - Alarms: one message per class ([alarms_by_class]), received as sent
      ([alarm_reaches_peer], [recvLoop_frames]); snapshots 5 s apart
      ([snapshot_rate_limited]); recordings contiguous from a keyframe
      ([recording_contiguous]).
    - Configuration: the merge against a declarative one ([buildMergedStreams_spec]); the
      streams that run after a batch are those wanted, and what becomes of every context,
      buffer and registration ([applyConfigBatch_spec]); an output
      that cannot be opened stops its stream ([stream_ready_outcome]); start and stop own
      their threads ([agent_threads_match]).
    - Encodings: SEI payload and NAL unit round trips ([msp_payload_roundtrip],
      [sei_nal_roundtrip]), injection ([inject_spec]), box drawing ([drawBoxes_spec]).
    - Resources and counters: [puller_no_mpp_leak], [writePacket_spec],
      [tsq_fifo_bounded], [stats_deltas_conserve].

    Some theorems prove that the code does what it should not:
    [transport_change_leaks_context] (a changed stream is started twice) and
    [transport_change_terminates] (which terminates the process when it stops),
    [restart_loses_frame] (a stream removed and registered again under a task),
    [stop_goes_unheard] (the request to stop misses the main loop, and [stop] hangs),
    [stop_leaves_receiver_blocked] (so may the sender's: a connection made while it
    disconnects keeps the receiving thread in [recv]),
    [late_start_survives_stop] and [late_async_stop_leaves_zombie] (races of starting a
    stream with stopping it), [undetected_frame_stays_running],
    [reregistration_breaks_one_inflight], [reconnect_stalls_stream],
    [reconnect_splices_frames], [publisher_dead_after_failed_reopen],
    [inject_corrupts_avcc], [stats_reregister_wraps].

    ** Not modelled

    The text of log messages and version.h (output only); the signal handler, which is the
    flag [wait_for_signal] polls; the abstract interfaces and factories (IDetector.h,
    ITracker.h, DetectorFactory.h), which have one implementation each; third_party/, which is vendored or binary.
    Threads are interleaved at the granularity above: data races on fields read without
    their mutex, and the reuse of a file descriptor closed under a [recv], are not
    represented.  The timed waits of the heartbeat, the statistics, the sender and the puller
    are not instances of CondVar: they end by themselves. *)
From Stdlib Require Export Sorted ZArith Lia.
From stdpp Require Export prelude list sorting strings gmap.

#[global] Open Scope Z_scope.
#[export] Set Warnings "-clear-no-such-hyp,-register-all".

(** ** Machine integers *)

(** Unsigned wrap-around of C++ [uintN_t] arithmetic and casts. *)
Definition wrap (w z : Z) : Z := z mod 2 ^ w.

Abbreviation u8 := (wrap 8).
Abbreviation u16 := (wrap 16).
Abbreviation u32 := (wrap 32).
Abbreviation u64 := (wrap 64).

(** Conversion of an integer to a [w]-bit signed type (two's complement). *)
Definition to_signed (w z : Z) : Z := (z + 2 ^ (w - 1)) mod 2 ^ w - 2 ^ (w - 1).

(** The range of an unsigned [w]-bit integer. *)
Definition in_unsigned (w z : Z) : Prop := 0 <= z < 2 ^ w.

(** The range of a signed [w]-bit integer. *)
Definition in_signed (w z : Z) : Prop := - 2 ^ (w - 1) <= z < 2 ^ (w - 1).

#[export] Instance in_unsigned_dec w z : Decision (in_unsigned w z).
Proof. unfold in_unsigned. apply _. Defined.

#[export] Instance in_signed_dec w z : Decision (in_signed w z).
Proof. unfold in_signed. apply _. Defined.

Create HintDb media discriminated.

Lemma wrap_range w z : 0 <= w -> in_unsigned w (wrap w z).
Proof. intros Hw. unfold in_unsigned, wrap. apply Z.mod_pos_bound. lia. Qed.

Lemma wrap_small w z : in_unsigned w z -> wrap w z = z.
Proof. apply Z.mod_small. Qed.

Lemma to_signed_range w z : 0 < w -> in_signed w (to_signed w z).
Proof.
  intros Hw. unfold in_signed, to_signed.
  assert (2 ^ w = 2 * 2 ^ (w - 1)) by (rewrite <- Z.pow_succ_r by lia; f_equal; lia).
  pose proof (Z.mod_pos_bound (z + 2 ^ (w - 1)) (2 ^ w) ltac:(apply Z.pow_pos_nonneg; lia)). lia.
Qed.

Lemma to_signed_small w z : 0 < w -> in_signed w z -> to_signed w z = z.
Proof.
  intros Hw Hz. unfold in_signed, to_signed in *.
  assert (2 ^ w = 2 * 2 ^ (w - 1)) by (rewrite <- Z.pow_succ_r by lia; f_equal; lia).
  rewrite Z.mod_small; lia.
Qed.

Lemma wrap_wrap w z : wrap w (wrap w z) = wrap w z.
Proof. unfold wrap. by rewrite Zmod_mod. Qed.

Lemma wrap_add_l w a b : wrap w (wrap w a + b) = wrap w (a + b).
Proof. unfold wrap. by rewrite Zplus_mod_idemp_l. Qed.

Lemma wrap_sub_wrap w a b : wrap w (wrap w a - wrap w b) = wrap w (a - b).
Proof. unfold wrap. by rewrite <- Zminus_mod. Qed.

#[export] Hint Resolve wrap_range : media.

(** ** Bytes: a [std::vector<uint8_t>] is a list of [Z], each a byte. *)
Abbreviation byte_ok := (in_unsigned 8).
Abbreviation bytes_ok := (Forall (in_unsigned 8)).

Lemma bytes_ok_app l k : bytes_ok l -> bytes_ok k -> bytes_ok (l ++ k).
Proof. intros; by apply Forall_app_2. Qed.

(** The bytes of a [std::string] / [QByteArray]-like object. *)
Definition byte_of_char (c : Ascii.ascii) : Z := Z.of_N (Ascii.N_of_ascii c).

Fixpoint bytes_of_string (s : string) : list Z :=
  match s with
  | EmptyString => []
  | String c r => byte_of_char c :: bytes_of_string r
  end.

Lemma byte_of_char_ok c : byte_ok (byte_of_char c).
Proof.
  unfold in_unsigned, byte_of_char.
  pose proof (Ascii.N_ascii_bounded c). change (2 ^ 8) with 256. lia.
Qed.

Lemma bytes_of_string_ok s : bytes_ok (bytes_of_string s).
Proof. induction s; simpl; constructor; auto using byte_of_char_ok. Qed.

Lemma length_bytes_of_string s : length (bytes_of_string s) = String.length s.
Proof. induction s; simpl; congruence. Qed.

#[export] Hint Resolve bytes_ok_app bytes_of_string_ok byte_of_char_ok : media.

(** [v] as [n] big-endian bytes: [static_cast<uint8_t>((v >> (8 * k)) & 0xFF)] for
    [k] from [n - 1] down to [0]. *)
Fixpoint be_bytes (n : nat) (v : Z) : list Z :=
  match n with
  | O => []
  | S k => Z.land (Z.shiftr v (8 * Z.of_nat k)) 255 :: be_bytes k v
  end.

(** The unsigned integer a big-endian byte sequence denotes. *)
Definition be_value (l : list Z) : Z := foldl (fun acc b => acc * 256 + b) 0 l.

Lemma land_255 z : Z.land z 255 = z mod 256.
Proof. change 255 with (Z.ones 8). by rewrite Z.land_ones. Qed.

Lemma length_be_bytes n v : length (be_bytes n v) = n.
Proof. induction n; simpl; congruence. Qed.

Lemma be_bytes_ok n v : bytes_ok (be_bytes n v).
Proof.
  induction n; simpl; constructor; [|done]. rewrite land_255.
  unfold in_unsigned. apply Z.mod_pos_bound. lia.
Qed.

Lemma be_value_acc acc l :
  foldl (fun acc b => acc * 256 + b) acc l = acc * 256 ^ Z.of_nat (length l) + be_value l.
Proof.
  revert acc. unfold be_value. induction l as [|b l IH]; intros acc; simpl length; [simpl; lia|].
  simpl foldl. rewrite IH, (IH (0 * 256 + b)).
  rewrite Nat2Z.inj_succ, Z.pow_succ_r by lia. ring.
Qed.

Lemma be_value_bytes n v : be_value (be_bytes n v) = v mod 256 ^ Z.of_nat n.
Proof.
  induction n as [|n IH]; [by rewrite Z.mod_1_r|].
  unfold be_value in *. cbn [be_bytes foldl]. rewrite be_value_acc, length_be_bytes. unfold be_value. rewrite IH.
  rewrite land_255, Z.shiftr_div_pow2, Z.pow_mul_r by lia. change (2 ^ 8) with 256.
  rewrite Nat2Z.inj_succ, Z.pow_succ_r, (Z.mul_comm 256) by lia.
  assert (0 < 256 ^ Z.of_nat n) by (apply Z.pow_pos_nonneg; lia).
  rewrite Z.rem_mul_r by lia. ring.
Qed.

Lemma be_value_bytes_small n v :
  0 <= v < 256 ^ Z.of_nat n -> be_value (be_bytes n v) = v.
Proof. intros. rewrite be_value_bytes. by apply Z.mod_small. Qed.

#[export] Hint Resolve be_bytes_ok : media.

(** ** Booleans and strings *)
Definition str_eqb : string -> string -> bool := String.eqb.

Definition str_empty (s : string) : bool :=
  match s with EmptyString => true | _ => false end.

Lemma str_empty_true s : str_empty s = true <-> s = EmptyString.
Proof. by destruct s. Qed.

Lemma str_empty_false s : str_empty s = false <-> s <> EmptyString.
Proof. by destruct s. Qed.

(** ** Tactics of the development *)

(** Split booleans built with [&&], [||], [negb] and comparisons into propositions. *)
Ltac bool_crush :=
  repeat match goal with
  | H : (_ && _)%bool = true |- _ => apply andb_true_iff in H as [? ?]
  | H : (_ || _)%bool = false |- _ => apply orb_false_iff in H as [? ?]
  | H : negb _ = true |- _ => apply negb_true_iff in H
  | H : negb _ = false |- _ => apply negb_false_iff in H
  | H : (_ <? _)%Z = true |- _ => apply Z.ltb_lt in H
  | H : (_ <? _)%Z = false |- _ => apply Z.ltb_ge in H
  | H : (_ <=? _)%Z = true |- _ => apply Z.leb_le in H
  | H : (_ <=? _)%Z = false |- _ => apply Z.leb_gt in H
  | H : (_ =? _)%Z = true |- _ => apply Z.eqb_eq in H
  | H : (_ =? _)%Z = false |- _ => apply Z.eqb_neq in H
  | H : bool_decide _ = true |- _ => apply bool_decide_eq_true in H
  | H : bool_decide _ = false |- _ => apply bool_decide_eq_false in H
  | H : str_empty _ = true |- _ => apply str_empty_true in H
  | H : str_empty _ = false |- _ => apply str_empty_false in H
  end.

(** Mapping keeps the order of a selection. *)
Lemma sublist_fmap {A B} (f : A -> B) (l k : list A) : sublist l k -> sublist (f <$> l) (f <$> k).
Proof. induction 1; cbn; by constructor. Qed.

(** What holds of a computed result. *)
Lemma some_ex {A} (x : option A) (P : A -> Prop) :
  match x with Some a => P a | None => False end -> exists a, x = Some a /\ P a.
Proof. destruct x as [a|]; [|done]. intros H. by exists a. Qed.

Lemma some_pair {A B} (x : option (A * B)) (P : A -> B -> Prop) :
  match x with Some (a, b) => P a b | None => False end -> exists a b, x = Some (a, b) /\ P a b.
Proof. destruct x as [[a b]|]; [|done]. intros H. by exists a, b. Qed.

(** Case on the discriminee of every [match] of the goal, keeping the equations. *)
Ltac split_match :=
  repeat case_match; simplify_eq/=; bool_crush.

(** Byte-range goals on concatenated encodings. *)
Ltac solve_bytes :=
  repeat match goal with
  | |- Forall _ (_ ++ _) => apply Forall_app_2
  | |- Forall _ (_ :: _) => apply Forall_cons_2
  | |- Forall _ [] => apply Forall_nil_2
  | |- Forall _ (take _ _) => apply Forall_take
  | |- Forall _ (be_bytes _ _) => apply be_bytes_ok
  end;
  first [solve [auto with media] | unfold in_unsigned in *; lia].
