(* ===== verification/StdMap.v ===== *)
(** * std::map

    [std::map<K, V>] iterates in key order, which the merging of configurations
    depends on, so it is modelled as its in-order sequence: an association list
    whose keys strictly increase.  [int32_t] keys are ordered as integers,
    [std::string] keys as byte sequences ([char_traits<char>::compare]). *)
From S2P Require Import Prelude.

(** A key type with the three-way comparison the map uses. *)
Class OrderedKey (K : Type) := {
  key_cmp : K -> K -> comparison;
  key_cmp_eq a b : key_cmp a b = Eq <-> a = b;
  key_cmp_antisym a b : key_cmp b a = CompOpp (key_cmp a b);
  key_cmp_trans a b c : key_cmp a b = Lt -> key_cmp b c = Lt -> key_cmp a c = Lt;
}.

#[export] Instance Z_OrderedKey : OrderedKey Z.
Proof.
  refine {| key_cmp := Z.compare |}.
  - apply Z.compare_eq_iff.
  - intros a b. apply Z.compare_antisym.
  - intros a b c. rewrite !Z.compare_lt_iff. lia.
Defined.

#[export] Instance string_OrderedKey : OrderedKey string.
Proof.
  refine {| key_cmp := String.compare |}.
  - intros a b. split; [apply String.compare_eq_iff|].
    intros ->. pose proof (String.compare_antisym b b) as H.
    by destruct (String.compare b b).
  - intros a b. apply String.compare_antisym.
  - intros a b c H1 H2.
    assert (String.le a b) as Hab by (unfold String.le, String.leb; by rewrite H1).
    assert (String.le b c) as Hbc by (unfold String.le, String.leb; by rewrite H2).
    assert (String.le a c) as Hac by (by etrans).
    unfold String.le, String.leb in Hac. destruct (String.compare a c) eqn:E; [|done..].
    apply String.compare_eq_iff in E as ->.
    rewrite String.compare_antisym, H1 in H2. done.
Defined.

Definition key_lt `{OrderedKey K} (a b : K) : Prop := key_cmp a b = Lt.

Section StdMap.
Context {K V : Type} `{OrderedKey K}.
Implicit Types (k : K) (v : V) (m : list (K * V)).

(** [m.find(k)]. *)
Fixpoint std_find k m : option V :=
  match m with
  | [] => None
  | (k', v) :: r => match key_cmp k k' with Eq => Some v | Lt => None | Gt => std_find k r end
  end.

(** [m[k] = v]. *)
Fixpoint std_insert k v m : list (K * V) :=
  match m with
  | [] => [(k, v)]
  | (k', v') :: r =>
      match key_cmp k k' with
      | Eq => (k, v) :: r
      | Lt => (k, v) :: (k', v') :: r
      | Gt => (k', v') :: std_insert k v r
      end
  end.

(** [m.erase(k)]. *)
Fixpoint std_erase k m : list (K * V) :=
  match m with
  | [] => []
  | (k', v') :: r =>
      match key_cmp k k' with
      | Eq => r
      | Lt => (k', v') :: r
      | Gt => (k', v') :: std_erase k r
      end
  end.

(** The representation invariant: keys strictly increase. *)
Definition std_wf m : Prop := StronglySorted key_lt m.*1.

Lemma key_cmp_refl k : key_cmp k k = Eq.
Proof. by apply key_cmp_eq. Qed.

Lemma key_cmp_gt a b : key_cmp a b = Gt <-> key_lt b a.
Proof. unfold key_lt. rewrite (key_cmp_antisym a b). by destruct (key_cmp a b). Qed.

Lemma key_lt_ne a b : key_lt a b -> a <> b.
Proof. unfold key_lt. intros Hlt ->. by rewrite key_cmp_refl in Hlt. Qed.

Lemma std_find_lt_all k m : Forall (key_lt k) m.*1 -> std_find k m = None.
Proof.
  destruct m as [|[k' v'] r]; [done|]. intros [Hlt _]%Forall_cons.
  simpl. unfold key_lt in Hlt. simpl in Hlt. by rewrite Hlt.
Qed.

Lemma Forall_key_lt_trans a b l : key_lt a b -> Forall (key_lt b) l -> Forall (key_lt a) l.
Proof. intros Hab HF. eapply Forall_impl; [done|]. intros c. by apply key_cmp_trans. Qed.

Lemma std_find_insert_eq k v m : std_find k (std_insert k v m) = Some v.
Proof.
  induction m as [|[k' v'] r IH]; simpl; [by rewrite key_cmp_refl|].
  destruct (key_cmp k k') eqn:E; simpl; rewrite ?key_cmp_refl, ?E; done.
Qed.

Lemma std_find_insert_ne k k' v m : k <> k' -> std_find k' (std_insert k v m) = std_find k' m.
Proof.
  intros Hne. induction m as [|[j w] r IH]; simpl.
  - destruct (key_cmp k' k) eqn:E; [|done..]. apply key_cmp_eq in E. congruence.
  - destruct (key_cmp k j) eqn:E1; simpl.
    + apply key_cmp_eq in E1 as ->. destruct (key_cmp k' j) eqn:E2; [|done..].
      apply key_cmp_eq in E2. congruence.
    + destruct (key_cmp k' k) eqn:E2; [apply key_cmp_eq in E2; congruence| |done].
      by rewrite (key_cmp_trans _ _ _ E2 E1).
    + by destruct (key_cmp k' j).
Qed.

Lemma std_insert_keys_gt b k v m :
  key_lt b k -> Forall (key_lt b) m.*1 -> Forall (key_lt b) (std_insert k v m).*1.
Proof.
  intros Hbk. induction m as [|[j w] r IH]; simpl; intros HF; [by repeat constructor|].
  apply Forall_cons in HF as [Hj HF].
  destruct (key_cmp k j); simpl; repeat constructor; auto.
Qed.

Lemma std_insert_wf k v m : std_wf m -> std_wf (std_insert k v m).
Proof.
  unfold std_wf. induction m as [|[j w] r IH]; simpl; [repeat constructor|].
  intros [Hs HF]%StronglySorted_inv.
  destruct (key_cmp k j) eqn:E; simpl.
  - apply key_cmp_eq in E as ->. by constructor.
  - constructor; [by constructor|]. constructor; [done|]. by eapply Forall_key_lt_trans.
  - constructor; [auto|]. apply std_insert_keys_gt; [by apply key_cmp_gt|done].
Qed.

Lemma std_erase_keys (P : K -> Prop) k m : Forall P m.*1 -> Forall P (std_erase k m).*1.
Proof.
  induction m as [|[j w] r IH]; simpl; [done|]. intros [Hj HF]%Forall_cons.
  destruct (key_cmp k j); simpl; repeat constructor; auto.
Qed.

Lemma std_erase_wf k m : std_wf m -> std_wf (std_erase k m).
Proof.
  unfold std_wf. induction m as [|[j w] r IH]; simpl; [done|].
  intros [Hs HF]%StronglySorted_inv.
  destruct (key_cmp k j); simpl; [done|by constructor|].
  constructor; [auto|by apply std_erase_keys].
Qed.

Lemma std_find_erase_eq k m : std_wf m -> std_find k (std_erase k m) = None.
Proof.
  unfold std_wf. induction m as [|[j w] r IH]; simpl; [done|].
  intros [Hs HF]%StronglySorted_inv.
  destruct (key_cmp k j) eqn:E; simpl.
  - apply key_cmp_eq in E as ->. by apply std_find_lt_all.
  - by rewrite E.
  - rewrite E. auto.
Qed.

Lemma std_find_erase_ne k k' m :
  std_wf m -> k <> k' -> std_find k' (std_erase k m) = std_find k' m.
Proof.
  unfold std_wf. intros Hwf Hne. induction m as [|[j w] r IH]; simpl; [done|].
  simpl in Hwf. apply StronglySorted_inv in Hwf as [Hs HF].
  destruct (key_cmp k j) eqn:E; simpl; [|done|].
  - apply key_cmp_eq in E as ->.
    destruct (key_cmp k' j) eqn:E2; [apply key_cmp_eq in E2; congruence| |done].
    apply std_find_lt_all. by eapply Forall_key_lt_trans.
  - destruct (key_cmp k' j); auto.
Qed.

Lemma std_find_Some k v m : std_wf m -> std_find k m = Some v <-> (k, v) ∈ m.
Proof.
  unfold std_wf. induction m as [|[j w] r IH]; simpl.
  - split; [done|]. by intros ?%elem_of_nil.
  - intros [Hs HF]%StronglySorted_inv. rewrite elem_of_cons.
    destruct (key_cmp k j) eqn:E.
    + apply key_cmp_eq in E as ->. split; [intros [= ->]; by left|].
      intros [[= ->]|Hin]; [done|].
      rewrite Forall_forall in HF. apply (list_elem_of_fmap_2 fst) in Hin.
      apply HF, key_lt_ne in Hin. done.
    + split; [done|]. intros [[= -> ->]|Hin]; [by rewrite key_cmp_refl in E|].
      rewrite Forall_forall in HF. apply (list_elem_of_fmap_2 fst) in Hin. apply HF in Hin.
      simpl in Hin. pose proof (key_cmp_trans _ _ _ E Hin) as Hc.
      by rewrite key_cmp_refl in Hc.
    + rewrite IH by done. split; [by right|]. intros [[= -> ->]|]; [|done].
      by rewrite key_cmp_refl in E.
Qed.

Lemma std_find_None k m : std_wf m -> std_find k m = None <-> k ∉ m.*1.
Proof.
  intros Hwf. split.
  - intros Hf Hin. apply list_elem_of_fmap in Hin as ([k' v'] & -> & Hin).
    apply std_find_Some in Hin; [|done]. simpl in *. congruence.
  - intros Hin. destruct (std_find k m) as [v|] eqn:E; [|done].
    apply std_find_Some in E; [|done]. apply (list_elem_of_fmap_2 fst) in E. done.
Qed.

Lemma std_find_erase k k' m :
  std_wf m ->
  std_find k' (std_erase k m) = match key_cmp k k' with Eq => None | _ => std_find k' m end.
Proof.
  intros Hwf. destruct (key_cmp k k') eqn:E.
  - apply key_cmp_eq in E as ->. by apply std_find_erase_eq.
  - apply std_find_erase_ne; [done|]. intros ->. by rewrite key_cmp_refl in E.
  - apply std_find_erase_ne; [done|]. intros ->. by rewrite key_cmp_refl in E.
Qed.

Lemma std_wf_NoDup m : std_wf m -> NoDup m.*1.
Proof.
  unfold std_wf. induction m.*1 as [|k l IH]; intros Hs; [constructor|].
  apply StronglySorted_inv in Hs as [Hs HF]. constructor; [|auto].
  intros Hin. rewrite Forall_forall in HF. by eapply key_lt_ne; [apply HF|].
Qed.

Lemma std_wf_nil : std_wf [].
Proof. constructor. Qed.

Lemma std_wf_fmap_fst {W} (m : list (K * V)) (m' : list (K * W)) :
  m.*1 = m'.*1 -> std_wf m -> StronglySorted key_lt m'.*1.
Proof. unfold std_wf. by intros ->. Qed.

Lemma std_erase_all_find (f : K -> V -> bool) m k :
  std_wf m ->
  std_find k (base.filter (fun p => f p.1 p.2 = true) m) =
    match std_find k m with
    | Some v => if f k v then Some v else None
    | None => None
    end.
Proof.
  unfold std_wf. induction m as [|[j w] r IH]; simpl; [done|].
  intros [Hs HF]%StronglySorted_inv.
  assert (key_cmp k j = Lt -> std_find k (base.filter (fun p => f p.1 p.2 = true) r) = None) as Hlt.
  { intros E. rewrite IH by done.
    rewrite std_find_lt_all; [done|by eapply Forall_key_lt_trans]. }
  assert (key_cmp k j = Eq -> std_find k (base.filter (fun p => f p.1 p.2 = true) r) = None) as Heq.
  { intros ->%key_cmp_eq. rewrite IH by done. by rewrite std_find_lt_all. }
  rewrite filter_cons. case_decide as Hd; simpl in *.
  - destruct (key_cmp k j) eqn:E; [|done|by apply IH].
    apply key_cmp_eq in E as ->. by rewrite Hd.
  - destruct (key_cmp k j) eqn:E; [|by apply Hlt|by apply IH].
    rewrite Heq by done. apply key_cmp_eq in E as ->. by destruct (f j w).
Qed.
End StdMap.

#[export] Hint Resolve std_wf_nil std_insert_wf std_erase_wf : media.

(** [m.emplace(k, v)]: an existing mapping is kept. *)
Definition std_emplace {K V} `{OrderedKey K} (k : K) (v : V) (m : list (K * V)) : list (K * V) :=
  match std_find k m with Some _ => m | None => std_insert k v m end.

(** Emplacing the image of every mapping of [m] into an empty map. *)
Lemma std_emplace_all {K V W} `{OrderedKey K} (f : V -> W) (m : list (K * V)) k :
  std_wf m ->
  std_find k (foldl (fun acc p => std_emplace p.1 (f p.2) acc) [] m) = f <$> std_find k m /\
  std_wf (foldl (fun acc p => std_emplace p.1 (f p.2) acc) [] m).
Proof.
  intros Hwf.
  assert (forall acc, std_wf acc -> (forall j, j ∈ m.*1 -> std_find j acc = None) ->
    std_find k (foldl (fun acc p => std_emplace p.1 (f p.2) acc) acc m) =
      match std_find k m with Some v => Some (f v) | None => std_find k acc end /\
    std_wf (foldl (fun acc p => std_emplace p.1 (f p.2) acc) acc m)) as Hgen.
  { unfold std_wf in Hwf. induction m as [|[j v] m IH]; simpl in *; intros acc Hacc Hfresh; [done|].
    apply StronglySorted_inv in Hwf as [Hs HF]. unfold std_emplace at 2 4.
    rewrite Hfresh by by constructor.
    destruct (IH Hs (std_insert j (f v) acc)) as [E Hw]; [by apply std_insert_wf| |].
    { intros i Hi. assert (j <> i) as Hji.
      { rewrite Forall_forall in HF. apply key_lt_ne. by apply HF. }
      rewrite std_find_insert_ne by done. apply Hfresh. by constructor. }
    split; [|done]. rewrite E. destruct (key_cmp k j) eqn:Ek.
    - apply key_cmp_eq in Ek as ->.
      rewrite (std_find_lt_all j m) by done. by rewrite std_find_insert_eq.
    - assert (j <> k) by (intros ->; by rewrite key_cmp_refl in Ek).
      rewrite (std_find_lt_all k m) by (by eapply Forall_key_lt_trans).
      by apply std_find_insert_ne.
    - assert (j <> k) by (intros ->; by rewrite key_cmp_refl in Ek).
      destruct (std_find k m); [done|]. by apply std_find_insert_ne. }
  destruct (Hgen [] std_wf_nil) as [E ?]; [done|]. split; [|done].
  rewrite E. by destruct (std_find k m).
Qed.
