(* ===== verification/Float32.v ===== *)
(** * C++ [float] (IEEE 754 binary32) and the [<cmath>] functions the agent uses

    Values are the Standard Library's [spec_float]; the operations are its
    executable round-to-nearest-even specification at precision 24, so the
    definitions compute the very bit patterns a conforming target computes. *)
From S2P Require Import Prelude.
From Stdlib Require Export SpecFloat.

Definition float32 := spec_float.

#[export] Instance float32_eq_dec : EqDecision float32.
Proof. unfold EqDecision, Decision, float32. repeat decide equality. Defined.

(** Values a [float] object can hold: mantissa and exponent are canonical. *)
Definition f32_valid (x : float32) : Prop := valid_binary 24 128 x = true.

Definition f32_of_Z (z : Z) : float32 := binary_normalize 24 128 z 0 false.
Definition f32_zero : float32 := S754_zero false.
Definition f32_one : float32 := f32_of_Z 1.

Definition f32_mul : float32 -> float32 -> float32 := SFmul 24 128.
Definition f32_add : float32 -> float32 -> float32 := SFadd 24 128.
Definition f32_sub : float32 -> float32 -> float32 := SFsub 24 128.
Definition f32_div : float32 -> float32 -> float32 := SFdiv 24 128.
Definition f32_ltb : float32 -> float32 -> bool := SFltb.

Definition f32_is_nan (x : float32) : bool :=
  match x with S754_nan => true | _ => false end.

(** [std::clamp(v, lo, hi)]: [v < lo ? lo : hi < v ? hi : v]. *)
Definition std_clamp (v lo hi : float32) : float32 :=
  if f32_ltb v lo then lo else if f32_ltb hi v then hi else v.

(** [std::max(a, b)]: [a < b ? b : a]. *)
Definition std_fmax (a b : float32) : float32 := if f32_ltb a b then b else a.

(** [std::round]: to the nearest integer, halves away from zero. *)
Definition std_round (x : float32) : float32 :=
  match x with
  | S754_finite s m e =>
      if 0 <=? e then x
      else
        let q := (Z.pos m + 2 ^ (- e - 1)) / 2 ^ (- e) in
        binary_normalize 24 128 (if s then - q else q) 0 s
  | _ => x
  end.

(** [std::fmod]: the exact remainder of truncated division, with the sign of [x]. *)
Definition std_fmod (x y : float32) : float32 :=
  match x, y with
  | S754_nan, _ | _, S754_nan | S754_infinity _, _ | _, S754_zero _ => S754_nan
  | S754_zero _, _ | _, S754_infinity _ => x
  | S754_finite sx mx ex, S754_finite _ my ey =>
      let e := Z.min ex ey in
      let r := (Z.pos mx * 2 ^ (ex - e)) mod (Z.pos my * 2 ^ (ey - e)) in
      binary_normalize 24 128 (if sx then - r else r) e sx
  end.

(** The truncation of a finite value towards zero. *)
Definition f32_trunc (x : float32) : option Z :=
  match x with
  | S754_zero _ => Some 0
  | S754_finite s m e =>
      let q := if 0 <=? e then Z.pos m * 2 ^ e else Z.pos m / 2 ^ (- e) in
      Some (if s then - q else q)
  | _ => None
  end.

(** [static_cast<uintN_t>(x)]: undefined ([None]) when the truncated value does not fit. *)
Definition f32_to_unsigned (w : Z) (x : float32) : option Z :=
  match f32_trunc x with
  | Some z => if bool_decide (in_unsigned w z) then Some z else None
  | None => None
  end.

(** [static_cast<int>(x)]. *)
Definition f32_to_int (x : float32) : option Z :=
  match f32_trunc x with
  | Some z => if bool_decide (in_signed 32 z) then Some z else None
  | None => None
  end.

(** ** Rounding never passes an integer bound *)

Lemma digits2_pos_bounds p :
  2 ^ (Z.pos (digits2_pos p) - 1) <= Z.pos p < 2 ^ Z.pos (digits2_pos p).
Proof.
  induction p as [p IH|p IH|]; simpl digits2_pos; [| |by split].
  all: rewrite Pos2Z.inj_succ; replace (Z.succ (Z.pos (digits2_pos p)) - 1)
    with (Z.succ (Z.pos (digits2_pos p) - 1)) by lia.
  all: rewrite !Z.pow_succ_r by lia; lia.
Qed.

Lemma Zdigits2_le z b : 0 <= b -> 0 <= z < 2 ^ b -> Zdigits2 z <= b.
Proof.
  intros Hb Hz. destruct z as [|p|p]; simpl; [done| |lia].
  pose proof (digits2_pos_bounds p) as [Hl _].
  destruct (Z.le_gt_cases (Z.pos (digits2_pos p)) b); [done|].
  assert (2 ^ b <= 2 ^ (Z.pos (digits2_pos p) - 1)) by (apply Z.pow_le_mono_r; lia). lia.
Qed.

(** A shift record stands for a value in [[shr_m, shr_m + 1)], and for exactly
    [shr_m] when its two flag bits are clear. *)
Definition shr_rem (r : shr_record) : Z := if shr_r r || shr_s r then 1 else 0.

Lemma shr_rem_01 r : shr_rem r = 0 \/ shr_rem r = 1.
Proof. unfold shr_rem. destruct (_ || _); auto. Qed.

Lemma shr_1_spec r :
  0 <= shr_m r ->
  0 <= shr_m (shr_1 r) /\ 2 * shr_m (shr_1 r) + shr_rem (shr_1 r) <= shr_m r + shr_rem r /\
  2 * shr_m (shr_1 r) <= shr_m r.
Proof.
  destruct r as [m rr ss]. simpl. intros Hm. unfold shr_rem.
  destruct m as [|[p|p|]|]; simpl; destruct rr, ss; simpl; lia.
Qed.

Lemma iter_pos_swap {A} (f : A -> A) n x : iter_pos f n (f x) = f (iter_pos f n x).
Proof. revert x. induction n as [n IH|n IH|]; intros x; simpl; by rewrite ?IH. Qed.

Lemma iter_pos_S {A} (f : A -> A) n x : iter_pos f (Pos.succ n) x = iter_pos f n (f x).
Proof.
  revert x. induction n as [n IH|n IH|]; intros x; simpl; [|done|done].
  by rewrite !IH, !iter_pos_swap.
Qed.

Lemma iter_shr_spec n r :
  0 <= shr_m r ->
  0 <= shr_m (iter_pos shr_1 n r) /\
  2 ^ Z.pos n * shr_m (iter_pos shr_1 n r) + shr_rem (iter_pos shr_1 n r) <= shr_m r + shr_rem r /\
  2 ^ Z.pos n * shr_m (iter_pos shr_1 n r) <= shr_m r.
Proof.
  revert r. induction n as [|n IH] using Pos.peano_ind; intros r Hr.
  - pose proof (shr_1_spec r Hr) as (?&?&?). change (2 ^ 1) with 2. simpl. lia.
  - rewrite iter_pos_S. pose proof (shr_1_spec r Hr) as (H0&H1&H2).
    destruct (IH _ H0) as (H3&H4&H5).
    rewrite Pos2Z.inj_succ, Z.pow_succ_r by lia.
    set (x := 2 ^ Z.pos n * shr_m _) in *.
    replace (2 * 2 ^ Z.pos n * shr_m (iter_pos shr_1 n (shr_1 r))) with (2 * x) by (unfold x; ring).
    pose proof (shr_rem_01 (iter_pos shr_1 n (shr_1 r))).
    pose proof (shr_rem_01 (shr_1 r)). lia.
Qed.

Lemma shr_rem_of_loc m l :
  shr_m (shr_record_of_loc m l) = m /\
  shr_rem (shr_record_of_loc m l) = (if l is loc_Exact then 0 else 1).
Proof. by destruct l as [|[]]. Qed.

Lemma round_nearest_even_le r :
  shr_m r <= round_nearest_even (shr_m r) (loc_of_shr_record r) <= shr_m r + shr_rem r.
Proof.
  destruct r as [m rr ss]. unfold shr_rem. destruct rr, ss; simpl; try lia.
  destruct (Z.even m); lia.
Qed.

(** The location's own remainder. *)
Definition loc_rem (l : location) : Z := match l with loc_Exact => 0 | _ => 1 end.

Lemma shr_fexp_spec m e l r e' :
  0 <= m -> shr_fexp 24 128 m e l = (r, e') ->
  e' = Z.max e (fexp 24 128 (Zdigits2 m + e)) /\
  0 <= shr_m r /\
  2 ^ (e' - e) * shr_m r + shr_rem r <= m + loc_rem l /\
  2 ^ (e' - e) * shr_m r <= m.
Proof.
  intros Hm. unfold shr_fexp, shr.
  destruct (shr_rem_of_loc m l) as [Hml Hrl].
  assert (shr_rem (shr_record_of_loc m l) = loc_rem l) as Hrem by (rewrite Hrl; by destruct l).
  set (d := fexp 24 128 (Zdigits2 m + e) - e).
  destruct d as [|n|n] eqn:Hd; intros [= <- <-].
  - replace (e - e) with 0 by lia. rewrite Hml, Hrem. simpl. lia.
  - replace (e + Z.pos n - e) with (Z.pos n) by lia.
    destruct (iter_shr_spec n (shr_record_of_loc m l)) as (?&?&?); [by rewrite Hml|].
    rewrite Hml, Hrem in *. repeat split; try done. lia.
  - replace (e - e) with 0 by lia. rewrite Hml, Hrem. simpl. lia.
Qed.

(** [x] has sign [s] (or is zero) and magnitude at most the integer [K]. *)
Definition f32_within (s : bool) (K : Z) (x : float32) : Prop :=
  match x with
  | S754_zero _ => True
  | S754_finite s' m e => s' = s /\ e <= 0 /\ Z.pos m <= K * 2 ^ (- e)
  | _ => False
  end.

Lemma fexp_le_0 K m e :
  0 < K < 2 ^ 24 -> e <= 0 -> 0 <= m <= K * 2 ^ (- e) ->
  fexp 24 128 (Zdigits2 m + e) <= 0.
Proof.
  intros HK He Hm. unfold fexp, emin.
  assert (Zdigits2 m <= 24 - e); [|lia].
  apply Zdigits2_le; [lia|]. split; [lia|].
  replace (24 - e) with (24 + - e) by lia. rewrite Z.pow_add_r by lia. nia.
Qed.

Lemma scale_pow K e e' : e <= e' <= 0 -> K * 2 ^ (- e) = 2 ^ (e' - e) * (K * 2 ^ (- e')).
Proof.
  intros He. replace (- e) with ((e' - e) + - e') by lia. rewrite Z.pow_add_r by lia. ring.
Qed.

Lemma round_aux_within K s m e l :
  0 < K < 2 ^ 24 -> e <= 0 -> 0 <= m -> m + loc_rem l <= K * 2 ^ (- e) ->
  f32_within s K (binary_round_aux 24 128 s m e l).
Proof.
  intros HK He Hm Hle. unfold binary_round_aux.
  assert (0 <= loc_rem l) by (destruct l; simpl; lia).
  destruct (shr_fexp 24 128 m e l) as [r1 e1] eqn:E1.
  apply shr_fexp_spec in E1 as (-> & Hr1 & Hc1 & _); [|done].
  pose proof (fexp_le_0 K m e HK He ltac:(lia)).
  set (e1 := Z.max e (fexp 24 128 (Zdigits2 m + e))) in *.
  pose proof (round_nearest_even_le r1) as [Hlo Hhi].
  set (m2 := round_nearest_even _ _) in *.
  assert (m2 <= K * 2 ^ (- e1)) as Hm2.
  { rewrite (scale_pow K e e1) in Hle by lia.
    assert (0 < 2 ^ (e1 - e)) by (apply Z.pow_pos_nonneg; lia).
    pose proof (shr_rem_01 r1). nia. }
  destruct (shr_fexp 24 128 m2 e1 loc_Exact) as [r3 e3] eqn:E3.
  apply shr_fexp_spec in E3 as (-> & Hr3 & _ & Hc3); [|lia].
  pose proof (fexp_le_0 K m2 e1 HK ltac:(lia) ltac:(lia)).
  set (e3 := Z.max e1 (fexp 24 128 (Zdigits2 m2 + e1))) in *.
  destruct (shr_m r3) as [|p|p] eqn:Em; [done| |lia].
  assert (Z.leb e3 (128 - 24) = true) as -> by lia.
  split; [done|]. split; [lia|].
  rewrite (scale_pow K e1 e3) in Hm2 by lia.
  assert (0 < 2 ^ (e3 - e1)) by (apply Z.pow_pos_nonneg; lia). nia.
Qed.

(** ** The operations of the quantisers *)

Lemma iter_xO_pow d m : Z.pos (Pos.iter xO m d) = Z.pos m * 2 ^ Z.pos d.
Proof.
  induction d as [|d IH] using Pos.peano_ind; [rewrite Z.pow_1_r; simpl; lia|].
  rewrite Pos.iter_succ, Pos2Z.inj_succ, Z.pow_succ_r by lia.
  change (Z.pos (xO (Pos.iter xO m d))) with (2 * Z.pos (Pos.iter xO m d)). rewrite IH. ring.
Qed.

Lemma shl_align_spec m e e' mz ez :
  shl_align m e e' = (mz, ez) ->
  ez = Z.min e e' /\ Z.pos mz = Z.pos m * 2 ^ (e - ez).
Proof.
  unfold shl_align. destruct (e' - e) as [|d|d] eqn:Hd; intros [= <- <-].
  - split; [lia|]. replace (e - e) with 0 by lia. simpl. lia.
  - split; [lia|]. replace (e - e) with 0 by lia. simpl. lia.
  - split; [lia|]. rewrite iter_xO_pow. f_equal. f_equal. lia.
Qed.

Lemma binary_round_within K s m e :
  0 < K < 2 ^ 24 -> e <= 0 -> Z.pos m <= K * 2 ^ (- e) ->
  f32_within s K (binary_round 24 128 s m e).
Proof.
  intros HK He Hm. unfold binary_round.
  destruct (shl_align _ _ _) as [mz ez] eqn:E. apply shl_align_spec in E as [Hez Hmz].
  assert (ez <= e) by lia. clear Hez.
  apply round_aux_within; [done|lia|lia|]. simpl. rewrite Hmz.
  rewrite (scale_pow K ez e) by lia.
  assert (0 < 2 ^ (e - ez)) by (apply Z.pow_pos_nonneg; lia). nia.
Qed.

Lemma normalize_within K z e sz :
  0 < K < 2 ^ 24 -> e <= 0 -> Z.abs z <= K * 2 ^ (- e) ->
  f32_within (z <? 0) K (binary_normalize 24 128 z e sz).
Proof.
  intros HK He Hz. destruct z as [|p|p]; [done| |];
    apply binary_round_within; try done; lia.
Qed.

(** A positive finite value that is not above the integer [K]. *)
Lemma f32_valid_mantissa s m e :
  f32_valid (S754_finite s m e) -> Z.pos m < 2 ^ 24 /\ -149 <= e.
Proof.
  unfold f32_valid, valid_binary, bounded, canonical_mantissa. intros H. bool_crush.
  unfold fexp, emin in *. pose proof (digits2_pos_bounds m) as [_ Hm].
  assert (2 ^ Z.pos (digits2_pos m) <= 2 ^ 24) by (apply Z.pow_le_mono_r; lia). lia.
Qed.

Lemma not_one_ltb_within s m e :
  f32_valid (S754_finite s m e) -> f32_ltb f32_one (S754_finite s m e) = false ->
  f32_ltb (S754_finite s m e) f32_zero = false ->
  f32_within false 1 (S754_finite s m e).
Proof.
  intros Hv H1 H0. pose proof (f32_valid_mantissa _ _ _ Hv) as [Hm He].
  destruct s; [done|]. cbv [f32_ltb SFltb] in H1.
  change (SFcompare f32_one (S754_finite false m e)) with
    (Some (match Z.compare (-23) e with
           | Lt => Lt | Gt => Gt | Eq => Pos.compare_cont Eq 8388608 m end)) in H1.
  simpl. split; [done|].
  destruct (Z.compare_spec (-23) e) as [<-|Hlt|Hgt]; [|done|].
  - split; [lia|]. change (Pos.compare_cont Eq 8388608 m) with (Pos.compare 8388608 m) in H1.
    assert (~ (8388608 < m)%positive) as Hn.
    { intros Hlt%Pos.compare_lt_iff. rewrite Hlt in H1. discriminate H1. }
    clear H1 H0 Hv. lia.
  - split; [lia|]. assert (2 ^ 24 <= 2 ^ (- e)) by (apply Z.pow_le_mono_r; lia). lia.
Qed.

Lemma clamp_unit_within v :
  f32_valid v -> f32_is_nan v = false -> f32_within false 1 (std_clamp v f32_zero f32_one).
Proof.
  intros Hv Hn. unfold std_clamp.
  destruct (f32_ltb v f32_zero) eqn:H0; [done|].
  destruct (f32_ltb f32_one v) eqn:H1.
  { vm_compute. repeat split; congruence. }
  destruct v as [s|[]| |s m e]; try done. by apply not_one_ltb_within.
Qed.

Lemma f32_mul_within K s m e x :
  0 < K < 2 ^ 24 -> e <= 0 -> Z.pos m = K * 2 ^ (- e) ->
  f32_within s 1 x -> f32_within s K (f32_mul x (S754_finite false m e)).
Proof.
  intros HK He Hm Hx. unfold f32_mul. destruct x as [z|z| |s' m' e']; try done; simpl.
  destruct Hx as (-> & He' & Hm'). rewrite xorb_false_r.
  apply round_aux_within; [done|lia|lia|]. simpl.
  replace (- (e' + e)) with (- e' + - e) by lia. rewrite Z.pow_add_r by lia. nia.
Qed.

Lemma div_eucl_div_mod a b : Z.div_eucl a b = (a / b, a mod b).
Proof. unfold Z.div, Z.modulo. by destruct (Z.div_eucl a b). Qed.

Lemma new_location_rem b r : loc_rem (new_location b r) = if r =? 0 then 0 else 1.
Proof.
  unfold new_location, new_location_even, new_location_odd.
  destruct (Z.even b), (Z.eqb_spec r 0); done.
Qed.

Lemma f32_div_within K s m e x :
  0 < K -> -149 <= e <= 0 -> Z.pos m = K * 2 ^ (- e) ->
  f32_within s K x -> f32_within s 1 (f32_div x (S754_finite false m e)).
Proof.
  intros HK He Hm Hx. unfold f32_div. destruct x as [z|z| |s' m' e']; try done.
  destruct Hx as (-> & He' & Hm'). cbn [SFdiv].
  unfold SFdiv_core_binary.
  set (f := fexp _ _ _). set (e1 := Z.min f (e' - e)).
  assert (exists q r, (let m1 := match e' - e - e1 with
            | 0 => Z.pos m' | Z.pos _ => Z.shiftl (Z.pos m') (e' - e - e1) | _ => 0 end in
          Z.div_eucl m1 (Z.pos m)) = (q, r) /\ 0 <= q /\ e1 <= 0 /\
          q + loc_rem (new_location (Z.pos m) r) <= 1 * 2 ^ (- e1)) as (q & r & E & Hq & He1 & Hb).
  { rewrite div_eucl_div_mod. eexists _, _. split; [done|].
    set (m1 := match e' - e - e1 with 0 => _ | Z.pos _ => _ | _ => _ end).
    assert (m1 = Z.pos m' * 2 ^ (e' - e - e1)) as ->.
    { unfold m1. assert (0 <= e' - e - e1) by lia.
      destruct (e' - e - e1) eqn:D; [simpl; lia|by rewrite Z.shiftl_mul_pow2|lia]. }
    assert (0 < 2 ^ (e' - e - e1)) by (apply Z.pow_pos_nonneg; lia).
    split; [apply Z.div_pos; lia|].
    assert (e1 <= 0) as He1.
    { unfold e1, f, fexp, emin. assert (Zdigits2 (Z.pos m') + e' <= Zdigits2 (Z.pos m) + e + 1); [|lia].
      assert (Zdigits2 (Z.pos m') <= Zdigits2 (Z.pos m) + e - e' + 1); [|lia].
      pose proof (digits2_pos_bounds m') as [Hl _]. pose proof (digits2_pos_bounds m) as [_ Hu].
      simpl Zdigits2. destruct (Z.le_gt_cases (Z.pos (digits2_pos m')) (Z.pos (digits2_pos m) + e - e' + 1)); [done|].
      exfalso.
      assert (Z.pos m' * 2 ^ (- e) <= Z.pos m * 2 ^ (- e')) as Hc by (rewrite Hm; nia).
      assert (2 ^ (Z.pos (digits2_pos m') - 1) * 2 ^ (- e) < 2 ^ Z.pos (digits2_pos m) * 2 ^ (- e')) as Hd.
      { assert (0 < 2 ^ (- e)) by (apply Z.pow_pos_nonneg; lia).
        assert (0 < 2 ^ (- e')) by (apply Z.pow_pos_nonneg; lia). nia. }
      rewrite <- !Z.pow_add_r in Hd by lia. apply Z.pow_lt_mono_r_iff in Hd; lia. }
    split; [done|]. rewrite new_location_rem.
    assert (Z.pos m' * 2 ^ (e' - e - e1) <= Z.pos m * 2 ^ (- e1)) as Hle.
    { replace (e' - e - e1) with ((e' - e - e1)) by lia. rewrite Hm.
      assert (2 ^ (- e') * 2 ^ (e' - e - e1) = 2 ^ (- e) * 2 ^ (- e1)) as Hp
        by (rewrite <- !Z.pow_add_r by lia; f_equal; lia).
      nia. }
    pose proof (Z.div_mod (Z.pos m' * 2 ^ (e' - e - e1)) (Z.pos m) ltac:(lia)).
    pose proof (Z.mod_pos_bound (Z.pos m' * 2 ^ (e' - e - e1)) (Z.pos m) ltac:(lia)).
    destruct (Z.eqb_spec ((Z.pos m' * 2 ^ (e' - e - e1)) mod Z.pos m) 0); nia. }
  cbv zeta in E |- *. rewrite E. cbv beta iota. rewrite xorb_false_r.
  by apply round_aux_within.
Qed.

(** ** Exactness on small integers, and rounding to an integer *)

Lemma digits2_iter_xO d m : digits2_pos (Pos.iter xO m d) = (digits2_pos m + d)%positive.
Proof.
  induction d as [|d IH] using Pos.peano_ind; [simpl; lia|].
  rewrite Pos.iter_succ. simpl. lia.
Qed.

Lemma shr_fexp_id m e :
  fexp 24 128 (Zdigits2 m + e) = e -> shr_fexp 24 128 m e loc_Exact = (Build_shr_record m false false, e).
Proof. intros H. unfold shr_fexp, shr. rewrite H. by rewrite Z.sub_diag. Qed.

(** A canonical mantissa survives rounding unchanged. *)
Lemma round_aux_id s p e :
  fexp 24 128 (Z.pos (digits2_pos p) + e) = e -> e <= 104 ->
  binary_round_aux 24 128 s (Z.pos p) e loc_Exact = S754_finite s p e.
Proof.
  intros Hf He. unfold binary_round_aux.
  rewrite (shr_fexp_id (Z.pos p) e Hf). cbn [shr_m loc_of_shr_record round_nearest_even].
  rewrite (shr_fexp_id (Z.pos p) e Hf). cbn [shr_m].
  by assert (Z.leb e (128 - 24) = true) as -> by lia.
Qed.

Lemma normalize_small_int q s :
  0 <= q < 2 ^ 24 -> f32_trunc (binary_normalize 24 128 q 0 s) = Some q.
Proof.
  intros Hq. destruct q as [|p|p]; [done| |lia]. simpl. unfold binary_round.
  destruct (shl_align _ _ _) as [mz ez] eqn:E.
  assert (Zdigits2 (Z.pos p) <= 24) as Hd by (by apply Zdigits2_le). simpl in Hd.
  assert (fexp 24 128 (Z.pos (digits2_pos p) + 0) = Z.pos (digits2_pos p) - 24) as Hf
    by (unfold fexp, emin; lia).
  rewrite Hf in E.
  assert (fexp 24 128 (Z.pos (digits2_pos mz) + ez) = ez /\
          Z.pos mz = Z.pos p * 2 ^ (- ez) /\ ez = Z.pos (digits2_pos p) - 24) as (Hc & Hmz & Hez).
  { pose proof (shl_align_spec _ _ _ _ _ E) as [Hez Hmz].
    unfold shl_align in E. split_and!; [| |lia].
    - unfold fexp, emin.
      destruct (Z.pos (digits2_pos p) - 24 - 0) as [|d|d] eqn:D; injection E as <- <-; [lia|lia|].
      rewrite digits2_iter_xO. lia.
    - rewrite Hmz. f_equal. }
  rewrite round_aux_id by (done || lia). cbn [f32_trunc].
  destruct (Z.leb_spec 0 ez).
  - replace ez with 0 in * by lia. rewrite Hmz. f_equal. simpl. lia.
  - rewrite Hmz, Z.div_mul by (apply Z.pow_nonzero; lia). done.
Qed.

Lemma round_to_unsigned w K x :
  0 < K < 2 ^ 24 -> K < 2 ^ w -> f32_within false K x ->
  exists q, f32_to_unsigned w (std_round x) = Some q /\ 0 <= q <= K.
Proof.
  intros HK Hw Hx. destruct x as [z|z| |s m e]; try done; simpl std_round.
  { exists 0. split; [|lia]. unfold f32_to_unsigned. simpl.
    by rewrite bool_decide_true by (unfold in_unsigned; lia). }
  destruct Hx as (-> & He & Hm).
  assert (exists q, f32_trunc (std_round (S754_finite false m e)) = Some q /\ 0 <= q <= K)
    as (q & Hq & Hb).
  { simpl. destruct (Z.leb_spec 0 e).
    - assert (e = 0) as -> by lia. exists (Z.pos m). simpl in *. split; [f_equal|]; lia.
    - set (q := (Z.pos m + 2 ^ (- e - 1)) / 2 ^ (- e)).
      assert (2 ^ (- e) = 2 * 2 ^ (- e - 1)) as Hp.
      { rewrite <- Z.pow_succ_r by lia. f_equal. lia. }
      assert (0 < 2 ^ (- e - 1)) by (apply Z.pow_pos_nonneg; lia).
      assert (0 <= q <= K) as Hb.
      { unfold q. split; [apply Z.div_pos; lia|].
        apply Z.lt_succ_r, Z.div_lt_upper_bound; nia. }
      exists q. split; [|done]. apply normalize_small_int. lia. }
  exists q. simpl std_round in Hq. unfold f32_to_unsigned. rewrite Hq.
  by rewrite bool_decide_true by (unfold in_unsigned; lia).
Qed.

(** ** Angles: [std::fmod] by a positive integer [K] *)

Lemma f32_within_weaken s K K' x : 0 < K <= K' -> f32_within s K x -> f32_within s K' x.
Proof.
  intros HK. destruct x as [z|z| |s' m e]; try done. intros (-> & He & Hm).
  repeat split; [done|]. assert (0 < 2 ^ (- e)) by (apply Z.pow_pos_nonneg; lia). nia.
Qed.

Lemma fmod_within K m e x :
  0 < K < 2 ^ 24 -> e <= 0 -> Z.pos m = K * 2 ^ (- e) ->
  (exists s' m' e', x = S754_finite s' m' e') \/ (exists s', x = S754_zero s') ->
  exists s, f32_within s K (std_fmod x (S754_finite false m e)).
Proof.
  intros HK He Hm [(s' & m' & e' & ->)|(s' & ->)]; [|by exists false].
  simpl. eexists. apply normalize_within; [done|lia|].
  set (e1 := Z.min e' e).
  assert (0 < 2 ^ (e - e1)) by (apply Z.pow_pos_nonneg; lia).
  pose proof (Z.mod_pos_bound (Z.pos m' * 2 ^ (e' - e1)) (Z.pos m * 2 ^ (e - e1)) ltac:(lia)).
  rewrite (scale_pow K e1 e) by lia. destruct s'; nia.
Qed.

(** Adding [K] to a negative value above [-K] lands in [[0, K]]. *)
Lemma add_within K m e x :
  0 < K < 2 ^ 24 -> e <= 0 -> Z.pos m = K * 2 ^ (- e) ->
  f32_within true K x ->
  f32_within false K (f32_add x (S754_finite false m e)).
Proof.
  intros HK He Hm Hx. unfold f32_add. destruct x as [z|z| |s' m' e']; try done.
  { simpl. repeat split; lia. }
  destruct Hx as (-> & He' & Hm'). cbn [SFadd]. set (ez := Z.min e' e).
  destruct (shl_align m' e' ez) as [a ea] eqn:Ea. destruct (shl_align m e ez) as [b eb] eqn:Eb.
  apply shl_align_spec in Ea as [-> Ha]. apply shl_align_spec in Eb as [-> Hb].
  simpl fst. unfold cond_Zopp.
  replace (Z.min e' ez) with ez in Ha by lia. replace (Z.min e ez) with ez in Hb by lia.
  assert (Z.pos a <= K * 2 ^ (- ez)) as Ha'.
  { rewrite Ha, (scale_pow K ez e') by lia.
    assert (0 < 2 ^ (e' - ez)) by (apply Z.pow_pos_nonneg; lia). nia. }
  assert (Z.pos b = K * 2 ^ (- ez)) as Hb'.
  { rewrite Hb, (scale_pow K ez e) by lia. rewrite Hm. ring. }
  assert ((- Z.pos a + Z.pos b <? 0) = false) as <- by lia.
  apply normalize_within; lia.
Qed.

Lemma not_neg_within K s x :
  f32_within s K x -> f32_ltb x f32_zero = false -> f32_within false K x.
Proof. destruct x as [z|z| |[] m e]; try done. by intros (<- & ?) ?. Qed.

Lemma neg_within K s x :
  f32_within s K x -> f32_ltb x f32_zero = true -> f32_within true K x.
Proof. destruct x as [z|z| |[] m e]; try done. by intros (<- & ?) ?. Qed.

(** ** Products by an integer, converted to [int] *)

Lemma f32_mul_bounded K s x y :
  0 < K < 2 ^ 24 -> f32_within s 1 x -> f32_within false K y -> f32_within s K (f32_mul x y).
Proof.
  intros HK Hx Hy. unfold f32_mul. destruct x as [z|z| |s1 m1 e1]; try done; destruct y as [z'|z'| |s2 m2 e2]; try done; simpl.
  destruct Hx as (-> & He1 & Hm1), Hy as (-> & He2 & Hm2). rewrite xorb_false_r.
  apply round_aux_within; [done|lia|lia|]. simpl.
  replace (- (e1 + e2)) with (- e1 + - e2) by lia. rewrite Z.pow_add_r by lia.
  set (a := 2 ^ (- e1)) in *. set (b := 2 ^ (- e2)) in *.
  assert (Z.pos m1 * Z.pos m2 <= a * (K * b)) by (apply Z.mul_le_mono_nonneg; lia).
  rewrite ?Pos2Z.inj_mul. lia.
Qed.

Lemma within_to_int s K x : 0 < K < 2 ^ 31 -> f32_within s K x -> is_Some (f32_to_int x).
Proof.
  intros HK Hx. unfold f32_to_int. destruct x as [z|z| |s1 m e]; try done; cbn [f32_trunc].
  destruct Hx as (-> & He & Hm). set (q := if 0 <=? e then _ else _).
  assert (0 <= q <= K).
  { subst q. destruct (Z.leb_spec 0 e).
    - assert (e = 0) as -> by lia. lia.
    - assert (0 < 2 ^ (- e)) by (apply Z.pow_pos_nonneg; lia).
      split; [apply Z.div_pos; lia|]. apply Z.lt_succ_r, Z.div_lt_upper_bound; nia. }
  rewrite bool_decide_true; [by eexists|]. unfold in_signed. change (2 ^ (32 - 1)) with (2 ^ 31). destruct s; lia.
Qed.

Global Opaque f32_mul f32_add f32_sub f32_div.

(** ** [<] is a strict weak order on the numbers *)

(** A value's place on the line: class, exponent, mantissa, compared in this order. *)
Definition f32_key (x : float32) : Z * Z * Z :=
  match x with
  | S754_infinity true => (-2, 0, 0)
  | S754_finite true m e => (-1, - e, - Z.pos m)
  | S754_zero _ | S754_nan => (0, 0, 0)
  | S754_finite false m e => (1, e, Z.pos m)
  | S754_infinity false => (2, 0, 0)
  end.

Definition key3_lt (a b : Z * Z * Z) : Prop :=
  let '(a1, a2, a3) := a in let '(b1, b2, b3) := b in
  a1 < b1 \/ (a1 = b1 /\ (a2 < b2 \/ (a2 = b2 /\ a3 < b3))).

Lemma pos_compare_lt m n : Pos.compare_cont Eq m n = Lt <-> (Z.pos m < Z.pos n).
Proof. change (Pos.compare_cont Eq m n) with (Pos.compare m n). rewrite Pos.compare_lt_iff. lia. Qed.

Lemma pos_compare_gt m n : Pos.compare_cont Eq m n = Gt <-> (Z.pos n < Z.pos m).
Proof. change (Pos.compare_cont Eq m n) with (Pos.compare m n). rewrite Pos.compare_gt_iff. lia. Qed.

Lemma ltb_is_Lt x y : f32_ltb x y = true <-> SFcompare x y = Some Lt.
Proof. unfold f32_ltb, SFltb. by destruct (SFcompare x y) as [[]|]. Qed.

Lemma f32_ltb_key x y :
  f32_is_nan x = false -> f32_is_nan y = false ->
  f32_ltb x y = true <-> key3_lt (f32_key x) (f32_key y).
Proof.
  intros Hx Hy. rewrite ltb_is_Lt.
  destruct x as [sx|[]| |[] mx ex], y as [sy|[]| |[] my ey]; try done; simpl;
    try (split; intros; first [done|exfalso; lia|lia]);
    (destruct (Z.compare_spec ex ey) as [->|Hlt|Hgt];
     [destruct (Pos.compare_cont Eq mx my) eqn:E; simpl;
        [change (Pos.compare mx my = Eq) in E; apply Pos.compare_eq in E as ->
        |rewrite pos_compare_lt in E|rewrite pos_compare_gt in E]
     |..]; split; intros; first [done|lia|exfalso; lia]).
Qed.

Lemma key3_lt_trans a b c : key3_lt a b -> key3_lt b c -> key3_lt a c.
Proof. destruct a as [[??]?], b as [[??]?], c as [[??]?]. simpl. lia. Qed.

Lemma key3_not_lt_trans a b c : ~ key3_lt a b -> ~ key3_lt b c -> ~ key3_lt a c.
Proof. destruct a as [[??]?], b as [[??]?], c as [[??]?]. simpl. lia. Qed.

Lemma key3_lt_asym a b : key3_lt a b -> ~ key3_lt b a.
Proof. destruct a as [[??]?], b as [[??]?]. simpl. lia. Qed.

Lemma key3_lt_irrefl a : ~ key3_lt a a.
Proof. destruct a as [[??]?]. simpl. lia. Qed.

Lemma f32_ltb_nan x y : f32_is_nan x = true \/ f32_is_nan y = true -> f32_ltb x y = false.
Proof. intros [H|H]; [by destruct x|]. by destruct y, x as [|[]| |[]]. Qed.

(** The running maximum of a loop that starts at a number: NaNs are passed over. *)
Lemma fmax_fold (l : list float32) : forall a,
  f32_is_nan a = false ->
  let m := foldl std_fmax a l in
  f32_is_nan m = false /\ (m = a \/ m ∈ l) /\ f32_ltb m a = false /\ forall x, x ∈ l -> f32_ltb m x = false.
Proof.
  induction l as [|x l IH]; intros a Ha; simpl.
  { split_and!; auto; [|by intros ? ?%elem_of_nil].
    destruct (f32_ltb a a) eqn:E; [|done]. apply f32_ltb_key in E; [|done..]. by apply key3_lt_irrefl in E. }
  assert (f32_is_nan (std_fmax a x) = false /\ f32_ltb (std_fmax a x) a = false /\
          f32_ltb (std_fmax a x) x = false /\ (std_fmax a x = a \/ std_fmax a x = x)) as (Hn & H1 & H2 & H3).
  { unfold std_fmax. destruct (f32_ltb a x) eqn:E.
    - destruct (f32_is_nan x) eqn:Hx; [by rewrite f32_ltb_nan in E by by right|].
      apply f32_ltb_key in E; [|done..]. split_and!; auto.
      + apply not_true_is_false. rewrite f32_ltb_key by done. by apply key3_lt_asym.
      + apply not_true_is_false. rewrite f32_ltb_key by done. apply key3_lt_irrefl.
    - split_and!; auto.
      apply not_true_is_false. rewrite f32_ltb_key by done. apply key3_lt_irrefl. }
  destruct (IH _ Hn) as (Hm & Hin & Hma & Hall). set (m := foldl std_fmax (std_fmax a x) l) in *.
  assert (forall y, f32_ltb (std_fmax a x) y = false -> f32_ltb m y = false) as Htr.
  { intros y Hy. destruct (f32_is_nan y) eqn:Ey; [by apply f32_ltb_nan; right|].
    apply not_true_is_false. rewrite f32_ltb_key by done.
    apply (key3_not_lt_trans _ (f32_key (std_fmax a x))); rewrite <- f32_ltb_key by done;
      [by rewrite Hma|by rewrite Hy]. }
  split_and!; [done| |by apply Htr|].
  - destruct Hin as [->|Hin]; [destruct H3 as [->| ->]; [by left|right; constructor]|right; by constructor].
  - intros y [->|Hy]%elem_of_cons; [by apply Htr|by apply Hall].
Qed.
