(* ===== verification/Messages.v ===== *)
(** * The data the components exchange

    The protobuf messages of [third_party/protocol/protobufs/media-agent], the
    stream types of [pipeline/StreamTypes.h], [common/DmaImage.h] and
    [stream/Utils.h], and the parts of FFmpeg's [AVPacket] the agent reads.
    A [float] field is a [float32]; a [shared_ptr] to an object that is never
    written after it is shared is the [option] of its value. *)
From S2P Require Import Prelude Float32.

(** ** Protobuf messages (proto3: an unset scalar is zero, an unset string empty) *)

Record Box := mkBox {
  box_cx : float32; box_cy : float32; box_width : float32; box_height : float32;
  box_angle : float32;
}.
#[export] Instance Box_eq_dec : EqDecision Box.
Proof. solve_decision. Defined.
Definition Box_default : Box := mkBox f32_zero f32_zero f32_zero f32_zero f32_zero.

Record DetectionObject := mkDetectionObject {
  do_object_id : Z;                (* uint32 *)
  do_class_id : Z;                 (* uint32 *)
  do_class_name : string;
  do_confidence : float32;
  do_bbox_field : option Box;
}.
#[export] Instance DetectionObject_eq_dec : EqDecision DetectionObject.
Proof. solve_decision. Defined.
(** The accessor [bbox()]: the default instance when the field is unset. *)
Definition do_bbox (o : DetectionObject) : Box := default Box_default (do_bbox_field o).

Record Point2D := mkPoint2D { pt_x : float32; pt_y : float32 }.
#[export] Instance Point2D_eq_dec : EqDecision Point2D.
Proof. solve_decision. Defined.

Inductive RoiShape :=
| RoiRect (b : Box)
| RoiPoly (points : list Point2D).
#[export] Instance RoiShape_eq_dec : EqDecision RoiShape.
Proof. solve_decision. Defined.

Record RoiArea := mkRoiArea {
  roi_enabled : bool; roi_mode : Z; roi_shape : option RoiShape;
}.
#[export] Instance RoiArea_eq_dec : EqDecision RoiArea.
Proof. solve_decision. Defined.

Record AlgorithmConfig := mkAlgorithmConfig {
  ac_algorithm_id : string;
  ac_model_path : string;
  ac_threshold : float32;
  ac_alarm_level : Z;              (* int32 *)
  ac_start_date : Z;               (* int64, seconds *)
  ac_end_date : Z;                 (* int64, seconds *)
  ac_rois : list RoiArea;
}.
#[export] Instance AlgorithmConfig_eq_dec : EqDecision AlgorithmConfig.
Proof. solve_decision. Defined.
Definition AlgorithmConfig_default : AlgorithmConfig :=
  mkAlgorithmConfig "" "" f32_zero 0 0 0 [].

Record TrackerConfig := mkTrackerConfig {
  tc_enabled : bool;
  tc_tracker_type : string;
  tc_min_thresh : float32;
  tc_high_thresh : float32;
  tc_max_iou_distance : float32;
  tc_high_thresh_person : float32;
  tc_high_thresh_motorbike : float32;
  tc_max_age : Z;
  tc_n_init : Z;
}.
#[export] Instance TrackerConfig_eq_dec : EqDecision TrackerConfig.
Proof. solve_decision. Defined.
Definition TrackerConfig_default : TrackerConfig :=
  mkTrackerConfig false "" f32_zero f32_zero f32_zero f32_zero f32_zero 0 0.

Record StreamConfig := mkStreamConfig {
  sc_enabled : bool;
  sc_stream_id : string;
  sc_rtsp_url : string;
  sc_new_rtsp_url : string;
  sc_reconnect_interval_s : Z;     (* int32 *)
  sc_alarm_snapshot_dir : string;
  sc_alarm_record_dir : string;
  sc_alarm_record_duration_s : Z;  (* int32 *)
  sc_alarm_dedup_interval_s : Z;   (* int32 *)
  sc_algorithms : list AlgorithmConfig;
  sc_tracker_field : option TrackerConfig;
}.
#[export] Instance StreamConfig_eq_dec : EqDecision StreamConfig.
Proof. solve_decision. Defined.
Definition StreamConfig_default : StreamConfig :=
  mkStreamConfig false "" "" "" 0 "" "" 0 0 [] None.
(** [has_tracker()] and [tracker()]. *)
Definition sc_has_tracker (c : StreamConfig) : bool :=
  match sc_tracker_field c with Some _ => true | None => false end.
Definition sc_tracker (c : StreamConfig) : TrackerConfig :=
  default TrackerConfig_default (sc_tracker_field c).

Record AgentConfig := mkAgentConfig {
  agc_agent_id : string;
  agc_config_id : Z;               (* int32 *)
  agc_streams : list StreamConfig;
}.

Record AlarmInfo := mkAlarmInfo {
  ai_alarm_id : string; ai_stream_id : string; ai_timestamp_ms : Z;
  ai_algorithm_id : string; ai_level : Z; ai_confidence : float32;
  ai_target : list DetectionObject; ai_description : string;
  ai_snapshot_name : string; ai_record_name : string;
}.

Record HeartBeat := mkHeartBeat { hb_agent_id : string; hb_uptime_s : Z; hb_stream_count : Z }.

Record ConfigAck := mkConfigAck { ack_agent_id : string; ack_success : bool; ack_message : string }.

(** The [oneof body] of an envelope; [DetectionFrame] is declared by the protocol and never built
    or read by the agent, so only its presence is kept. *)
Inductive EnvelopeBody :=
| BodyHeartbeat (h : HeartBeat)
| BodyConfig (c : AgentConfig)
| BodyConfigAck (a : ConfigAck)
| BodyDetection
| BodyAlarm (a : AlarmInfo).

(** [version] and [type] are open proto3 enums, so any [int32] can arrive. *)
Record Envelope := mkEnvelope {
  env_version : Z; env_type : Z; env_seq : Z; env_body : option EnvelopeBody;
}.

Definition PROTO_VERSION_CURRENT : Z := 10700.
Definition MSG_HEARTBEAT : Z := 1.
Definition MSG_CONFIG : Z := 2.
Definition MSG_CONFIG_ACK : Z := 3.
Definition MSG_ALARM : Z := 5.

(** ** FFmpeg and MPP data the agent reads *)

(** [AV_NOPTS_VALUE]. *)
Definition AV_NOPTS_VALUE : Z := - 2 ^ 63.
Definition AV_PKT_FLAG_KEY : Z := 1.

(** The codec identifiers the code names; every other one is [AV_CODEC_ID_OTHER]. *)
Inductive AVCodecID :=
| AV_CODEC_ID_NONE | AV_CODEC_ID_H264 | AV_CODEC_ID_HEVC | AV_CODEC_ID_VP8 | AV_CODEC_ID_VP9
| AV_CODEC_ID_OTHER (n : Z).
#[export] Instance AVCodecID_eq_dec : EqDecision AVCodecID.
Proof. solve_decision. Defined.

(** [MppCodingType] values (third_party/mpp/include/rockchip/rk_type.h). *)
Definition MPP_VIDEO_CodingUnused : Z := 0.
Definition MPP_VIDEO_CodingAVC : Z := 7.
Definition MPP_VIDEO_CodingVP8 : Z := 9.
Definition MPP_VIDEO_CodingVP9 : Z := 10.
Definition MPP_VIDEO_CodingHEVC : Z := 16777220.

Record AVRational := mkAVRational { av_num : Z; av_den : Z }.
#[export] Instance AVRational_eq_dec : EqDecision AVRational.
Proof. solve_decision. Defined.

(** [data] is [None] for a null pointer; [size] is the length of the data. *)
Record AVPacket := mkAVPacket {
  pkt_data : option (list Z);
  pkt_stream_index : Z;
  pkt_pts : Z;
  pkt_dts : Z;
  pkt_duration : Z;
  pkt_flags : Z;
  pkt_pos : Z;
}.
Definition pkt_size (p : AVPacket) : Z :=
  match pkt_data p with Some d => Z.of_nat (length d) | None => 0 end.

(** ** pipeline/StreamTypes.h and common/DmaImage.h *)

Inductive MediaType := Video | Audio.
#[export] Instance MediaType_eq_dec : EqDecision MediaType.
Proof. solve_decision. Defined.

Inductive InferState := Idle | Selected | Running | Done | Dropped.
#[export] Instance InferState_eq_dec : EqDecision InferState.
Proof. solve_decision. Defined.

Record DmaImage := mkDmaImage {
  img_fd : Z;
  img_virt_addr : option Z;        (* None: nullptr *)
  img_size : Z;
  img_width : Z;
  img_height : Z;
  img_width_stride : Z;
  img_height_stride : Z;
  img_format : Z;                  (* image_format_t *)
}.

Record EncodedPacket := mkEncodedPacket {
  ep_media_type : MediaType;
  ep_packet : option AVPacket;
  ep_stream_index : Z;
  ep_pts : Z;
  ep_dts : Z;
  ep_duration : Z;
  ep_timestamp_ms : Z;
  ep_is_keyframe : bool;
  ep_frame_id : Z;
  ep_enqueue_mono_ms : Z;
}.

Record FrameBundle := mkFrameBundle {
  fb_stream_id : string;
  fb_frame_id : Z;
  fb_pts : Z;
  fb_dts : Z;
  fb_duration : Z;
  fb_timestamp_ms : Z;
  fb_is_keyframe : bool;
  fb_width : Z;
  fb_height : Z;
  fb_source_fps : Z;
  fb_source_bitrate : Z;
  fb_source_coding : Z;
  fb_source_codec_id : AVCodecID;
  fb_decoded_image : option DmaImage;
  fb_infer_state : InferState;
}.

Definition fb_set_infer_state (s : InferState) (f : FrameBundle) : FrameBundle :=
  mkFrameBundle (fb_stream_id f) (fb_frame_id f) (fb_pts f) (fb_dts f) (fb_duration f)
    (fb_timestamp_ms f) (fb_is_keyframe f) (fb_width f) (fb_height f) (fb_source_fps f)
    (fb_source_bitrate f) (fb_source_coding f) (fb_source_codec_id f) (fb_decoded_image f) s.

Record FrameInferenceResult := mkFrameInferenceResult {
  fr_stream_id : string;
  fr_frame_id : Z;
  fr_pts : Z;
  fr_algorithm_id : string;
  fr_objects : list DetectionObject;
  fr_alarm_objects : list DetectionObject;
  fr_infer_start_mono_ms : Z;
  fr_infer_done_mono_ms : Z;
  fr_expire_at_mono_ms : Z;
}.
Definition FrameInferenceResult_default : FrameInferenceResult :=
  mkFrameInferenceResult "" (-1) (-1) "" [] [] 0 0 0.

(** ** stream/Utils.h *)

Record RtspStreamSpec := mkRtspStreamSpec {
  sp_codec_id : AVCodecID;
  sp_time_base : AVRational;
  sp_fps : Z;
  sp_bit_rate : Z;
  sp_width : Z;
  sp_height : Z;
  sp_extradata : list Z;
  sp_media_type : MediaType;
  sp_input_stream_index : Z;
  sp_sample_rate : Z;
  sp_channels : Z;
}.
