(* ===== verification/CondVar.v ===== *)
(** * Waiting on a condition variable

    The waits of the program ([std::condition_variable], with a predicate over shared state)
    with what they can miss.  A thread that waits takes the mutex, looks at the predicate
    and goes to sleep: between the look and the sleep it holds the mutex, so a change made
    under the mutex cannot fall in between, but one made outside can.  A notification wakes
    only who is asleep when it is sent; it is sent after the change it tells of, with the
    mutex or without. *)
From S2P Require Import Prelude.

(** A notification still to be sent: to all sleepers or to one, with the mutex held or not. *)
Record notice := mkNotice { nt_all : bool; nt_locked : bool }.

(** Where a waiting thread is: away from the wait, looking at the predicate, decided to
    sleep, asleep, or woken and about to look again. *)
Inductive waiter :=
| Away
| Looking
| Decided
| Asleep
| Woken.

#[export] Instance waiter_eq_dec : EqDecision waiter.
Proof. solve_decision. Defined.

Definition holds_mutex (w : waiter) : bool := match w with Looking | Decided => true | _ => false end.
Definition mutex_free (ws : list waiter) : Prop := forall w, w ∈ ws -> holds_mutex w = false.
Definition wake (w : waiter) : waiter := match w with Asleep => Woken | _ => w end.

(** Whom a notification wakes. *)
Inductive woken : bool -> list waiter -> list waiter -> Prop :=
| woken_all ws : woken true ws (wake <$> ws)
| woken_one ws i : ws !! i = Some Asleep -> woken false ws (<[i := Woken]> ws)
| woken_nobody ws : Asleep ∉ ws -> woken false ws ws.

(** It will look at the predicate again. *)
Definition will_look (w : waiter) : bool := match w with Away | Looking | Woken => true | _ => false end.

Section CondVar.
Context {State : Type}.
(** The predicate; what a thread does before it gives up the mutex once the predicate holds;
    what it does while away; and the changes of the others: whether the mutex is held, and
    the notifications that follow. *)
Context (pred : State -> bool) (pass own : State -> State -> Prop) (change : bool -> list notice -> State -> State -> Prop).

Record cv_state := mkCv {
  cv_shared : State;
  cv_waiters : list waiter;
  cv_due : list notice;
}.

(** With [spurious], sleepers also wake up by a timeout or without reason. *)
Inductive cv_step (spurious : bool) : cv_state -> cv_state -> Prop :=
| cv_lock s ws due i w :
    ws !! i = Some w -> w = Away \/ w = Woken -> mutex_free ws ->
    cv_step spurious (mkCv s ws due) (mkCv s (<[i := Looking]> ws) due)
| cv_pass s s' ws due i :
    ws !! i = Some Looking -> pred s = true -> pass s s' ->
    cv_step spurious (mkCv s ws due) (mkCv s' (<[i := Away]> ws) due)
| cv_wait s ws due i :
    ws !! i = Some Looking -> pred s = false ->
    cv_step spurious (mkCv s ws due) (mkCv s (<[i := Decided]> ws) due)
| cv_sleep s ws due i :
    ws !! i = Some Decided -> cv_step spurious (mkCv s ws due) (mkCv s (<[i := Asleep]> ws) due)
| cv_own s s' ws due i :
    ws !! i = Some Away -> mutex_free ws -> own s s' ->
    cv_step spurious (mkCv s ws due) (mkCv s' ws due)
| cv_change s s' ws due locked notices :
    (locked = true -> mutex_free ws) -> change locked notices s s' ->
    cv_step spurious (mkCv s ws due) (mkCv s' ws (due ++ notices))
| cv_notify s ws ws' due n rest :
    due ≡ₚ n :: rest -> (nt_locked n = true -> mutex_free ws) -> woken (nt_all n) ws ws' ->
    cv_step spurious (mkCv s ws due) (mkCv s ws' rest)
| cv_wake s ws due i :
    spurious = true -> ws !! i = Some Asleep -> cv_step spurious (mkCv s ws due) (mkCv s (<[i := Woken]> ws) due).

(** [n] threads, none of them waiting yet. *)
Definition cv_start (n : nat) (s : State) : cv_state := mkCv s (replicate n Away) [].

(** The predicate holds, everyone is asleep and no notification is on its way. *)
Definition oversleeps (y : cv_state) : Prop :=
  pred (cv_shared y) = true /\ (forall w, w ∈ cv_waiters y -> w = Asleep) /\ cv_due y = [].

(** ** When no thread oversleeps *)

(** A change that makes the predicate true is followed by a notification; the change or the
    notification is made with the mutex held. *)
Definition heard (locked : bool) (notices : list notice) : Prop :=
  exists n, n ∈ notices /\ (locked = true \/ nt_locked n = true).

Context (inv : State -> Prop).

Record discipline : Prop := {
  di_pass s s' : inv s -> pass s s' -> inv s';
  di_own s s' : inv s -> own s s' -> inv s';
  di_change locked notices s s' : inv s -> change locked notices s s' -> inv s';
  di_heard locked notices s s' :
    inv s -> change locked notices s s' -> pred s = false -> pred s' = true -> heard locked notices;
}.

Record cv_inv (y : cv_state) : Prop := {
  ci_inv : inv (cv_shared y);
  ci_some : cv_waiters y <> [];
  ci_mutex i j w w' : cv_waiters y !! i = Some w -> cv_waiters y !! j = Some w' ->
                      holds_mutex w = true -> holds_mutex w' = true -> i = j;
  ci_awake : pred (cv_shared y) = true -> cv_due y <> [] \/ exists w, w ∈ cv_waiters y /\ will_look w = true;
  (** who decided to sleep on a predicate that holds by now will hear a notification that
      waits for the mutex *)
  ci_decided : pred (cv_shared y) = true -> Decided ∈ cv_waiters y -> exists n, n ∈ cv_due y /\ nt_locked n = true;
}.

Lemma mutex_insert ws i w :
  (forall k j v v', ws !! k = Some v -> ws !! j = Some v' -> holds_mutex v = true -> holds_mutex v' = true -> k = j) ->
  (holds_mutex w = true -> mutex_free ws \/ exists v, ws !! i = Some v /\ holds_mutex v = true) ->
  forall k j v v', <[i := w]> ws !! k = Some v -> <[i := w]> ws !! j = Some v' ->
    holds_mutex v = true -> holds_mutex v' = true -> k = j.
Proof.
  intros Hone Hw k j v v' Hk Hj Hv Hv'. apply list_lookup_insert_Some in Hk, Hj.
  assert (Hold : forall n u, ws !! n = Some u -> holds_mutex u = true -> holds_mutex w = true -> n = i).
  { intros n u Hn Hu [Hfree|(u' & Hi & Hu')]%Hw; [|by eapply Hone].
    by rewrite (Hfree u ltac:(by eapply list_elem_of_lookup_2)) in Hu. }
  destruct Hk as [(-> & -> & _)|[_ Hk]], Hj as [(Ej & -> & _)|[_ Hj]]; subst; try done.
  - symmetry. by eapply Hold.
  - by eapply Hold.
  - by eapply Hone.
Qed.

Lemma insert_in (ws : list waiter) i v w : ws !! i = Some v -> w ∈ <[i := w]> ws.
Proof. intros Hi. apply list_elem_of_insert. by eapply lookup_lt_Some. Qed.

Lemma in_insert (ws : list waiter) i u w : u ∈ <[i := w]> ws -> u = w \/ exists k, k <> i /\ ws !! k = Some u.
Proof.
  intros (k & Hk)%list_elem_of_lookup_1. apply list_lookup_insert_Some in Hk as [(-> & -> & _)|[Hne Hk]]; [by left|].
  right. by exists k.
Qed.

Lemma insert_not_nil (ws : list waiter) i w : ws <> [] -> <[i := w]> ws <> [].
Proof. by destruct ws, i. Qed.

(** The thread at [i], who held the mutex if anyone did, moves on to [w]. *)
Lemma cv_inv_move s s' ws due i v w :
  cv_inv (mkCv s ws due) -> inv s' -> ws !! i = Some v ->
  holds_mutex v = true \/ mutex_free ws ->
  (pred s' = true -> will_look w = true \/ w = Asleep /\ pred s = true /\ Decided ∈ ws) -> cv_inv (mkCv s' (<[i := w]> ws) due).
Proof.
  intros [_ H2 H3 _ H5] Hs Hi Hv Hw. cbn in *.
  assert (Hdecided : pred s' = true -> Decided ∉ <[i := w]> ws).
  { intros Hp [<-|(k & Hne & Hk)]%in_insert; [by destruct (Hw Hp) as [?|[? _]]|].
    destruct Hv as [Hv|Hfree].
    - by destruct Hne; eapply H3.
    - by specialize (Hfree Decided ltac:(by eapply list_elem_of_lookup_2)). }
  split; cbn; [done|by apply insert_not_nil| | |intros Hp Hin; by destruct (Hdecided Hp)].
  - apply mutex_insert; [done|]. intros _. destruct Hv as [Hv|Hfree]; [right; by exists v|by left].
  - intros Hp. destruct (Hw Hp) as [Hl|(-> & Hp0 & Hd)].
    + right. exists w. split; [by eapply insert_in|done].
    + left. destruct (H5 Hp0 Hd) as (n & Hn & _). intros ->. by apply elem_of_nil in Hn.
Qed.

Lemma woken_mutex all ws ws' i w :
  woken all ws ws' -> ws' !! i = Some w -> holds_mutex w = true -> ws !! i = Some w.
Proof.
  destruct 1 as [ws|ws k Hk|ws Hk]; [|rewrite list_lookup_insert_Some|done].
  - rewrite list_lookup_fmap. destruct (ws !! i) as [[]|]; cbn; by intros [= <-].
  - intros [(_ & <- & _)|[_ ?]]; done.
Qed.

(** A notification leaves somebody awake who was not just about to sleep. *)
Lemma woken_awake all ws ws' :
  woken all ws ws' -> ws <> [] -> Decided ∉ ws -> exists w, w ∈ ws' /\ will_look w = true.
Proof.
  intros Hw Hne Hd. destruct Hw as [ws|ws i Hi|ws Hno].
  - destruct ws as [|w ws]; [done|]. exists (wake w). split; [left|]. destruct w; try done. destruct Hd; left.
  - exists Woken. split; [by eapply insert_in|done].
  - destruct ws as [|w ws]; [done|]. exists w. split; [left|]. destruct w; try done; [destruct Hd|destruct Hno]; left.
Qed.

Lemma woken_decided all ws ws' : woken all ws ws' -> Decided ∈ ws' -> Decided ∈ ws.
Proof.
  intros Hw (i & Hi)%list_elem_of_lookup_1. eapply list_elem_of_lookup_2. by eapply woken_mutex.
Qed.

Lemma woken_some all ws ws' : woken all ws ws' -> ws <> [] -> ws' <> [].
Proof. destruct 1 as [[]| |]; [done|done|by intros; apply insert_not_nil|done]. Qed.

Lemma cv_inv_step spurious x y : discipline -> cv_step spurious x y -> cv_inv x -> cv_inv y.
Proof.
  intros Hd Hstep Hinv. pose proof Hinv as [H1 H2 H3 H4 H5].
  destruct Hstep as [s ws due i w Hi Hw Hfree|s s' ws due i Hi Hp Hpass|s ws due i Hi Hp|s ws due i Hi|s s' ws due i Hi Hfree Ho
    |s s' ws due locked notices Hfree Hc|s ws ws' due n rest Hdue Hfree Hw|s ws due i _ Hi]; cbn in *.
  - eapply cv_inv_move; [done|done|done|by right|by left].
  - eapply cv_inv_move; [done|by apply (di_pass Hd s)|done|by left|by left].
  - eapply cv_inv_move; [done|done|done|by left|congruence].
  - eapply cv_inv_move; [done|done|done|by left|]. intros Hp. right. split_and!; [done|done|by eapply list_elem_of_lookup_2].
  - split; cbn; [by apply (di_own Hd s)|done|done| |].
    + intros _. right. exists Away. split; [by eapply list_elem_of_lookup_2|done].
    + intros _ Hin. by specialize (Hfree Decided Hin).
  - split; cbn; [by eapply (di_change Hd)|done|done| |].
    + intros Hp. destruct (pred s) eqn:Hp0.
      * destruct (H4 eq_refl) as [?|?]; [left; by destruct due|by right].
      * left. destruct (di_heard Hd _ _ _ _ H1 Hc Hp0 Hp) as (n & Hn & _). destruct due, notices; try done. by apply elem_of_nil in Hn.
    + intros Hp Hin. destruct (pred s) eqn:Hp0.
      * destruct (H5 eq_refl Hin) as (n & Hn & ?). exists n. split; [apply elem_of_app; by left|done].
      * destruct (di_heard Hd _ _ _ _ H1 Hc Hp0 Hp) as (n & Hn & [Hl|Hl]).
        -- by specialize (Hfree Hl Decided Hin).
        -- exists n. split; [apply elem_of_app; by right|done].
  - assert (Hlocked : pred s = true -> Decided ∈ ws -> exists m, m ∈ rest /\ nt_locked m = true).
    { intros Hp Hin. destruct (H5 Hp Hin) as (m & Hm & Hl). rewrite Hdue in Hm. apply elem_of_cons in Hm as [->|?]; [|by exists m].
      by specialize (Hfree Hl Decided Hin). }
    split; cbn; [done|by eapply woken_some| | |].
    + intros k j w w' Hk Hj Hw1 Hw2. by eapply H3; eauto using woken_mutex.
    + intros Hp. destruct (decide (Decided ∈ ws)) as [Hin|Hin].
      * destruct (Hlocked Hp Hin) as (m & Hm & _). left. intros ->. by apply elem_of_nil in Hm.
      * right. by eapply woken_awake.
    + intros Hp Hin. apply Hlocked; [done|]. by eapply woken_decided.
  - split; cbn; [done|by apply insert_not_nil| | |].
    + by apply mutex_insert.
    + intros _. right. exists Woken. split; [by eapply insert_in|done].
    + intros Hp [?|(k & _ & Hk)]%in_insert; [done|]. apply H5; [done|by eapply list_elem_of_lookup_2].
Qed.

Lemma cv_inv_start n s : inv s -> (0 < n)%nat -> cv_inv (cv_start n s).
Proof.
  intros Hs Hn. assert (Haway : forall w, w ∈ replicate n Away -> w = Away) by (intros w; by rewrite elem_of_replicate; intros [? _]).
  split; cbn; [done|by destruct n; [lia|]| | |].
  - intros i j w w' Hi%list_elem_of_lookup_2 _. by rewrite (Haway w Hi).
  - intros _. right. exists Away. split; [|done]. apply elem_of_replicate. split; [done|lia].
  - intros _ Hin. by specialize (Haway _ Hin).
Qed.

(** When everyone is asleep a notification that is due can be sent at once and wakes one. *)
Lemma due_notice_wakes spurious y :
  cv_waiters y <> [] -> (forall w, w ∈ cv_waiters y -> w = Asleep) -> cv_due y <> [] ->
  exists z, cv_step spurious y z /\ cv_shared z = cv_shared y /\ Woken ∈ cv_waiters z.
Proof.
  destruct y as [s ws [|n rest]]; cbn; [done|]. intros Hne Hall _. destruct ws as [|w ws]; [done|].
  assert (w = Asleep) as -> by (apply Hall; left).
  assert (Hfree : mutex_free (Asleep :: ws)) by (intros w Hw; by rewrite (Hall w Hw)).
  destruct n as [[] l].
  - eexists. split; [by eapply cv_notify; [done|done|apply woken_all]|]. split; [done|]. cbn. left.
  - eexists. split; [by eapply cv_notify; [done|done|apply (woken_one _ 0)]|]. split; [done|]. cbn. left.
Qed.
(** Whenever the predicate holds, somebody is awake or can be woken at once by a
    notification that has been decided on. *)
Definition attended (y : cv_state) : Prop :=
  pred (cv_shared y) = true ->
  (exists w, w ∈ cv_waiters y /\ w <> Asleep) \/
  (exists z, cv_step false y z /\ cv_shared z = cv_shared y /\ Woken ∈ cv_waiters z).

Lemma always_attended spurious n s y :
  discipline -> inv s -> (0 < n)%nat -> rtc (cv_step spurious) (cv_start n s) y -> inv (cv_shared y) /\ attended y.
Proof.
  intros Hd Hs Hn Hrun. assert (Hinv : cv_inv y).
  { pose proof (cv_inv_start n s Hs Hn) as H0. clear Hs Hn. revert H0. induction Hrun as [x|x y z Hxy _ IH]; [done|].
    intros Hx. by apply IH, (cv_inv_step spurious x). }
  split; [by apply ci_inv|]. intros Hp. destruct (ci_awake y Hinv Hp) as [Hdue|(w & Hw & Hl)].
  - destruct (decide (Forall (fun w => w = Asleep) (cv_waiters y))) as [Hall|Hnot].
    + right. apply due_notice_wakes; [by apply ci_some|by apply Forall_forall|done].
    + left. apply not_Forall_Exists in Hnot; [|apply _]. by apply Exists_exists in Hnot.
  - left. exists w. split; [done|]. by intros ->.
Qed.

Lemma attended_not_overslept y : attended y -> ~ oversleeps y.
Proof.
  intros Ha (Hp & Hall & Hdue). destruct (Ha Hp) as [(w & Hw & Hne)|(z & Hz & _ & Hw)]; [by apply Hne, Hall|].
  assert (Hno : forall v, v ∈ cv_waiters y -> holds_mutex v = false /\ v <> Away /\ v <> Woken) by (intros v Hv; by rewrite (Hall v Hv)).
  destruct y as [s ws due]. cbn in *. subst due.
  inversion Hz; subst; try match goal with H : ws !! _ = Some _ |- _ => apply list_elem_of_lookup_2, Hno in H; naive_solver end; cbn in *.
  - by specialize (Hall _ Hw).
  - match goal with H : [] ≡ₚ _ |- _ => by apply Permutation_nil_cons in H end.
Qed.
End CondVar.

Arguments mkCv {State}.
Arguments cv_shared {State}.
Arguments cv_waiters {State}.
Arguments cv_due {State}.
