(* ===== verification/Locks.v ===== *)
(** * Mutexes and joins

    Threads that take mutexes one inside the other and wait for each other's end
    ([std::lock_guard], [std::unique_lock], [std::thread::join]), and start each other.  If
    every thread takes mutexes of ascending rank and waits, holding none, only for threads of
    a higher level, then no run of them gets stuck before all that were started have ended.  A thread is the list of what it
    still has to do with mutexes and threads; what it computes in between does not matter
    here. *)
From S2P Require Import Prelude.
From stdpp Require Import relations.

Section Locks.
Context {M T : Type} `{EqDecision M, EqDecision T}.

Inductive act :=
| Lock (m : M)
| Unlock (m : M)
| StartThread (t : T)
| JoinThread (t : T).

(** A thread's name, whether it has been started, the mutexes it holds (the last one first) and its remaining acts. *)
Record thread := mkThread {
  th_name : T;
  th_started : bool;
  th_held : list M;
  th_script : list act;
}.

Definition free (m : M) (ts : list thread) : Prop := forall t, t ∈ ts -> m ∉ th_held t.
(** Joining a thread that was never started returns at once: it is not joinable. *)
Definition ended (n : T) (ts : list thread) : Prop :=
  forall t, t ∈ ts -> th_name t = n -> th_started t = true -> th_script t = [].
Definition all_ended (ts : list thread) : Prop := forall t, t ∈ ts -> th_started t = true -> th_script t = [].

Definition start_thread (n : T) (t : thread) : thread :=
  mkThread (th_name t) (th_started t || bool_decide (th_name t = n)) (th_held t) (th_script t).

Inductive thread_step : list thread -> list thread -> Prop :=
| step_lock ts i n held m k :
    ts !! i = Some (mkThread n true held (Lock m :: k)) -> free m ts ->
    thread_step ts (<[i := mkThread n true (m :: held) k]> ts)
| step_unlock ts i n held m k :
    ts !! i = Some (mkThread n true (m :: held) (Unlock m :: k)) -> thread_step ts (<[i := mkThread n true held k]> ts)
| step_start ts i n held t k :
    ts !! i = Some (mkThread n true held (StartThread t :: k)) ->
    thread_step ts (start_thread t <$> <[i := mkThread n true held k]> ts)
| step_join ts i n held t k :
    ts !! i = Some (mkThread n true held (JoinThread t :: k)) -> ended t ts ->
    thread_step ts (<[i := mkThread n true held k]> ts).

(** The threads with what they will do; [first] runs, the others have to be started. *)
Definition launched (first : T) (ts : list (T * list act)) : list thread :=
  (fun e => mkThread e.1 (bool_decide (e.1 = first)) [] e.2) <$> ts.

Global Instance free_dec m ts : Decision (free m ts).
Proof.
  destruct (decide (Forall (fun t => m ∉ th_held t) ts)) as [Hf|Hf]; [left; exact (proj1 (Forall_forall _ _) Hf)|].
  right. intros Hfree. apply Hf, Forall_forall, Hfree.
Defined.

(** ** Mutual exclusion *)

(** No mutex is held twice. *)
Definition held_once (ts : list thread) : Prop := NoDup (concat (th_held <$> ts)).

Lemma held_once_step ts ts' : thread_step ts ts' -> held_once ts -> held_once ts'.
Proof.
  assert (Hsplit : forall i t t', ts !! i = Some t -> exists l k, ts = l ++ t :: k /\ <[i := t']> ts = l ++ t' :: k).
  { intros i t t' Hi. exists (take i ts), (drop (S i) ts). split; [by rewrite take_drop_middle|].
    rewrite insert_take_drop by (by eapply lookup_lt_Some). done. }
  unfold held_once. destruct 1 as [ts i n held m k Hi Hfree|ts i n held m k Hi|ts i n held t k Hi|ts i n held t k Hi He];
    rewrite <- ?list_fmap_compose; try (rewrite (list_fmap_ext (th_held ∘ start_thread t) th_held) by done);
    match goal with |- context [<[i := ?u]> ts] => destruct (Hsplit i _ u Hi) as (a & b & Ea & ->) end;
    rewrite Ea in *; clear Hsplit Hi; rewrite !fmap_app, !fmap_cons, !concat_app; cbn; intros Hnd.
  - rewrite <- (Permutation_middle (concat (th_held <$> a))). apply NoDup_cons. split; [|done].
    intros Hin. rewrite !elem_of_app in Hin.
    assert (Hno : forall l, (forall t, t ∈ l -> t ∈ a ++ mkThread n true held (Lock m :: k) :: b) -> m ∉ concat (th_held <$> l)).
    { intros l Hl (h & Hh & Hm)%list_elem_of_In%in_concat. apply list_elem_of_In, list_elem_of_fmap in Hh as (t & -> & Ht).
      apply (Hfree t (Hl t Ht)). by apply list_elem_of_In. }
    destruct Hin as [Hin|[Hin|Hin]].
    + revert Hin. apply Hno. set_solver.
    + apply (Hfree (mkThread n true held (Lock m :: k))); [set_solver|done].
    + revert Hin. apply Hno. set_solver.
  - rewrite <- (Permutation_middle (concat (th_held <$> a))) in Hnd. by apply NoDup_cons in Hnd as [_ ?].
  - done.
  - done.
Qed.

Lemma launched_held first ts : held_once (launched first ts).
Proof. unfold held_once, launched. induction ts as [|e ts IH]; [constructor|exact IH]. Qed.

Lemma held_once_run ts ts' : rtc thread_step ts ts' -> held_once ts -> held_once ts'.
Proof. induction 1 as [|x y z Hxy _ IH]; [done|]. intros Hx. by apply IH, (held_once_step x). Qed.
(** ** The discipline *)

Context (rank : M -> nat) (level : T -> nat).

Fixpoint script_ok (lvl : nat) (held : list M) (k : list act) : bool :=
  match k with
  | [] => match held with [] => true | _ => false end
  | Lock m :: k => forallb (fun h => (rank h <? rank m)%nat) held && script_ok lvl (m :: held) k
  | Unlock m :: k =>
      match held with
      | h :: held => bool_decide (h = m) && script_ok lvl held k
      | [] => false
      end
  | StartThread t :: k => script_ok lvl held k
  | JoinThread t :: k => match held with [] => (lvl <? level t)%nat && script_ok lvl [] k | _ => false end
  end.

Definition thread_ok (t : thread) : Prop :=
  script_ok (level (th_name t)) (th_held t) (th_script t) = true /\ (th_started t = false -> th_held t = []).
Definition threads_ok (ts : list thread) : Prop := Forall thread_ok ts.

(** A piece of script that gives back whatever it takes, when [held] is held. *)
Definition balanced (lvl : nat) (held : list M) (k : list act) : Prop :=
  forall rest, script_ok lvl held (k ++ rest) = script_ok lvl held rest.

Lemma balanced_ok lvl k : balanced lvl [] k -> script_ok lvl [] k = true.
Proof. intros Hk. specialize (Hk []). by rewrite app_nil_r in Hk. Qed.

Lemma balanced_nil lvl held : balanced lvl held [].
Proof. done. Qed.

Lemma balanced_app lvl held l k : balanced lvl held l -> balanced lvl held k -> balanced lvl held (l ++ k).
Proof. intros Hl Hk rest. by rewrite <- (assoc_L (++)), Hl, Hk. Qed.

Lemma balanced_concat lvl held {A} (f : A -> list act) (l : list A) :
  (forall x, balanced lvl held (f x)) -> balanced lvl held (concat (f <$> l)).
Proof. intros Hf. induction l as [|x l IH]; [apply balanced_nil|]. by apply balanced_app. Qed.

(** A scope with a [lock_guard]. *)
Definition with_lock (m : M) (body : list act) : list act := Lock m :: body ++ [Unlock m].

Lemma balanced_with_lock lvl held m body :
  forallb (fun h => (rank h <? rank m)%nat) held = true -> balanced lvl (m :: held) body ->
  balanced lvl held (with_lock m body).
Proof.
  intros Hr Hb rest. unfold with_lock. cbn [app script_ok]. rewrite Hr, <- (assoc_L (++)), Hb. cbn. by rewrite bool_decide_true by done.
Qed.

(** [n] rounds of a wait on a condition variable whose mutex is held. *)
Fixpoint wait_rounds (m : M) (n : nat) : list act :=
  match n with O => [] | S n => Unlock m :: Lock m :: wait_rounds m n end.

Lemma balanced_wait_rounds lvl held m n :
  forallb (fun h => (rank h <? rank m)%nat) held = true -> balanced lvl (m :: held) (wait_rounds m n).
Proof. intros Hr. induction n as [|n IH]; [apply balanced_nil|]. intros rest. cbn [wait_rounds app script_ok].
  by rewrite bool_decide_true, Hr, IH by done. Qed.

Lemma balanced_start lvl held t : balanced lvl held [StartThread t].
Proof. done. Qed.

Lemma balanced_join lvl t : (lvl < level t)%nat -> balanced lvl [] [JoinThread t].
Proof. intros Hl rest. cbn [app script_ok]. by rewrite (proj2 (Nat.ltb_lt _ _) Hl). Qed.

Lemma threads_ok_insert ts i n held k :
  threads_ok ts -> script_ok (level n) held k = true -> threads_ok (<[i := mkThread n true held k]> ts).
Proof. intros Hts Hk. apply Forall_insert; [done|]. by split. Qed.

Lemma threads_ok_step ts ts' : thread_step ts ts' -> threads_ok ts -> threads_ok ts'.
Proof.
  intros Hstep Hts.
  destruct Hstep as [ts i n held m k Hi Hfree|ts i n held m k Hi|ts i n held t k Hi|ts i n held t k Hi He];
    destruct (Forall_lookup_1 _ _ _ _ Hts Hi) as [Hok _]; cbn in Hok.
  - apply threads_ok_insert; [done|]. by apply andb_true_iff in Hok as [_ ?].
  - apply threads_ok_insert; [done|]. by apply andb_true_iff in Hok as [_ ?].
  - apply Forall_fmap. eapply Forall_impl; [by apply (threads_ok_insert ts i n held k Hts)|].
    intros u [Hu Hs]. split; [done|]. cbn. intros [? _]%orb_false_iff. by apply Hs.
  - apply threads_ok_insert; [done|]. destruct held; [|done]. by apply andb_true_iff in Hok as [_ ?].
Qed.

(** ** No deadlock *)

Context (max_rank max_level : nat).
Hypothesis rank_bound : forall m, (rank m <= max_rank)%nat.
Hypothesis level_bound : forall t, (level t <= max_level)%nat.

(** A thread that waits for a mutex: whoever holds it can go on, or waits for one of a
    higher rank. *)
Lemma lock_progress ts : threads_ok ts ->
  forall fuel i n held m k, (max_rank - rank m <= fuel)%nat -> ts !! i = Some (mkThread n true held (Lock m :: k)) ->
  exists ts', thread_step ts ts'.
Proof.
  intros Hts. induction fuel as [fuel IH] using lt_wf_ind. intros i n held m k Hfuel Hi.
  destruct (decide (free m ts)) as [Hfree|Hno]; [eexists; by eapply step_lock|].
  assert (Hholder : exists j t, ts !! j = Some t /\ m ∈ th_held t).
  { assert (Hex : ~ Forall (fun t => m ∉ th_held t) ts) by (intros Hall; apply Hno; intros t Ht; by apply (proj1 (Forall_forall _ _) Hall)).
    apply not_Forall_Exists in Hex; [|apply _]. apply Exists_exists in Hex as (t & Ht & Hm).
    apply list_elem_of_lookup_1 in Ht as [j Hj]. exists j, t. split; [done|]. by apply dec_stable. }
  destruct Hholder as (j & [n' started held' k'] & Hj & Hm). cbn in Hm.
  destruct (Forall_lookup_1 _ _ _ _ Hts Hj) as [Hok Hs]. cbn in Hok, Hs.
  destruct started; [|rewrite Hs in Hm by done; by apply elem_of_nil in Hm].
  destruct k' as [|[m'|m'|t'|t'] k']; cbn in Hok.
  - destruct held'; [by apply elem_of_nil in Hm|done].
  - apply andb_true_iff in Hok as [Hrank _]. rewrite forallb_forall in Hrank.
    specialize (Hrank m (proj1 (list_elem_of_In _ _) Hm)). apply Nat.ltb_lt in Hrank. pose proof (rank_bound m').
    eapply (IH (max_rank - rank m')%nat); [lia|done|done].
  - destruct held' as [|h held']; [done|]. apply andb_true_iff in Hok as [Hh _]. apply bool_decide_eq_true in Hh. subst h.
    eexists. by eapply step_unlock.
  - eexists. by eapply step_start.
  - destruct held'; [by apply elem_of_nil in Hm|done].
Qed.

(** A thread that has something to do: the one it waits for can go on, or waits for one of
    a higher level. *)
Lemma thread_progress ts : threads_ok ts ->
  forall fuel i t, (max_level - level (th_name t) <= fuel)%nat -> ts !! i = Some t -> th_started t = true ->
  th_script t <> [] -> exists ts', thread_step ts ts'.
Proof.
  intros Hts. induction fuel as [fuel IH] using lt_wf_ind. intros i [n started held k] Hfuel Hi Hs Hk. cbn in *. subst started.
  destruct (Forall_lookup_1 _ _ _ _ Hts Hi) as [Hok _]. cbn in Hok.
  destruct k as [|[m|m|t|t] k]; [done| | | |]; cbn in Hok.
  - by eapply (lock_progress ts Hts).
  - destruct held as [|h held]; [done|]. apply andb_true_iff in Hok as [Hh _]. apply bool_decide_eq_true in Hh. subst h.
    eexists. by eapply step_unlock.
  - eexists. by eapply step_start.
  - destruct held; [|done]. apply andb_true_iff in Hok as [Hl _]. apply Nat.ltb_lt in Hl. pose proof (level_bound t).
    destruct (decide (Forall (fun u => th_name u = t -> th_started u = true -> th_script u = []) ts)) as [Hall|Hno].
    + eexists. eapply step_join; [done|]. intros u Hu. by apply (proj1 (Forall_forall _ _) Hall).
    + apply not_Forall_Exists in Hno; [|apply _]. apply Exists_exists in Hno as (u & Hu & Hn).
      apply list_elem_of_lookup_1 in Hu as [j Hj].
      assert (th_name u = t /\ th_started u = true /\ th_script u <> []) as (<- & Hsu & Hne).
      { destruct (decide (th_name u = t)) as [E|E]; [|by destruct Hn]. split; [done|].
        destruct (th_started u) eqn:E2; [|destruct Hn; intros; congruence]. split; [done|]. intros E'. apply Hn. by intros. }
      eapply (IH (max_level - level (th_name u))%nat); [lia|done|done|done|done].
Qed.

(** ** Every run ends *)

Definition work (ts : list thread) : nat := sum_list ((fun t => length (th_script t)) <$> ts).

Lemma work_insert ts i t t' :
  ts !! i = Some t -> (work (<[i := t']> ts) + length (th_script t) = work ts + length (th_script t'))%nat.
Proof.
  unfold work. revert i. induction ts as [|u ts IH]; intros [|i] Hi; [done|done| |].
  - injection Hi as ->. cbn. lia.
  - specialize (IH i Hi). change (<[S i := t']> (u :: ts)) with (u :: <[i := t']> ts). rewrite !fmap_cons. cbn [sum_list]. lia.
Qed.

Lemma work_start t ts : work (start_thread t <$> ts) = work ts.
Proof. unfold work. f_equal. rewrite <- list_fmap_compose. by apply list_fmap_ext. Qed.

Lemma work_step ts ts' : thread_step ts ts' -> work ts = S (work ts').
Proof.
  destruct 1 as [ts i n held m k Hi Hfree|ts i n held m k Hi|ts i n held t k Hi|ts i n held t k Hi He]; rewrite ?work_start;
    match goal with |- context [<[i := ?u]> ts] => pose proof (work_insert ts i _ u Hi) as Hw end; cbn in Hw; lia.
Qed.

Lemma threads_end ts : threads_ok ts ->
  (forall n ts', nsteps thread_step n ts ts' -> (n <= work ts)%nat) /\
  (forall ts', rtc thread_step ts ts' ->
     (nf thread_step ts' -> all_ended ts') /\ exists ts'', rtc thread_step ts' ts'' /\ all_ended ts'').
Proof.
  intros Hts. split.
  - intros n ts' Hn. clear Hts. induction Hn as [ts|n ts ts1 ts2 Hstep _ IH]; [lia|]. apply work_step in Hstep. lia.
  - intros ts' Hrun. assert (Hok : threads_ok ts').
    { clear -Hrun Hts. induction Hrun as [ts|ts ts1 ts2 Hstep _ IH]; [done|]. by apply IH, (threads_ok_step ts). }
    clear Hts Hrun ts.
    assert (Hprogress : forall ts, threads_ok ts -> all_ended ts \/ exists ts1, thread_step ts ts1).
    { intros ts Ho. destruct (decide (Forall (fun t => th_started t = true -> th_script t = []) ts)) as [Hall|Hno].
      - left. intros t Ht. by apply (proj1 (Forall_forall _ _) Hall).
      - right. apply not_Forall_Exists in Hno; [|apply _]. apply Exists_exists in Hno as (t & Ht & Hn).
        apply list_elem_of_lookup_1 in Ht as [i Hi]. destruct (th_started t) eqn:E; [|destruct Hn; intros; congruence].
        eapply (thread_progress ts Ho _ i t); [done|done|done|]. intros E'. by apply Hn. }
    split; [intros Hnf; by destruct (Hprogress ts' Hok)|].
    remember (work ts') as w eqn:Hw. revert ts' Hok Hw. induction w as [|w IH]; intros ts' Hok Hw;
      (destruct (Hprogress ts' Hok) as [?|[ts1 Hstep]]; [by exists ts'|]); pose proof (work_step _ _ Hstep) as Hw1; [lia|].
    destruct (IH ts1) as (ts2 & Hrun & Hend); [by eapply threads_ok_step|lia|]. exists ts2. split; [by eapply rtc_l|done].
Qed.

Lemma launched_ok first ts : Forall (fun e => script_ok (level e.1) [] e.2 = true) ts -> threads_ok (launched first ts).
Proof. intros Hts. apply Forall_fmap. eapply Forall_impl; [done|]. intros e He. by split. Qed.

End Locks.

Arguments act : clear implicits.
Arguments thread : clear implicits.
