(* ===== verification/SafeQueue.v ===== *)
(** * ThreadSafeQueue (src/src/common/ThreadSafeQueue.h)

    The bounded drop-oldest queue of the agent.  Every method body runs under
    [mutex_], so each is one atomic function of the queue state; a blocked
    [pop] is a transition that is enabled when its wait predicate holds. *)
From S2P Require Import Prelude.

Section ThreadSafeQueue.
Context {T : Type}.

(** The fields of [ThreadSafeQueue<T>]: head of [tsq_items] is [queue_.front()]. *)
Record ThreadSafeQueue := mkTSQ {
  tsq_items : list T;
  tsq_max_size : Z;
  tsq_stopped : bool;
  tsq_drop_count : Z;
}.

(** The constructor: [max_size] is a [size_t], so an [int] argument is converted modulo 2^64. *)
Definition tsq_new (max_size : Z) : ThreadSafeQueue :=
  mkTSQ [] (u64 max_size) false 0.

(** What a call that C++ gives a meaning to returns; [Undefined] is [queue_.pop()]
    on an empty [std::queue]. *)
Inductive pushed :=
| PushOk (ok : bool) (q : ThreadSafeQueue)
| PushUndefined.

Definition tsq_push (item : T) (q : ThreadSafeQueue) : pushed :=
  if tsq_stopped q then PushOk false q
  else if tsq_max_size q <=? Z.of_nat (length (tsq_items q)) then
    match tsq_items q with
    | [] => PushUndefined
    | _ :: rest =>
        PushOk true (mkTSQ (rest ++ [item]) (tsq_max_size q) (tsq_stopped q)
                       (u64 (tsq_drop_count q + 1)))
    end
  else PushOk true (mkTSQ (tsq_items q ++ [item]) (tsq_max_size q) (tsq_stopped q)
                      (tsq_drop_count q)).

(** The wait predicate of [pop]. *)
Definition tsq_pop_ready (q : ThreadSafeQueue) : bool :=
  match tsq_items q with [] => tsq_stopped q | _ => true end.

(** [pop] once its wait is over, by the predicate or by the timeout
    ([None] at once when the predicate still fails). *)
Definition tsq_pop (q : ThreadSafeQueue) : option T * ThreadSafeQueue :=
  if negb (tsq_pop_ready q) then (None, q)
  else match tsq_items q with
       | [] => (None, q)
       | x :: rest => (Some x, mkTSQ rest (tsq_max_size q) (tsq_stopped q) (tsq_drop_count q))
       end.

Definition tsq_stop (q : ThreadSafeQueue) : ThreadSafeQueue :=
  mkTSQ (tsq_items q) (tsq_max_size q) true (tsq_drop_count q).

Definition tsq_reset (q : ThreadSafeQueue) : ThreadSafeQueue :=
  mkTSQ [] (tsq_max_size q) false 0.

Definition tsq_clear (q : ThreadSafeQueue) : ThreadSafeQueue :=
  mkTSQ [] (tsq_max_size q) (tsq_stopped q) (tsq_drop_count q).

Definition tsq_size (q : ThreadSafeQueue) : Z := Z.of_nat (length (tsq_items q)).

Definition tsq_empty (q : ThreadSafeQueue) : bool :=
  match tsq_items q with [] => true | _ => false end.
End ThreadSafeQueue.

Arguments ThreadSafeQueue : clear implicits.
Arguments pushed : clear implicits.

(** ** Sequences of calls *)
Section Traces.
Context {T : Type}.
Implicit Types (q : ThreadSafeQueue T) (x : T).

(** One call by some thread, as the mutex serialises them. *)
Inductive tsq_call :=
| CallPush (x : T)
| CallPop
| CallStop.

(** What left the queue at a call: handed to a consumer, or discarded by a full [push]. *)
Inductive tsq_event :=
| Delivered (x : T)
| Discarded (x : T).

Definition event_item (e : tsq_event) : T :=
  match e with Delivered x => x | Discarded x => x end.

Definition is_discarded (e : tsq_event) : bool :=
  match e with Delivered _ => false | Discarded _ => true end.

(** One call: [None] when it is undefined behaviour. *)
Definition tsq_step (c : tsq_call) q : option (ThreadSafeQueue T * list tsq_event) :=
  match c with
  | CallPush x =>
      match tsq_push x q with
      | PushUndefined => None
      | PushOk _ q' =>
          let full := negb (tsq_stopped q) && (tsq_max_size q <=? tsq_size q) in
          Some (q', if full then Discarded <$> take 1 (tsq_items q) else [])
      end
  | CallPop => match tsq_pop q with
               | (Some x, q') => Some (q', [Delivered x])
               | (None, q') => Some (q', [])
               end
  | CallStop => Some (tsq_stop q, [])
  end.

Fixpoint tsq_run (cs : list tsq_call) q : option (ThreadSafeQueue T * list tsq_event) :=
  match cs with
  | [] => Some (q, [])
  | c :: cs' =>
      match tsq_step c q with
      | None => None
      | Some (q', es) =>
          match tsq_run cs' q' with
          | None => None
          | Some (q'', es') => Some (q'', es ++ es')
          end
      end
  end.

(** The items of the pushes that [push] accepts: those before the first [stop]. *)
Fixpoint tsq_accepted (stopped : bool) (cs : list tsq_call) : list T :=
  match cs with
  | [] => []
  | CallPush x :: cs' => if stopped then tsq_accepted stopped cs' else x :: tsq_accepted stopped cs'
  | CallPop :: cs' => tsq_accepted stopped cs'
  | CallStop :: cs' => tsq_accepted true cs'
  end.

Definition tsq_stopped_after (c : tsq_call) (st : bool) : bool :=
  match c with CallStop => true | _ => st end.

(** The invariant of a queue built with a positive capacity. *)
Record tsq_inv q : Prop := {
  tsq_inv_max : 0 < tsq_max_size q;
  tsq_inv_len : tsq_size q <= tsq_max_size q;
  tsq_inv_drop : in_unsigned 64 (tsq_drop_count q);
}.

Lemma tsq_new_inv n : 0 < u64 n -> tsq_inv (tsq_new n).
Proof.
  intros Hn. split; simpl; [done| |].
  - unfold tsq_size. simpl. lia.
  - unfold in_unsigned. lia.
Qed.

(** Unfold a call by cases on the flags and the contents of the queue. *)
Ltac tsq_cases q Hs :=
  unfold tsq_step, tsq_push, tsq_pop, tsq_pop_ready, tsq_size in *;
  destruct q as [items mx st dc]; simpl in *;
  destruct items as [|it items]; destruct st; simpl in *;
  repeat case_match; simplify_eq/=; bool_crush.

Lemma tsq_step_max c q q' es : tsq_step c q = Some (q', es) -> tsq_max_size q' = tsq_max_size q.
Proof. intros Hs. destruct c; tsq_cases q Hs; done. Qed.

Lemma tsq_step_total c q : tsq_inv q -> is_Some (tsq_step c q).
Proof. intros [Hmax Hlen _]. destruct c; tsq_cases q Hmax; eauto; lia. Qed.

Lemma tsq_step_inv c q q' es : tsq_inv q -> tsq_step c q = Some (q', es) -> tsq_inv q'.
Proof.
  intros [Hmax Hlen Hdrop] Hs.
  destruct c; tsq_cases q Hs; split; unfold tsq_size in *; simpl in *;
    rewrite ?length_app; simpl; auto with lia; apply wrap_range; lia.
Qed.

Lemma tsq_push_spec x q :
  tsq_inv q ->
  exists q', tsq_push x q = PushOk (negb (tsq_stopped q)) q' /\ tsq_inv q' /\
    tsq_stopped q' = tsq_stopped q /\ tsq_max_size q' = tsq_max_size q /\
    if tsq_stopped q then q' = q
    else tsq_items q' = (if tsq_max_size q <=? tsq_size q then tail (tsq_items q) else tsq_items q) ++ [x].
Proof.
  intros Hinv. destruct (tsq_step_total (CallPush x) q Hinv) as [[q' es] Hs].
  pose proof (tsq_step_inv _ _ _ _ Hinv Hs) as Hinv'. exists q'.
  unfold tsq_step, tsq_push, tsq_size in *. destruct (tsq_stopped q) eqn:Est; simplify_eq/=; [done|].
  destruct (tsq_max_size q <=? _); [|by simplify_eq/=].
  destruct (tsq_items q); by simplify_eq/=.
Qed.

(** What a queue of capacity [n] keeps of [l]. *)
Definition newest (n : Z) (l : list T) : list T := drop (length l - Z.to_nat n) l.

Lemma newest_all n l : Z.of_nat (length l) <= n -> newest n l = l.
Proof. intros Hl. unfold newest. by replace (length l - Z.to_nat n)%nat with 0%nat by lia. Qed.

Lemma newest_app n l k : newest n (newest n l ++ k) = newest n (l ++ k).
Proof.
  unfold newest. rewrite !length_app, length_drop.
  rewrite <- (drop_app_le l k (length l - Z.to_nat n)) by lia. rewrite drop_drop. f_equal. lia.
Qed.

(** Pushing onto a running queue. *)
Lemma tsq_push_newest x q :
  tsq_inv q ->
  (if tsq_max_size q <=? tsq_size q then tail (tsq_items q) else tsq_items q) ++ [x] =
    newest (tsq_max_size q) (tsq_items q ++ [x]).
Proof.
  intros [Hmax Hlen _]. unfold newest, tsq_size in *. rewrite length_app. cbn [length].
  destruct (Z.leb_spec (tsq_max_size q) (Z.of_nat (length (tsq_items q)))).
  - replace (length (tsq_items q) + 1 - Z.to_nat (tsq_max_size q))%nat with 1%nat by lia.
    destruct (tsq_items q); [cbn in *; lia|done].
  - by replace (length (tsq_items q) + 1 - Z.to_nat (tsq_max_size q))%nat with 0%nat by lia.
Qed.

Lemma tsq_step_items c q q' es :
  tsq_step c q = Some (q', es) ->
  (event_item <$> es) ++ tsq_items q' = tsq_items q ++ tsq_accepted (tsq_stopped q) [c] /\
  tsq_stopped q' = tsq_stopped_after c (tsq_stopped q).
Proof. intros Hs. destruct c; tsq_cases q Hs; rewrite ?app_nil_r; (done || lia). Qed.

Lemma tsq_step_drops c q q' es :
  tsq_step c q = Some (q', es) ->
  tsq_drop_count q' = u64 (tsq_drop_count q + Z.of_nat (length (filter is_discarded es))) \/
  (filter is_discarded es = [] /\ tsq_drop_count q' = tsq_drop_count q).
Proof.
  intros Hs. destruct c; tsq_cases q Hs;
    rewrite ?filter_nil, ?filter_cons, ?filter_nil; simpl; auto; lia.
Qed.

Lemma tsq_accepted_cons st c cs :
  tsq_accepted st (c :: cs) =
    tsq_accepted st [c] ++ tsq_accepted (tsq_stopped_after c st) cs.
Proof. destruct c, st; simpl; by rewrite ?app_nil_r. Qed.

Lemma tsq_run_inv cs q q' es :
  tsq_inv q -> tsq_run cs q = Some (q', es) -> tsq_inv q' /\ tsq_max_size q' = tsq_max_size q.
Proof.
  revert q es. induction cs as [|c cs IH]; intros q es Hq Hr; simplify_eq/=; [done|].
  destruct (tsq_step c q) as [[q1 es1]|] eqn:E1; [|done].
  destruct (tsq_run cs q1) as [[q2 es2]|] eqn:E2; simplify_eq/=.
  destruct (IH q1 es2) as [Hq' Hm]; [by eapply tsq_step_inv|done|].
  split; [done|]. rewrite Hm. by eapply tsq_step_max.
Qed.

Lemma tsq_run_total cs q : tsq_inv q -> is_Some (tsq_run cs q).
Proof.
  revert q. induction cs as [|c cs IH]; intros q Hq; simpl; [eauto|].
  destruct (tsq_step_total c q Hq) as [[q1 es1] E1]. rewrite E1.
  destruct (IH q1) as [[q2 es2] E2]; [by eapply tsq_step_inv|]. rewrite E2. eauto.
Qed.

Lemma tsq_run_items cs q q' es :
  tsq_run cs q = Some (q', es) ->
  (event_item <$> es) ++ tsq_items q' = tsq_items q ++ tsq_accepted (tsq_stopped q) cs.
Proof.
  revert q es. induction cs as [|c cs IH]; intros q es Hr; simpl in Hr.
  { simplify_eq/=. by rewrite app_nil_r. }
  rewrite tsq_accepted_cons.
  destruct (tsq_step c q) as [[q1 es1]|] eqn:E1; [|done].
  destruct (tsq_run cs q1) as [[q2 es2]|] eqn:E2; simplify_eq/=.
  apply IH in E2. apply tsq_step_items in E1 as [Hi Hst].
  rewrite fmap_app, <- (assoc_L (++)), E2, (assoc_L (++)), Hi, <- (assoc_L (++)), Hst.
  done.
Qed.

Lemma tsq_run_drops cs q q' es :
  tsq_run cs q = Some (q', es) ->
  u64 (tsq_drop_count q') =
    u64 (tsq_drop_count q + Z.of_nat (length (filter is_discarded es))).
Proof.
  revert q es. induction cs as [|c cs IH]; intros q es Hr; simpl in Hr.
  { simplify_eq/=. f_equal. lia. }
  destruct (tsq_step c q) as [[q1 es1]|] eqn:E1; [|done].
  destruct (tsq_run cs q1) as [[q2 es2]|] eqn:E2; simplify_eq/=.
  apply IH in E2. rewrite filter_app, length_app, Nat2Z.inj_add, E2.
  apply tsq_step_drops in E1 as [->|[-> ->]]; [|f_equal; simpl; lia].
  rewrite wrap_add_l. f_equal. lia.
Qed.

(** For every capacity that converts to a positive [size_t] and every
    serialised sequence of [push], [pop] and [stop] calls, no call is undefined;
    the items that left the queue (delivered or discarded, in order) followed by
    the items still in it are exactly the accepted pushes, in order; the queue
    never holds more than its capacity; and [drop_count_] counts the discards. *)
Theorem tsq_fifo_bounded (n : Z) (cs : list (tsq_call)) :
  0 < u64 n ->
  exists q es,
    tsq_run cs (tsq_new n) = Some (q, es) /\
    (event_item <$> es) ++ tsq_items q = tsq_accepted false cs /\
    tsq_size q <= u64 n /\
    tsq_drop_count q = u64 (Z.of_nat (length (filter is_discarded es))).
Proof.
  intros Hn. destruct (tsq_run_total cs (tsq_new n)) as [[q es] Hr]; [by apply tsq_new_inv|].
  exists q, es. split; [done|].
  destruct (tsq_run_inv _ _ _ _ (tsq_new_inv n Hn) Hr) as [[_ Hlen Hd] Hm].
  split; [by apply tsq_run_items in Hr|].
  split; [by rewrite Hm in Hlen|].
  apply tsq_run_drops in Hr. by rewrite (wrap_small _ _ Hd) in Hr.
Qed.

(** a capacity of 0 makes the first accepted [push] undefined behaviour
    ([queue_.pop()] on an empty [std::queue]). *)
Theorem tsq_zero_capacity_undefined (x : T) (cs : list tsq_call) :
  tsq_run (CallPush x :: cs) (tsq_new 0) = None.
Proof. done. Qed.
End Traces.

Arguments tsq_call : clear implicits.
Arguments tsq_event : clear implicits.

Lemma tsq_fifo_bounded_witness :
  0 < u64 2 /\
  exists q es,
    tsq_run [CallPush 1; CallPush 2; CallPush 3; CallPop; CallStop; CallPush 4] (tsq_new 2)
      = Some (q, es) /\
    (event_item <$> es) ++ tsq_items q = [1; 2; 3] /\
    tsq_size q <= u64 2 /\
    tsq_drop_count q = u64 (Z.of_nat (length (filter is_discarded es))).
Proof. split; [reflexivity|]. apply (tsq_fifo_bounded 2 [CallPush 1; CallPush 2; CallPush 3; CallPop; CallStop; CallPush 4]). reflexivity. Defined.
