(* ===== verification/StreamBuffer.v ===== *)
(** * StreamBuffer (src/src/pipeline/StreamBuffer.cpp)

    The per-stream buffer between the puller (packets and decoded frames), the
    inference threads (selection and results) and the publisher.  Every method
    holds [mutex_] for its whole body, so a method is one atomic function of the
    state; a [cv_.wait] is a transition enabled by its predicate.

    [FrameBundle] objects are shared between the buffer and the inference task
    that selected them, and [infer_state] is written through either pointer, so
    the objects live in [sb_store] and the buffer holds pointers to them. *)
From S2P Require Import Prelude Float32 Messages.

(** A non-null [shared_ptr<FrameBundle>]; [frames_] never holds a null one
    because [enqueueFrame] refuses it. *)
Abbreviation frame_ptr := positive.

Record StreamBuffer := mkStreamBuffer {
  sb_store : gmap positive FrameBundle;
  sb_packets : list (option EncodedPacket);        (* packets_, front first *)
  sb_frames : gmap Z frame_ptr;                    (* frames_ *)
  sb_frame_order : list Z;                         (* frame_order_ *)
  sb_cached : gmap Z FrameInferenceResult;         (* cached_inference_results_ *)
  sb_video_packet_count : Z;                       (* bounded by packets_.size() *)
  sb_stopped : bool;
  sb_stream_id : string;
}.

Definition kPtsClockHz : Z := 90000.
Definition kCachedInferenceMatchWindowMs : Z := 100.
Definition kCachedInferenceMatchWindowPts : Z :=
  (kPtsClockHz * kCachedInferenceMatchWindowMs) / 1000.

Definition createStreamBuffer (stream_id : string) : StreamBuffer :=
  mkStreamBuffer ∅ [] ∅ [] ∅ 0 false stream_id.

Definition sb_with_store (st : gmap positive FrameBundle) (b : StreamBuffer) : StreamBuffer :=
  mkStreamBuffer st (sb_packets b) (sb_frames b) (sb_frame_order b) (sb_cached b)
    (sb_video_packet_count b) (sb_stopped b) (sb_stream_id b).

Definition sb_with_cached (c : gmap Z FrameInferenceResult) (b : StreamBuffer) : StreamBuffer :=
  mkStreamBuffer (sb_store b) (sb_packets b) (sb_frames b) (sb_frame_order b) c
    (sb_video_packet_count b) (sb_stopped b) (sb_stream_id b).

(** [frames_.find(id)] followed by the dereference of the pointer it finds. *)
Definition sb_frame_at (b : StreamBuffer) (id : Z) : option (frame_ptr * FrameBundle) :=
  match sb_frames b !! id with
  | None => None
  | Some p => match sb_store b !! p with None => None | Some f => Some (p, f) end
  end.

(** A write of [infer_state] through a pointer. *)
Definition sb_set_state (p : frame_ptr) (s : InferState) (b : StreamBuffer) : StreamBuffer :=
  sb_with_store (alter (fb_set_infer_state s) p (sb_store b)) b.

Definition is_video (p : option EncodedPacket) : bool :=
  match p with
  | Some p => bool_decide (ep_media_type p = Video)
  | None => false
  end.

Definition has_image (f : FrameBundle) : bool :=
  match fb_decoded_image f with Some _ => true | None => false end.

Definition isInferenceTerminal (s : InferState) : bool :=
  match s with Done | Dropped => true | _ => false end.

Definition isInferring (s : InferState) : bool :=
  match s with Selected | Running => true | _ => false end.

Definition is_idle (s : InferState) : bool :=
  match s with Idle => true | _ => false end.

(** ** Producers *)

Definition enqueuePacket (packet : option EncodedPacket) (b : StreamBuffer)
  : bool * StreamBuffer :=
  match packet with
  | None => (false, b)
  | Some p =>
      if sb_stopped b then (false, b)
      else
        (true,
         mkStreamBuffer (sb_store b) (sb_packets b ++ [Some p]) (sb_frames b) (sb_frame_order b)
           (sb_cached b)
           (if bool_decide (ep_media_type p = Video)
            then sb_video_packet_count b + 1 else sb_video_packet_count b)
           (sb_stopped b) (sb_stream_id b))
  end.

(** The caller's freshly made [FrameBundle] becomes a fresh object of the store. *)
Definition enqueueFrame (frame : option FrameBundle) (b : StreamBuffer) : bool * StreamBuffer :=
  match frame with
  | None => (false, b)
  | Some f =>
      if sb_stopped b then (false, b)
      else
        let p := fresh (dom (sb_store b)) in
        (true,
         mkStreamBuffer (<[p := f]> (sb_store b)) (sb_packets b)
           (<[fb_frame_id f := p]> (sb_frames b)) (sb_frame_order b ++ [fb_frame_id f])
           (sb_cached b) (sb_video_packet_count b) (sb_stopped b) (sb_stream_id b))
  end.

(** ** Inference side *)

(** The search of [selectFrameForInference] over [frame_order_] from its end. *)
Fixpoint latest_idle (b : StreamBuffer) (rev_order : list Z) : option frame_ptr :=
  match rev_order with
  | [] => None
  | id :: rest =>
      match sb_frame_at b id with
      | None => latest_idle b rest
      | Some (p, f) =>
          if negb (has_image f) then latest_idle b rest
          else if is_idle (fb_infer_state f) then Some p
          else latest_idle b rest
      end
  end.

(** Its second loop: every other non-terminal frame becomes [Done]. *)
Fixpoint mark_others_done (selected : frame_ptr) (order : list Z) (b : StreamBuffer)
  : StreamBuffer :=
  match order with
  | [] => b
  | id :: rest =>
      match sb_frame_at b id with
      | None => mark_others_done selected rest b
      | Some (p, f) =>
          if bool_decide (p = selected) then mark_others_done selected rest b
          else if isInferenceTerminal (fb_infer_state f) then mark_others_done selected rest b
          else mark_others_done selected rest (sb_set_state p Done b)
      end
  end.

Definition selectFrameForInference (b : StreamBuffer) : option frame_ptr * StreamBuffer :=
  match latest_idle b (rev (sb_frame_order b)) with
  | None => (None, b)
  | Some p => (Some p, mark_others_done p (sb_frame_order b) (sb_set_state p Selected b))
  end.

Definition clearInferenceSelection (frame_id : Z) (state : InferState) (b : StreamBuffer)
  : StreamBuffer :=
  match sb_frame_at b frame_id with
  | None => b
  | Some (p, _) => sb_set_state p state b
  end.

Definition markInferenceRunning (frame_id : Z) (b : StreamBuffer) : StreamBuffer :=
  clearInferenceSelection frame_id Running b.

Definition markInferenceDone (result : FrameInferenceResult) (b : StreamBuffer) : StreamBuffer :=
  clearInferenceSelection (fr_frame_id result) Done b.

Definition updateCachedInferenceResult (result : FrameInferenceResult) (b : StreamBuffer)
  : StreamBuffer :=
  if fr_frame_id result <? 0 then b
  else sb_with_cached (<[fr_frame_id result := result]> (sb_cached b)) b.

(** ** Publisher side *)

Definition hasDecodedFrameLocked (excluded : option Z) (b : StreamBuffer) : bool :=
  existsb (fun '(id, p) =>
    if bool_decide (excluded = Some id) then false
    else match sb_store b !! p with Some f => has_image f | None => false end)
    (map_to_list (sb_frames b)).

Fixpoint first_inferring (b : StreamBuffer) (order : list Z) : option Z :=
  match order with
  | [] => None
  | id :: rest =>
      match sb_frame_at b id with
      | None => first_inferring b rest
      | Some (_, f) =>
          if negb (has_image f) then first_inferring b rest
          else if isInferring (fb_infer_state f) then Some id
          else first_inferring b rest
      end
  end.

Definition inferringFrameIdLocked (b : StreamBuffer) : option Z :=
  first_inferring b (sb_frame_order b).

Definition canPublishLocked (min_video_watermark : Z) (b : StreamBuffer) : bool :=
  match sb_packets b with
  | [] => false
  | front :: _ =>
      if min_video_watermark =? 0 then true
      else if sb_video_packet_count b =? 0 then true
      else match front with
      | None => true
      | Some front =>
          if bool_decide (ep_media_type front = Audio) then true
          else if (match inferringFrameIdLocked b with
                   | Some inferring => (ep_frame_id front <? 0) || (inferring <=? ep_frame_id front)
                   | None => false
                   end)
          then false
          else if (0 <=? ep_frame_id front) &&
                  (match sb_frames b !! ep_frame_id front with None => true | Some _ => false end)
          then false
          else if (0 <=? ep_frame_id front) &&
                  (match sb_frame_at b (ep_frame_id front) with
                   | Some (_, f) => has_image f && negb (hasDecodedFrameLocked (Some (ep_frame_id front)) b)
                   | None => false
                   end)
          then false
          else min_video_watermark <? sb_video_packet_count b
      end
  end.

(** The predicate [waitForPublishable] waits for. *)
Definition publish_ready (min_video_watermark : Z) (b : StreamBuffer) : bool :=
  sb_stopped b || canPublishLocked min_video_watermark b.

(** What it returns when the wait is over, by the predicate or by the timeout. *)
Definition waitForPublishable (min_video_watermark : Z) (b : StreamBuffer) : bool :=
  if negb (publish_ready min_video_watermark b) then false
  else negb (sb_stopped b) && canPublishLocked min_video_watermark b.

Definition peekPacket (b : StreamBuffer) : option EncodedPacket :=
  match sb_packets b with
  | [] => None
  | front :: _ => front
  end.

Definition popPacket (b : StreamBuffer) : StreamBuffer :=
  match sb_packets b with
  | [] => b
  | front :: rest =>
      mkStreamBuffer (sb_store b) rest (sb_frames b) (sb_frame_order b) (sb_cached b)
        (if is_video front && (0 <? sb_video_packet_count b)
         then sb_video_packet_count b - 1 else sb_video_packet_count b)
        (sb_stopped b) (sb_stream_id b)
  end.

Definition findFrame (frame_id : Z) (b : StreamBuffer) : option FrameBundle :=
  snd <$> sb_frame_at b frame_id.

Definition releaseFrame (frame_id : Z) (b : StreamBuffer) : StreamBuffer :=
  mkStreamBuffer (sb_store b) (sb_packets b) (delete frame_id (sb_frames b))
    (base.filter (fun id => id <> frame_id) (sb_frame_order b)) (delete frame_id (sb_cached b))
    (sb_video_packet_count b) (sb_stopped b) (sb_stream_id b).

Definition purgeExpiredCachedInferenceResultsLocked (now_mono_ms : Z) (b : StreamBuffer)
  : StreamBuffer :=
  sb_with_cached (base.filter (fun e => now_mono_ms <= fr_expire_at_mono_ms e.2) (sb_cached b)) b.

(** The loop over the cached results: the candidate so far and its distance. *)
Fixpoint best_match (pts : Z) (entries : list (Z * FrameInferenceResult))
    (matched : option Z) (best_pts_diff : Z) : option Z :=
  match entries with
  | [] => matched
  | (id, r) :: rest =>
      if fr_pts r <? 0 then best_match pts rest matched best_pts_diff
      else
        let pts_diff := if pts <=? fr_pts r then fr_pts r - pts else pts - fr_pts r in
        if (pts_diff <=? kCachedInferenceMatchWindowPts) && (pts_diff <? best_pts_diff)
        then best_match pts rest (Some id) pts_diff
        else best_match pts rest matched best_pts_diff
  end.

(** [iter m] is the order in which the [unordered_map] is traversed. *)
Definition takeCachedInferenceResult (iter : gmap Z FrameInferenceResult -> list (Z * FrameInferenceResult))
    (frame_id pts now_mono_ms : Z) (b : StreamBuffer)
  : option FrameInferenceResult * StreamBuffer :=
  let b := purgeExpiredCachedInferenceResultsLocked now_mono_ms b in
  let matched :=
    if 0 <=? pts
    then best_match pts (iter (sb_cached b)) None (kCachedInferenceMatchWindowPts + 1)
    else None in
  let matched :=
    match matched with
    | None => if 0 <=? frame_id then
                match sb_cached b !! frame_id with Some _ => Some frame_id | None => None end
              else None
    | Some id => Some id
    end in
  match matched with
  | None => (None, b)
  | Some id =>
      match sb_cached b !! id with
      | None => (None, b)
      | Some result => (Some result, sb_with_cached (delete id (sb_cached b)) b)
      end
  end.

Definition packetCount (b : StreamBuffer) : Z := Z.of_nat (length (sb_packets b)).
Definition frameCount (b : StreamBuffer) : Z := Z.of_nat (size (sb_frames b)).
Definition sb_empty (b : StreamBuffer) : bool :=
  (packetCount b =? 0) && (frameCount b =? 0).

Definition sb_stop (b : StreamBuffer) : StreamBuffer :=
  mkStreamBuffer (sb_store b) (sb_packets b) (sb_frames b) (sb_frame_order b) (sb_cached b)
    (sb_video_packet_count b) true (sb_stream_id b).

(** The state name used in diagnostics. *)
Definition inferStateNameLocked (frame_id : Z) (b : StreamBuffer) : string :=
  match sb_frame_at b frame_id with
  | None => "missing"
  | Some (_, f) =>
      match fb_infer_state f with
      | Idle => "Idle" | Selected => "Selected" | Running => "Running"
      | Done => "Done" | Dropped => "Dropped"
      end
  end.

(** ** Well-formedness *)

Definition count_video (l : list (option EncodedPacket)) : Z :=
  Z.of_nat (length (base.filter (fun p => is_video p = true) l)).

Record sb_wf (b : StreamBuffer) : Prop := {
  (** frames are filed under their own id, and live in the store *)
  wf_frames id p : sb_frames b !! id = Some p ->
                   exists f, sb_store b !! p = Some f /\ fb_frame_id f = id;
  (** [frame_order_] and [frames_] hold the same ids *)
  wf_order id : id ∈ sb_frame_order b <-> is_Some (sb_frames b !! id);
  (** the cached counter is the number of queued video packets *)
  wf_count : sb_video_packet_count b = count_video (sb_packets b);
  wf_packets : Forall is_Some (sb_packets b);
  (** results are cached under their own non-negative id *)
  wf_cached id r : sb_cached b !! id = Some r -> fr_frame_id r = id /\ 0 <= id;
}.

(** The frame with this id can be selected. *)
Definition selectable (b : StreamBuffer) (id : Z) : bool :=
  match sb_frame_at b id with
  | Some (_, f) => has_image f && is_idle (fb_infer_state f)
  | None => false
  end.

(** ** Lookup lemmas *)

Lemma sb_frame_at_Some b id p f :
  sb_frame_at b id = Some (p, f) <-> sb_frames b !! id = Some p /\ sb_store b !! p = Some f.
Proof.
  unfold sb_frame_at. split.
  - intros H. destruct (sb_frames b !! id) as [q|]; [|done].
    destruct (sb_store b !! q) eqn:E; by simplify_eq/=.
  - by intros [-> ->].
Qed.

Lemma sb_frame_at_set p s b id :
  sb_frame_at (sb_set_state p s b) id =
    (fun '(q, f) => (q, if bool_decide (q = p) then fb_set_infer_state s f else f))
      <$> sb_frame_at b id.
Proof.
  unfold sb_frame_at, sb_set_state. simpl. destruct (sb_frames b !! id) as [q|]; [|done].
  rewrite lookup_alter. destruct (decide (p = q)) as [->|Hne]; simpl;
    destruct (sb_store b !! q); simpl; try done.
  - by rewrite bool_decide_true.
  - by rewrite bool_decide_false by congruence.
Qed.

Lemma sb_frame_at_wf b id p f : sb_wf b -> sb_frame_at b id = Some (p, f) -> fb_frame_id f = id.
Proof.
  intros Hwf [Hp Hf]%sb_frame_at_Some. destruct (wf_frames b Hwf id p Hp) as (f' & ? & ?).
  congruence.
Qed.

(** Distinct ids have distinct frame objects. *)
Lemma sb_frame_at_inj b i j p f g :
  sb_wf b -> sb_frame_at b i = Some (p, f) -> sb_frame_at b j = Some (p, g) -> i = j.
Proof.
  intros Hwf Hi Hj. pose proof (sb_frame_at_wf _ _ _ _ Hwf Hi).
  pose proof (sb_frame_at_wf _ _ _ _ Hwf Hj).
  apply sb_frame_at_Some in Hi as [_ ?], Hj as [_ ?]. congruence.
Qed.

Lemma sb_frame_at_None b id : sb_wf b -> sb_frame_at b id = None <-> sb_frames b !! id = None.
Proof.
  intros Hwf. unfold sb_frame_at. split; [|by intros ->].
  destruct (sb_frames b !! id) as [p|] eqn:E; [|done].
  destruct (wf_frames b Hwf id p E) as (f & -> & _). done.
Qed.

Lemma findFrame_Some b id f :
  findFrame id b = Some f <-> exists p, sb_frame_at b id = Some (p, f).
Proof.
  unfold findFrame. destruct (sb_frame_at b id) as [[q g]|]; simpl; split.
  - intros [= ->]. eauto.
  - intros (p & [= -> ->]). done.
  - done.
  - by intros (p & ?).
Qed.

Lemma count_video_app l k : count_video (l ++ k) = count_video l + count_video k.
Proof. unfold count_video. rewrite filter_app, length_app. lia. Qed.

Lemma count_video_cons p l :
  count_video (p :: l) = (if is_video p then 1 else 0) + count_video l.
Proof.
  unfold count_video. rewrite filter_cons.
  destruct (is_video p); case_decide; simpl; try done; lia.
Qed.

Lemma count_video_nonneg l : 0 <= count_video l.
Proof. unfold count_video. lia. Qed.

(** ** Selection *)

Lemma latest_idle_cons b id l :
  selectable b id = false -> latest_idle b (id :: l) = latest_idle b l.
Proof.
  unfold selectable. simpl. destruct (sb_frame_at b id) as [[q f]|]; [|done].
  destruct (has_image f); simpl; [|done]. by intros ->.
Qed.

Lemma latest_idle_Some b l p :
  latest_idle b l = Some p ->
  exists l1 id l2 f, l = l1 ++ id :: l2 /\ sb_frame_at b id = Some (p, f) /\
    has_image f = true /\ fb_infer_state f = Idle /\
    Forall (fun i => selectable b i = false) l1.
Proof.
  induction l as [|id l IH]; [done|]. destruct (selectable b id) eqn:Es.
  - unfold selectable in Es. simpl. destruct (sb_frame_at b id) as [[q f]|] eqn:E; [|done].
    apply andb_true_iff in Es as [Hi Es]. rewrite Hi. simpl.
    destruct (fb_infer_state f) eqn:Ef; try done. intros [= ->].
    exists [], id, l, f. by repeat split.
  - rewrite latest_idle_cons by done. intros Hl. destruct (IH Hl) as (l1 & i & l2 & g & -> & ? & ? & ? & ?).
    exists (id :: l1), i, l2, g. split_and!; try done. by constructor.
Qed.

Lemma latest_idle_None b l :
  latest_idle b l = None <-> Forall (fun i => selectable b i = false) l.
Proof.
  induction l as [|id l IH]; simpl; [split; by constructor|].
  rewrite Forall_cons, <- IH. unfold selectable.
  destruct (sb_frame_at b id) as [[q f]|]; [|tauto].
  destruct (has_image f); simpl; [|tauto].
  destruct (fb_infer_state f); simpl; intuition congruence.
Qed.

(** Some id of [order] points at [q]. *)
Definition pointed (b : StreamBuffer) (order : list Z) (q : frame_ptr) : bool :=
  existsb (fun id => bool_decide (sb_frames b !! id = Some q)) order.

Lemma pointed_true b order q id :
  id ∈ order -> sb_frames b !! id = Some q -> pointed b order q = true.
Proof.
  intros Hin Hq. apply existsb_exists. exists id. split; [by apply list_elem_of_In|].
  by apply bool_decide_eq_true.
Qed.

Lemma mark_others_done_with_store sel order b :
  exists st, mark_others_done sel order b = sb_with_store st b.
Proof.
  revert b. induction order as [|id order IH]; intros b; simpl.
  { exists (sb_store b). by destruct b. }
  destruct (sb_frame_at b id) as [[p f]|]; [|apply IH].
  case_bool_decide; [apply IH|]. destruct (isInferenceTerminal _); [apply IH|].
  destruct (IH (sb_set_state p Done b)) as [st ->]. by exists st.
Qed.

Definition done_unless_terminal (f : FrameBundle) : FrameBundle :=
  if isInferenceTerminal (fb_infer_state f) then f else fb_set_infer_state Done f.

Lemma mark_others_done_store sel order b q :
  sb_store (mark_others_done sel order b) !! q =
    (fun f => if bool_decide (q <> sel) && pointed b order q
              then done_unless_terminal f else f) <$> sb_store b !! q.
Proof.
  revert b. induction order as [|id order IH]; intros b; simpl.
  { rewrite andb_false_r. by destruct (sb_store b !! q). }
  destruct (sb_frame_at b id) as [[p f]|] eqn:E.
  - apply sb_frame_at_Some in E as [Ep Ef].
    destruct (bool_decide (p = sel)) eqn:Hsel;
      [|destruct (isInferenceTerminal (fb_infer_state f)) eqn:Et]; bool_crush;
      rewrite IH; rewrite Ep.
    + subst. destruct (decide (q = sel)) as [->|Hq].
      { by rewrite !bool_decide_false by naive_solver. }
      rewrite (bool_decide_false (Some sel = Some q)) by congruence. done.
    + destruct (decide (q = p)) as [->|Hq].
      { rewrite Ef. simpl. unfold done_unless_terminal. rewrite Et.
        by destruct (_ && _), (_ && _). }
      by rewrite (bool_decide_false (Some p = Some q)) by congruence.
    + unfold sb_set_state. simpl. rewrite lookup_alter.
      destruct (decide (p = q)) as [<-|Hq]; simpl.
      * rewrite Ef. simpl. rewrite bool_decide_true by done.
        rewrite bool_decide_true by done. simpl. unfold done_unless_terminal. rewrite Et.
        simpl. by destruct (pointed _ _ _).
      * rewrite (bool_decide_false (Some p = Some q)) by congruence. done.
  - rewrite IH. unfold sb_frame_at in E.
    destruct (sb_frames b !! id) as [p|] eqn:Ep; [|done].
    destruct (sb_store b !! p) eqn:Ef; [done|].
    destruct (decide (q = p)) as [->|Hq]; [by rewrite Ef|].
    by rewrite (bool_decide_false (Some p = Some q)) by congruence.
Qed.

(** What one successful selection does: the newest idle decoded frame becomes
    [Selected], every other frame is finished, and nothing else changes. *)
Record selection (b b' : StreamBuffer) (p : frame_ptr) (id : Z) (f : FrameBundle) : Prop := {
  sel_frame : sb_frame_at b id = Some (p, f);
  sel_image : has_image f = true;
  sel_idle : fb_infer_state f = Idle;
  sel_latest : exists l1 l2, sb_frame_order b = l1 ++ id :: l2 /\
                 Forall (fun i => selectable b i = false) l2;
  sel_selected : findFrame id b' = Some (fb_set_infer_state Selected f);
  sel_others i g : i <> id -> findFrame i b = Some g -> findFrame i b' = Some (done_unless_terminal g);
  sel_rest : b' = sb_with_store (sb_store b') b;
}.

Lemma has_image_set s f : has_image (fb_set_infer_state s f) = has_image f.
Proof. done. Qed.

Lemma done_unless_terminal_terminal f :
  isInferenceTerminal (fb_infer_state (done_unless_terminal f)) = true.
Proof. unfold done_unless_terminal. by destruct (fb_infer_state f) eqn:E; simpl; rewrite ?E. Qed.

Lemma sb_frames_with_store st b : sb_frames (sb_with_store st b) = sb_frames b.
Proof. done. Qed.

(** The two outcomes of a selection. *)
Lemma selectFrame_cases (b : StreamBuffer) :
  sb_wf b ->
  match selectFrameForInference b with
  | (None, b') => b' = b /\ forall id, selectable b id = false
  | (Some p, b') => exists id f, selection b b' p id f
  end.
Proof.
  intros Hwf. unfold selectFrameForInference.
  destruct (latest_idle b (rev (sb_frame_order b))) as [p|] eqn:E.
  - apply latest_idle_Some in E as (l1 & id & l2 & f & Hrev & Hf & Himg & Hidle & Hno).
    set (b1 := sb_set_state p Selected b).
    destruct (mark_others_done_with_store p (sb_frame_order b) b1) as [st Hst].
    exists id, f. split; try done.
    + exists (rev l2), (rev l1). split.
      * by rewrite <- (rev_involutive (sb_frame_order b)), Hrev, rev_app_distr; simpl;
          rewrite <- (assoc_L (++)).
      * apply Forall_forall. intros i Hi. rewrite Forall_forall in Hno. apply Hno.
        by apply list_elem_of_In, in_rev, list_elem_of_In.
    + apply findFrame_Some. exists p. apply sb_frame_at_Some in Hf as [Hp Hs].
      apply sb_frame_at_Some. split; [by rewrite Hst|].
      rewrite mark_others_done_store. simpl. rewrite lookup_alter_eq, Hs. simpl.
      by rewrite bool_decide_false by tauto.
    + intros i g Hne (q & Hq)%findFrame_Some. apply findFrame_Some. exists q.
      assert (q <> p) as Hqp by (intros ->; by apply Hne, (sb_frame_at_inj b i id p g f)).
      apply sb_frame_at_Some in Hq as [Hq Hs]. apply sb_frame_at_Some.
      split; [by rewrite Hst|].
      rewrite mark_others_done_store. simpl. rewrite lookup_alter_ne, Hs by done. simpl.
      rewrite bool_decide_true by done. rewrite (pointed_true _ _ q i); [done| |done].
      apply (wf_order b Hwf). simpl. eauto.
    + by rewrite Hst.
  - apply latest_idle_None in E. split; [done|]. intros id.
    destruct (decide (id ∈ sb_frame_order b)) as [Hin|Hin].
    + rewrite Forall_forall in E. apply E. by apply list_elem_of_In, in_rev, list_elem_of_In; rewrite rev_involutive.
    + rewrite (wf_order b Hwf) in Hin. unfold selectable.
      destruct (sb_frame_at b id) as [[q g]|] eqn:Eq; [|done].
      apply sb_frame_at_Some in Eq as [? _]. exfalso. apply Hin. eauto.
Qed.

(** [selectFrameForInference] on a well-formed buffer returns null exactly
    when no frame is idle and decoded (and then changes nothing); otherwise it
    returns the frame latest in [frame_order_] among the idle decoded ones, makes
    it [Selected], makes every other non-terminal frame [Done], and touches
    neither the packets, the order, the cached results nor any other field. *)
Theorem selectFrame_spec (b : StreamBuffer) :
  sb_wf b ->
  match selectFrameForInference b with
  | (None, b') => b' = b /\ forall id, selectable b id = false
  | (Some p, b') => exists id f, selection b b' p id f
  end.
Proof. exact (selectFrame_cases b). Qed.

(** ** Interleavings *)

(** The calls the threads of a stream make; the puller, the inference threads and
    the publisher may interleave them in any order. *)
Inductive sb_call :=
| CallEnqueuePacket (p : option EncodedPacket)
| CallEnqueueFrame (f : option FrameBundle)
| CallSelect
| CallMarkRunning (id : Z)
| CallMarkDone (r : FrameInferenceResult)
| CallClear (id : Z) (s : InferState)
| CallPopPacket
| CallReleaseFrame (id : Z)
| CallUpdateCached (r : FrameInferenceResult)
| CallTakeCached (iter : gmap Z FrameInferenceResult -> list (Z * FrameInferenceResult))
    (frame_id pts now : Z)
| CallStop.

Definition sb_apply (c : sb_call) (b : StreamBuffer) : StreamBuffer :=
  match c with
  | CallEnqueuePacket p => (enqueuePacket p b).2
  | CallEnqueueFrame f => (enqueueFrame f b).2
  | CallSelect => (selectFrameForInference b).2
  | CallMarkRunning id => markInferenceRunning id b
  | CallMarkDone r => markInferenceDone r b
  | CallClear id s => clearInferenceSelection id s b
  | CallPopPacket => popPacket b
  | CallReleaseFrame id => releaseFrame id b
  | CallUpdateCached r => updateCachedInferenceResult r b
  | CallTakeCached iter id pts now => (takeCachedInferenceResult iter id pts now b).2
  | CallStop => sb_stop b
  end.

Definition sb_run (cs : list sb_call) (b : StreamBuffer) : StreamBuffer :=
  foldl (fun b c => sb_apply c b) b cs.

(** Replacing the store by one with the same domain and ids keeps well-formedness. *)
Lemma sb_wf_store st b :
  sb_wf b ->
  (forall p f, sb_store b !! p = Some f -> exists f', st !! p = Some f' /\ fb_frame_id f' = fb_frame_id f) ->
  sb_wf (sb_with_store st b).
Proof.
  intros [Hf Ho Hc Hp Hr] Hst. split; simpl; try done.
  intros id p Hid. destruct (Hf id p Hid) as (f & Hsf & Hfid).
  destruct (Hst p f Hsf) as (f' & ? & ?). exists f'. split; [done|congruence].
Qed.

Lemma sb_wf_cached c b :
  sb_wf b -> (forall id r, c !! id = Some r -> sb_cached b !! id = Some r) ->
  sb_wf (sb_with_cached c b).
Proof. intros [Hf Ho Hc Hp Hr] Hsub. split; simpl; try done. eauto. Qed.

Lemma sb_set_state_wf p s b : sb_wf b -> sb_wf (sb_set_state p s b).
Proof.
  intros Hwf. apply sb_wf_store; [done|]. intros q f Hq.
  rewrite lookup_alter. case_decide; subst; [|by eauto].
  rewrite Hq. simpl. eauto.
Qed.

Lemma mark_others_done_wf sel order b : sb_wf b -> sb_wf (mark_others_done sel order b).
Proof.
  revert b. induction order as [|id order IH]; intros b Hwf; simpl; [done|].
  destruct (sb_frame_at b id) as [[p f]|]; [|auto].
  case_bool_decide; [auto|]. destruct (isInferenceTerminal _); auto using sb_set_state_wf.
Qed.

Lemma sb_wf_new id : sb_wf (createStreamBuffer id).
Proof.
  split; simpl; try done.
  intros i. rewrite lookup_empty. split; [by intros ?%elem_of_nil|by intros [? ?]].
Qed.

Lemma enqueuePacket_wf p b : sb_wf b -> sb_wf (enqueuePacket p b).2.
Proof.
  intros Hwf. unfold enqueuePacket. destruct p as [p|]; [|done].
  destruct (sb_stopped b); [done|]. destruct Hwf as [Hf Ho Hc Hp Hr]. split; simpl; try done.
  - rewrite count_video_app, Hc. change (count_video [Some p]) with
      (Z.of_nat (length (base.filter (fun p => is_video p = true) [Some p]))).
    rewrite filter_cons, filter_nil. simpl.
    destruct (bool_decide (ep_media_type p = Video)); case_decide; simpl; (lia || congruence).
  - apply Forall_app_2; [done|]. by repeat constructor.
Qed.

Lemma enqueueFrame_wf f b : sb_wf b -> sb_wf (enqueueFrame f b).2.
Proof.
  intros Hwf. unfold enqueueFrame. destruct f as [f|]; [|done].
  destruct (sb_stopped b); [done|]. simpl.
  assert (sb_store b !! fresh (dom (sb_store b)) = None) as Hfresh
    by (apply not_elem_of_dom, is_fresh).
  set (q := fresh (dom (sb_store b))) in *. clearbody q.
  destruct Hwf as [Hf Ho Hc Hp Hr]. split; simpl; try done.
  - intros id p Hid. apply lookup_insert_Some in Hid as [[<- <-]|[Hne Hid]].
    + exists f. by rewrite lookup_insert_eq.
    + destruct (Hf id p Hid) as (g & Hg & ?). exists g.
      by rewrite lookup_insert_ne by (intros <-; congruence).
  - intros id. rewrite elem_of_app, list_elem_of_singleton, Ho, lookup_insert_is_Some'. naive_solver.
Qed.

Lemma popPacket_wf b : sb_wf b -> sb_wf (popPacket b).
Proof.
  intros Hwf. unfold popPacket. destruct (sb_packets b) as [|front rest] eqn:E; [done|].
  destruct Hwf as [Hf Ho Hc Hp Hr]. rewrite E in Hc, Hp. split; simpl; try done.
  - rewrite count_video_cons in Hc. pose proof (count_video_nonneg rest).
    destruct (is_video front); simpl in *; [|lia]. destruct (Z.ltb_spec 0 (sb_video_packet_count b)); lia.
  - by apply Forall_cons in Hp as [_ ?].
Qed.

Lemma releaseFrame_wf id b : sb_wf b -> sb_wf (releaseFrame id b).
Proof.
  intros [Hf Ho Hc Hp Hr]. split; simpl; try done.
  - intros i p Hi. apply lookup_delete_Some in Hi as [_ Hi]. eauto.
  - intros i. rewrite list_elem_of_filter, Ho, lookup_delete_is_Some. naive_solver.
  - intros i r Hi. apply lookup_delete_Some in Hi as [_ Hi]. eauto.
Qed.

Lemma clearInferenceSelection_wf id s b : sb_wf b -> sb_wf (clearInferenceSelection id s b).
Proof.
  intros Hwf. unfold clearInferenceSelection.
  destruct (sb_frame_at b id) as [[p f]|]; auto using sb_set_state_wf.
Qed.

Lemma selectFrame_wf b : sb_wf b -> sb_wf (selectFrameForInference b).2.
Proof.
  intros Hwf. unfold selectFrameForInference. destruct (latest_idle _ _); [|done]. simpl.
  auto using mark_others_done_wf, sb_set_state_wf.
Qed.

Lemma updateCached_wf r b : sb_wf b -> sb_wf (updateCachedInferenceResult r b).
Proof.
  intros Hwf. unfold updateCachedInferenceResult. destruct (Z.ltb_spec (fr_frame_id r) 0); [done|].
  destruct Hwf as [Hf Ho Hc Hp Hr]. split; simpl; try done.
  intros id r' Hid. apply lookup_insert_Some in Hid as [[<- <-]|[_ Hid]]; [by split|eauto].
Qed.

Lemma purge_wf now b : sb_wf b -> sb_wf (purgeExpiredCachedInferenceResultsLocked now b).
Proof. intros Hwf. apply sb_wf_cached; [done|]. by intros id r [? _]%map_lookup_filter_Some. Qed.

Lemma takeCached_wf iter id pts now b :
  sb_wf b -> sb_wf (takeCachedInferenceResult iter id pts now b).2.
Proof.
  intros Hwf%(purge_wf now). unfold takeCachedInferenceResult.
  set (b1 := purgeExpiredCachedInferenceResultsLocked now b) in *. clearbody b1. clear b.
  repeat case_match; simplify_eq/=; try done;
    (apply sb_wf_cached; [done|]; by intros i r [_ ?]%lookup_delete_Some).
Qed.

#[export] Hint Resolve sb_wf_new enqueuePacket_wf enqueueFrame_wf popPacket_wf releaseFrame_wf
  clearInferenceSelection_wf selectFrame_wf updateCached_wf takeCached_wf : media.

Lemma sb_apply_wf c b : sb_wf b -> sb_wf (sb_apply c b).
Proof.
  intros Hwf. destruct c; simpl; unfold markInferenceRunning, markInferenceDone; auto with media.
  by destruct Hwf.
Qed.

Lemma sb_run_wf cs b : sb_wf b -> sb_wf (sb_run cs b).
Proof.
  unfold sb_run. revert b. induction cs as [|c cs IH]; intros b Hwf; simpl; auto using sb_apply_wf.
Qed.

(** C1: The representation invariant [sb_wf] - frames filed under their own id,
    [frame_order_] and [frames_] in agreement, the video counter equal to the
    number of queued video packets, no null packet, cached results under their own
    non-negative id - holds after every interleaving of the calls of the puller,
    the inference threads and the publisher. *)
Theorem sb_reachable_wf (stream_id : string) (cs : list sb_call) :
  sb_wf (sb_run cs (createStreamBuffer stream_id)).
Proof. apply sb_run_wf, sb_wf_new. Qed.

(** ** The publishing gates *)

Lemma hasDecodedFrame_spec ex b :
  hasDecodedFrameLocked ex b = true <->
  exists id f, ex <> Some id /\ findFrame id b = Some f /\ has_image f = true.
Proof.
  unfold hasDecodedFrameLocked. rewrite existsb_exists. split.
  - intros ([id p] & Hin & Hb). apply list_elem_of_In, elem_of_map_to_list in Hin.
    case_bool_decide as Hex; [done|]. destruct (sb_store b !! p) as [f|] eqn:E; [|done].
    exists id, f. split_and!; try done. apply findFrame_Some. exists p. by apply sb_frame_at_Some.
  - intros (id & f & Hex & (p & [Hp Hf]%sb_frame_at_Some)%findFrame_Some & Hi).
    exists (id, p). split; [by apply list_elem_of_In, elem_of_map_to_list|].
    rewrite bool_decide_false by done. by rewrite Hf.
Qed.

Lemma first_inferring_None b l :
  first_inferring b l = None <->
  Forall (fun id => forall f, findFrame id b = Some f -> has_image f = true ->
                     isInferring (fb_infer_state f) = false) l.
Proof.
  induction l as [|id l IH]; simpl; [split; by constructor|].
  rewrite Forall_cons, <- IH. unfold findFrame.
  destruct (sb_frame_at b id) as [[q f]|]; simpl; [|by intuition].
  destruct (has_image f) eqn:Hi; simpl.
  - destruct (isInferring (fb_infer_state f)) eqn:Hs; simpl.
    + split; [done|]. intros [H _]. specialize (H f eq_refl Hi). congruence.
    + split; [|tauto]. intros ?; split; [|done]. by intros ? [= <-].
  - split; [|tauto]. intros ?; split; [|done]. intros ? [= <-]. congruence.
Qed.

Lemma first_inferring_Some b l id :
  first_inferring b l = Some id ->
  exists l1 l2 f, l = l1 ++ id :: l2 /\ findFrame id b = Some f /\ has_image f = true /\
    isInferring (fb_infer_state f) = true /\ first_inferring b l1 = None.
Proof.
  induction l as [|i l IH]; simpl; [done|]. unfold findFrame in *.
  destruct (sb_frame_at b i) as [[q f]|] eqn:E; simpl.
  - destruct (has_image f) eqn:Hi, (isInferring (fb_infer_state f)) eqn:Hs; simpl.
    1: { intros [= ->]. exists [], l, f. rewrite E. by split_and!. }
    all: intros (l1 & l2 & g & -> & Hg & ? & ? & Hn)%IH; exists (i :: l1), l2, g;
      split_and!; try done; simpl; by rewrite E, Hi, ?Hs.
  - intros (l1 & l2 & g & -> & Hg & ? & ? & Hn)%IH. exists (i :: l1), l2, g.
    split_and!; try done. simpl. by rewrite E.
Qed.

(** What it takes for a video packet at the head of the queue to be publishable. *)
Record publishable_video (wm : Z) (b : StreamBuffer) (front : EncodedPacket) : Prop := {
  (** gate 1: strictly before the frame under inference *)
  pv_before id : inferringFrameIdLocked b = Some id -> 0 <= ep_frame_id front < id;
  (** gates 2 and 3: its frame is in the buffer, and is not the only decoded one *)
  pv_frame : 0 <= ep_frame_id front ->
    exists f, findFrame (ep_frame_id front) b = Some f /\
      (has_image f = true ->
       exists id g, id <> ep_frame_id front /\ findFrame id b = Some g /\ has_image g = true);
  (** gate 4: the watermark survives its removal *)
  pv_watermark : wm < count_video (sb_packets b);
}.

Lemma canPublish_video_iff (wm : Z) (b : StreamBuffer) (front : EncodedPacket)
    (rest : list (option EncodedPacket)) :
  sb_wf b -> 0 < wm -> sb_packets b = Some front :: rest -> ep_media_type front = Video ->
  canPublishLocked wm b = true <-> publishable_video wm b front.
Proof.
  intros Hwf Hwm Hpk Hv. unfold canPublishLocked. rewrite Hpk.
  assert ((wm =? 0) = false) as -> by lia.
  pose proof (wf_count b Hwf) as Hc. rewrite Hpk, count_video_cons in Hc. simpl in Hc.
  rewrite (bool_decide_true (ep_media_type front = Video)) in Hc by done.
  pose proof (count_video_nonneg rest).
  assert ((sb_video_packet_count b =? 0) = false) as -> by lia.
  rewrite bool_decide_false by congruence.
  assert (sb_video_packet_count b = count_video (sb_packets b)) as Hcount
    by apply (wf_count b Hwf).
  set (id := ep_frame_id front). split.
  - match goal with |- (if ?x then _ else if ?y then _ else if ?z then _ else _) = _ -> _ =>
      destruct x eqn:G1; [done|]; destruct y eqn:G2; [done|]; destruct z eqn:G3; [done|] end.
    intros Hcp%Z.ltb_lt.
    split; [| |by rewrite <- Hcount].
    + intros i Hi. rewrite Hi in G1. fold id. bool_crush. lia.
    + fold id. intros H0. assert ((0 <=? id) = true) as E by lia. rewrite E in G2, G3. simpl in G2, G3.
      destruct (sb_frames b !! id) as [p|] eqn:Ep; [|done].
      destruct (wf_frames b Hwf id p Ep) as (f & Hf & _).
      assert (sb_frame_at b id = Some (p, f)) as Hfa by by apply sb_frame_at_Some.
      exists f. split; [apply findFrame_Some; eauto|]. intros Hi.
      rewrite Hfa, Hi in G3. simpl in G3. apply negb_false_iff, hasDecodedFrame_spec in G3
        as (i & g & Hne & ? & ?). exists i, g. split_and!; try done. congruence.
  - intros [P1 P2 P4]. fold id in P1, P2.
    assert ((match inferringFrameIdLocked b with
             | Some i => (id <? 0) || (i <=? id) | None => false end) = false) as ->.
    { destruct (inferringFrameIdLocked b) as [i|]; [|done].
      specialize (P1 i eq_refl). apply orb_false_iff. lia. }
    destruct (Z.leb_spec 0 id) as [H0|H0]; simpl; [|by apply Z.ltb_lt; rewrite Hcount].
    destruct (P2 H0) as (f & (p & Hfa)%findFrame_Some & Hother).
    pose proof Hfa as [-> _]%sb_frame_at_Some. rewrite Hfa.
    destruct (has_image f) eqn:Hi; simpl; [|by apply Z.ltb_lt; rewrite Hcount].
    destruct (Hother eq_refl) as (i & g & Hne & Hg & Hgi).
    assert (hasDecodedFrameLocked (Some id) b = true) as ->.
    { apply hasDecodedFrame_spec. exists i, g. split_and!; try done. congruence. }
    by apply Z.ltb_lt; rewrite Hcount.
Qed.

(** on a well-formed buffer with a video packet in front and a positive
    watermark, [waitForPublishable] succeeds exactly when the buffer is not stopped
    and the packet passes the four gates: it precedes the frame under inference,
    its own frame has been enqueued, releasing that frame leaves another decoded
    one, and more than [wm] video packets are queued. *)
Theorem waitForPublishable_video (wm : Z) (b : StreamBuffer) (front : EncodedPacket)
    (rest : list (option EncodedPacket)) :
  sb_wf b -> 0 < wm -> sb_packets b = Some front :: rest -> ep_media_type front = Video ->
  waitForPublishable wm b = true <-> sb_stopped b = false /\ publishable_video wm b front.
Proof.
  intros Hwf Hwm Hpk Hv. rewrite <- (canPublish_video_iff wm b front rest) by done.
  unfold waitForPublishable, publish_ready.
  by destruct (sb_stopped b), (canPublishLocked wm b); simpl; split; intros; destruct_and?.
Qed.

Lemma findFrame_release b id i :
  findFrame i (releaseFrame id b) = if bool_decide (i = id) then None else findFrame i b.
Proof.
  unfold findFrame, sb_frame_at. simpl. case_bool_decide as H.
  - subst. by rewrite lookup_delete_eq.
  - by rewrite lookup_delete_ne by congruence.
Qed.

Lemma findFrame_pop b i : findFrame i (popPacket b) = findFrame i b.
Proof. unfold popPacket. by destruct (sb_packets b). Qed.

(** Publishing a video packet that passed the gates (pop it, then release its
    frame) leaves at least [wm] video packets queued, leaves a decoded frame for
    inference whenever it releases one, and never releases the frame the buffer
    reports as under inference. *)
Theorem publish_safe (wm : Z) (b : StreamBuffer) (front : EncodedPacket)
    (rest : list (option EncodedPacket)) :
  sb_wf b -> 0 < wm -> sb_packets b = Some front :: rest -> ep_media_type front = Video ->
  0 <= ep_frame_id front -> canPublishLocked wm b = true ->
  let b' := releaseFrame (ep_frame_id front) (popPacket b) in
  wm <= count_video (sb_packets b') /\
  (forall f, findFrame (ep_frame_id front) b = Some f -> has_image f = true ->
     hasDecodedFrameLocked None b' = true) /\
  (forall i, inferringFrameIdLocked b = Some i -> findFrame i b' = findFrame i b).
Proof.
  intros Hwf Hwm Hpk Hv Hid Hcp b'.
  apply (canPublish_video_iff wm b front rest) in Hcp as [P1 P2 P4]; try done.
  split_and!.
  - unfold b'. simpl. unfold popPacket. rewrite Hpk in *. simpl.
    rewrite count_video_cons in P4. destruct (is_video _); lia.
  - intros f Hf Hi. apply hasDecodedFrame_spec.
    destruct (P2 Hid) as (f' & Hf' & Hother). assert (f' = f) as -> by congruence.
    destruct (Hother Hi) as (i & g & Hne & Hg & Hgi). exists i, g. split_and!; try done.
    unfold b'. by rewrite findFrame_release, bool_decide_false, findFrame_pop by done.
  - intros i Hi. unfold b'. specialize (P1 i Hi).
    by rewrite findFrame_release, bool_decide_false, findFrame_pop by lia.
Qed.

(** ** Cached results *)

Definition pts_distance (pts : Z) (r : FrameInferenceResult) : Z := Z.abs (fr_pts r - pts).

(** The result is close enough to [pts] to be attached to that packet. *)
Definition pts_candidate (pts : Z) (r : FrameInferenceResult) : Prop :=
  0 <= fr_pts r /\ pts_distance pts r <= kCachedInferenceMatchWindowPts.

(** The cached result under [id], unless it has expired at [now]. *)
Definition live_result (b : StreamBuffer) (now id : Z) (r : FrameInferenceResult) : Prop :=
  sb_cached b !! id = Some r /\ now <= fr_expire_at_mono_ms r.

Lemma best_match_spec pts l : forall m d,
  (best_match pts l m d = m /\
   forall id r, (id, r) ∈ l -> pts_candidate pts r -> d <= pts_distance pts r) \/
  (exists id r, (id, r) ∈ l /\ best_match pts l m d = Some id /\ pts_candidate pts r /\
     pts_distance pts r < d /\
     forall i s, (i, s) ∈ l -> pts_candidate pts s -> pts_distance pts r <= pts_distance pts s).
Proof.
  induction l as [|[id r] l IH]; intros m d; simpl.
  { left. split; [done|]. by intros ? ? ?%elem_of_nil. }
  assert ((if pts <=? fr_pts r then fr_pts r - pts else pts - fr_pts r) = pts_distance pts r) as ->.
  { unfold pts_distance. destruct (Z.leb_spec pts (fr_pts r)); lia. }
  set (dr := pts_distance pts r) in *.
  destruct (Z.ltb_spec (fr_pts r) 0) as [Hneg|Hpos];
    [|destruct (Z.leb_spec dr kCachedInferenceMatchWindowPts) as [Hw|Hw];
      [destruct (Z.ltb_spec dr d) as [Hd|Hd]|]]; simpl.
  2: { right. destruct (IH (Some id) dr) as [[-> Hmin]|(i & s & Hin & -> & Hc & Hlt & Hmin)].
       - exists id, r. split_and!; try done; [constructor|].
         intros i s [[= <- <-]|Hin]%elem_of_cons Hs; [lia|]. by apply (Hmin i s).
       - exists i, s. split_and!; try done; [by constructor|lia|].
         intros j t [[= <- <-]|Hj]%elem_of_cons Ht; [fold dr; lia|]. by apply (Hmin j t). }
  all: destruct (IH m d) as [[-> Hmin]|(i & s & Hin & -> & Hc & Hlt & Hmin)];
    [left; split; [done|]; intros j t [[= -> ->]|Hj]%elem_of_cons Ht;
      [unfold pts_candidate in Ht; fold dr in Ht; lia|by apply (Hmin j t)]
    |right; exists i, s; split_and!; try done; [by constructor|];
      intros j t [[= -> ->]|Hj]%elem_of_cons Ht;
      [unfold pts_candidate in Ht; fold dr in Ht; lia|by apply (Hmin j t)]].
Qed.

(** The outcome of one [takeCachedInferenceResult]. *)
Inductive taken (frame_id pts now : Z) (b : StreamBuffer) : option FrameInferenceResult -> StreamBuffer -> Prop :=
| taken_by_pts id r c :
    live_result b now id r -> 0 <= pts -> pts_candidate pts r ->
    (forall i s, live_result b now i s -> pts_candidate pts s -> pts_distance pts r <= pts_distance pts s) ->
    (forall i s, c !! i = Some s <-> i <> id /\ live_result b now i s) ->
    taken frame_id pts now b (Some r) (sb_with_cached c b)
| taken_by_id r c :
    (0 <= pts -> forall i s, live_result b now i s -> ~ pts_candidate pts s) ->
    live_result b now frame_id r -> 0 <= frame_id ->
    (forall i s, c !! i = Some s <-> i <> frame_id /\ live_result b now i s) ->
    taken frame_id pts now b (Some r) (sb_with_cached c b)
| taken_none c :
    (0 <= pts -> forall i s, live_result b now i s -> ~ pts_candidate pts s) ->
    (0 <= frame_id -> forall r, ~ live_result b now frame_id r) ->
    (forall i s, c !! i = Some s <-> live_result b now i s) ->
    taken frame_id pts now b None (sb_with_cached c b).

Lemma purge_lookup now b i s :
  sb_cached (purgeExpiredCachedInferenceResultsLocked now b) !! i = Some s <-> live_result b now i s.
Proof. simpl. rewrite map_lookup_filter_Some. done. Qed.

(** [takeCachedInferenceResult] answers and leaves what [taken] says. *)
Lemma takeCached_taken (iter : gmap Z FrameInferenceResult -> list (Z * FrameInferenceResult))
    (frame_id pts now : Z) (b : StreamBuffer) :
  (forall m, iter m ≡ₚ map_to_list m) ->
  taken frame_id pts now b (takeCachedInferenceResult iter frame_id pts now b).1
    (takeCachedInferenceResult iter frame_id pts now b).2.
Proof.
  intros Hiter. unfold takeCachedInferenceResult.
  set (c := sb_cached (purgeExpiredCachedInferenceResultsLocked now b)).
  assert (forall i s, c !! i = Some s <-> live_result b now i s) as Hc by apply purge_lookup.
  assert (forall i s, (i, s) ∈ iter c <-> live_result b now i s) as Hin.
  { intros i s. by rewrite Hiter, elem_of_map_to_list, Hc. }
  change (purgeExpiredCachedInferenceResultsLocked now b) with (sb_with_cached c b). clearbody c. simpl.
  assert (forall id, (exists r, c !! id = Some r /\ live_result b now id r) \/
            (c !! id = None /\ forall r, ~ live_result b now id r)) as Hcase.
  { intros id. destruct (c !! id) as [r|] eqn:E; [left; exists r; by rewrite <- Hc|].
    right. split; [done|]. intros r. rewrite <- Hc. congruence. }
  assert (forall id i s, delete id c !! i = Some s <-> i <> id /\ live_result b now i s) as Hdel.
  { intros id i s. rewrite lookup_delete_Some, Hc. split; by intros [? ?]. }
  assert ((0 <= pts -> forall i s, live_result b now i s -> ~ pts_candidate pts s) ->
    let r := match (if 0 <=? frame_id then
        match c !! frame_id with Some _ => Some frame_id | None => None end else None) with
      | Some id => match c !! id with
                   | Some result => (Some result, sb_with_cached (delete id c) (sb_with_cached c b))
                   | None => (None, sb_with_cached c b) end
      | None => (None, sb_with_cached c b) end in
    taken frame_id pts now b r.1 r.2) as Hfall.
  { intros Hno. destruct (Z.leb_spec 0 frame_id); [|simpl; apply taken_none; [done|lia|done]].
    destruct (Hcase frame_id) as [(r & E & Hr)|[E Hr]]; rewrite E; simpl; rewrite ?E; simpl.
    - exact (taken_by_id frame_id pts now b r (delete frame_id c) Hno Hr H (Hdel _)).
    - by apply taken_none. }
  destruct (Z.leb_spec 0 pts) as [Hp|Hp]; [|apply Hfall; lia].
  destruct (best_match_spec pts (iter c) None (kCachedInferenceMatchWindowPts + 1))
    as [[-> Hmin]|(id & r & Hir & -> & Hcand & _ & Hmin)].
  - apply Hfall. intros _ i s Hi Hs. pose proof (Hmin i s (proj2 (Hin i s) Hi) Hs). destruct Hs. lia.
  - apply Hin in Hir. pose proof (proj2 (Hc id r) Hir) as E. rewrite E. simpl.
    refine (taken_by_pts frame_id pts now b id r (delete id c) Hir Hp Hcand _ (Hdel _)).
    intros i s Hi. apply (Hmin i s). by apply Hin.
Qed.

(** Whatever the traversal order of the [unordered_map], a result is taken by
    presentation time when an unexpired one lies within the 100 ms window - and then
    it is one of the nearest - otherwise by frame id, otherwise nothing is
    returned; expired results are never returned, the returned one is consumed, and
    every other unexpired result stays. *)
Theorem takeCached_spec (iter : gmap Z FrameInferenceResult -> list (Z * FrameInferenceResult))
    (frame_id pts now : Z) (b : StreamBuffer) :
  (forall m, iter m ≡ₚ map_to_list m) ->
  taken frame_id pts now b (takeCachedInferenceResult iter frame_id pts now b).1
    (takeCachedInferenceResult iter frame_id pts now b).2.
Proof. exact (takeCached_taken iter frame_id pts now b). Qed.

(** ** A queued packet whose frame never arrives *)

(** The calls that neither publish nor file a frame under [id]. *)
Definition leaves_front (id : Z) (c : sb_call) : Prop :=
  match c with
  | CallPopPacket => False
  | CallEnqueueFrame (Some f) => fb_frame_id f <> id
  | _ => True
  end.

Lemma mark_others_done_fields sel order b :
  sb_packets (mark_others_done sel order b) = sb_packets b /\
  sb_frames (mark_others_done sel order b) = sb_frames b.
Proof. by destruct (mark_others_done_with_store sel order b) as [st ->]. Qed.

(** The head of the queue is a video packet whose frame is not in the buffer. *)
Definition front_waits (front : EncodedPacket) (b : StreamBuffer) : Prop :=
  head (sb_packets b) = Some (Some front) /\ sb_frames b !! ep_frame_id front = None.

Lemma front_waits_apply front c b :
  leaves_front (ep_frame_id front) c -> front_waits front b -> front_waits front (sb_apply c b).
Proof.
  unfold front_waits. intros Hc [Hp Hf]. destruct c; simpl in *; try done.
  - unfold enqueuePacket. destruct p; simpl; [|done]. destruct (sb_stopped b); [done|]. simpl.
    by destruct (sb_packets b).
  - unfold enqueueFrame. destruct f as [f|]; simpl; [|done]. destruct (sb_stopped b); [done|]. simpl.
    by rewrite lookup_insert_ne by done.
  - unfold selectFrameForInference. destruct (latest_idle _ _) as [q|]; [|done]. simpl.
    by destruct (mark_others_done_fields q (sb_frame_order b) (sb_set_state q Selected b)) as [-> ->].
  - unfold markInferenceRunning, clearInferenceSelection. by destruct (sb_frame_at b id) as [[??]|].
  - unfold markInferenceDone, clearInferenceSelection. by destruct (sb_frame_at b _) as [[??]|].
  - unfold clearInferenceSelection. by destruct (sb_frame_at b _) as [[??]|].
  - split; [done|]. destruct (decide (id = ep_frame_id front)) as [->|]; [by rewrite lookup_delete_eq|].
    by rewrite lookup_delete_ne by done.
  - unfold updateCachedInferenceResult. by destruct (_ <? _).
  - unfold takeCachedInferenceResult. by repeat case_match.
Qed.

Lemma front_waits_blocked wm front b :
  sb_wf b -> 0 < wm -> ep_media_type front = Video -> 0 <= ep_frame_id front ->
  front_waits front b -> canPublishLocked wm b = false.
Proof.
  intros Hwf Hwm Hv Hid [Hp Hf]. destruct (sb_packets b) as [|p rest] eqn:E; simplify_eq/=.
  apply not_true_is_false. intros Hcp.
  apply (canPublish_video_iff wm b front rest) in Hcp as [_ Hfr _]; try done.
  destruct (Hfr Hid) as (f & (p & [? _]%sb_frame_at_Some)%findFrame_Some & _). congruence.
Qed.

Lemma front_waits_run (wm : Z) (front : EncodedPacket) (b : StreamBuffer)
    (cs : list sb_call) :
  sb_wf b -> 0 < wm -> ep_media_type front = Video -> 0 <= ep_frame_id front ->
  front_waits front b -> Forall (leaves_front (ep_frame_id front)) cs ->
  waitForPublishable wm (sb_run cs b) = false /\ peekPacket (sb_run cs b) = Some front.
Proof.
  intros Hwf Hwm Hv Hid Hfw Hcs. unfold sb_run. revert b Hwf Hfw Hcs.
  induction cs as [|c cs IH]; intros b Hwf Hfw Hcs; simpl.
  - unfold waitForPublishable, publish_ready. rewrite (front_waits_blocked wm front b) by done.
    rewrite orb_false_r. split; [by destruct (sb_stopped b)|].
    destruct Hfw as [Hp _]. unfold peekPacket. by destruct (sb_packets b); simplify_eq/=.
  - apply Forall_cons in Hcs as [Hc Hcs]. apply IH; auto using sb_apply_wf, front_waits_apply.
Qed.

(** Once a video packet with a frame id reaches the head of the queue without
    its frame in the buffer, publishing is blocked for every continuation in which
    that frame is not enqueued: no packet of the stream, audio included, is
    published again, whatever else the threads of the stream do. *)
Theorem missing_frame_blocks_forever (wm : Z) (front : EncodedPacket) (b : StreamBuffer)
    (cs : list sb_call) :
  sb_wf b -> 0 < wm -> ep_media_type front = Video -> 0 <= ep_frame_id front ->
  front_waits front b -> Forall (leaves_front (ep_frame_id front)) cs ->
  waitForPublishable wm (sb_run cs b) = false /\ peekPacket (sb_run cs b) = Some front.
Proof. apply front_waits_run. Qed.

(** ** A concrete run *)

Definition ex_packet (id : Z) : EncodedPacket :=
  mkEncodedPacket Video None 0 (id * 3600) (id * 3600) 3600 (id * 40) (id =? 0) id 0.
Definition ex_frame (id : Z) (decoded : bool) : FrameBundle :=
  mkFrameBundle "s" id (id * 3600) (id * 3600) 3600 (id * 40) (id =? 0) 64 48 25 0 0 AV_CODEC_ID_H264
    (if decoded then Some (mkDmaImage 3 None 4608 64 48 64 48 0) else None) Idle.
Definition ex_result (id pts expire : Z) : FrameInferenceResult :=
  mkFrameInferenceResult "s" id pts "a" [] [] 0 0 expire.

(** Two packets and their frames are queued, then the newest frame is selected. *)
Definition ex_calls : list sb_call :=
  [ CallEnqueuePacket (Some (ex_packet 0)); CallEnqueueFrame (Some (ex_frame 0 true));
    CallEnqueuePacket (Some (ex_packet 1)); CallEnqueueFrame (Some (ex_frame 1 true)); CallSelect;
    CallUpdateCached (ex_result 0 100 50); CallUpdateCached (ex_result 1 9500 50) ].
Definition ex_buffer : StreamBuffer := sb_run ex_calls (createStreamBuffer "s").

Lemma ex_buffer_wf : sb_wf ex_buffer.
Proof. apply sb_run_wf, sb_wf_new. Qed.

Lemma selectFrame_spec_witness :
  sb_wf ex_buffer /\ 
  match selectFrameForInference ex_buffer with
  | (None, b') => b' = ex_buffer /\ forall id, selectable ex_buffer id = false
  | (Some p, b') => exists id f, selection ex_buffer b' p id f
  end.
Proof. split; [apply ex_buffer_wf|]. exact (selectFrame_spec ex_buffer ex_buffer_wf). Defined.

Lemma waitForPublishable_video_witness :
  (waitForPublishable 1 ex_buffer = true <->
     sb_stopped ex_buffer = false /\ publishable_video 1 ex_buffer (ex_packet 0)) /\
  waitForPublishable 1 ex_buffer = true.
Proof.
  split; [|by vm_compute].
  exact (waitForPublishable_video 1 ex_buffer (ex_packet 0) [Some (ex_packet 1)] ex_buffer_wf
           eq_refl eq_refl eq_refl).
Defined.

Lemma publish_safe_witness :
  let b' := releaseFrame 0 (popPacket ex_buffer) in
  1 <= count_video (sb_packets b') /\
  (forall f, findFrame 0 ex_buffer = Some f -> has_image f = true -> hasDecodedFrameLocked None b' = true) /\
  (forall i, inferringFrameIdLocked ex_buffer = Some i -> findFrame i b' = findFrame i ex_buffer).
Proof.
  apply (publish_safe 1 ex_buffer (ex_packet 0) [Some (ex_packet 1)] ex_buffer_wf);
    by vm_compute.
Defined.

Lemma takeCached_spec_witness :
  taken 0 9000 10 ex_buffer (Some (ex_result 1 9500 50))
    (takeCachedInferenceResult map_to_list 0 9000 10 ex_buffer).2.
Proof. exact (takeCached_spec map_to_list 0 9000 10 ex_buffer (fun m => Permutation_refl _)). Defined.

(** A reconnect drops the frame of packet 7: the packets behind it stay in the queue. *)
Lemma missing_frame_blocks_forever_witness :
  let b := sb_run [CallEnqueuePacket (Some (ex_packet 7))] (createStreamBuffer "s") in
  waitForPublishable 1 (sb_run [CallEnqueuePacket (Some (ex_packet 8));
      CallEnqueueFrame (Some (ex_frame 8 true)); CallSelect] b) = false /\
  peekPacket (sb_run [CallEnqueuePacket (Some (ex_packet 8));
      CallEnqueueFrame (Some (ex_frame 8 true)); CallSelect] b) = Some (ex_packet 7).
Proof.
  apply (missing_frame_blocks_forever 1 (ex_packet 7)); try by vm_compute.
  - apply sb_run_wf, sb_wf_new.
  - repeat constructor; simpl; lia.
Defined.
