(* ===== verification/BufferSpec.v ===== *)
(** * What a stream buffer promises (src/src/pipeline/StreamBuffer.cpp)

    The specification of [StreamBuffer] its clients rely on: a queue of packets, the list
    of the frames in the order in which they came, the cached results and the stopped flag,
    as plain values.  [view] forgets the rest - the frame objects and the pointers to them,
    the map next to the order, the packet counter - and [buffer_refines_spec] shows that
    every method answers and acts as its specification does on the view.  Buffers with the
    same view ([sb_equiv]) cannot be told apart by their clients. *)
From S2P Require Import Prelude Float32 Messages StreamBuffer.

(** ** Calls that only change inference states *)

(** [b'] is [b] with the state of each frame changed by [st]. *)
Record restated (st : Z -> InferState -> InferState) (b b' : StreamBuffer) : Prop := {
  rs_packets : sb_packets b' = sb_packets b;
  rs_order : sb_frame_order b' = sb_frame_order b;
  rs_frames : sb_frames b' = sb_frames b;
  rs_stopped : sb_stopped b' = sb_stopped b;
  rs_cached : sb_cached b' = sb_cached b;
  rs_stream_id : sb_stream_id b' = sb_stream_id b;
  rs_find id : findFrame id b' = (fun f => fb_set_infer_state (st id (fb_infer_state f)) f) <$> findFrame id b;
}.

Lemma fb_set_same f : fb_set_infer_state (fb_infer_state f) f = f.
Proof. by destruct f. Qed.

Lemma restated_clear id s b :
  sb_wf b -> restated (fun i t => if bool_decide (i = id) then s else t) b (clearInferenceSelection id s b).
Proof.
  intros Hwf. unfold clearInferenceSelection. destruct (sb_frame_at b id) as [[p f]|] eqn:Hp; split; try done.
  - intros i. unfold findFrame. rewrite sb_frame_at_set. destruct (sb_frame_at b i) as [[q g]|] eqn:Hq; [|done].
    cbn. f_equal. case_bool_decide as Hqp; case_bool_decide as Hi; try done.
    + subst q. by destruct Hi; apply (sb_frame_at_inj b i id p g f).
    + subst i. congruence.
    + by rewrite fb_set_same.
  - intros i. unfold findFrame. destruct (sb_frame_at b i) as [[q g]|] eqn:Hq; [|done]. cbn.
    rewrite bool_decide_false by congruence. by rewrite fb_set_same.
Qed.

Lemma selectable_find b id :
  selectable b id = match findFrame id b with Some f => has_image f && is_idle (fb_infer_state f) | None => false end.
Proof. unfold selectable, findFrame. by destruct (sb_frame_at b id) as [[q f]|]. Qed.

Lemma selectable_true b id :
  selectable b id = true <-> exists f, findFrame id b = Some f /\ has_image f = true /\ fb_infer_state f = Idle.
Proof.
  rewrite selectable_find. destruct (findFrame id b) as [f|]; [|split; [done|by intros (? & ? & _)]].
  rewrite andb_true_iff. split.
  - intros [Hi Hs]. exists f. by destruct (fb_infer_state f).
  - intros (g & [= <-] & -> & ->). done.
Qed.

(** A selection takes the newest decoded frame not yet looked at. *)
Definition select_states (l i : Z) (s : InferState) : InferState :=
  if bool_decide (i = l) then Selected else if isInferenceTerminal s then s else Done.

Lemma restated_select b b' q l g : sb_wf b -> selection b b' q l g -> restated (select_states l) b b'.
Proof.
  intros Hwf [Hat _ _ _ Hsel Hothers Hrest]. split; [by rewrite Hrest..|]. intros i. unfold select_states.
  destruct (findFrame i b) as [h|] eqn:Hi; cbn.
  - case_bool_decide as Hil.
    + subst i. rewrite Hsel. f_equal. assert (findFrame l b = Some g) by (apply findFrame_Some; by exists q). congruence.
    + rewrite (Hothers i h Hil Hi). unfold done_unless_terminal.
      destruct (isInferenceTerminal (fb_infer_state h)); [by rewrite fb_set_same|done].
  - unfold findFrame, sb_frame_at in *. rewrite Hrest. cbn.
    destruct (sb_frames b !! i) as [p|] eqn:Hp; [|done]. destruct (wf_frames b Hwf i p Hp) as (h & Hh & _).
    by rewrite Hh in Hi.
Qed.

(** The selected frame, read through its pointer. *)
Lemma selection_frame b b' q l g : selection b b' q l g -> sb_store b' !! q = Some (fb_set_infer_state Selected g).
Proof.
  intros [Hat _ _ _ Hfind _ Hrest]. apply findFrame_Some in Hfind as (q' & Hat').
  apply sb_frame_at_Some in Hat as [Hl _], Hat' as [Hl' Hq']. rewrite Hrest in Hl'. cbn in Hl'. congruence.
Qed.

(** ** The specification *)

Record buffer_view := mkView {
  bv_packets : list (option EncodedPacket);
  bv_frames : list FrameBundle;
  bv_cached : gmap Z FrameInferenceResult;
  bv_stopped : bool;
  bv_stream_id : string;
}.

Definition bv_with_frames (l : list FrameBundle) (v : buffer_view) : buffer_view :=
  mkView (bv_packets v) l (bv_cached v) (bv_stopped v) (bv_stream_id v).
Definition bv_with_cached (c : gmap Z FrameInferenceResult) (v : buffer_view) : buffer_view :=
  mkView (bv_packets v) (bv_frames v) c (bv_stopped v) (bv_stream_id v).
Definition bv_with_packets (l : list (option EncodedPacket)) (v : buffer_view) : buffer_view :=
  mkView l (bv_frames v) (bv_cached v) (bv_stopped v) (bv_stream_id v).

(** The frames changed where the id is [id]. *)
Definition on_frame (id : Z) (h : FrameBundle -> FrameBundle) (l : list FrameBundle) : list FrameBundle :=
  (fun g => if bool_decide (fb_frame_id g = id) then h g else g) <$> l.
Definition frame_of (id : Z) (l : list FrameBundle) : option FrameBundle :=
  head (base.filter (fun g => fb_frame_id g = id) l).

Definition candidate (f : FrameBundle) : bool := has_image f && is_idle (fb_infer_state f).
Definition under_inference (f : FrameBundle) : bool := has_image f && isInferring (fb_infer_state f).

(** The newest candidate is selected and the others are finished. *)
Definition spec_select (v : buffer_view) : option FrameBundle * buffer_view :=
  match last (base.filter (fun f => candidate f = true) (bv_frames v)) with
  | None => (None, v)
  | Some f =>
      (Some (fb_set_infer_state Selected f),
       bv_with_frames
         ((fun g => if bool_decide (fb_frame_id g = fb_frame_id f) then fb_set_infer_state Selected g
                    else done_unless_terminal g) <$> bv_frames v) v)
  end.

(** A result is taken from the unexpired ones, the nearest in time within the window or the
    one of the frame. *)
Definition spec_take (iter : gmap Z FrameInferenceResult -> list (Z * FrameInferenceResult)) (frame_id pts now : Z)
    (c : gmap Z FrameInferenceResult) : option FrameInferenceResult * gmap Z FrameInferenceResult :=
  let live := base.filter (fun e => now <= fr_expire_at_mono_ms e.2) c in
  let near := if 0 <=? pts then best_match pts (iter live) None (kCachedInferenceMatchWindowPts + 1) else None in
  let key := match near with Some id => Some id | None => if 0 <=? frame_id then Some frame_id else None end in
  match key with
  | None => (None, live)
  | Some id => (live !! id, delete id live)
  end.

(** What a call answers. *)
Inductive answer :=
| Accepted (ok : bool)
| Selects (f : option FrameBundle)
| Takes (r : option FrameInferenceResult)
| Nothing.

Definition spec_apply (c : sb_call) (v : buffer_view) : answer * buffer_view :=
  match c with
  | CallEnqueuePacket p =>
      if bv_stopped v || bool_decide (p = None) then (Accepted false, v)
      else (Accepted true, bv_with_packets (bv_packets v ++ [p]) v)
  | CallEnqueueFrame None => (Accepted false, v)
  | CallEnqueueFrame (Some f) =>
      if bv_stopped v then (Accepted false, v)
      else (Accepted true, bv_with_frames (on_frame (fb_frame_id f) (fun _ => f) (bv_frames v) ++ [f]) v)
  | CallSelect => let '(f, v) := spec_select v in (Selects f, v)
  | CallMarkRunning id => (Nothing, bv_with_frames (on_frame id (fb_set_infer_state Running) (bv_frames v)) v)
  | CallMarkDone r => (Nothing, bv_with_frames (on_frame (fr_frame_id r) (fb_set_infer_state Done) (bv_frames v)) v)
  | CallClear id s => (Nothing, bv_with_frames (on_frame id (fb_set_infer_state s) (bv_frames v)) v)
  | CallPopPacket => (Nothing, bv_with_packets (tail (bv_packets v)) v)
  | CallReleaseFrame id =>
      (Nothing, bv_with_cached (delete id (bv_cached v))
                  (bv_with_frames (base.filter (fun g => fb_frame_id g <> id) (bv_frames v)) v))
  | CallUpdateCached r =>
      (Nothing, if fr_frame_id r <? 0 then v else bv_with_cached (<[fr_frame_id r := r]> (bv_cached v)) v)
  | CallTakeCached iter frame_id pts now =>
      let '(r, c) := spec_take iter frame_id pts now (bv_cached v) in (Takes r, bv_with_cached c v)
  | CallStop => (Nothing, mkView (bv_packets v) (bv_frames v) (bv_cached v) true (bv_stream_id v))
  end.

(** Whether the front packet may go out: nothing to wait for, or a video packet strictly
    before the first frame under inference, whose frame is there and is not the only decoded
    one, with more than [wm] video packets queued. *)
Definition spec_publishable (wm : Z) (v : buffer_view) : bool :=
  match bv_packets v with
  | [] => false
  | front :: _ =>
      (wm =? 0) || (count_video (bv_packets v) =? 0) ||
      match front with
      | None => true
      | Some p =>
          bool_decide (ep_media_type p = Audio) ||
          let id := ep_frame_id p in
          match head (base.filter (fun f => under_inference f = true) (bv_frames v)) with
          | Some f => (0 <=? id) && (id <? fb_frame_id f)
          | None => true
          end &&
          ((id <? 0) ||
           match frame_of id (bv_frames v) with
           | None => false
           | Some f => negb (has_image f) ||
                       existsb (fun g => bool_decide (fb_frame_id g <> id) && has_image g) (bv_frames v)
           end) &&
          (wm <? count_video (bv_packets v))
      end
  end.

(** ** The view of a buffer *)

Definition view (b : StreamBuffer) : buffer_view :=
  mkView (sb_packets b) (omap (fun id => findFrame id b) (sb_frame_order b)) (sb_cached b) (sb_stopped b) (sb_stream_id b).

(** What a call of the buffer answers; a selected frame is read through its pointer. *)
Definition sb_answer (c : sb_call) (b : StreamBuffer) : answer :=
  match c with
  | CallEnqueuePacket p => Accepted (enqueuePacket p b).1
  | CallEnqueueFrame f => Accepted (enqueueFrame f b).1
  | CallSelect => let '(p, b) := selectFrameForInference b in Selects (p ≫= fun p => sb_store b !! p)
  | CallTakeCached iter frame_id pts now => Takes (takeCachedInferenceResult iter frame_id pts now b).1
  | _ => Nothing
  end.

(** ** Frames of a view *)

Lemma enqueueFrame_find f b i :
  sb_wf b -> sb_stopped b = false ->
  findFrame i (enqueueFrame (Some f) b).2 = if bool_decide (i = fb_frame_id f) then Some f else findFrame i b.
Proof.
  intros Hwf Hs. unfold findFrame, enqueueFrame, sb_frame_at. rewrite Hs. cbn.
  assert (Hfresh : sb_store b !! fresh (dom (sb_store b)) = None) by (apply not_elem_of_dom, is_fresh).
  set (q := fresh (dom (sb_store b))) in *. clearbody q. case_bool_decide as Hi.
  - subst i. by rewrite !lookup_insert_eq.
  - rewrite lookup_insert_ne by done. destruct (sb_frames b !! i) as [p|] eqn:Hp; [|done].
    destruct (wf_frames b Hwf i p Hp) as (g & Hg & _). by rewrite lookup_insert_ne by congruence.
Qed.

Lemma findFrame_id b id f : sb_wf b -> findFrame id b = Some f -> fb_frame_id f = id.
Proof. intros Hwf (p & Hp)%findFrame_Some. by eapply sb_frame_at_wf. Qed.

Lemma view_frame_in b f : sb_wf b -> f ∈ bv_frames (view b) <-> findFrame (fb_frame_id f) b = Some f.
Proof.
  intros Hwf. cbn. rewrite list_elem_of_omap. split.
  - intros (id & _ & Hf). by rewrite (findFrame_id b id f Hwf Hf).
  - intros Hf. exists (fb_frame_id f). split; [|done]. apply (wf_order b Hwf).
    apply findFrame_Some in Hf as (p & [Hp _]%sb_frame_at_Some). by exists p.
Qed.

Lemma frame_of_view b id : sb_wf b -> frame_of id (bv_frames (view b)) = findFrame id b.
Proof.
  intros Hwf. unfold frame_of. destruct (base.filter _ (bv_frames (view b))) as [|f l] eqn:E.
  - destruct (findFrame id b) as [f|] eqn:Hf; [|done]. pose proof (findFrame_id b id f Hwf Hf) as Hid.
    assert (f ∈ base.filter (fun g => fb_frame_id g = id) (bv_frames (view b))) as Hin.
    { apply list_elem_of_filter. split; [done|]. apply view_frame_in; [done|]. by rewrite Hid. }
    rewrite E in Hin. by apply elem_of_nil in Hin.
  - assert (f ∈ base.filter (fun g => fb_frame_id g = id) (bv_frames (view b))) as Hin by (rewrite E; left).
    apply list_elem_of_filter in Hin as [Hid Hin]. apply view_frame_in in Hin; [|done]. cbn. by rewrite <- Hid.
Qed.

Lemma omap_cons {A B} (k : A -> option B) (x : A) (l : list A) :
  omap k (x :: l) = match k x with Some y => y :: omap k l | None => omap k l end.
Proof. done. Qed.

Lemma omap_fmap_each {A B} (k k' : A -> option B) (h : B -> B) (l : list A) :
  (forall x, x ∈ l -> k' x = h <$> k x) -> omap k' l = h <$> omap k l.
Proof.
  induction l as [|x l IH]; intros Hk; [done|]. cbn. rewrite Hk by left.
  rewrite IH by (intros y Hy; apply Hk; by right). by destruct (k x).
Qed.

Lemma view_restated st b b' :
  sb_wf b -> restated st b b' ->
  view b' = bv_with_frames ((fun f => fb_set_infer_state (st (fb_frame_id f) (fb_infer_state f)) f) <$> bv_frames (view b)) (view b).
Proof.
  intros Hwf Hr. unfold view, bv_with_frames. cbn. rewrite (rs_packets _ _ _ Hr), (rs_order _ _ _ Hr),
    (rs_stopped _ _ _ Hr), (rs_cached _ _ _ Hr), (rs_stream_id _ _ _ Hr). f_equal.
  apply omap_fmap_each. intros id _. rewrite (rs_find _ _ _ Hr). destruct (findFrame id b) as [f|] eqn:Hf; [|done].
  cbn. by rewrite (findFrame_id b id f Hwf Hf).
Qed.

Lemma view_clear b id s :
  sb_wf b -> view (clearInferenceSelection id s b) =
               bv_with_frames (on_frame id (fb_set_infer_state s) (bv_frames (view b))) (view b).
Proof.
  intros Hwf. rewrite (view_restated _ _ _ Hwf (restated_clear id s b Hwf)). f_equal. apply list_fmap_ext.
  intros _ f _. case_bool_decide; [done|]. apply fb_set_same.
Qed.

Lemma view_release b id :
  sb_wf b -> view (releaseFrame id b) = (spec_apply (CallReleaseFrame id) (view b)).2.
Proof.
  intros Hwf. unfold view. cbn. unfold bv_with_cached, bv_with_frames. cbn. f_equal.
  induction (sb_frame_order b) as [|i l IH]; [done|]. rewrite filter_cons, omap_cons.
  case_decide as Hi; [rewrite omap_cons, findFrame_release, bool_decide_false, IH by done|rewrite IH];
    (destruct (findFrame i b) as [f|] eqn:Hf; [|done]); rewrite filter_cons, (findFrame_id b i f Hwf Hf);
    by case_decide.
Qed.

Lemma view_enqueueFrame b f :
  sb_wf b -> sb_stopped b = false ->
  view (enqueueFrame (Some f) b).2 =
    bv_with_frames (on_frame (fb_frame_id f) (fun _ => f) (bv_frames (view b)) ++ [f]) (view b).
Proof.
  intros Hwf Hs. pose proof (fun i => enqueueFrame_find f b i Hwf Hs) as Hfind.
  assert (E : sb_packets (enqueueFrame (Some f) b).2 = sb_packets b /\
              sb_frame_order (enqueueFrame (Some f) b).2 = sb_frame_order b ++ [fb_frame_id f] /\
              sb_cached (enqueueFrame (Some f) b).2 = sb_cached b /\
              sb_stopped (enqueueFrame (Some f) b).2 = sb_stopped b /\
              sb_stream_id (enqueueFrame (Some f) b).2 = sb_stream_id b) by (unfold enqueueFrame; by rewrite Hs).
  set (b' := (enqueueFrame (Some f) b).2) in *. clearbody b'. destruct E as (E1 & E2 & E3 & E4 & E5).
  unfold view, bv_with_frames. cbn. rewrite E1, E2, E3, E4, E5. f_equal. rewrite omap_app. cbn.
  rewrite Hfind, bool_decide_true by done. f_equal. apply omap_fmap_each. intros i Hin. rewrite Hfind.
  destruct (findFrame i b) as [g|] eqn:Hg; cbn.
  - rewrite (findFrame_id b i g Hwf Hg). by case_bool_decide.
  - exfalso. apply (wf_order b Hwf) in Hin as [p Hp]. destruct (wf_frames b Hwf i p Hp) as (g & Hs' & _).
    assert (findFrame i b = Some g) by (apply findFrame_Some; exists p; by apply sb_frame_at_Some). congruence.
Qed.

(** ** Selection and the gates *)

Lemma candidate_selectable b id f : findFrame id b = Some f -> candidate f = selectable b id.
Proof. intros Hf. by rewrite selectable_find, Hf. Qed.

Lemma no_candidates b l :
  Forall (fun i => selectable b i = false) l ->
  base.filter (fun f => candidate f = true) (omap (fun i => findFrame i b) l) = [].
Proof.
  induction 1 as [|i l Hi _ IH]; [done|]. rewrite omap_cons.
  destruct (findFrame i b) as [f|] eqn:Hf; [|done]. rewrite filter_cons, (candidate_selectable b i f Hf), Hi.
  by case_decide.
Qed.

Lemma select_refines b :
  sb_wf b ->
  let '(p, b') := selectFrameForInference b in
  spec_select (view b) = (p ≫= fun p => sb_store b' !! p, view b').
Proof.
  intros Hwf. pose proof (selectFrame_cases b Hwf) as Hcase. pose proof (selectFrame_wf b Hwf) as Hwf'.
  destruct (selectFrameForInference b) as [[p|] b']; cbn in Hwf'.
  - destruct Hcase as (id & f & Hsel). pose proof (restated_select _ _ _ _ _ Hwf Hsel) as Hr.
    pose proof (selection_frame _ _ _ _ _ Hsel) as Hs. destruct Hsel as [Hat Himg Hidle (l1 & l2 & Hord & Hno) _ _ _].
    assert (Hf : findFrame id b = Some f) by (apply findFrame_Some; by exists p).
    pose proof (findFrame_id b id f Hwf Hf) as Hid.
    assert (Hlast : last (base.filter (fun f => candidate f = true) (bv_frames (view b))) = Some f).
    { cbn. rewrite Hord, omap_app, filter_app, omap_cons, Hf, filter_cons, (no_candidates b l2) by done.
      rewrite decide_True by (unfold candidate; by rewrite Himg, Hidle). apply last_snoc. }
    unfold spec_select. rewrite Hlast, (view_restated _ _ _ Hwf Hr). f_equal.
    + cbn. by rewrite Hs.
    + f_equal. apply list_fmap_ext. intros _ g _. rewrite Hid. unfold select_states, done_unless_terminal.
      case_bool_decide; [done|]. destruct (isInferenceTerminal _); [by rewrite fb_set_same|done].
  - destruct Hcase as [-> Hno]. unfold spec_select. cbn [bv_frames view].
    rewrite no_candidates; [done|]. apply Forall_forall. intros i _. apply Hno.
Qed.

Lemma first_inferring_view b l :
  sb_wf b ->
  first_inferring b l =
    fb_frame_id <$> head (base.filter (fun f => under_inference f = true) (omap (fun i => findFrame i b) l)).
Proof.
  intros Hwf. induction l as [|i l IH]; [done|]. rewrite omap_cons. cbn [first_inferring].
  pose proof (findFrame_id b i) as Hid. unfold findFrame in *. destruct (sb_frame_at b i) as [[q f]|]; [|done].
  cbn [fmap option_fmap option_map snd] in *. rewrite filter_cons. 
  case_decide as Hu; unfold under_inference in Hu; destruct (has_image f), (isInferring (fb_infer_state f));
    cbn in *; try done; try (by rewrite IH). by rewrite (Hid f).
Qed.

Lemma hasDecodedFrame_view b id :
  sb_wf b ->
  hasDecodedFrameLocked (Some id) b =
    existsb (fun g => bool_decide (fb_frame_id g <> id) && has_image g) (bv_frames (view b)).
Proof.
  intros Hwf. apply eq_true_iff_eq. rewrite hasDecodedFrame_spec, existsb_exists. split.
  - intros (i & g & Hne & Hg & Hi). pose proof (findFrame_id b i g Hwf Hg) as Hid. exists g.
    rewrite <- list_elem_of_In, view_frame_in, Hid, Hi, bool_decide_true by (done || congruence). done.
  - intros (g & Hin & [Hne Hi]%andb_true_iff). apply list_elem_of_In, view_frame_in in Hin; [|done].
    apply bool_decide_eq_true in Hne. exists (fb_frame_id g), g. split_and!; congruence.
Qed.

Lemma publishable_refines wm b : sb_wf b -> canPublishLocked wm b = spec_publishable wm (view b).
Proof.
  intros Hwf. unfold canPublishLocked, spec_publishable. cbn [bv_packets view]. rewrite (wf_count b Hwf).
  destruct (sb_packets b) as [|front rest] eqn:Hp; [done|]. rewrite <- Hp.
  destruct (wm =? 0); [done|]. destruct (count_video (sb_packets b) =? 0); [done|]. cbn [orb].
  destruct front as [p|]; [|done]. destruct (bool_decide (ep_media_type p = Audio)); [done|]. cbn [orb].
  unfold inferringFrameIdLocked. rewrite (first_inferring_view b _ Hwf). fold (bv_frames (view b)).
  change (omap _ (sb_frame_order b)) with (bv_frames (view b)).
  rewrite (frame_of_view b _ Hwf), <- (hasDecodedFrame_view b _ Hwf).
  set (id := ep_frame_id p). set (first := head _).
  assert (Hat : sb_frames b !! id = None <-> findFrame id b = None).
  { unfold findFrame. rewrite fmap_None. by rewrite (sb_frame_at_None b id Hwf). }
  assert (Hgate2 : (0 <=? id) && match sb_frames b !! id with None => true | Some _ => false end =
            negb ((id <? 0) || match findFrame id b with None => false | Some _ => true end)).
  { rewrite negb_orb, <- Z.leb_antisym. f_equal. destruct (sb_frames b !! id), (findFrame id b); try done; naive_solver. }
  assert (Hgate1 : match fb_frame_id <$> first with Some i => (id <? 0) || (i <=? id) | None => false end =
            negb match first with Some f => (0 <=? id) && (id <? fb_frame_id f) | None => true end).
  { destruct first as [f|]; [|done]. cbn. by rewrite negb_andb, <- Z.ltb_antisym, <- Z.leb_antisym. }
  rewrite Hgate1, Hgate2. unfold findFrame. destruct (match first with Some _ => _ | None => true end); [|done].
  destruct (sb_frame_at b id) as [[q f]|]; cbn.
  - rewrite orb_true_r. cbn. rewrite Z.leb_antisym. destruct (id <? 0), (has_image f), (hasDecodedFrameLocked _ _); done.
  - rewrite orb_false_r, andb_false_r. by destruct (id <? 0).
Qed.

Lemma take_refines iter frame_id pts now b :
  (takeCachedInferenceResult iter frame_id pts now b).1 = (spec_take iter frame_id pts now (sb_cached b)).1 /\
  (takeCachedInferenceResult iter frame_id pts now b).2 =
    sb_with_cached (spec_take iter frame_id pts now (sb_cached b)).2 b.
Proof.
  unfold takeCachedInferenceResult, spec_take. cbn [purgeExpiredCachedInferenceResultsLocked sb_cached sb_with_cached].
  unfold purgeExpiredCachedInferenceResultsLocked. cbn [sb_cached sb_with_cached].
  set (live := base.filter _ (sb_cached b)). set (near := if 0 <=? pts then _ else None).
  destruct near as [id|].
  - destruct (live !! id) eqn:E; [done|]. by rewrite delete_id.
  - destruct (0 <=? frame_id); [|done]. destruct (live !! frame_id) eqn:E; cbn; [by rewrite E|by rewrite delete_id].
Qed.

(** ** The refinement *)

Lemma apply_refines c b : sb_wf b -> spec_apply c (view b) = (sb_answer c b, view (sb_apply c b)).
Proof.
  intros Hwf. destruct c as [p|f| |id|r|id s| |id|r|iter id pts now|]; cbn [spec_apply sb_answer sb_apply].
  - unfold enqueuePacket. destruct p as [p|]; [|by rewrite bool_decide_true, orb_true_r by done].
    rewrite bool_decide_false, orb_false_r by done. cbn [view bv_stopped].
    destruct (sb_stopped b) eqn:Hs; [done|]. unfold view, bv_with_packets. cbn. by rewrite Hs.
  - destruct f as [f|]; [|done]. cbn [view bv_stopped]. destruct (sb_stopped b) eqn:Hs.
    + unfold enqueueFrame. by rewrite Hs.
    + rewrite (view_enqueueFrame b f Hwf Hs). unfold enqueueFrame. by rewrite Hs.
  - pose proof (select_refines b Hwf) as H. destruct (selectFrameForInference b) as [p b']. by rewrite H.
  - unfold markInferenceRunning. by rewrite view_clear.
  - unfold markInferenceDone. by rewrite view_clear.
  - by rewrite view_clear.
  - unfold popPacket. by destruct (sb_packets b) eqn:E; unfold view, bv_with_packets; cbn; rewrite ?E.
  - by rewrite view_release.
  - unfold updateCachedInferenceResult. by destruct (_ <? _).
  - destruct (take_refines iter id pts now b) as [-> ->]. cbn [view bv_cached].
    by destruct (spec_take iter id pts now (sb_cached b)).
  - done.
Qed.

(** A run of calls, with what each answered. *)
Fixpoint sb_answers (cs : list sb_call) (b : StreamBuffer) : list answer :=
  match cs with
  | [] => []
  | c :: cs => sb_answer c b :: sb_answers cs (sb_apply c b)
  end.

Fixpoint spec_run (cs : list sb_call) (v : buffer_view) : list answer * buffer_view :=
  match cs with
  | [] => ([], v)
  | c :: cs =>
      let '(a, v) := spec_apply c v in
      let '(l, v) := spec_run cs v in
      (a :: l, v)
  end.

(** What a client reads of a buffer. *)
Record same_readings (b : StreamBuffer) (v : buffer_view) : Prop := {
  rd_ready wm : canPublishLocked wm b = spec_publishable wm v;
  rd_wait wm : waitForPublishable wm b = negb (bv_stopped v) && spec_publishable wm v;
  rd_peek : peekPacket b = mjoin (head (bv_packets v));
  rd_packets : packetCount b = Z.of_nat (length (bv_packets v));
  rd_frame id : findFrame id b = frame_of id (bv_frames v);
  rd_frames : frameCount b = Z.of_nat (size (list_to_set (C := gset Z) (fb_frame_id <$> bv_frames v)));
}.

Lemma waitForPublishable_and wm b : waitForPublishable wm b = negb (sb_stopped b) && canPublishLocked wm b.
Proof. unfold waitForPublishable, publish_ready. by destruct (sb_stopped b), (canPublishLocked wm b). Qed.

Lemma view_readings b : sb_wf b -> same_readings b (view b).
Proof.
  intros Hwf. split.
  - intros wm. by apply publishable_refines.
  - intros wm. rewrite waitForPublishable_and. by rewrite publishable_refines.
  - unfold peekPacket. cbn. by destruct (sb_packets b) as [|[p|] rest].
  - done.
  - intros id. by rewrite frame_of_view.
  - unfold frameCount. rewrite <- size_dom. do 2 f_equal. apply set_eq. intros id.
    rewrite elem_of_dom, elem_of_list_to_set, list_elem_of_fmap. split.
    + intros [p Hp]. destruct (wf_frames b Hwf id p Hp) as (f & Hs & Hid). exists f. split; [done|].
      apply view_frame_in; [done|]. rewrite Hid. apply findFrame_Some. exists p. by apply sb_frame_at_Some.
    + intros (f & -> & Hf). apply view_frame_in in Hf; [|done].
      apply findFrame_Some in Hf as (p & [Hp _]%sb_frame_at_Some). by exists p.
Qed.

(** C2: The buffer implements its specification: from an empty buffer on, whatever calls its
    threads make in whatever order, each call answers what the specification answers on
    plain lists of packets and frames - no pointers, no map next to the order, no packet
    counter - and what the clients read afterwards (publishable or not, front packet, a
    frame, the counts) is what the specification says. *)
Theorem buffer_refines_spec (stream_id : string) (cs : list sb_call) :
  let b := createStreamBuffer stream_id in
  let '(answers, v) := spec_run cs (mkView [] [] ∅ false stream_id) in
  sb_answers cs b = answers /\ view (sb_run cs b) = v /\ same_readings (sb_run cs b) v.
Proof.
  cut (forall b, sb_wf b -> spec_run cs (view b) = (sb_answers cs b, view (sb_run cs b))).
  { intros H. change (mkView [] [] ∅ false stream_id) with (view (createStreamBuffer stream_id)).
    rewrite H by apply sb_wf_new. split_and!; [done|done|]. apply view_readings, sb_run_wf, sb_wf_new. }
  induction cs as [|c cs IH]; intros b Hwf; [done|]. cbn [spec_run sb_answers]. rewrite apply_refines by done.
  rewrite IH by by apply sb_apply_wf. done.
Qed.

(** ** Buffers that cannot be told apart *)

Record sb_equiv (b b' : StreamBuffer) : Prop := {
  eqv_left : sb_wf b;
  eqv_right : sb_wf b';
  eqv_view : view b = view b';
}.

#[export] Instance sb_equiv_per : RelationClasses.PER sb_equiv.
Proof. split; [by intros b b' [? ? ?]|]. intros b1 b2 b3 [? ? E] [? ? E']. split; [done..|]. by rewrite E. Qed.

Lemma sb_equiv_refl b : sb_wf b -> sb_equiv b b.
Proof. by split. Qed.
#[export] Hint Resolve sb_equiv_refl : media.

#[export] Instance sb_apply_proper : Proper (eq ==> sb_equiv ==> sb_equiv) sb_apply.
Proof.
  intros c _ <- b b' [Hwf Hwf' E]. split; [by apply sb_apply_wf..|].
  pose proof (apply_refines c b Hwf) as H. rewrite E, (apply_refines c b' Hwf') in H. congruence.
Qed.

#[export] Instance sb_answer_proper : Proper (eq ==> sb_equiv ==> eq) sb_answer.
Proof.
  intros c _ <- b b' [Hwf Hwf' E]. pose proof (apply_refines c b Hwf) as H.
  rewrite E, (apply_refines c b' Hwf') in H. congruence.
Qed.

#[export] Instance sb_run_proper : Proper (eq ==> sb_equiv ==> sb_equiv) sb_run.
Proof.
  intros cs _ <-. induction cs as [|c cs IH]; intros b b' Hb; [done|]. cbn. apply IH. by apply sb_apply_proper.
Qed.

#[export] Instance findFrame_proper : Proper (eq ==> sb_equiv ==> eq) findFrame.
Proof.
  intros id _ <- b b' [Hwf Hwf' E]. by rewrite (rd_frame _ _ (view_readings b Hwf)), E, <- (rd_frame _ _ (view_readings b' Hwf')).
Qed.

#[export] Instance waitForPublishable_proper : Proper (eq ==> sb_equiv ==> eq) waitForPublishable.
Proof.
  intros wm _ <- b b' [Hwf Hwf' E]. by rewrite (rd_wait _ _ (view_readings b Hwf)), E, <- (rd_wait _ _ (view_readings b' Hwf')).
Qed.

#[export] Instance peekPacket_proper : Proper (sb_equiv ==> eq) peekPacket.
Proof.
  intros b b' [Hwf Hwf' E]. by rewrite (rd_peek _ _ (view_readings b Hwf)), E, <- (rd_peek _ _ (view_readings b' Hwf')).
Qed.
