(* ===== verification/Scheduler.v ===== *)
(** * RoundRobinInferScheduler (src/src/pipeline/InferScheduler.cpp)

    The scheduler shared by all inference threads: it keeps one entry per stream
    and hands out tasks round robin.  Each method holds [mutex_] for its whole
    body, except that [acquireTask] releases it while it waits, so a method is a
    function of the scheduler and of the stream buffers it points at.

    The buffers are reached through the interface [FrameSource], of which
    [StreamBuffer.selectFrameForInference] is the instance the pipeline uses. *)
From S2P Require Import Prelude Float32 Messages StreamBuffer.

(** What the scheduler asks of an [IStreamBuffer]: take a frame for inference, or
    leave the buffer as it is. *)
Class FrameSource (B F : Type) := {
  fs_select : B -> option F * B;
  fs_select_None b : (fs_select b).1 = None -> (fs_select b).2 = b;
}.

#[export] Instance StreamBuffer_source : FrameSource StreamBuffer frame_ptr.
Proof.
  refine {| fs_select := selectFrameForInference |}.
  intros b. unfold selectFrameForInference. by destruct (latest_idle _ _).
Defined.

(** A non-null [shared_ptr<IStreamBuffer>]. *)
Abbreviation buffer_ptr := positive.

Record Entry := mkEntry {
  en_config : StreamConfig;
  en_buffer : option buffer_ptr;
  en_inflight : bool;
}.
(** What [entries_[stream_id]] creates. *)
Definition Entry_default : Entry := mkEntry StreamConfig_default None false.

Record RoundRobinInferScheduler := mkScheduler {
  rr_entries : gmap string Entry;
  rr_order : list string;
  rr_cursor : nat;                 (* size_t, below [order_.size()] *)
  rr_stopped : bool;
}.

Definition createRoundRobinInferScheduler : RoundRobinInferScheduler := mkScheduler ∅ [] 0 false.

Section Scheduler.
Context {B F : Type} `{FrameSource B F}.

(** The buffers the non-null pointers point at. *)
Abbreviation buffers := (gmap buffer_ptr B).

(** [frame] is null in a fresh [InferTask]. *)
Record InferTask := mkInferTask {
  it_stream_id : string;
  it_config : StreamConfig;
  it_buffer : option buffer_ptr;
  it_frame : option F;
}.
Definition InferTask_default : InferTask := mkInferTask "" StreamConfig_default None None.

Definition upsertStream (stream_id : string) (config : StreamConfig) (buffer : option buffer_ptr)
    (s : RoundRobinInferScheduler) : RoundRobinInferScheduler :=
  let entry := default Entry_default (rr_entries s !! stream_id) in
  mkScheduler (<[stream_id := mkEntry config buffer (en_inflight entry)]> (rr_entries s))
    (if bool_decide (stream_id ∈ rr_order s) then rr_order s else rr_order s ++ [stream_id])
    (rr_cursor s) (rr_stopped s).

Definition removeStream (stream_id : string) (s : RoundRobinInferScheduler)
  : RoundRobinInferScheduler :=
  let order := base.filter (fun id => id <> stream_id) (rr_order s) in
  mkScheduler (delete stream_id (rr_entries s)) order
    (if bool_decide (length order <= rr_cursor s)%nat then 0%nat else rr_cursor s) (rr_stopped s).

Definition set_inflight (v : bool) (e : Entry) : Entry := mkEntry (en_config e) (en_buffer e) v.

Definition completeTask (stream_id : string) (frame_id : Z) (s : RoundRobinInferScheduler)
  : RoundRobinInferScheduler :=
  match rr_entries s !! stream_id with
  | None => s
  | Some e => mkScheduler (<[stream_id := set_inflight false e]> (rr_entries s))
                (rr_order s) (rr_cursor s) (rr_stopped s)
  end.

Definition cancelTask (stream_id : string) (frame_id : Z) (s : RoundRobinInferScheduler)
  : RoundRobinInferScheduler :=
  match rr_entries s !! stream_id with
  | None => s
  | Some e => mkScheduler (<[stream_id := set_inflight false e]> (rr_entries s))
                (rr_order s) (rr_cursor s) (rr_stopped s)
  end.

Definition rr_stop (s : RoundRobinInferScheduler) : RoundRobinInferScheduler :=
  mkScheduler (rr_entries s) (rr_order s) (rr_cursor s) true.

(** What an attempt leaves: the task when one was acquired, the scheduler, the buffers. *)
Definition attempt : Type := option InferTask * RoundRobinInferScheduler * buffers.

(** The scan of [tryAcquireLocked] over the remaining offsets. *)
Fixpoint try_offsets (offsets : list nat) (s : RoundRobinInferScheduler) (w : buffers) : attempt :=
  match offsets with
  | [] => (None, s, w)
  | offset :: rest =>
      let total := length (rr_order s) in
      let index := ((rr_cursor s + offset) mod total)%nat in
      match rr_order s !! index with
      | None => (None, s, w)       (* [index < order_.size()]: never taken *)
      | Some stream_id =>
          match rr_entries s !! stream_id with
          | None => try_offsets rest s w
          | Some e =>
              match en_inflight e, en_buffer e with
              | true, _ => try_offsets rest s w
              | false, None => try_offsets rest s w
              | false, Some p =>
                  match w !! p with
                  | None => try_offsets rest s w       (* a non-null pointer points at a buffer *)
                  | Some b =>
                      match fs_select b with
                      | (None, b') => try_offsets rest s (<[p := b']> w)
                      | (Some frame, b') =>
                          (Some (mkInferTask stream_id (en_config e) (Some p) (Some frame)),
                           mkScheduler (<[stream_id := set_inflight true e]> (rr_entries s))
                             (rr_order s) ((index + 1) mod total)%nat (rr_stopped s),
                           <[p := b']> w)
                      end
                  end
              end
          end
      end
  end.

Definition tryAcquireLocked (s : RoundRobinInferScheduler) (w : buffers) : attempt :=
  match rr_order s with
  | [] => (None, s, w)
  | _ => try_offsets (seq 0 (length (rr_order s))) s w
  end.

(** The wait predicate of [acquireTask]: true when stopped or when it took a task,
    which it writes into the caller's [task]. *)
Definition acquire_pred (task : InferTask) (s : RoundRobinInferScheduler) (w : buffers)
  : bool * InferTask * RoundRobinInferScheduler * buffers :=
  if rr_stopped s then (true, task, s, w)
  else match tryAcquireLocked s w with
       | (Some t, s', w') => (true, t, s', w')
       | (None, s', w') => (false, task, s', w')
       end.

(** [cv_.wait] / [cv_.wait_until] on that predicate: it is evaluated at once and
    again at each wake-up, between which the other threads act on the scheduler and
    the buffers ([env]); the list ends when the deadline passes. *)
Fixpoint acquire_wait (env : list (RoundRobinInferScheduler * buffers -> RoundRobinInferScheduler * buffers))
    (task : InferTask) (s : RoundRobinInferScheduler) (w : buffers)
  : bool * InferTask * RoundRobinInferScheduler * buffers :=
  match acquire_pred task s w with
  | (true, t, s', w') => (true, t, s', w')
  | (false, t, s', w') =>
      match env with
      | [] => (false, t, s', w')
      | e :: env' => let '(s'', w'') := e (s', w') in acquire_wait env' t s'' w''
      end
  end.

(** [acquireTask]: [None] when [timeout_ms] is 0 and the thread is still waiting
    after [env]. *)
Definition acquireTask (timeout_ms : Z)
    (env : list (RoundRobinInferScheduler * buffers -> RoundRobinInferScheduler * buffers))
    (task : InferTask) (s : RoundRobinInferScheduler) (w : buffers)
  : option bool * InferTask * RoundRobinInferScheduler * buffers :=
  if rr_stopped s then (Some false, task, s, w)
  else match tryAcquireLocked s w with
       | (Some t, s', w') => (Some true, t, s', w')
       | (None, s', w') =>
           match acquire_wait env task s' w' with
           | (true, t, s'', w'') =>
               (* without a frame the predicate held because of [stopped_]: the loop ends *)
               (Some (match it_frame t with Some _ => true | None => false end), t, s'', w'')
           | (false, t, s'', w'') =>
               (if timeout_ms =? 0 then None else Some false, t, s'', w'')
           end
       end.

(** ** Well-formedness *)

Record rr_wf (s : RoundRobinInferScheduler) : Prop := {
  (** each stream is scheduled once per round *)
  rr_nodup : NoDup (rr_order s);
  rr_dom id : id ∈ rr_order s <-> is_Some (rr_entries s !! id);
  (** the cursor is an index of the order, or 0 *)
  rr_cursor_ok : (rr_cursor s < length (rr_order s))%nat \/ rr_cursor s = 0%nat;
}.

(** [id] would be served if the scan reached it. *)
Definition eligible (s : RoundRobinInferScheduler) (w : buffers) (id : string) : Prop :=
  exists e p b f b', rr_entries s !! id = Some e /\ en_inflight e = false /\
    en_buffer e = Some p /\ w !! p = Some b /\ fs_select b = (Some f, b').

(** The stream [offset] places after the cursor. *)
Definition at_offset (s : RoundRobinInferScheduler) (offset : nat) : option string :=
  rr_order s !! ((rr_cursor s + offset) mod length (rr_order s))%nat.

(** Serving [id], found [offset] places after the cursor. *)
Record served (s : RoundRobinInferScheduler) (w : buffers) (offset : nat) (t : InferTask)
    (s' : RoundRobinInferScheduler) (w' : buffers) : Prop := {
  sv_at : at_offset s offset = Some (it_stream_id t);
  sv_entry : exists e p b f b',
    rr_entries s !! it_stream_id t = Some e /\ en_inflight e = false /\
    w !! p = Some b /\ fs_select b = (Some f, b') /\
    t = mkInferTask (it_stream_id t) (en_config e) (Some p) (Some f) /\
    rr_entries s' = <[it_stream_id t := set_inflight true e]> (rr_entries s) /\
    w' = <[p := b']> w /\ en_buffer e = Some p;
  sv_order : rr_order s' = rr_order s /\ rr_stopped s' = rr_stopped s;
  sv_cursor : rr_cursor s' = ((rr_cursor s + offset + 1) mod length (rr_order s))%nat;
}.

Lemma at_offset_Some s offset :
  rr_order s <> [] -> exists id, at_offset s offset = Some id.
Proof.
  intros Hne. apply lookup_lt_is_Some. apply Nat.mod_upper_bound.
  by destruct (rr_order s).
Qed.

(** One step of the scan: the stream at this offset is served, or skipped. *)
Lemma try_offsets_cons offset rest s w :
  rr_order s <> [] ->
  (exists t s' w', try_offsets (offset :: rest) s w = (Some t, s', w') /\ served s w offset t s' w') \/
  (try_offsets (offset :: rest) s w = try_offsets rest s w /\
   forall id, at_offset s offset = Some id -> ~ eligible s w id).
Proof.
  intros Hne. destruct (at_offset_Some s offset Hne) as [id Hid]. simpl.
  pose proof Hid as Hid'. unfold at_offset in Hid'. rewrite Hid'.
  destruct (rr_entries s !! id) as [e|] eqn:He;
    [|right; split; [done|]; intros i Hi (e & ? & ? & ? & ? & ? & _); congruence].
  destruct (en_inflight e) eqn:Hf;
    [right; split; [done|]; intros i Hi (e' & ? & ? & ? & ? & ? & ? & _); congruence|].
  destruct (en_buffer e) as [p|] eqn:Hb;
    [|right; split; [done|]; intros i Hi (e' & ? & ? & ? & ? & ? & _ & ? & _); congruence].
  destruct (w !! p) as [b|] eqn:Hw;
    [|right; split; [done|]; intros i Hi (e' & ? & ? & ? & ? & ? & _ & ? & ? & _); congruence].
  destruct (fs_select b) as [[f|] b'] eqn:Hs.
  - left. eexists _, _, _. split; [done|]. split; simpl; try done.
    + exists e, p, b, f, b'. by split_and!.
    + by rewrite Nat.Div0.add_mod_idemp_l.
  - right. assert (b' = b) as ->.
    { pose proof (fs_select_None b) as Hn. rewrite Hs in Hn. by apply Hn. }
    rewrite insert_id by done. split; [done|].
    intros i Hi (e' & p' & b0 & f & b'' & ? & _ & ? & ? & ?).
    assert (i = id) as -> by congruence. simplify_eq. congruence.
Qed.

Lemma try_offsets_spec offsets s w :
  rr_order s <> [] ->
  (exists l1 o l2 t s' w', offsets = l1 ++ o :: l2 /\
     try_offsets offsets s w = (Some t, s', w') /\ served s w o t s' w' /\
     forall o' id, o' ∈ l1 -> at_offset s o' = Some id -> ~ eligible s w id) \/
  (try_offsets offsets s w = (None, s, w) /\
   forall o' id, o' ∈ offsets -> at_offset s o' = Some id -> ~ eligible s w id).
Proof.
  intros Hne. induction offsets as [|o offsets IH].
  { right. split; [done|]. by intros ? ? ?%elem_of_nil. }
  destruct (try_offsets_cons o offsets s w Hne) as [(t & s' & w' & E & Hs)|[E Hno]].
  - left. exists [], o, offsets, t, s', w'. split_and!; try done. by intros ? ? ?%elem_of_nil.
  - rewrite E. destruct IH as [(l1 & o1 & l2 & t & s' & w' & -> & Et & Hs & Hl)|[Et Hl]].
    + left. exists (o :: l1), o1, l2, t, s', w'. split_and!; try done.
      intros o' id [->|Hin]%elem_of_cons; eauto.
    + right. split; [done|]. intros o' id [->|Hin]%elem_of_cons; eauto.
Qed.

Lemma mod_offset (n c i : nat) :
  (i < n)%nat -> (c < n)%nat -> exists o, (o < n)%nat /\ ((c + o) mod n)%nat = i.
Proof.
  intros Hi Hc. destruct (decide (c <= i)%nat).
  - exists (i - c)%nat. split; [lia|]. rewrite Nat.mod_small; lia.
  - exists (n + i - c)%nat. split; [lia|].
    replace (c + (n + i - c))%nat with (i + 1 * n)%nat by lia.
    rewrite Nat.Div0.mod_add, Nat.mod_small; lia.
Qed.

Lemma rr_cursor_lt s : rr_wf s -> rr_order s <> [] -> (rr_cursor s < length (rr_order s))%nat.
Proof. intros [_ _ [?| ->]] Hne; [done|]. destruct (rr_order s); simpl; [done|lia]. Qed.

(** Every stream of the order is [offset] places after the cursor, for some offset. *)
Lemma in_order_offset s id :
  rr_wf s -> id ∈ rr_order s ->
  exists o, (o < length (rr_order s))%nat /\ at_offset s o = Some id.
Proof.
  intros Hwf [i Hi]%list_elem_of_lookup.
  assert (rr_order s <> []) as Hne by by intros E; rewrite E in Hi.
  pose proof (rr_cursor_lt s Hwf Hne).
  destruct (mod_offset (length (rr_order s)) (rr_cursor s) i) as (o & Ho & E); try done.
  { by apply lookup_lt_Some in Hi. }
  exists o. split; [done|]. unfold at_offset. by rewrite E.
Qed.

Lemma eligible_in_order s w id : rr_wf s -> eligible s w id -> id ∈ rr_order s.
Proof. intros Hwf (e & ? & ? & ? & ? & He & _). apply (rr_dom s Hwf). eauto. Qed.

(** [tryAcquireLocked] decided by the offsets of the eligible streams. *)
Lemma tryAcquire_cases s w :
  rr_wf s ->
  (exists o t s' w', tryAcquireLocked s w = (Some t, s', w') /\ (o < length (rr_order s))%nat /\
     served s w o t s' w' /\
     forall o' id, (o' < o)%nat -> at_offset s o' = Some id -> ~ eligible s w id) \/
  (tryAcquireLocked s w = (None, s, w) /\ forall id, ~ eligible s w id).
Proof.
  intros Hwf. unfold tryAcquireLocked.
  destruct (decide (rr_order s = [])) as [E|Hne].
  { right. rewrite E. split; [done|]. intros id Hel.
    apply (eligible_in_order s w id Hwf) in Hel. rewrite E in Hel. by apply elem_of_nil in Hel. }
  destruct (rr_order s) eqn:Eo; [done|]. rewrite <- Eo in *.
  destruct (try_offsets_spec (seq 0 (length (rr_order s))) s w Hne)
    as [(l1 & o & l2 & t & s' & w' & El & Et & Hs & Hl)|[Et Hl]].
  - left. exists o, t, s', w'.
    assert (o = length l1) as ->.
    { assert (seq 0 (length (rr_order s)) !! length l1 = Some o) as Hlk.
      { by rewrite El, list_lookup_middle. }
      apply lookup_seq in Hlk. lia. }
    assert (length l1 < length (rr_order s))%nat.
    { rewrite <- (length_seq (length (rr_order s)) 0), El, length_app. simpl. lia. }
    split_and!; try done. intros o' id Ho'. apply Hl.
    assert (l1 !! o' = Some o') as Hlk.
    { assert (seq 0 (length (rr_order s)) !! o' = Some o') as Hlk by (apply lookup_seq; lia).
      rewrite El, lookup_app_l in Hlk by lia. done. }
    by apply list_elem_of_lookup_2 in Hlk.
  - right. split; [done|]. intros id Hel.
    destruct (in_order_offset s id Hwf) as (o & Ho & Hat); [by apply (eligible_in_order s w)|].
    apply (Hl o id); try done. apply elem_of_seq. lia.
Qed.

(** C21: [tryAcquireLocked] on a well-formed scheduler fails, changing nothing,
    exactly when no stream is eligible; otherwise it serves the first eligible
    stream met from the cursor on, marks it in flight, hands out that entry's
    configuration and buffer with the frame its buffer selected, and leaves the
    cursor just behind it; no other entry, buffer or field changes. *)
Theorem tryAcquireLocked_spec (s : RoundRobinInferScheduler) (w : buffers) :
  rr_wf s ->
  match tryAcquireLocked s w with
  | (Some t, s', w') =>
      exists o, served s w o t s' w' /\
        forall o' id, (o' < o)%nat -> at_offset s o' = Some id -> ~ eligible s w id
  | (None, s', w') => s' = s /\ w' = w /\ forall id, ~ eligible s w id
  end.
Proof.
  intros Hwf. destruct (tryAcquire_cases s w Hwf) as [(o & t & s' & w' & -> & _ & Hs & Hno)|[-> Hno]];
    eauto.
Qed.

(** ** Fairness *)

(** [id] is passed over at [n] consecutive attempts although it is eligible at each;
    between attempts the other threads may do anything but register or remove
    streams. *)
Inductive starved (id : string) : nat -> RoundRobinInferScheduler -> buffers -> Prop :=
| starved_0 s w : starved id 0 s w
| starved_S n s w t s' w' s'' w'' :
    eligible s w id -> tryAcquireLocked s w = (Some t, s', w') -> it_stream_id t <> id ->
    rr_wf s'' -> rr_order s'' = rr_order s' -> rr_cursor s'' = rr_cursor s' ->
    starved id n s'' w'' -> starved id (S n) s w.

Lemma at_offset_shift s s' o d :
  rr_order s' = rr_order s ->
  rr_cursor s' = ((rr_cursor s + o + 1) mod length (rr_order s))%nat -> (o < d)%nat ->
  at_offset s' (d - o - 1) = at_offset s d.
Proof.
  intros Ho Hc Hlt. unfold at_offset. rewrite Ho, Hc, Nat.Div0.add_mod_idemp_l. do 2 f_equal. lia.
Qed.

Lemma starved_distance id n s w d :
  rr_wf s -> starved id n s w -> (d < length (rr_order s))%nat -> at_offset s d = Some id ->
  (n <= d)%nat.
Proof.
  intros Hwf Hst. revert d Hwf. induction Hst as [|n s w t s' w' s'' w'' Hel Htry Hne Hwf'' Ho Hc _ IH];
    intros d Hwf Hd Hat; [lia|].
  destruct (tryAcquire_cases s w Hwf) as [(o & t' & s1 & w1 & E & _ & Hs & Hno)|[E Hno]];
    [|by destruct (Hno id)].
  rewrite Htry in E. simplify_eq. destruct Hs as [Hat' _ [Hord _] Hcur].
  assert (o < d)%nat as Hlt.
  { destruct (lt_eq_lt_dec o d) as [[?| ->]|Hgt]; [done| |].
    - congruence.
    - by destruct (Hno d id Hgt Hat). }
  assert (n <= d - o - 1)%nat; [|lia].
  apply IH; [done|rewrite Ho, Hord; lia|].
  by rewrite (at_offset_shift s) by congruence.
Qed.

(** C36: Round robin is starvation free: among [n] registered streams, an eligible
    one is passed over at most [n - 1] times in a row before it is served. *)
Theorem round_robin_fair (id : string) (n : nat) (s : RoundRobinInferScheduler) (w : buffers) :
  rr_wf s -> eligible s w id -> starved id n s w -> (n < length (rr_order s))%nat.
Proof.
  intros Hwf Hel Hst. apply eligible_in_order in Hel as Hin; [|done].
  destruct (in_order_offset s id Hwf Hin) as (d & Hd & Hat).
  pose proof (starved_distance id n s w d Hwf Hst Hd Hat). lia.
Qed.

(** ** One task in flight per stream *)

Lemma upsert_wf id c p s : rr_wf s -> rr_wf (upsertStream id c p s).
Proof.
  intros [Hn Hd Hc]. split; simpl.
  - case_bool_decide; [done|]. apply NoDup_app. split_and!; [done| |by apply NoDup_singleton].
    by intros x Hx ->%list_elem_of_singleton.
  - intros i. rewrite lookup_insert_is_Some', <- Hd. case_bool_decide as Hin; [naive_solver|].
    rewrite elem_of_app, list_elem_of_singleton. naive_solver.
  - case_bool_decide; [done|]. rewrite length_app. simpl. lia.
Qed.

Lemma remove_wf id s : rr_wf s -> rr_wf (removeStream id s).
Proof.
  intros [Hn Hd Hc]. split; simpl.
  - by apply NoDup_filter.
  - intros i. rewrite list_elem_of_filter, Hd, lookup_delete_is_Some. naive_solver.
  - case_bool_decide; lia.
Qed.

Lemma complete_wf id fid s : rr_wf s -> rr_wf (completeTask id fid s).
Proof.
  intros [Hn Hd Hc]. unfold completeTask. destruct (rr_entries s !! id) as [e|] eqn:E; [|done].
  split; simpl; try done. intros i. rewrite lookup_insert_is_Some', <- Hd. 
  split; [tauto|]. intros [<-|?]; [|done]. apply Hd. eauto.
Qed.

Lemma served_wf s w o t s' w' : rr_wf s -> served s w o t s' w' -> rr_wf s'.
Proof.
  intros Hwf [Hat (e & p & b & f & b' & He & _ & _ & _ & _ & Hent & _) [Ho _] Hc].
  assert (length (rr_order s) <> 0%nat) as Hlen.
  { intros E. unfold at_offset in Hat. apply lookup_lt_Some in Hat. lia. }
  destruct Hwf as [Hn Hd _]. split; rewrite Ho; try done.
  - intros i. rewrite Hent, lookup_insert_is_Some', <- Hd. split; [tauto|].
    intros [<-|?]; [|done]. apply Hd. eauto.
  - left. rewrite Hc. by apply Nat.mod_upper_bound.
Qed.

Lemma tryAcquire_wf s w o s' w' : rr_wf s -> tryAcquireLocked s w = (o, s', w') -> rr_wf s'.
Proof.
  intros Hwf E. destruct (tryAcquire_cases s w Hwf) as [(? & ? & ? & ? & E' & _ & Hs & _)|[E' _]];
    rewrite E' in E; simplify_eq; [by eapply served_wf|done].
Qed.

Lemma tryAcquire_stopped s w o s' w' :
  tryAcquireLocked s w = (o, s', w') -> rr_stopped s' = rr_stopped s.
Proof.
  unfold tryAcquireLocked. destruct (decide (rr_order s = [])) as [Eo|Hne]; [by rewrite Eo; intros ?; simplify_eq|].
  intros E. destruct (rr_order s) eqn:Eo; [done|]. rewrite <- Eo in *.
  destruct (try_offsets_spec (seq 0 (length (rr_order s))) s w Hne)
    as [(? & ? & ? & ? & ? & ? & _ & E' & Hs & _)|[E' _]]; rewrite E' in E; simplify_eq; [|done].
  apply (sv_order _ _ _ _ _ _ Hs).
Qed.

(** The scheduler, the buffers, and the streams of the tasks the inference threads
    hold (acquired, neither completed nor cancelled yet). *)
Record rr_system := mkSystem {
  sys_sched : RoundRobinInferScheduler; sys_buffers : buffers; sys_held : list string;
}.

(** What the threads do.  An inference thread completes or cancels only a task it
    holds.  With [quiesce], a stream is removed only when no task of it is held. *)
Inductive rr_step (quiesce : bool) : rr_system -> rr_system -> Prop :=
| step_upsert id c p s w h :
    rr_step quiesce (mkSystem s w h) (mkSystem (upsertStream id c p s) w h)
| step_remove id s w h :
    (quiesce = true -> id ∉ h) ->
    rr_step quiesce (mkSystem s w h) (mkSystem (removeStream id s) w h)
| step_acquire s w h t s' w' :
    rr_stopped s = false -> tryAcquireLocked s w = (Some t, s', w') ->
    rr_step quiesce (mkSystem s w h) (mkSystem s' w' (it_stream_id t :: h))
| step_complete id fid s w h h' :
    h ≡ₚ id :: h' -> rr_step quiesce (mkSystem s w h) (mkSystem (completeTask id fid s) w h')
| step_cancel id fid s w h h' :
    h ≡ₚ id :: h' -> rr_step quiesce (mkSystem s w h) (mkSystem (cancelTask id fid s) w h')
| step_stop s w h : rr_step quiesce (mkSystem s w h) (mkSystem (rr_stop s) w h)
| step_buffers s w w' h : rr_step quiesce (mkSystem s w h) (mkSystem s w' h).

Definition rr_initial (w : buffers) : rr_system := mkSystem createRoundRobinInferScheduler w [].

(** The held tasks are the entries marked in flight, one each. *)
Record held_inv (y : rr_system) : Prop := {
  hi_wf : rr_wf (sys_sched y);
  hi_nodup : NoDup (sys_held y);
  hi_marked id : id ∈ sys_held y <-> exists e, rr_entries (sys_sched y) !! id = Some e /\ en_inflight e = true;
}.

Lemma held_inv_finish id fid s w h h' :
  held_inv (mkSystem s w h) -> h ≡ₚ id :: h' -> held_inv (mkSystem (completeTask id fid s) w h').
Proof.
  intros [Hwf Hn Hm] Hp. simpl in *. rewrite Hp in Hn. apply NoDup_cons in Hn as [Hni Hn].
  split; simpl; [by apply complete_wf|done|]. intros i.
  assert (i ∈ h' <-> i <> id /\ i ∈ h) as -> by (rewrite Hp, elem_of_cons; naive_solver).
  rewrite Hm. unfold completeTask. destruct (rr_entries s !! id) as [e|] eqn:E; simpl.
  - destruct (decide (i = id)) as [->|Hne].
    + rewrite lookup_insert_eq. naive_solver.
    + rewrite lookup_insert_ne by done. naive_solver.
  - destruct (decide (i = id)) as [->|Hne]; naive_solver.
Qed.

Lemma held_inv_step y y' : rr_step true y y' -> held_inv y -> held_inv y'.
Proof.
  intros Hstep Hinv. destruct Hstep as [id c p s w h|id s w h Hq|s w h t s' w' Hs Htry|
    id fid s w h h' Hp|id fid s w h h' Hp|s w h|s w w' h].
  - destruct Hinv as [Hwf Hn Hm]. split; simpl in *; [by apply upsert_wf|done|].
    intros i. rewrite Hm. destruct (decide (i = id)) as [->|Hne].
    + rewrite lookup_insert_eq. destruct (rr_entries s !! id) as [e|]; simpl; naive_solver.
    + by rewrite lookup_insert_ne.
  - destruct Hinv as [Hwf Hn Hm]. split; simpl in *; [by apply remove_wf|done|].
    intros i. rewrite Hm. destruct (decide (i = id)) as [->|Hne].
    + rewrite lookup_delete_eq. split; [|naive_solver]. intros He. by destruct Hq; [|apply Hm].
    + by rewrite lookup_delete_ne.
  - destruct Hinv as [Hwf Hn Hm]. simpl in *.
    destruct (tryAcquire_cases s w Hwf) as [(o & t' & s1 & w1 & E & _ & Hsv & _)|[E _]]; [|congruence].
    rewrite Htry in E. simplify_eq. split; simpl; [by eapply served_wf| |].
    + apply NoDup_cons. split; [|done]. rewrite Hm.
      destruct (sv_entry _ _ _ _ _ _ Hsv) as (e & ? & ? & ? & ? & He & Hf & _).
      intros (e' & ? & ?). congruence.
    + intros i. rewrite elem_of_cons, Hm.
      destruct (sv_entry _ _ _ _ _ _ Hsv) as (e & ? & ? & ? & ? & He & Hf & _ & _ & _ & -> & _).
      destruct (decide (i = it_stream_id t')) as [->|Hne].
      * rewrite lookup_insert_eq. naive_solver.
      * rewrite lookup_insert_ne by done. naive_solver.
  - by eapply held_inv_finish.
  - by eapply (held_inv_finish id fid).
  - by destruct Hinv as [[? ? ?] Hn Hm].
  - by destruct Hinv.
Qed.

(** Every stream has at most one task in flight, and the scheduler marks
    exactly the streams with one, in every state the threads can reach - as long
    as no stream is removed while a task of it is held. *)
Theorem one_inflight_per_stream (w : buffers) (y : rr_system) :
  rtc (rr_step true) (rr_initial w) y -> held_inv y.
Proof.
  apply (rtc_ind_r (fun y => held_inv y)).
  - split; simpl; [|by constructor|].
    + split; simpl; [by constructor| |by right].
      intros id. rewrite lookup_empty. split; [by intros ?%elem_of_nil|by intros [? ?]].
    + intros id. split; [by intros ?%elem_of_nil|]. by intros (e & ? & _).
  - intros y1 y2 _ Hst Hinv. by eapply held_inv_step.
Qed.
End Scheduler.

Arguments InferTask : clear implicits.

(** ** Concrete runs *)

Definition ex_sched : RoundRobinInferScheduler :=
  upsertStream "b" StreamConfig_default (Some 2%positive)
    (upsertStream "a" StreamConfig_default (Some 1%positive) createRoundRobinInferScheduler).
Definition ex_ready : StreamBuffer :=
  sb_run [CallEnqueueFrame (Some (ex_frame 0 true))] (createStreamBuffer "s").
Definition ex_buffers : gmap positive StreamBuffer := {[ 1%positive := ex_ready; 2%positive := ex_ready ]}.

Lemma ex_sched_wf : rr_wf ex_sched.
Proof.
  apply upsert_wf, upsert_wf. split; simpl; [by constructor| |by right].
  intros id. rewrite lookup_empty. split; [by intros ?%elem_of_nil|by intros [? ?]].
Qed.

Lemma tryAcquireLocked_spec_witness :
  rr_wf ex_sched /\
  match tryAcquireLocked ex_sched ex_buffers with
  | (Some t, s', w') =>
      exists o, served ex_sched ex_buffers o t s' w' /\
        forall o' id, (o' < o)%nat -> at_offset ex_sched o' = Some id -> ~ eligible ex_sched ex_buffers id
  | (None, s', w') => s' = ex_sched /\ w' = ex_buffers /\ forall id, ~ eligible ex_sched ex_buffers id
  end.
Proof.
  split; [apply ex_sched_wf|]. exact (tryAcquireLocked_spec ex_sched ex_buffers ex_sched_wf).
Defined.

Lemma round_robin_fair_witness : (1 < length (rr_order ex_sched))%nat.
Proof.
  assert (eligible ex_sched ex_buffers "b") as Hel by (eexists _, _, _, _, _; by repeat split).
  refine (round_robin_fair "b" 1 ex_sched ex_buffers ex_sched_wf Hel _).
  assert (it_stream_id <$> (tryAcquireLocked ex_sched ex_buffers).1.1 = Some "a"%string) as Ht
    by (vm_compute; reflexivity).
  destruct (tryAcquireLocked ex_sched ex_buffers) as [[ot s'] w'] eqn:E.
  destruct ot as [t|]; simplify_eq/=.
  refine (starved_S "b" 0 _ _ t s' w' s' w' Hel E _ _ eq_refl eq_refl (starved_0 _ _ _)).
  - by rewrite Ht.
  - by apply (tryAcquire_wf _ _ _ _ _ ex_sched_wf E).
Defined.

Lemma one_inflight_per_stream_witness :
  exists t s' w', tryAcquireLocked ex_sched ex_buffers = (Some t, s', w') /\
    held_inv (mkSystem s' w' [it_stream_id t]).
Proof.
  destruct (tryAcquireLocked ex_sched ex_buffers) as [[[t|] s'] w'] eqn:E; [|by vm_compute in E].
  exists t, s', w'. split; [done|].
  apply (one_inflight_per_stream ex_buffers).
  eapply rtc_l; [apply (step_upsert true "a" StreamConfig_default (Some 1%positive))|].
  eapply rtc_l; [apply (step_upsert true "b" StreamConfig_default (Some 2%positive))|].
  eapply rtc_once. exact (step_acquire true ex_sched ex_buffers [] t s' w' eq_refl E).
Defined.

(** The guarantee is lost when a stream is removed while one of its tasks is in
    flight and registered again, as a configuration change does: the new entry
    starts unmarked, so a second task of the same stream is handed out while the
    first is still held. *)
Theorem reregistration_breaks_one_inflight :
  exists y, rtc (rr_step false) (rr_initial ex_buffers) y /\ sys_held y = ["a"%string; "a"%string].
Proof.
  set (s0 := upsertStream "a" StreamConfig_default (Some 1%positive) createRoundRobinInferScheduler).
  assert (it_stream_id <$> (tryAcquireLocked s0 ex_buffers).1.1 = Some "a"%string) as H1
    by (vm_compute; reflexivity).
  assert (let '(_, s1, w1) := tryAcquireLocked s0 ex_buffers in
    it_stream_id <$> (tryAcquireLocked (upsertStream "a" StreamConfig_default (Some 2%positive)
      (removeStream "a" s1)) w1).1.1 = Some "a"%string) as H2 by (vm_compute; reflexivity).
  destruct (tryAcquireLocked s0 ex_buffers) as [[[t1|] s1] w1] eqn:E1; [|done].
  set (s2 := upsertStream "a" _ _ _) in H2.
  destruct (tryAcquireLocked s2 w1) as [[[t2|] s3] w3] eqn:E2; [|done]. simplify_eq/=.
  exists (mkSystem s3 w3 [it_stream_id t2; it_stream_id t1]). split; [|simpl; congruence].
  eapply rtc_l; [apply (step_upsert false "a" StreamConfig_default (Some 1%positive))|].
  eapply rtc_l; [apply (step_acquire false s0 ex_buffers _ t1 s1 w1); done|].
  eapply rtc_l; [apply (step_remove false "a"); done|].
  eapply rtc_l; [apply (step_upsert false "a" StreamConfig_default (Some 2%positive))|].
  eapply rtc_once. apply (step_acquire false s2 w1 _ t2 s3 w3); [|done].
  by pose proof (tryAcquire_stopped _ _ _ _ _ E1).
Qed.
