(* ===== verification/Common.v ===== *)
(** * Common helpers (src/src/common/Utils.h, Uuid.h, Config.h, Config.cpp, CmdArgs.cpp)

    File-name sanitising, UUIDs, the application configuration and the command
    line.  JSON values (nlohmann::json) and [getopt_long] are third-party: the
    former is the interface [JsonLibrary], the latter the list of options it
    returns. *)
From Stdlib Require Import Ascii.
From S2P Require Import Prelude.

(** ** sanitizeFileComponent *)

Definition ascii_between (lo hi : Z) (c : Ascii.ascii) : bool :=
  (lo <=? byte_of_char c) && (byte_of_char c <=? hi).

(** [std::isalnum] in the "C" locale the program runs in: letters and digits. *)
Definition isalnum (c : Ascii.ascii) : bool :=
  ascii_between 48 57 c || ascii_between 65 90 c || ascii_between 97 122 c.

Definition file_char (c : Ascii.ascii) : bool :=
  isalnum c || (byte_of_char c =? 45) || (byte_of_char c =? 95).

Fixpoint sanitize_chars (value : string) : string :=
  match value with
  | EmptyString => EmptyString
  | String c rest => String (if file_char c then c else "_"%char) (sanitize_chars rest)
  end.

Definition sanitizeFileComponent (value : string) : string :=
  let sanitized := sanitize_chars value in
  if str_empty sanitized then "unknown" else sanitized.

Definition file_safe (s : string) : Prop := forall c, In c (String.list_ascii_of_string s) -> file_char c = true.

Lemma sanitize_chars_safe s : file_safe (sanitize_chars s).
Proof.
  unfold file_safe. induction s as [|c s IH]; simpl; [done|]. intros d [<-|Hd]; [|auto].
  by destruct (file_char c) eqn:E.
Qed.

Lemma sanitize_chars_id s : file_safe s -> sanitize_chars s = s.
Proof.
  unfold file_safe. induction s as [|c s IH]; simpl; [done|]. intros Hs.
  rewrite (Hs c) by by left. rewrite IH; [done|]. eauto.
Qed.

Lemma sanitize_chars_length s : String.length (sanitize_chars s) = String.length s.
Proof. induction s; simpl; congruence. Qed.

(** a sanitised file-name component is never empty, holds only letters, digits,
    '-' and '_' (so no path separator and no dot), keeps the length of a non-empty
    value, and sanitising again changes nothing. *)
Theorem sanitizeFileComponent_safe (value : string) :
  sanitizeFileComponent value <> EmptyString /\
  file_safe (sanitizeFileComponent value) /\
  (value <> EmptyString -> String.length (sanitizeFileComponent value) = String.length value) /\
  sanitizeFileComponent (sanitizeFileComponent value) = sanitizeFileComponent value.
Proof.
  assert (sanitizeFileComponent value <> EmptyString /\ file_safe (sanitizeFileComponent value)) as [Hne Hs].
  { unfold sanitizeFileComponent. destruct (str_empty (sanitize_chars value)) eqn:E.
    - split; [done|]. unfold file_safe. simpl. intros c Hc. by destruct_or?; subst.
    - apply str_empty_false in E. split; [done|apply sanitize_chars_safe]. }
  split; [done|]. split; [done|]. split.
  - intros Hv. unfold sanitizeFileComponent. destruct value as [|c value]; [done|].
    simpl str_empty. cbv iota. apply sanitize_chars_length.
  - unfold sanitizeFileComponent at 1. rewrite (sanitize_chars_id _ Hs).
    apply str_empty_false in Hne. by rewrite Hne.
Qed.

Lemma sanitizeFileComponent_safe_witness :
  String.length (sanitizeFileComponent "../cam/1") = String.length "../cam/1" /\
  sanitizeFileComponent "../cam/1" = "___cam_1".
Proof. split; [by apply (sanitizeFileComponent_safe "../cam/1")|reflexivity]. Defined.

(** ** generateUuidV4 *)

Definition hex_digit (d : Z) : Ascii.ascii :=
  Ascii.ascii_of_N (Z.to_N (if d <? 10 then 48 + d else 97 + (d - 10))).

(** [std::hex], [std::setw(2)], [std::setfill('0')] on a byte. *)
Definition hex2 (b : Z) : list Ascii.ascii := [hex_digit (b / 16); hex_digit (b mod 16)].

Definition set_version_variant (bytes : list Z) : list Z :=
  let bytes := alter (fun b => u8 (Z.lor (Z.land b 0x0F) 0x40)) 6%nat bytes in
  alter (fun b => u8 (Z.lor (Z.land b 0x3F) 0x80)) 8%nat bytes.

Fixpoint uuid_chars (index : nat) (bytes : list Z) : list Ascii.ascii :=
  match bytes with
  | [] => []
  | b :: rest =>
      hex2 b ++ (if bool_decide (index = 3 \/ index = 5 \/ index = 7 \/ index = 9)%nat
                 then ["-"%char] else []) ++ uuid_chars (S index) rest
  end.

(** [random] are the sixteen bytes the engine draws. *)
Definition generateUuidV4 (random : list Z) : list Ascii.ascii :=
  uuid_chars 0 (set_version_variant random).

Lemma land_lor_high (b m v k : Z) :
  0 <= k -> 0 <= b -> m = Z.ones k -> Z.lor (Z.land b m) (Z.shiftl v k) / 2 ^ k = v.
Proof.
  intros Hk Hb ->. rewrite <- Z.shiftr_div_pow2, Z.shiftr_lor, Z.shiftr_shiftl_l, Z.sub_diag by done.
  rewrite Z.shiftl_0_r, Z.land_ones, Z.shiftr_div_pow2 by done.
  rewrite Z.div_small; [done|]. apply Z.mod_pos_bound. apply Z.pow_pos_nonneg; lia.
Qed.

Lemma version_byte b : byte_ok b -> u8 (Z.lor (Z.land b 0x0F) 0x40) / 16 = 4.
Proof.
  intros Hb. unfold in_unsigned in Hb.
  pose proof (land_lor_high b 15 4 4 ltac:(lia) ltac:(lia) eq_refl) as H.
  change (Z.shiftl 4 4) with 64 in H. change (2 ^ 4) with 16 in H.
  rewrite wrap_small; [done|]. unfold in_unsigned. change (2 ^ 8) with 256.
  set (x := Z.lor _ _) in *. pose proof (Z.div_mod x 16 ltac:(lia)). pose proof (Z.mod_pos_bound x 16 ltac:(lia)). lia.
Qed.

Lemma variant_byte b : byte_ok b -> 8 <= u8 (Z.lor (Z.land b 0x3F) 0x80) / 16 <= 11.
Proof.
  intros Hb. unfold in_unsigned in Hb.
  pose proof (land_lor_high b 63 2 6 ltac:(lia) ltac:(lia) eq_refl) as H.
  change (Z.shiftl 2 6) with 128 in H. change (2 ^ 6) with 64 in H.
  set (x := Z.lor _ _) in *. pose proof (Z.div_mod x 64 ltac:(lia)). pose proof (Z.mod_pos_bound x 64 ltac:(lia)).
  rewrite wrap_small by (unfold in_unsigned; change (2 ^ 8) with 256; lia).
  split; [apply Z.div_le_lower_bound; lia|]. apply Z.lt_succ_r, Z.div_lt_upper_bound; lia.
Qed.

(** for every draw of sixteen bytes the identifier has the canonical shape: 36
    characters, hyphens after 8, 13, 18 and 23 characters, version digit 4 and a
    variant digit among 8, 9, a, b. *)
Theorem generateUuidV4_shape (random : list Z) :
  length random = 16%nat -> bytes_ok random ->
  let uuid := generateUuidV4 random in
  length uuid = 36%nat /\
  uuid !! 8%nat = Some "-"%char /\ uuid !! 13%nat = Some "-"%char /\
  uuid !! 18%nat = Some "-"%char /\ uuid !! 23%nat = Some "-"%char /\
  uuid !! 14%nat = Some "4"%char /\
  exists c, uuid !! 19%nat = Some c /\ c ∈ ["8"; "9"; "a"; "b"]%char.
Proof.
  intros Hlen Hb. unfold generateUuidV4, set_version_variant.
  do 16 (destruct random as [|? random]; [done|]). destruct random; [|done]. clear Hlen.
  rewrite Forall_lookup in Hb.
  pose proof (version_byte _ (Hb 6%nat _ eq_refl)) as Hv.
  pose proof (variant_byte _ (Hb 8%nat _ eq_refl)) as Hw. clear Hb.
  cbn [alter list_alter]. set (b6 := u8 (Z.lor (Z.land _ 15) 64)) in *. set (b8 := u8 (Z.lor (Z.land _ 63) 128)) in *. clearbody b6 b8.
  split_and!; try done.
  - change (Some (hex_digit (b6 / 16)) = Some "4"%char). by rewrite Hv.
  - exists (hex_digit (b8 / 16)). split; [done|].
    assert (b8 / 16 = 8 \/ b8 / 16 = 9 \/ b8 / 16 = 10 \/ b8 / 16 = 11) as [-> |[-> |[-> | ->]]] by lia;
      vm_compute; set_solver.
Qed.

Lemma generateUuidV4_shape_witness :
  length (generateUuidV4 (replicate 16 255)) = 36%nat /\
  exists c, generateUuidV4 (replicate 16 255) !! 19%nat = Some c /\ c ∈ ["8"; "9"; "a"; "b"]%char.
Proof.
  assert (bytes_ok (replicate 16 255)) as Hb by (apply Forall_replicate; unfold in_unsigned; lia).
  destruct (generateUuidV4_shape (replicate 16 255) eq_refl Hb) as (H1 & _ & _ & _ & _ & _ & H2). done.
Defined.

(** ** The application configuration *)

Record SocketConfig := mkSocketConfig {
  skc_socket_path : string;
  skc_send_queue_size : Z;         (* int *)
  skc_heartbeat_interval_s : Z;    (* int *)
  skc_agent_id : string;
}.
Definition SocketConfig_default : SocketConfig := mkSocketConfig "/tmp/media_agent.sock" 100 10 "".

Record LogConfig := mkLogConfig {
  lgc_level : string; lgc_output : string; lgc_log_dir : string;
  lgc_max_file_mb : Z; lgc_max_files : Z;
}.
Definition LogConfig_default : LogConfig := mkLogConfig "info" "file" "log" 50 5.

Record PipelineConfig := mkPipelineConfig {
  plc_num_infer_threads : Z; plc_frame_queue_size : Z; plc_statistics_interval_s : Z;
}.
Definition PipelineConfig_default : PipelineConfig := mkPipelineConfig 3 200 5.

Record AppConfig := mkAppConfig {
  app_log : LogConfig; app_socket : SocketConfig; app_pipeline : PipelineConfig;
}.
Definition AppConfig_default : AppConfig :=
  mkAppConfig LogConfig_default SocketConfig_default PipelineConfig_default.

(** The value of a key. *)
Fixpoint assoc {V} (l : list (string * V)) (k : string) : option V :=
  match l with
  | [] => None
  | (k', v) :: l => if str_eqb k k' then Some v else assoc l k
  end.

(** The part of nlohmann::json the code relies on; a [get] of the wrong type throws
    ([None]), as does [parse] on text that is not JSON. *)
Class JsonLibrary := {
  json : Type;
  j_parse : string -> option json;
  j_contains : json -> string -> bool;
  j_at : json -> string -> json;
  j_is_null : json -> bool;
  j_get_string : json -> option string;
  j_get_int : json -> option Z;
  j_string : string -> json;
  j_int : Z -> json;
  j_object : list (string * json) -> json;
  j_dump : json -> string;
  j_contains_object l k :
    bool_decide (NoDup l.*1) = true -> j_contains (j_object l) k = bool_decide (is_Some (assoc l k));
  j_at_object l k v :
    bool_decide (NoDup l.*1) = true -> assoc l k = Some v -> j_at (j_object l) k = v;
  j_string_not_null s : j_is_null (j_string s) = false;
  j_int_not_null z : j_is_null (j_int z) = false;
  j_get_string_string s : j_get_string (j_string s) = Some s;
  j_get_int_int z : in_signed 32 z -> j_get_int (j_int z) = Some z;
}.

Section AppConfig.
Context `{JsonLibrary}.

Definition jget {T} (get : json -> option T) (j : json) (key : string) (def : T) : option T :=
  if j_contains j key && negb (j_is_null (j_at j key)) then get (j_at j key) else Some def.

Definition parseSocket (j : json) : option SocketConfig :=
  path ← jget j_get_string j "socket_path" "/tmp/media_agent.sock"%string;
  size ← jget j_get_int j "send_queue_size" 100;
  beat ← jget j_get_int j "heartbeat_interval_s" 10;
  agent ← jget j_get_string j "agent_id" "agent_001"%string;
  Some (mkSocketConfig path size beat agent).

Definition parsePipeline (j : json) : option PipelineConfig :=
  threads ← jget j_get_int j "num_infer_threads" 3;
  queue ← jget j_get_int j "frame_queue_size" 200;
  stats ← jget j_get_int j "statistics_interval_s" 5;
  Some (mkPipelineConfig threads queue stats).

Definition parseLog (j : json) : option LogConfig :=
  level ← jget j_get_string j "level" "info"%string;
  output ← jget j_get_string j "output" "file"%string;
  dir ← jget j_get_string j "log_dir" "log"%string;
  mb ← jget j_get_int j "max_file_mb" 50;
  files ← jget j_get_int j "max_files" 5;
  Some (mkLogConfig level output dir mb files).

Definition parseJson (root : json) : option AppConfig :=
  log ← (if j_contains root "log" then parseLog (j_at root "log") else Some LogConfig_default);
  socket ← (if j_contains root "socket" then parseSocket (j_at root "socket") else Some SocketConfig_default);
  pipeline ← (if j_contains root "pipeline" then parsePipeline (j_at root "pipeline")
              else Some PipelineConfig_default);
  Some (mkAppConfig log socket pipeline).

(** [None]: an exception. *)
Definition loadFromString (json_str : string) : option AppConfig :=
  root ← j_parse json_str; parseJson root.

(** [file] is the content of the file, when it can be opened. *)
Definition loadFromFile (file : option string) : option AppConfig :=
  content ← file; root ← j_parse content; parseJson root.

(** The value [toJsonString] builds. *)
Definition config_json (c : AppConfig) : json :=
  j_object
    [("log"%string, j_object
        [("level"%string, j_string (lgc_level (app_log c)));
         ("output"%string, j_string (lgc_output (app_log c)));
         ("log_dir"%string, j_string (lgc_log_dir (app_log c)))]);
     ("socket"%string, j_object
        [("socket_path"%string, j_string (skc_socket_path (app_socket c)));
         ("heartbeat_interval_s"%string, j_int (skc_heartbeat_interval_s (app_socket c)))]);
     ("pipeline"%string, j_object
        [("num_infer_threads"%string, j_int (plc_num_infer_threads (app_pipeline c)));
         ("frame_queue_size"%string, j_int (plc_frame_queue_size (app_pipeline c)));
         ("statistics_interval_s"%string, j_int (plc_statistics_interval_s (app_pipeline c)))])].

Definition toJsonString (c : AppConfig) : string := j_dump (config_json c).

(** The configuration with the fields [toJsonString] leaves out at their defaults. *)
Definition written_part (c : AppConfig) : AppConfig :=
  mkAppConfig
    (mkLogConfig (lgc_level (app_log c)) (lgc_output (app_log c)) (lgc_log_dir (app_log c)) 50 5)
    (mkSocketConfig (skc_socket_path (app_socket c)) 100 (skc_heartbeat_interval_s (app_socket c)) "agent_001")
    (app_pipeline c).

Record config_ok (c : AppConfig) : Prop := {
  cfo_beat : in_signed 32 (skc_heartbeat_interval_s (app_socket c));
  cfo_threads : in_signed 32 (plc_num_infer_threads (app_pipeline c));
  cfo_queue : in_signed 32 (plc_frame_queue_size (app_pipeline c));
  cfo_stats : in_signed 32 (plc_statistics_interval_s (app_pipeline c));
}.

Lemma jget_string_present l k s d :
  bool_decide (NoDup l.*1) = true -> assoc l k = Some (j_string s) ->
  jget j_get_string (j_object l) k d = Some s.
Proof.
  intros Hn Hk. unfold jget. rewrite j_contains_object, (j_at_object l k _ Hn Hk), Hk by done.
  rewrite bool_decide_true by done. by rewrite j_string_not_null, j_get_string_string.
Qed.

Lemma jget_int_present l k z d :
  bool_decide (NoDup l.*1) = true -> in_signed 32 z -> assoc l k = Some (j_int z) ->
  jget j_get_int (j_object l) k d = Some z.
Proof.
  intros Hn Hz Hk. unfold jget. rewrite j_contains_object, (j_at_object l k _ Hn Hk), Hk by done.
  rewrite bool_decide_true by done. by rewrite j_int_not_null, j_get_int_int.
Qed.

Lemma jget_absent {T} (get : json -> option T) l k d :
  bool_decide (NoDup l.*1) = true -> assoc l k = None -> jget get (j_object l) k d = Some d.
Proof. intros Hn Hk. unfold jget. by rewrite j_contains_object, Hk. Qed.

(** Evaluate the accesses to the objects built from literal key lists. *)
Ltac json_access :=
  repeat match goal with
  | |- context [j_at (j_object ?l) ?k] =>
      let v := eval cbn in (assoc l k) in
      match v with Some ?x => rewrite (j_at_object l k x eq_refl eq_refl) end
  | |- context [jget ?get (j_object ?l) ?k ?d] =>
      let v := eval cbn in (assoc l k) in
      match v with
      | Some (j_string ?s) => rewrite (jget_string_present l k s d eq_refl eq_refl)
      | Some (j_int ?z) => rewrite (jget_int_present l k z d eq_refl); [|assumption|reflexivity]
      | None => rewrite (jget_absent get l k d eq_refl eq_refl)
      end
  end.

(** reading back a configuration written by [toJsonString] succeeds and restores
    the fields it writes; the log rotation limits, the send queue size and the
    agent id are not written and come back as defaults. *)
Theorem config_json_roundtrip (c : AppConfig) :
  config_ok c -> parseJson (config_json c) = Some (written_part c).
Proof.
  intros [H1 H2 H3 H4]. unfold parseJson, config_json. rewrite !j_contains_object by reflexivity.
  do 3 (rewrite bool_decide_true by done).
  unfold parseLog, parseSocket, parsePipeline. json_access. simpl.
  unfold written_part. by destruct (app_pipeline c).
Qed.
End AppConfig.

(** A JSON value type with the accessors the code uses. *)
Inductive JVal := JStr (s : string) | JInt (z : Z) | JObj (l : list (string * JVal)).

#[export] Instance JVal_library : JsonLibrary.
Proof.
  refine {| json := JVal; j_parse s := Some (JStr s);
    j_contains j k := match j with JObj l => bool_decide (is_Some (assoc l k)) | _ => false end;
    j_at j k := match j with JObj l => default (JInt 0) (assoc l k) | _ => JInt 0 end;
    j_is_null _ := false;
    j_get_string j := match j with JStr s => Some s | _ => None end;
    j_get_int j := match j with JInt z => Some z | _ => None end;
    j_string := JStr; j_int := JInt; j_object := JObj; j_dump _ := EmptyString |}; try done.
  by intros l k v _ ->.
Defined.

Lemma config_json_roundtrip_witness :
  parseJson (config_json (mkAppConfig LogConfig_default (mkSocketConfig "/s" 7 3 "me") (mkPipelineConfig 4 8 2))) =
    Some (mkAppConfig LogConfig_default (mkSocketConfig "/s" 100 3 "agent_001") (mkPipelineConfig 4 8 2)).
Proof.
  rewrite (config_json_roundtrip (mkAppConfig LogConfig_default (mkSocketConfig "/s" 7 3 "me") (mkPipelineConfig 4 8 2)));
    [reflexivity|]. by split; vm_compute.
Defined.

(** ** The command line *)

(** What [getopt_long] returns: an option the table names, or '?'. *)
Inductive getopt_result := OptConfig (path : string) | OptHelp | OptInvalid.

(** [parseArgs] on the options [getopt_long] yields before -1: the configuration path,
    [None] when the caller must exit. *)
Fixpoint parseArgs (options : list getopt_result) (config_path : string) : option string :=
  match options with
  | [] => Some config_path
  | OptConfig path :: rest => parseArgs rest path
  | OptHelp :: _ => None
  | OptInvalid :: _ => None
  end.
