(* ===== verification/Config.v ===== *)
(** * Configuration merging (src/src/pipeline/ConfigFilter.cpp)

    The configuration applied to the pipeline is the merge of every [AgentConfig]
    received so far, visited in increasing [config_id] ([std::map]).  Two messages
    are compared by protobuf's [MessageDifferencer::Equals], which is third-party:
    [MessageDifferencer] states what the merging relies on. *)
From S2P Require Import Prelude StdMap Float32 Messages.

(** [isSameProtoMessage] at the two message types it is used at.  [Equals] compares
    the values of all fields and does not treat NaN as equal to itself, so it is
    reflexive only on messages without one. *)
Class MessageDifferencer := {
  same_algorithm : AlgorithmConfig -> AlgorithmConfig -> bool;
  same_tracker : TrackerConfig -> TrackerConfig -> bool;
  algorithm_has_nan : AlgorithmConfig -> bool;
  tracker_has_nan : TrackerConfig -> bool;
  same_algorithm_refl a : algorithm_has_nan a = false -> same_algorithm a a = true;
  same_algorithm_sym a b : same_algorithm a b = same_algorithm b a;
  same_algorithm_trans a b c :
    same_algorithm a b = true -> same_algorithm b c = true -> same_algorithm a c = true;
  same_tracker_refl t : tracker_has_nan t = false -> same_tracker t t = true;
  same_tracker_sym a b : same_tracker a b = same_tracker b a;
  same_tracker_trans a b c :
    same_tracker a b = true -> same_tracker b c = true -> same_tracker a c = true;
}.

(** ** The views two configurations are compared through *)

Record TransportStreamConfigView := mkTransportView {
  tv_enabled : bool;
  tv_stream_id : string;
  tv_rtsp_url : string;
  tv_new_rtsp_url : string;
  tv_reconnect_interval_s : Z;
  tv_alarm_snapshot_dir : string;
  tv_alarm_record_dir : string;
  tv_alarm_record_duration_s : Z;
}.

Definition transport_view_eqb (a b : TransportStreamConfigView) : bool :=
  Bool.eqb (tv_enabled a) (tv_enabled b) &&
  str_eqb (tv_stream_id a) (tv_stream_id b) &&
  str_eqb (tv_rtsp_url a) (tv_rtsp_url b) &&
  str_eqb (tv_new_rtsp_url a) (tv_new_rtsp_url b) &&
  (tv_reconnect_interval_s a =? tv_reconnect_interval_s b) &&
  str_eqb (tv_alarm_snapshot_dir a) (tv_alarm_snapshot_dir b) &&
  str_eqb (tv_alarm_record_dir a) (tv_alarm_record_dir b) &&
  (tv_alarm_record_duration_s a =? tv_alarm_record_duration_s b).

Definition makeTransportStreamConfigView (config : StreamConfig) : TransportStreamConfigView :=
  mkTransportView (sc_enabled config) (sc_stream_id config) (sc_rtsp_url config)
    (sc_new_rtsp_url config) (sc_reconnect_interval_s config) (sc_alarm_snapshot_dir config)
    (sc_alarm_record_dir config) (sc_alarm_record_duration_s config).

Definition makeTransportStreamConfig (config : StreamConfig) : StreamConfig :=
  mkStreamConfig (sc_enabled config) (sc_stream_id config) (sc_rtsp_url config)
    (sc_new_rtsp_url config) (sc_reconnect_interval_s config) (sc_alarm_snapshot_dir config)
    (sc_alarm_record_dir config) (sc_alarm_record_duration_s config)
    (sc_alarm_dedup_interval_s config) [] None.

Definition isSameTransportStreamConfig (lhs rhs : StreamConfig) : bool :=
  transport_view_eqb (makeTransportStreamConfigView lhs) (makeTransportStreamConfigView rhs).

Lemma transport_view_eqb_eq a b : transport_view_eqb a b = true <-> a = b.
Proof.
  unfold transport_view_eqb, str_eqb. destruct a, b; simpl.
  rewrite !andb_true_iff, Bool.eqb_true_iff, !String.eqb_eq, !Z.eqb_eq.
  split; [by intros [[[[[[[-> ->] ->] ->] ->] ->] ->] ->]|by intros [= -> -> -> -> -> -> -> ->]].
Qed.

Lemma isSameTransport_iff lhs rhs :
  isSameTransportStreamConfig lhs rhs = true <->
  makeTransportStreamConfigView lhs = makeTransportStreamConfigView rhs.
Proof. apply transport_view_eqb_eq. Qed.

Section Comparison.
Context `{MessageDifferencer}.

(** The loop over two vectors of the same size. *)
Fixpoint same_algorithms (a b : list AlgorithmConfig) : bool :=
  match a, b with
  | x :: a, y :: b => same_algorithm x y && same_algorithms a b
  | _, _ => true
  end.

(** [DetectorConfigView]: the algorithms. *)
Definition makeDetectorConfigView (config : StreamConfig) : list AlgorithmConfig := sc_algorithms config.

Definition detector_view_eqb (a b : list AlgorithmConfig) : bool :=
  if negb (length a =? length b)%nat then false else same_algorithms a b.

Record DetectorRuntimeConfigView := mkRuntimeView {
  rv_algorithms : list AlgorithmConfig;
  rv_alarm_dedup_interval_s : Z;
  rv_has_tracker : bool;
  rv_tracker : TrackerConfig;
}.

Definition makeDetectorRuntimeConfigView (config : StreamConfig) : DetectorRuntimeConfigView :=
  mkRuntimeView (sc_algorithms config) (sc_alarm_dedup_interval_s config) (sc_has_tracker config)
    (if sc_has_tracker config then sc_tracker config else TrackerConfig_default).

Definition runtime_view_eqb (a b : DetectorRuntimeConfigView) : bool :=
  if negb (rv_alarm_dedup_interval_s a =? rv_alarm_dedup_interval_s b) ||
     negb (Bool.eqb (rv_has_tracker a) (rv_has_tracker b)) then false
  else if negb (length (rv_algorithms a) =? length (rv_algorithms b))%nat then false
  else if negb (same_algorithms (rv_algorithms a) (rv_algorithms b)) then false
  else if negb (rv_has_tracker a) then true
  else same_tracker (rv_tracker a) (rv_tracker b).

Definition isSameRuntimeStreamConfig (lhs rhs : StreamConfig) : bool :=
  isSameTransportStreamConfig lhs rhs &&
  runtime_view_eqb (makeDetectorRuntimeConfigView lhs) (makeDetectorRuntimeConfigView rhs).

Definition hasDetectorConfigChanged (lhs rhs : StreamConfig) : bool :=
  negb (detector_view_eqb (makeDetectorConfigView lhs) (makeDetectorConfigView rhs)).

(** ** Comparison lemmas *)

Lemma same_algorithms_sym a b : same_algorithms a b = same_algorithms b a.
Proof.
  revert b. induction a as [|x a IH]; intros [|y b]; simpl; try done.
  by rewrite same_algorithm_sym, IH.
Qed.

Lemma same_algorithms_trans a b c :
  length a = length b -> length b = length c ->
  same_algorithms a b = true -> same_algorithms b c = true -> same_algorithms a c = true.
Proof.
  revert b c. induction a as [|x a IH]; intros [|y b] [|z c]; simpl; try done.
  intros [= Hab] [= Hbc] [? ?]%andb_true_iff [? ?]%andb_true_iff. apply andb_true_iff.
  split; [by apply (same_algorithm_trans x y z)|by apply (IH b c)].
Qed.

Lemma same_algorithms_refl a :
  Forall (fun x => algorithm_has_nan x = false) a -> same_algorithms a a = true.
Proof.
  induction 1 as [|x a Hx _ IH]; simpl; [done|]. by rewrite same_algorithm_refl, IH.
Qed.

(** The messages inside the configuration hold no NaN. *)
Definition config_nan_free (c : StreamConfig) : Prop :=
  Forall (fun x => algorithm_has_nan x = false) (sc_algorithms c) /\
  tracker_has_nan (sc_tracker c) = false.

Lemma runtime_view_eqb_spec a b :
  runtime_view_eqb (makeDetectorRuntimeConfigView a) (makeDetectorRuntimeConfigView b) = true <->
  sc_alarm_dedup_interval_s a = sc_alarm_dedup_interval_s b /\
  sc_has_tracker a = sc_has_tracker b /\
  length (sc_algorithms a) = length (sc_algorithms b) /\
  same_algorithms (sc_algorithms a) (sc_algorithms b) = true /\
  (sc_has_tracker a = true -> same_tracker (sc_tracker a) (sc_tracker b) = true).
Proof.
  assert (forall d t l s k : bool,
    (if negb d || negb t then false else if negb l then false else if negb s then false
     else if negb k then true else same_tracker (sc_tracker a) (sc_tracker b)) = true <->
    d = true /\ t = true /\ l = true /\ s = true /\
    (k = true -> same_tracker (sc_tracker a) (sc_tracker b) = true)) as Hbool.
  { intros [] [] [] [] []; simpl; intuition done. }
  rewrite <- (Z.eqb_eq (sc_alarm_dedup_interval_s a)), <- Nat.eqb_eq, <- (Bool.eqb_true_iff (sc_has_tracker a)), <- Hbool.
  unfold runtime_view_eqb. simpl. destruct (sc_has_tracker a), (sc_has_tracker b); simpl;
    rewrite ?orb_true_r; done.
Qed.

Lemma isSameRuntime_laws (a b c : StreamConfig) :
  isSameRuntimeStreamConfig a b = isSameRuntimeStreamConfig b a /\
  (isSameRuntimeStreamConfig a b = true -> isSameRuntimeStreamConfig b c = true ->
   isSameRuntimeStreamConfig a c = true) /\
  (config_nan_free a -> isSameRuntimeStreamConfig a a = true) /\
  (isSameRuntimeStreamConfig a b = true -> hasDetectorConfigChanged a b = false).
Proof.
  unfold isSameRuntimeStreamConfig. split_and!.
  - apply eq_true_iff_eq. rewrite !andb_true_iff, !isSameTransport_iff, !runtime_view_eqb_spec.
    rewrite (same_algorithms_sym (sc_algorithms b)), (same_tracker_sym (sc_tracker b)).
    by split; intros (? & ? & ? & ? & ? & Ht); split_and!; try done; intros ?; apply Ht; congruence.
  - rewrite !andb_true_iff, !isSameTransport_iff, !runtime_view_eqb_spec.
    intros (? & ? & ? & ? & ? & Ht) (? & ? & ? & ? & ? & Ht').
    split_and!; try congruence; [by eapply (same_algorithms_trans _ (sc_algorithms b))|].
    intros Ha. eapply (same_tracker_trans _ (sc_tracker b)); [by apply Ht|apply Ht'; congruence].
  - intros [Ha Ht]. rewrite andb_true_iff, isSameTransport_iff, runtime_view_eqb_spec.
    split_and!; try done; [by apply same_algorithms_refl|intros _; by apply same_tracker_refl].
  - rewrite andb_true_iff, runtime_view_eqb_spec. intros (_ & _ & _ & Hl & Hs & _).
    unfold hasDetectorConfigChanged, detector_view_eqb, makeDetectorConfigView.
    rewrite (proj2 (Nat.eqb_eq _ _) Hl). simpl. by rewrite Hs.
Qed.

(** "same runtime configuration" is symmetric and transitive, and reflexive on
    configurations whose messages hold no NaN; and it refines "detectors
    unchanged": two such configurations never ask for new detectors. *)
Theorem isSameRuntime_per (a b c : StreamConfig) :
  isSameRuntimeStreamConfig a b = isSameRuntimeStreamConfig b a /\
  (isSameRuntimeStreamConfig a b = true -> isSameRuntimeStreamConfig b c = true ->
   isSameRuntimeStreamConfig a c = true) /\
  (config_nan_free a -> isSameRuntimeStreamConfig a a = true) /\
  (isSameRuntimeStreamConfig a b = true -> hasDetectorConfigChanged a b = false).
Proof. apply isSameRuntime_laws. Qed.
End Comparison.

(** ** Merging *)

Record StreamMergeState := mkMergeState {
  ms_has_base_config : bool;
  ms_base_config_source_config_id : Z;
  ms_base_config : StreamConfig;
  ms_algorithms : list AlgorithmConfig;
  ms_algorithm_index_by_id : list (string * nat);
  ms_algorithm_source_config_id_by_id : list (string * Z);
  ms_tracker_config : option TrackerConfig;
  ms_tracker_disable_config : option TrackerConfig;
  ms_tracker_source_config_id : option Z;
  ms_tracker_explicitly_disabled : bool;
}.
Definition StreamMergeState_default : StreamMergeState :=
  mkMergeState false 0 StreamConfig_default [] [] [] None None None false.

Definition ms_with_algorithms (algs : list AlgorithmConfig) (index : list (string * nat))
    (source : list (string * Z)) (st : StreamMergeState) : StreamMergeState :=
  mkMergeState (ms_has_base_config st) (ms_base_config_source_config_id st) (ms_base_config st)
    algs index source (ms_tracker_config st) (ms_tracker_disable_config st)
    (ms_tracker_source_config_id st) (ms_tracker_explicitly_disabled st).

(** One turn of the loop of [mergeAlgorithms]; [ms_algorithms] is written at an index
    the map holds, which [alg_inv] below shows to be in range. *)
Definition merge_algorithm (source_config_id : Z) (st : StreamMergeState) (algorithm : AlgorithmConfig)
  : StreamMergeState :=
  let id := ac_algorithm_id algorithm in
  if str_empty id then
    ms_with_algorithms (ms_algorithms st ++ [algorithm]) (ms_algorithm_index_by_id st)
      (ms_algorithm_source_config_id_by_id st) st
  else match std_find id (ms_algorithm_index_by_id st) with
  | None =>
      ms_with_algorithms (ms_algorithms st ++ [algorithm])
        (std_emplace id (length (ms_algorithms st)) (ms_algorithm_index_by_id st))
        (std_insert id source_config_id (ms_algorithm_source_config_id_by_id st)) st
  | Some i =>
      ms_with_algorithms (<[i := algorithm]> (ms_algorithms st)) (ms_algorithm_index_by_id st)
        (std_insert id source_config_id (ms_algorithm_source_config_id_by_id st)) st
  end.

Definition mergeAlgorithms (stream_config : StreamConfig) (source_config_id : Z) (st : StreamMergeState)
  : StreamMergeState :=
  foldl (merge_algorithm source_config_id) st (sc_algorithms stream_config).

Definition ms_with_tracker (cfg dis : option TrackerConfig) (disabled : bool) (st : StreamMergeState)
  : StreamMergeState :=
  mkMergeState (ms_has_base_config st) (ms_base_config_source_config_id st) (ms_base_config st)
    (ms_algorithms st) (ms_algorithm_index_by_id st) (ms_algorithm_source_config_id_by_id st)
    cfg dis (ms_tracker_source_config_id st) disabled.

Definition ms_with_tracker_source (id : option Z) (st : StreamMergeState) : StreamMergeState :=
  mkMergeState (ms_has_base_config st) (ms_base_config_source_config_id st) (ms_base_config st)
    (ms_algorithms st) (ms_algorithm_index_by_id st) (ms_algorithm_source_config_id_by_id st)
    (ms_tracker_config st) (ms_tracker_disable_config st) id (ms_tracker_explicitly_disabled st).

Definition mergeTracker (stream_config : StreamConfig) (st : StreamMergeState) : StreamMergeState :=
  if negb (sc_has_tracker stream_config) then st
  else if negb (tc_enabled (sc_tracker stream_config))
  then ms_with_tracker None (Some (sc_tracker stream_config)) true st
  else ms_with_tracker (Some (sc_tracker stream_config)) None false st.

(** What a tracker message with only [enabled] unset looks like. *)
Definition disabled_tracker : TrackerConfig := TrackerConfig_default.

Definition hasMergedTrackerConfig (st : StreamMergeState) : bool :=
  ms_tracker_explicitly_disabled st || bool_decide (is_Some (ms_tracker_config st)).

Definition currentMergedTrackerConfig (st : StreamMergeState) : TrackerConfig :=
  if ms_tracker_explicitly_disabled st then default disabled_tracker (ms_tracker_disable_config st)
  else default TrackerConfig_default (ms_tracker_config st).

Definition finalizeMergedStreamConfig (st : StreamMergeState) : StreamConfig :=
  let merged_config := ms_base_config st in
  mkStreamConfig (sc_enabled merged_config) (sc_stream_id merged_config) (sc_rtsp_url merged_config)
    (sc_new_rtsp_url merged_config) (sc_reconnect_interval_s merged_config)
    (sc_alarm_snapshot_dir merged_config) (sc_alarm_record_dir merged_config)
    (sc_alarm_record_duration_s merged_config) (sc_alarm_dedup_interval_s merged_config)
    (ms_algorithms st)
    (if ms_tracker_explicitly_disabled st
     then Some (default disabled_tracker (ms_tracker_disable_config st))
     else ms_tracker_config st).

(** The body of the inner loop of [buildMergedStreams] past the three [continue]s. *)
Definition merge_stream (config_id : Z) (stream : StreamConfig) (st : StreamMergeState)
  : StreamMergeState :=
  let st := mkMergeState true config_id (makeTransportStreamConfig stream) (ms_algorithms st)
    (ms_algorithm_index_by_id st) (ms_algorithm_source_config_id_by_id st) (ms_tracker_config st)
    (ms_tracker_disable_config st) (ms_tracker_source_config_id st)
    (ms_tracker_explicitly_disabled st) in
  let st := mergeAlgorithms stream config_id st in
  let st := mergeTracker stream st in
  if sc_has_tracker stream then ms_with_tracker_source (Some config_id) st else st.

(** The three [continue]s: disabled, without an id, without a source url. *)
Definition contributes (stream : StreamConfig) : bool :=
  sc_enabled stream && negb (str_empty (sc_stream_id stream)) && negb (str_empty (sc_rtsp_url stream)).

Definition add_stream (config_id : Z) (merged : list (string * StreamMergeState)) (stream : StreamConfig)
  : list (string * StreamMergeState) :=
  if contributes stream then
    let st := default StreamMergeState_default (std_find (sc_stream_id stream) merged) in
    std_insert (sc_stream_id stream) (merge_stream config_id stream st) merged
  else merged.

Definition merged_states (configs : list (Z * AgentConfig)) : list (string * StreamMergeState) :=
  foldl (fun merged p => foldl (add_stream (agc_config_id p.2)) merged (agc_streams p.2)) [] configs.

Definition buildMergedStreams (configs : list (Z * AgentConfig)) : list (string * StreamConfig) :=
  foldl (fun acc p => std_emplace p.1 (finalizeMergedStreamConfig p.2) acc) [] (merged_states configs).

(** ** What the merge means *)

(** The contributing configurations of a stream, in increasing [config_id]. *)
Definition contributions (stream_id : string) (configs : list (Z * AgentConfig))
  : list (Z * StreamConfig) :=
  base.filter (fun p => contributes p.2 && str_eqb (sc_stream_id p.2) stream_id = true)
    (configs ≫= fun p => (fun s => (agc_config_id p.2, s)) <$> agc_streams p.2).

(** The algorithms, once per non-empty id: the place of the first one ... *)
Definition first_occurrences (l : list AlgorithmConfig) : list AlgorithmConfig :=
  foldl (fun acc a =>
    if negb (str_empty (ac_algorithm_id a)) && bool_decide (ac_algorithm_id a ∈ ac_algorithm_id <$> acc)
    then acc else acc ++ [a]) [] l.

(** ... and the contents of the last one. *)
Definition latest_algorithm (l : list AlgorithmConfig) (a : AlgorithmConfig) : AlgorithmConfig :=
  if str_empty (ac_algorithm_id a) then a
  else default a (last (base.filter (fun b => ac_algorithm_id b = ac_algorithm_id a) l)).

Definition merged_algorithms (l : list AlgorithmConfig) : list AlgorithmConfig :=
  latest_algorithm l <$> first_occurrences l.

(** The reference: transport fields from the last contribution, algorithms merged
    over all of them, the tracker of the last contribution that has one. *)
Definition merged_config (cs : list StreamConfig) : option StreamConfig :=
  match last cs with
  | None => None
  | Some c =>
      Some (mkStreamConfig (sc_enabled c) (sc_stream_id c) (sc_rtsp_url c) (sc_new_rtsp_url c)
        (sc_reconnect_interval_s c) (sc_alarm_snapshot_dir c) (sc_alarm_record_dir c)
        (sc_alarm_record_duration_s c) (sc_alarm_dedup_interval_s c)
        (merged_algorithms (cs ≫= sc_algorithms)) (last (omap sc_tracker_field cs)))
  end.

(** ** The algorithm table *)

(** The implementation's table after merging [l]: the reference list, and an index
    that maps each non-empty id to its place in it. *)
Record alg_inv (l : list AlgorithmConfig) (st : StreamMergeState) : Prop := {
  ai_algorithms : ms_algorithms st = merged_algorithms l;
  ai_index_wf : std_wf (ms_algorithm_index_by_id st);
  ai_index id i : id <> EmptyString ->
    std_find id (ms_algorithm_index_by_id st) = Some i <->
    exists a, first_occurrences l !! i = Some a /\ ac_algorithm_id a = id;
}.

Lemma first_occurrences_snoc l a :
  first_occurrences (l ++ [a]) =
  if negb (str_empty (ac_algorithm_id a)) &&
     bool_decide (ac_algorithm_id a ∈ ac_algorithm_id <$> first_occurrences l)
  then first_occurrences l else first_occurrences l ++ [a].
Proof. unfold first_occurrences. by rewrite foldl_app. Qed.

(** Distinct places of the table with the same id hold the empty id. *)
Lemma first_occurrences_inj l i j a b :
  first_occurrences l !! i = Some a -> first_occurrences l !! j = Some b ->
  ac_algorithm_id a = ac_algorithm_id b -> ac_algorithm_id a <> EmptyString -> i = j.
Proof.
  revert i j a b. induction l as [|c l IH] using rev_ind; intros i j a b; [done|].
  rewrite first_occurrences_snoc.
  destruct (negb _ && bool_decide _) eqn:E; [apply IH|].
  assert (forall k d, first_occurrences l !! k = Some d -> ac_algorithm_id d <> EmptyString ->
            ac_algorithm_id d = ac_algorithm_id c -> False) as Hnew.
  { intros k d Hk Hd Heq. apply andb_false_iff in E as [E|E]; bool_crush; [congruence|].
    apply E. apply list_elem_of_fmap. exists d. split; [done|by eapply list_elem_of_lookup_2]. }
  intros [Ha|[Hi <-]]%lookup_snoc_Some [Hb|[Hj <-]]%lookup_snoc_Some Heq Hne.
  all: destruct_and?; subst; try congruence.
  - by eapply IH.
  - exfalso. by eapply Hnew.
  - exfalso. eapply Hnew; [done|congruence|done].
Qed.

Lemma latest_algorithm_snoc l a b :
  latest_algorithm (l ++ [a]) b =
  if str_empty (ac_algorithm_id b) then b
  else if bool_decide (ac_algorithm_id a = ac_algorithm_id b) then a else latest_algorithm l b.
Proof.
  unfold latest_algorithm. destruct (str_empty _); [done|].
  rewrite filter_app, filter_cons, filter_nil. case_bool_decide; case_decide; try done.
  - by rewrite last_snoc.
  - by rewrite app_nil_r.
Qed.

Lemma merged_algorithms_new l a :
  negb (str_empty (ac_algorithm_id a)) &&
    bool_decide (ac_algorithm_id a ∈ ac_algorithm_id <$> first_occurrences l) = false ->
  merged_algorithms (l ++ [a]) = merged_algorithms l ++ [a].
Proof.
  intros E. unfold merged_algorithms. rewrite first_occurrences_snoc, E, fmap_app. simpl. f_equal.
  - apply list_fmap_ext. intros i b Hb. rewrite latest_algorithm_snoc.
    destruct (str_empty (ac_algorithm_id b)) eqn:Eb; [by unfold latest_algorithm; rewrite Eb|].
    destruct (bool_decide_reflect (ac_algorithm_id a = ac_algorithm_id b)) as [Heq|]; [|done].
    exfalso. apply andb_false_iff in E as [E|E]; bool_crush; [congruence|].
    apply E, list_elem_of_fmap. exists b. split; [done|by eapply list_elem_of_lookup_2].
  - rewrite latest_algorithm_snoc. destruct (str_empty _); [done|]. by rewrite bool_decide_true.
Qed.

Lemma merged_algorithms_replace l a i b :
  ac_algorithm_id a <> EmptyString -> first_occurrences l !! i = Some b ->
  ac_algorithm_id b = ac_algorithm_id a ->
  merged_algorithms (l ++ [a]) = <[i := a]> (merged_algorithms l).
Proof.
  intros Hne Hi Hid. unfold merged_algorithms. rewrite first_occurrences_snoc.
  rewrite (bool_decide_true (_ ∈ _)).
  2: { apply list_elem_of_fmap. exists b. split; [done|by eapply list_elem_of_lookup_2]. }
  apply str_empty_false in Hne as E. rewrite E. simpl.
  apply list_eq. intros j. rewrite list_lookup_fmap. destruct (decide (i = j)) as [<-|Hij].
  - rewrite Hi. simpl. rewrite list_lookup_insert_eq by (rewrite length_fmap; by eapply lookup_lt_Some).
    rewrite latest_algorithm_snoc, Hid, E. by rewrite bool_decide_true.
  - rewrite list_lookup_insert_ne, list_lookup_fmap by done.
    destruct (first_occurrences l !! j) as [c|] eqn:Ec; [|done]. simpl. f_equal.
    rewrite latest_algorithm_snoc. destruct (str_empty (ac_algorithm_id c)) eqn:Es;
      [by unfold latest_algorithm; rewrite Es|].
    rewrite bool_decide_false; [done|]. intros Heq.
    apply Hij. eapply first_occurrences_inj; [done..|congruence|congruence].
Qed.

Lemma merge_algorithm_inv id l a st : alg_inv l st -> alg_inv (l ++ [a]) (merge_algorithm id st a).
Proof.
  intros [Ha Hw Hi]. unfold merge_algorithm.
  destruct (str_empty (ac_algorithm_id a)) eqn:Es;
    [|destruct (std_find _ _) as [i|] eqn:Ef]; split; simpl; try done.
  - by rewrite Ha, merged_algorithms_new by by rewrite Es.
  - intros k i Hk. rewrite Hi, first_occurrences_snoc, Es by done. simpl.
    apply str_empty_true in Es. split.
    + intros (b & Hb & ?). exists b. split; [by apply lookup_app_l_Some|done].
    + intros (b & [Hb|[_ ->]]%lookup_snoc_Some & ?); [destruct Hb; eauto|congruence].
  - apply str_empty_false in Es as Hne. apply Hi in Ef as (b & Hb & Hid); [|done].
    by rewrite Ha, (merged_algorithms_replace l a i b).
  - intros k j Hk. apply str_empty_false in Es as Hne.
    rewrite Hi, first_occurrences_snoc, Es by done. apply Hi in Ef as (b & Hb & Hid); [|done].
    rewrite bool_decide_true; [done|]. apply list_elem_of_fmap. exists b.
    split; [done|by eapply list_elem_of_lookup_2].
  - rewrite Ha, merged_algorithms_new; [done|]. apply andb_false_iff. right.
    apply bool_decide_eq_false. intros (b & Hid & (i & Hb)%list_elem_of_lookup)%list_elem_of_fmap.
    apply str_empty_false in Es. assert (std_find (ac_algorithm_id a) (ms_algorithm_index_by_id st) = Some i); [|congruence].
    apply Hi; eauto.
  - unfold std_emplace. rewrite Ef. by apply std_insert_wf.
  - intros k j Hk. apply str_empty_false in Es as Hne.
    assert (ac_algorithm_id a ∉ ac_algorithm_id <$> first_occurrences l) as Hnew.
    { intros (b & Hid & (i & Hb)%list_elem_of_lookup)%list_elem_of_fmap.
      assert (std_find (ac_algorithm_id a) (ms_algorithm_index_by_id st) = Some i); [|congruence].
      apply Hi; eauto. }
    unfold std_emplace. rewrite Ef, first_occurrences_snoc, bool_decide_false, andb_false_r by done.
    assert (length (ms_algorithms st) = length (first_occurrences l)) as ->
      by (rewrite Ha; apply length_fmap).
    destruct (decide (k = ac_algorithm_id a)) as [->|Hka].
    + rewrite std_find_insert_eq. split.
      * intros [= <-]. exists a. split; [|done]. by rewrite lookup_app_r, Nat.sub_diag by lia.
      * intros (b & [[Hb ?]|[-> _]]%lookup_snoc_Some & Hid); [|done].
        exfalso. apply Hnew, list_elem_of_fmap. exists b. split; [done|by eapply list_elem_of_lookup_2].
    + rewrite std_find_insert_ne, Hi by done. split.
      * intros (b & Hb & ?). exists b. split; [by apply lookup_app_l_Some|done].
      * intros (b & [[? ?]|[_ ->]]%lookup_snoc_Some & ?); [eauto|congruence].
Qed.

Lemma mergeAlgorithms_inv l c id st :
  alg_inv l st -> alg_inv (l ++ sc_algorithms c) (mergeAlgorithms c id st).
Proof.
  unfold mergeAlgorithms. revert l st. induction (sc_algorithms c) as [|a k IH]; intros l st Hinv; simpl.
  - by rewrite app_nil_r.
  - rewrite cons_middle, (assoc_L (++)). by apply IH, merge_algorithm_inv.
Qed.

(** ** The merge state of one stream *)

(** The state after merging the contributions [cs] of one stream, oldest first. *)
Record merge_inv (cs : list (Z * StreamConfig)) (st : StreamMergeState) : Prop := {
  mi_base : forall p, last cs = Some p ->
    ms_base_config st = makeTransportStreamConfig p.2 /\ ms_base_config_source_config_id st = p.1;
  mi_algs : alg_inv (cs ≫= fun p => sc_algorithms p.2) st;
  mi_tracker :
    (if ms_tracker_explicitly_disabled st
     then Some (default disabled_tracker (ms_tracker_disable_config st))
     else ms_tracker_config st) = last (omap (fun p => sc_tracker_field p.2) cs);
}.

Lemma merge_inv_default : merge_inv [] StreamMergeState_default.
Proof.
  split; [done| |done]. split; [done|constructor|].
  intros id i _. simpl. split; [done|]. by intros (a & ? & _).
Qed.

Lemma mergeAlgorithms_other c id st :
  ms_base_config (mergeAlgorithms c id st) = ms_base_config st /\
  ms_base_config_source_config_id (mergeAlgorithms c id st) = ms_base_config_source_config_id st /\
  ms_tracker_config (mergeAlgorithms c id st) = ms_tracker_config st /\
  ms_tracker_disable_config (mergeAlgorithms c id st) = ms_tracker_disable_config st /\
  ms_tracker_explicitly_disabled (mergeAlgorithms c id st) = ms_tracker_explicitly_disabled st.
Proof.
  unfold mergeAlgorithms. revert st. induction (sc_algorithms c) as [|a l IH]; intros st; simpl; [done|].
  destruct (IH (merge_algorithm id st a)) as (-> & -> & -> & -> & ->).
  unfold merge_algorithm. destruct (str_empty _); [done|]. by destruct (std_find _ _).
Qed.

Lemma merge_stream_inv cs id c st :
  merge_inv cs st -> merge_inv (cs ++ [(id, c)]) (merge_stream id c st).
Proof.
  intros [Hb [Ha1 Ha2 Ha3] Ht]. unfold merge_stream.
  set (st0 := mkMergeState _ _ _ _ _ _ _ _ _ _).
  destruct (mergeAlgorithms_other c id st0) as (Eb & Eid & Ec & Ed & Ex).
  assert (alg_inv ((cs ++ [(id, c)]) ≫= fun p => sc_algorithms p.2) (mergeAlgorithms c id st0)) as Halg.
  { rewrite bind_app, bind_singleton. by apply mergeAlgorithms_inv. }
  set (st1 := mergeAlgorithms c id st0) in *. clearbody st1.
  unfold mergeTracker, sc_has_tracker, sc_tracker.
  split.
  - intros p. rewrite last_snoc. intros [= <-].
    destruct (sc_tracker_field c) as [t|]; simpl; [destruct (tc_enabled t)|]; simpl; by rewrite Eb, Eid.
  - destruct Halg as [H1 H2 H3].
    destruct (sc_tracker_field c) as [t|]; simpl; [destruct (tc_enabled t)|]; by split.
  - rewrite omap_app. simpl. destruct (sc_tracker_field c) as [t|]; simpl.
    + rewrite last_snoc. by destruct (tc_enabled t).
    + by rewrite Ec, Ed, Ex, app_nil_r.
Qed.

(** ** The whole merge *)

Lemma add_stream_find sid id c merged :
  std_find sid (add_stream id merged c) =
  if contributes c && str_eqb (sc_stream_id c) sid
  then Some (merge_stream id c (default StreamMergeState_default (std_find sid merged)))
  else std_find sid merged.
Proof.
  unfold add_stream, str_eqb. destruct (contributes c); simpl; [|done].
  destruct (String.eqb_spec (sc_stream_id c) sid) as [->|Hne].
  - apply std_find_insert_eq.
  - by apply std_find_insert_ne.
Qed.

(** The merge of a flat list of (config id, stream) pairs. *)
Definition merged_flat (l : list (Z * StreamConfig)) : list (string * StreamMergeState) :=
  foldl (fun merged p => add_stream p.1 merged p.2) [] l.

Lemma merged_states_flat configs :
  merged_states configs =
  merged_flat (configs ≫= fun p => (fun s => (agc_config_id p.2, s)) <$> agc_streams p.2).
Proof.
  unfold merged_states, merged_flat. generalize (@nil (string * StreamMergeState)).
  induction configs as [|p configs IH]; intros acc; simpl; [done|].
  rewrite foldl_app, <- IH. f_equal. clear IH. revert acc.
  induction (agc_streams p.2) as [|s l IH]; intros acc; simpl; [done|]. by rewrite IH.
Qed.

Lemma merged_flat_wf l : std_wf (merged_flat l).
Proof.
  unfold merged_flat. induction l as [|[id c] l IH] using rev_ind; [constructor|].
  rewrite foldl_app. simpl. unfold add_stream. destruct (contributes c); [|done].
  by apply std_insert_wf.
Qed.

Lemma merged_flat_inv l sid :
  match base.filter (fun p => contributes p.2 && str_eqb (sc_stream_id p.2) sid = true) l with
  | [] => std_find sid (merged_flat l) = None
  | cs => exists st, std_find sid (merged_flat l) = Some st /\ merge_inv cs st
  end.
Proof.
  unfold merged_flat. induction l as [|[id c] l IH] using rev_ind; [done|].
  rewrite foldl_app, filter_app, filter_cons, filter_nil. simpl. rewrite add_stream_find.
  set (cs := base.filter _ l) in *. set (merged := foldl _ _ l) in *. clearbody cs merged.
  case_decide as Hd; simpl in Hd.
  - rewrite Hd. destruct cs as [|p cs]; simpl.
    + rewrite IH. simpl. eexists. split; [done|]. apply (merge_stream_inv [] id c), merge_inv_default.
    + destruct IH as (st & -> & Hst). simpl. eexists. split; [done|].
      by apply (merge_stream_inv (p :: cs)).
  - apply not_true_is_false in Hd. rewrite Hd, app_nil_r. done.
Qed.

Lemma bind_fmap {A B C} (f : A -> B) (g : B -> list C) l : (f <$> l) ≫= g = l ≫= (fun x => g (f x)).
Proof. induction l as [|x l IH]; [done|]. cbn. by rewrite <- IH. Qed.

Lemma omap_fmap {A B C} (f : A -> B) (g : B -> option C) (l : list A) :
  omap g (f <$> l) = omap (fun x => g (f x)) l.
Proof. induction l as [|x l IH]; [done|]. cbn. destruct (g (f x)); by rewrite <- IH. Qed.

Lemma merged_find (configs : list (Z * AgentConfig)) (stream_id : string) :
  std_find stream_id (buildMergedStreams configs) =
    merged_config (contributions stream_id configs).*2 /\
  std_wf (buildMergedStreams configs).
Proof.
  unfold buildMergedStreams. rewrite merged_states_flat. unfold contributions.
  set (l := configs ≫= _). clearbody l.
  destruct (std_emplace_all finalizeMergedStreamConfig (merged_flat l) stream_id (merged_flat_wf l))
    as [-> Hwf].
  split; [|done]. pose proof (merged_flat_inv l stream_id) as Hinv.
  set (cs := base.filter _ l) in *. clearbody cs. destruct cs as [|p cs]; [by rewrite Hinv|].
  destruct Hinv as (st & -> & [Hb Ha Ht]). assert (last (p :: cs) <> None) as Hne by by intros ?%last_None.
  set (k := p :: cs) in *. clearbody k. clear p cs. cbn [fmap option_fmap option_map].
  unfold merged_config. rewrite fmap_last, bind_fmap, omap_fmap.
  destruct (last k) as [q|] eqn:El; [|done]. cbn [fmap option_fmap option_map].
  destruct (Hb q eq_refl) as [Eb _]. f_equal. unfold finalizeMergedStreamConfig.
  by rewrite Eb, (ai_algorithms _ _ Ha), Ht.
Qed.

(** The merged configuration of a stream carries its id. *)
Lemma merged_stream_id configs stream_id config :
  std_find stream_id (buildMergedStreams configs) = Some config -> sc_stream_id config = stream_id.
Proof.
  destruct (merged_find configs stream_id) as [-> _]. unfold contributions.
  set (l := configs ≫= _). clearbody l. unfold merged_config.
  destruct (last _) as [c|] eqn:El; [|done]. intros [= <-]. cbn.
  apply last_Some in El as [k Hk]. assert (Hin : c ∈ k ++ [c]) by (apply elem_of_app; right; left).
  rewrite <- Hk in Hin. apply list_elem_of_fmap in Hin as (p & -> & Hp).
  apply list_elem_of_filter in Hp as [Hp _]. apply andb_true_iff in Hp as [_ Hp].
  by apply String.eqb_eq in Hp.
Qed.

(** C22: [buildMergedStreams] computes the reference merge: a stream id is wanted
    exactly when some configuration contributes an enabled stream of that id with a
    source url; it then takes the transport fields of the contribution with the
    largest [config_id], the algorithms of all of them with one entry per
    non-empty algorithm id (in the place of the first, with the contents of the
    last), and the tracker of the last contribution that sets one. *)
Theorem buildMergedStreams_spec (configs : list (Z * AgentConfig)) (stream_id : string) :
  std_find stream_id (buildMergedStreams configs) =
    merged_config (contributions stream_id configs).*2 /\
  std_wf (buildMergedStreams configs).
Proof. apply merged_find. Qed.

(** ** Properties of the merged algorithms *)

Lemma elem_of_first_occurrences l a : a ∈ first_occurrences l -> a ∈ l.
Proof.
  induction l as [|c l IH] using rev_ind; [by intros ?%elem_of_nil|].
  rewrite first_occurrences_snoc, elem_of_app. destruct (_ && _); [by left; apply IH|].
  rewrite elem_of_app. naive_solver.
Qed.

Lemma latest_algorithm_id l a : ac_algorithm_id (latest_algorithm l a) = ac_algorithm_id a.
Proof.
  induction l as [|c l IH] using rev_ind.
  - unfold latest_algorithm. by destruct (str_empty _).
  - rewrite latest_algorithm_snoc. destruct (str_empty _); [done|].
    destruct (bool_decide_reflect (ac_algorithm_id c = ac_algorithm_id a)); done.
Qed.

Lemma latest_algorithm_in l a : a ∈ l -> latest_algorithm l a ∈ l.
Proof.
  intros Hin. unfold latest_algorithm. destruct (str_empty _); [done|].
  set (k := base.filter _ l). assert (forall b, b ∈ k -> b ∈ l) as Hk.
  { intros b. unfold k. rewrite list_elem_of_filter. by intros [_ ?]. }
  clearbody k. destruct (last k) as [b|] eqn:E; [|done]. simpl. apply Hk.
  apply last_Some in E as [k' ->]. rewrite elem_of_app. right. by constructor.
Qed.

Lemma first_occurrences_covers l a :
  a ∈ l -> exists b, b ∈ first_occurrences l /\ ac_algorithm_id b = ac_algorithm_id a.
Proof.
  induction l as [|c l IH] using rev_ind; [by intros ?%elem_of_nil|].
  rewrite first_occurrences_snoc, elem_of_app, list_elem_of_singleton.
  destruct (negb _ && bool_decide _) eqn:E.
  - intros [Hin| ->]; [by apply IH|]. apply andb_true_iff in E as [_ E]. bool_crush.
    apply list_elem_of_fmap in E as (b & -> & ?). eauto.
  - intros [Hin| ->].
    + destruct (IH Hin) as (b & ? & ?). exists b. rewrite elem_of_app. eauto.
    + exists c. rewrite elem_of_app, list_elem_of_singleton. eauto.
Qed.

(** the algorithm list handed to the detectors is a subset of the configured
    algorithms that keeps every configured id, and never holds two algorithms with
    the same non-empty id. *)
Theorem merged_algorithms_unique (l : list AlgorithmConfig) :
  (forall i j a b, merged_algorithms l !! i = Some a -> merged_algorithms l !! j = Some b ->
     ac_algorithm_id a = ac_algorithm_id b -> ac_algorithm_id a <> EmptyString -> i = j) /\
  (forall a, a ∈ merged_algorithms l -> a ∈ l) /\
  (forall a, a ∈ l -> exists b, b ∈ merged_algorithms l /\ ac_algorithm_id b = ac_algorithm_id a).
Proof.
  unfold merged_algorithms. split_and!.
  - intros i j a b. rewrite !list_lookup_fmap_Some. intros (c & -> & Hc) (d & -> & Hd).
    rewrite !latest_algorithm_id. intros. by apply (first_occurrences_inj l i j c d).
  - intros a (b & -> & Hb)%list_elem_of_fmap. by apply latest_algorithm_in, elem_of_first_occurrences.
  - intros a Ha. destruct (first_occurrences_covers l a Ha) as (b & Hb & <-).
    exists (latest_algorithm l b).
    split; [by apply (list_elem_of_fmap_2 (latest_algorithm l))|apply latest_algorithm_id].
Qed.

(** ** A concrete comparison *)

(** Field-wise equality is such a comparison. *)
#[export] Instance fieldwise_differencer : MessageDifferencer.
Proof.
  refine {| same_algorithm a b := bool_decide (a = b); same_tracker a b := bool_decide (a = b);
            algorithm_has_nan _ := false; tracker_has_nan _ := false |}.
  - intros a _. by apply bool_decide_eq_true.
  - intros a b. by apply bool_decide_ext.
  - intros a b c. rewrite !bool_decide_eq_true. congruence.
  - intros a _. by apply bool_decide_eq_true.
  - intros a b. by apply bool_decide_ext.
  - intros a b c. rewrite !bool_decide_eq_true. congruence.
Defined.

Definition ex_algorithm (id model : string) : AlgorithmConfig :=
  mkAlgorithmConfig id model f32_one 0 0 0 [].
Definition ex_stream (url : string) (algs : list AlgorithmConfig) (t : option TrackerConfig) : StreamConfig :=
  mkStreamConfig true "cam" url "" 5 "/s" "/r" 10 30 algs t.
Definition ex_configs : list (Z * AgentConfig) :=
  [ (1, mkAgentConfig "agent" 1 [ex_stream "rtsp://a" [ex_algorithm "person" "m1"; ex_algorithm "" "m2"]
           (Some TrackerConfig_default)]);
    (2, mkAgentConfig "agent" 2 [ex_stream "rtsp://b" [ex_algorithm "fire" "m3"; ex_algorithm "person" "m4"] None]) ].

Example ex_merge :
  buildMergedStreams ex_configs =
  [("cam"%string, ex_stream "rtsp://b"
      [ex_algorithm "person" "m4"; ex_algorithm "" "m2"; ex_algorithm "fire" "m3"]
      (Some TrackerConfig_default))].
Proof. vm_compute. reflexivity. Qed.

(** A tracker message with only default values is not the same configuration as none,
    nor are two algorithm lists that differ in a model path. *)
Lemma isSameRuntime_per_witness :
  let a := ex_stream "rtsp://a" [ex_algorithm "person" "m1"] (Some TrackerConfig_default) in
  let b := ex_stream "rtsp://a" [ex_algorithm "person" "m2"] None in
  isSameRuntimeStreamConfig a b = false /\ isSameRuntimeStreamConfig b a = false /\
  isSameRuntimeStreamConfig a a = true /\ hasDetectorConfigChanged a a = false.
Proof.
  intros a b.
  destruct (isSameRuntime_per a b b) as (Hsym & _ & _ & _).
  destruct (isSameRuntime_per a a a) as (_ & _ & Hrefl & Hdet).
  assert (config_nan_free a) as Ha by (split; repeat constructor).
  split_and!; [by vm_compute | rewrite <- Hsym; by vm_compute | by apply Hrefl |].
  apply Hdet. by apply Hrefl.
Defined.
