(* ===== verification/Sei.v ===== *)
(** * SEI metadata (src/src/stream/SeiInjector.cpp, src/src/pipeline/Utils.cpp)

    The encoder of the MSP V1 payload, its wrapping into an H.264 or H.265 SEI NAL
    unit, and the injection of that unit in front of a packet's data.  The decoders
    here are the receiver the protocol text
    (src/docs/metadata-over-sei-protocol.txt) prescribes; they are what the encoder
    is proved against.  A [float] to integer cast whose value does not fit (a NaN)
    is undefined behaviour, [None]. *)
From S2P Require Import Prelude Float32 Messages.

Inductive SeiCodecType := H264 | H265.
#[export] Instance SeiCodecType_eq_dec : EqDecision SeiCodecType.
Proof. solve_decision. Defined.

Record SeiTextOsdItem := mkSeiTextOsdItem {
  osd_flags : Z;                   (* uint8_t *)
  osd_style : Z;                   (* uint8_t *)
  osd_x : float32;
  osd_y : float32;
  osd_width : float32;
  osd_height : float32;
  osd_text : list Z;               (* the bytes of the string *)
  osd_reserved : Z;                (* uint8_t *)
  osd_text_color : Z;              (* uint32_t *)
  osd_bg_color : Z;                (* uint32_t *)
}.

Record SeiMessageContext := mkSeiMessageContext {
  ctx_stream_id : string;
  ctx_frame_id : Z;
  ctx_pts : Z;
  ctx_reused_cached_result : bool;
  ctx_result_expire_at_mono_ms : Z;
  ctx_algorithm_id : string;
  ctx_bbox_items : list DetectionObject;
  ctx_text_osd_items : list SeiTextOsdItem;
}.

Definition hasItems (c : SeiMessageContext) : bool :=
  match ctx_bbox_items c, ctx_text_osd_items c with [], [] => false | _, _ => true end.

Definition kAnnexBStartCode : list Z := [0; 0; 0; 1].
Definition kVersion : Z := 1.
Definition kMspItemTypeBbox : Z := 1.
Definition kMspItemTypeTextOsd : Z := 2.
Definition kSeiUuid : list Z :=
  [0x4D; 0x45; 0x54; 0x41; 0x44; 0x41; 0x54; 0x41;
   0x53; 0x45; 0x49; 0x42; 0x59; 0x43; 0x48; 0x42].

(** ** Byte writers *)

Definition isAnnexB (data : option (list Z)) : bool :=
  match data with
  | None => false
  | Some d =>
      match d with
      | b0 :: b1 :: b2 :: b3 :: _ =>
          ((b0 =? 0) && (b1 =? 0) && (b2 =? 0) && (b3 =? 1)) || ((b0 =? 0) && (b1 =? 0) && (b2 =? 1))
      | _ => false                 (* fewer than four bytes *)
      end
  end.

Definition appendNalLength (out : list Z) (value : Z) (nal_length_size : Z) : list Z :=
  out ++ be_bytes (Z.to_nat nal_length_size) value.

Definition appendBeU16 (out : list Z) (value : Z) : list Z :=
  out ++ [Z.land (Z.shiftr value 8) 0xFF; Z.land value 0xFF].

Definition appendBeU32 (out : list Z) (value : Z) : list Z :=
  out ++ [Z.land (Z.shiftr value 24) 0xFF; Z.land (Z.shiftr value 16) 0xFF;
          Z.land (Z.shiftr value 8) 0xFF; Z.land value 0xFF].

(** [65535.0F], [255.0F], [360.0F]: each literal is exact in binary32. *)
Definition f32_65535 : float32 := f32_of_Z 65535.
Definition f32_255 : float32 := f32_of_Z 255.
Definition f32_360 : float32 := f32_of_Z 360.

Definition quantizeUnitToU16 (value : float32) : option Z :=
  let clamped := std_clamp value f32_zero f32_one in
  f32_to_unsigned 16 (std_round (f32_mul clamped f32_65535)).

Definition quantizeUnitToU8 (value : float32) : option Z :=
  let clamped := std_clamp value f32_zero f32_one in
  f32_to_unsigned 8 (std_round (f32_mul clamped f32_255)).

Definition quantizeAngleToU16 (angle_degrees : float32) : option Z :=
  let normalized := std_fmod angle_degrees f32_360 in
  let normalized := if f32_ltb normalized f32_zero then f32_add normalized f32_360 else normalized in
  f32_to_unsigned 16 (std_round (f32_mul (f32_div normalized f32_360) f32_65535)).

Definition detectionTypeToUtf8 (object : DetectionObject) : list Z :=
  bytes_of_string (if str_empty (do_class_name object) then "unknown" else do_class_name object).

Definition osdTextToUtf8 (item : SeiTextOsdItem) : list Z := osd_text item.

(** ** Items; the [size_t] result is the number of items written *)

Definition kFixedBboxPayloadSize : Z := 18.
Definition kFixedTextOsdPayloadSize : Z := 20.

Definition appendMspBboxItem (payload : list Z) (object : DetectionObject) : option (list Z * Z) :=
  let full_type_name := detectionTypeToUtf8 object in
  let max_type_length := 255 - kFixedBboxPayloadSize in
  let type_length := Z.min (Z.of_nat (length full_type_name)) max_type_length in
  let payload := payload ++ [kMspItemTypeBbox] in
  let payload := payload ++ [u8 (kFixedBboxPayloadSize + type_length)] in
  let payload := appendBeU16 payload (u16 (Z.min (do_object_id object) 65535)) in
  let payload := payload ++ [u8 type_length] in
  confidence ← quantizeUnitToU8 (do_confidence object);
  let payload := payload ++ [confidence] in
  let box := do_bbox object in
  cx ← quantizeUnitToU16 (box_cx box);
  let payload := appendBeU16 payload cx in
  cy ← quantizeUnitToU16 (box_cy box);
  let payload := appendBeU16 payload cy in
  w ← quantizeUnitToU16 (box_width box);
  let payload := appendBeU16 payload w in
  h ← quantizeUnitToU16 (box_height box);
  let payload := appendBeU16 payload h in
  angle ← quantizeAngleToU16 (box_angle box);
  let payload := appendBeU16 payload angle in
  let payload := appendBeU32 payload 0 in
  Some (payload ++ take (Z.to_nat type_length) full_type_name, 1).

Definition appendMspTextOsdItem (payload : list Z) (item : SeiTextOsdItem) : option (list Z * Z) :=
  let full_text := osdTextToUtf8 item in
  let max_text_length := 255 - kFixedTextOsdPayloadSize in
  let text_length := Z.min (Z.of_nat (length full_text)) max_text_length in
  let payload := payload ++ [kMspItemTypeTextOsd] in
  let payload := payload ++ [u8 (kFixedTextOsdPayloadSize + text_length)] in
  let payload := payload ++ [osd_flags item] in
  let payload := payload ++ [osd_style item] in
  x ← quantizeUnitToU16 (osd_x item);
  let payload := appendBeU16 payload x in
  y ← quantizeUnitToU16 (osd_y item);
  let payload := appendBeU16 payload y in
  w ← quantizeUnitToU16 (osd_width item);
  let payload := appendBeU16 payload w in
  h ← quantizeUnitToU16 (osd_height item);
  let payload := appendBeU16 payload h in
  let payload := payload ++ [u8 text_length] in
  let payload := payload ++ [osd_reserved item] in
  let payload := appendBeU32 payload (osd_text_color item) in
  let payload := appendBeU32 payload (osd_bg_color item) in
  Some (payload ++ take (Z.to_nat text_length) full_text, 1).

(** The two counting loops of [buildMspV1UserDataPayload]; [item_count] is a [uint8_t]. *)
Fixpoint append_items {A} (append : list Z -> A -> option (list Z * Z)) (items : list A)
    (payload : list Z) (item_count : Z) : option (list Z * Z) :=
  match items with
  | [] => Some (payload, item_count)
  | item :: rest =>
      if item_count <? 255 then
        match append payload item with
        | None => None
        | Some (payload', n) => append_items append rest payload' (u8 (item_count + u8 n))
        end
      else Some (payload, item_count)
  end.

Definition buildMspV1UserDataPayload (context : SeiMessageContext) : option (list Z) :=
  let max_item_count := 255%nat in
  let bbox_count := Nat.min (length (ctx_bbox_items context)) max_item_count in
  let text_osd_count := Nat.min (length (ctx_text_osd_items context)) max_item_count in
  let payload := kSeiUuid ++ [kVersion; 0; 0] in
  let item_count_index := length payload in
  let payload := payload ++ [0] in
  '(payload, item_count) ← append_items appendMspBboxItem
      (take bbox_count (ctx_bbox_items context)) payload 0;
  '(payload, item_count) ← append_items appendMspTextOsdItem
      (take text_osd_count (ctx_text_osd_items context)) payload item_count;
  Some (<[item_count_index := item_count]> payload).

(** ** The SEI NAL unit *)

(** The loop of [appendSeiLength]; [value / 255] turns leave a value below 255. *)
Fixpoint sei_length_loop (fuel : nat) (rbsp : list Z) (value : Z) : list Z * Z :=
  match fuel with
  | O => (rbsp, value)
  | S fuel => if 255 <=? value then sei_length_loop fuel (rbsp ++ [255]) (value - 255) else (rbsp, value)
  end.

Definition appendSeiLength (rbsp : list Z) (value : Z) : list Z :=
  let '(rbsp, value) := sei_length_loop (Z.to_nat (value / 255)) rbsp value in
  rbsp ++ [u8 value].

Fixpoint to_ebsp_loop (rbsp : list Z) (zero_count : Z) : list Z :=
  match rbsp with
  | [] => []
  | byte :: rest =>
      if (2 <=? zero_count) && (byte <=? 3)
      then 3 :: byte :: to_ebsp_loop rest (if byte =? 0 then 0 + 1 else 0)
      else byte :: to_ebsp_loop rest (if byte =? 0 then zero_count + 1 else 0)
  end.

Definition toEbsp (rbsp : list Z) : list Z := to_ebsp_loop rbsp 0.

(** The raw byte sequence both builders assemble. *)
Definition sei_rbsp (payload : list Z) : list Z :=
  appendSeiLength (appendSeiLength [] 5) (Z.of_nat (length payload)) ++ payload ++ [0x80].

Definition buildH264SeiNal (payload : list Z) : list Z := 0x06 :: toEbsp (sei_rbsp payload).

Definition buildH265SeiNal (payload : list Z) : list Z :=
  u8 (Z.shiftl 39 1) :: 0x01 :: toEbsp (sei_rbsp payload).

Definition toAnnexBNal (nal_unit : list Z) : list Z := kAnnexBStartCode ++ nal_unit.

(** An empty vector reports failure. *)
Definition toLengthPrefixedNal (nal_unit : list Z) (nal_length_size : Z) : list Z :=
  if (nal_length_size <? 1) || (4 <? nal_length_size) then []
  else
    let max_nal_size :=
      if nal_length_size =? 4 then 2 ^ 32 - 1 else Z.shiftl 1 (nal_length_size * 8) - 1 in
    if max_nal_size <? Z.of_nat (length nal_unit) then []
    else appendNalLength [] (Z.of_nat (length nal_unit)) nal_length_size ++ nal_unit.

(** ** Injection *)

(** FFmpeg's packet allocation and property copy: whether [av_packet_alloc] and
    [av_new_packet] succeed for a size, and whether [av_packet_copy_props] does. *)
Record PacketLibrary := mkPacketLibrary {
  av_new_packet_ok : Z -> bool;
  av_packet_copy_props_ok : AVPacket -> bool;
}.

(** [allocatePacket]: the size passes through [int]. *)
Definition allocatePacket (lib : PacketLibrary) (size : Z) : bool :=
  av_new_packet_ok lib (to_signed 32 size).

(** A packet holding [data] with every other property of [p]. *)
Definition pkt_with_data (data : list Z) (p : AVPacket) : AVPacket :=
  mkAVPacket (Some data) (pkt_stream_index p) (pkt_pts p) (pkt_dts p) (pkt_duration p)
    (pkt_flags p) (pkt_pos p).

(** The result and [output_packet]; [None]: undefined behaviour in a quantiser. *)
Definition inject (lib : PacketLibrary) (source_packet : EncodedPacket) (codec_type : SeiCodecType)
    (nal_length_size : Z) (context : SeiMessageContext) : option (bool * option AVPacket) :=
  match ep_packet source_packet with
  | None => Some (false, ep_packet source_packet)
  | Some packet =>
      match pkt_data packet with
      | None => Some (false, ep_packet source_packet)
      | Some data =>
          if Z.of_nat (length data) <=? 0 then Some (false, ep_packet source_packet)
          else if negb (hasItems context) then Some (true, ep_packet source_packet)
          else
            payload ← buildMspV1UserDataPayload context;
            match payload with
            | [] => Some (false, ep_packet source_packet)
            | _ =>
                let sei_nal_unit :=
                  if bool_decide (codec_type = H265) then buildH265SeiNal payload
                  else buildH264SeiNal payload in
                let source_is_annex_b := isAnnexB (pkt_data packet) in
                let sei_nal :=
                  if source_is_annex_b then toAnnexBNal sei_nal_unit
                  else toLengthPrefixedNal sei_nal_unit nal_length_size in
                match sei_nal with
                | [] => Some (false, ep_packet source_packet)
                | _ =>
                    if negb (allocatePacket lib (Z.of_nat (length sei_nal) + Z.of_nat (length data)))
                    then Some (false, ep_packet source_packet)
                    else if negb (av_packet_copy_props_ok lib packet)
                    then Some (false, ep_packet source_packet)
                    else Some (true, Some (pkt_with_data (sei_nal ++ data) packet))
                end
            end
      end
  end.

(** ** pipeline/Utils.cpp *)

Definition selectAlarmConfig (stream_config : StreamConfig) (algorithm_id : string) : AlgorithmConfig :=
  match (if str_empty algorithm_id then None
         else List.find (fun a => str_eqb (ac_algorithm_id a) algorithm_id) (sc_algorithms stream_config)) with
  | Some algorithm => algorithm
  | None => match sc_algorithms stream_config with a :: _ => a | [] => AlgorithmConfig_default end
  end.

Definition seiCodecTypeFromFrame (frame : option FrameBundle) : SeiCodecType :=
  match frame with
  | Some f => if fb_source_coding f =? MPP_VIDEO_CodingHEVC then H265 else H264
  | None => H264
  end.

Definition parseNalLengthSizeFromExtradata (codec_type : SeiCodecType) (extradata : list Z) : Z :=
  match extradata with
  | [] => 0
  | b0 :: _ =>
      if negb (b0 =? 1) then 0
      else
        let '(min_size, offset) := match codec_type with H264 => (5, 4) | H265 => (22, 21) end%nat in
        if (length extradata <? min_size)%nat then 0
        else
          let nal_length_size := Z.land (nth offset extradata 0) 3 + 1 in
          if (1 <=? nal_length_size) && (nal_length_size <=? 4) then nal_length_size else 0
  end.

Fixpoint videoNalLengthSizeFromSpecs (specs : list RtspStreamSpec) : Z :=
  match specs with
  | [] => 0
  | spec :: rest =>
      if bool_decide (sp_media_type spec <> Video) then videoNalLengthSizeFromSpecs rest
      else match sp_codec_id spec with
           | AV_CODEC_ID_H264 => parseNalLengthSizeFromExtradata H264 (sp_extradata spec)
           | AV_CODEC_ID_HEVC => parseNalLengthSizeFromExtradata H265 (sp_extradata spec)
           | _ => 0
           end
  end.

Definition kOsdAlignLeft : Z := 0.
Definition kOsdAlignRight : Z := 2.
Definition kMspAnchorTopLeft : Z := 0.
Definition kMspAnchorBottomRight : Z := 3.

(** The [float] literals of [buildSeiMessageContext]: [n / 100] rounded to nearest. *)
Definition f32_hundredths (n : Z) : float32 := f32_div (f32_of_Z n) (f32_of_Z 100).

Definition osd_location_text : string :=
  "Chengdu
高新
软件园".

(** [time_text] is what [makeOsdTimeText] formats from the system clock. *)
Definition buildSeiMessageContext (time_text : string) (stream_id : string) (frame_id pts : Z)
    (algorithm_id : string) (bbox_items : list DetectionObject) (reused_cached_result : bool)
    (expire_at_mono_ms : Z) : SeiMessageContext :=
  let top_left_time :=
    mkSeiTextOsdItem
      (Z.lor (Z.lor (Z.lor kOsdAlignLeft (Z.shiftl 1 2)) (Z.shiftl 0 3)) (Z.shiftl kMspAnchorTopLeft 4))
      0 (f32_hundredths 2) (f32_hundredths 4) (f32_hundredths 28) (f32_hundredths 5)
      (bytes_of_string time_text) 0 0xFFFFFFFF 0 in
  let bottom_right_location :=
    mkSeiTextOsdItem
      (Z.lor (Z.lor (Z.lor kOsdAlignRight (Z.shiftl 1 2)) (Z.shiftl 0 3)) (Z.shiftl kMspAnchorBottomRight 4))
      0 (f32_hundredths 98) (f32_hundredths 95) f32_zero f32_zero
      (bytes_of_string osd_location_text) 0 0xFFFFFFFF 0 in
  mkSeiMessageContext stream_id frame_id pts reused_cached_result expire_at_mono_ms algorithm_id
    bbox_items [top_left_time; bottom_right_location].

(** ** The quantisers are defined and bounded on every real input *)

Definition f32_finite (x : float32) : bool :=
  match x with S754_finite _ _ _ | S754_zero _ => true | _ => false end.

Lemma f32_65535_eq : f32_65535 = S754_finite false 16776960 (-8).
Proof. by vm_compute. Qed.
Lemma f32_255_eq : f32_255 = S754_finite false 16711680 (-16).
Proof. by vm_compute. Qed.
Lemma f32_360_eq : f32_360 = S754_finite false 11796480 (-15).
Proof. by vm_compute. Qed.

Lemma quantizeUnitToU16_total v :
  f32_valid v -> f32_is_nan v = false -> exists q, quantizeUnitToU16 v = Some q /\ 0 <= q <= 65535.
Proof.
  intros Hv Hn. apply round_to_unsigned; [lia|lia|]. rewrite f32_65535_eq.
  apply f32_mul_within; [lia|lia|lia|]. by apply clamp_unit_within.
Qed.

Lemma quantizeUnitToU8_total v :
  f32_valid v -> f32_is_nan v = false -> exists q, quantizeUnitToU8 v = Some q /\ 0 <= q <= 255.
Proof.
  intros Hv Hn. apply round_to_unsigned; [lia|lia|]. rewrite f32_255_eq.
  apply f32_mul_within; [lia|lia|lia|]. by apply clamp_unit_within.
Qed.

Lemma quantizeAngleToU16_total v :
  f32_finite v = true -> exists q, quantizeAngleToU16 v = Some q /\ 0 <= q <= 65535.
Proof.
  intros Hv. unfold quantizeAngleToU16. rewrite f32_360_eq, f32_65535_eq. apply round_to_unsigned; [lia|lia|].
  apply f32_mul_within; [lia|lia|lia|]. apply (f32_div_within 360); [lia|lia|lia|].
  destruct (fmod_within 360 11796480 (-15) v) as [s Hs]; [lia|lia|lia| |].
  { destruct v as [z|z| |s m e]; try done; [right|left]; eauto. }
  destruct (f32_ltb _ f32_zero) eqn:Hlt.
  - apply add_within; [lia|lia|lia|]. by eapply neg_within.
  - by eapply not_neg_within.
Qed.

(** Every quantiser is defined, and within its field, on every value a [float]
    can hold other than a NaN (for an angle: every finite value); on a NaN the cast
    is undefined behaviour. *)
Theorem quantizers_defined (v : float32) :
  (f32_valid v -> f32_is_nan v = false ->
     (exists q, quantizeUnitToU16 v = Some q /\ 0 <= q <= 65535) /\
     (exists q, quantizeUnitToU8 v = Some q /\ 0 <= q <= 255)) /\
  (f32_finite v = true -> exists q, quantizeAngleToU16 v = Some q /\ 0 <= q <= 65535) /\
  (f32_is_nan v = true ->
     quantizeUnitToU16 v = None /\ quantizeUnitToU8 v = None /\ quantizeAngleToU16 v = None).
Proof.
  split_and!.
  - intros Hv Hn. split; [by apply quantizeUnitToU16_total|by apply quantizeUnitToU8_total].
  - apply quantizeAngleToU16_total.
  - by destruct v.
Qed.

Lemma quantizers_defined_witness :
  (exists q, quantizeUnitToU16 (f32_hundredths 98) = Some q /\ 0 <= q <= 65535) /\
  (exists q, quantizeAngleToU16 (f32_of_Z (-450)) = Some q /\ 0 <= q <= 65535) /\
  quantizeUnitToU8 S754_nan = None.
Proof.
  split_and!.
  - by apply (quantizers_defined (f32_hundredths 98)); vm_compute.
  - by apply (quantizers_defined (f32_of_Z (-450))); vm_compute.
  - by apply (quantizers_defined S754_nan).
Defined.

(** ** The receiver of the payload *)

Inductive msp_item :=
| MspBbox (id confidence cx cy w h angle distance : Z) (type : list Z)
| MspText (flags style x y w h reserved text_color bg_color : Z) (text : list Z).

(** Section 4.4.8 of the protocol: an item of a known type must have the size its own
    length field implies; an unknown type is skipped ([Some None]). *)
Definition parse_item (type : Z) (payload : list Z) : option (option msp_item) :=
  if type =? 1 then
    match payload with
    | i1 :: i0 :: tl :: c :: x1 :: x0 :: y1 :: y0 :: w1 :: w0 :: h1 :: h0 :: a1 :: a0
        :: d3 :: d2 :: d1 :: d0 :: text =>
        if Z.of_nat (length text) =? tl then
          Some (Some (MspBbox (be_value [i1; i0]) c (be_value [x1; x0]) (be_value [y1; y0])
            (be_value [w1; w0]) (be_value [h1; h0]) (be_value [a1; a0]) (be_value [d3; d2; d1; d0]) text))
        else None
    | _ => None
    end
  else if type =? 2 then
    match payload with
    | f :: s :: x1 :: x0 :: y1 :: y0 :: w1 :: w0 :: h1 :: h0 :: tl :: r
        :: c3 :: c2 :: c1 :: c0 :: b3 :: b2 :: b1 :: b0 :: text =>
        if Z.of_nat (length text) =? tl then
          Some (Some (MspText f s (be_value [x1; x0]) (be_value [y1; y0]) (be_value [w1; w0])
            (be_value [h1; h0]) r (be_value [c3; c2; c1; c0]) (be_value [b3; b2; b1; b0]) text))
        else None
    | _ => None
    end
  else Some None.

(** The items, and the bytes left after them. *)
Fixpoint parse_items (count : nat) (l : list Z) : option (list msp_item * list Z) :=
  match count with
  | O => Some ([], l)
  | S count =>
      match l with
      | type :: size :: rest =>
          if Z.of_nat (length rest) <? size then None
          else
            item ← parse_item type (take (Z.to_nat size) rest);
            '(items, tl) ← parse_items count (drop (Z.to_nat size) rest);
            Some (match item with Some i => i :: items | None => items end, tl)
      | _ => None
      end
  end.

Definition parse_msp (l : list Z) : option (list msp_item) :=
  if bool_decide (take 16 l = kSeiUuid) then
    match drop 16 l with
    | version :: _ :: _ :: count :: rest =>
        if version =? 1 then
          '(items, tl) ← parse_items (Z.to_nat count) rest;
          match tl with [] => Some items | _ => None end
        else None
    | _ => None
    end
  else None.

(** ** What the encoder means to write *)

Definition bbox_item_of (o : DetectionObject) : option msp_item :=
  let box := do_bbox o in
  c ← quantizeUnitToU8 (do_confidence o);
  x ← quantizeUnitToU16 (box_cx box);
  y ← quantizeUnitToU16 (box_cy box);
  w ← quantizeUnitToU16 (box_width box);
  h ← quantizeUnitToU16 (box_height box);
  a ← quantizeAngleToU16 (box_angle box);
  Some (MspBbox (Z.min (do_object_id o) 65535) c x y w h a 0 (take 237 (detectionTypeToUtf8 o))).

Definition text_item_of (i : SeiTextOsdItem) : option msp_item :=
  x ← quantizeUnitToU16 (osd_x i);
  y ← quantizeUnitToU16 (osd_y i);
  w ← quantizeUnitToU16 (osd_width i);
  h ← quantizeUnitToU16 (osd_height i);
  Some (MspText (osd_flags i) (osd_style i) x y w h (osd_reserved i) (osd_text_color i)
    (osd_bg_color i) (take 235 (osd_text i))).

Definition unit_ok (v : float32) : Prop := f32_valid v /\ f32_is_nan v = false.

(** The values the C++ types admit, less the NaNs and infinite angles. *)
Record bbox_ok (o : DetectionObject) : Prop := {
  bo_id : in_unsigned 32 (do_object_id o);
  bo_conf : unit_ok (do_confidence o);
  bo_x : unit_ok (box_cx (do_bbox o));
  bo_y : unit_ok (box_cy (do_bbox o));
  bo_w : unit_ok (box_width (do_bbox o));
  bo_h : unit_ok (box_height (do_bbox o));
  bo_a : f32_finite (box_angle (do_bbox o)) = true;
}.

Record text_ok (i : SeiTextOsdItem) : Prop := {
  to_flags : byte_ok (osd_flags i);
  to_style : byte_ok (osd_style i);
  to_reserved : byte_ok (osd_reserved i);
  to_x : unit_ok (osd_x i);
  to_y : unit_ok (osd_y i);
  to_w : unit_ok (osd_width i);
  to_h : unit_ok (osd_height i);
  to_color : in_unsigned 32 (osd_text_color i);
  to_bg : in_unsigned 32 (osd_bg_color i);
  to_text : bytes_ok (osd_text i);
}.

(** [enc] is one item on the wire. *)
Definition encodes (enc : list Z) (item : msp_item) : Prop :=
  bytes_ok enc /\
  forall n rest, parse_items (S n) (enc ++ rest) =
    match parse_items n rest with
    | Some (items, tl) => Some (item :: items, tl)
    | None => None
    end.

Lemma encodes_item type size body item :
  byte_ok type -> byte_ok size -> bytes_ok body -> Z.of_nat (length body) = size ->
  parse_item type body = Some (Some item) -> encodes (type :: size :: body) item.
Proof.
  intros Ht Hs Hb Hlen Hp. split; [by do 2 (apply Forall_cons_2; [done|])|]. intros n rest. simpl.
  rewrite length_app, Nat2Z.inj_add, Hlen.
  rewrite (proj2 (Z.ltb_ge _ _)) by lia.
  rewrite <- Hlen, Nat2Z.id, take_app_length, drop_app_length, Hp. simpl.
  by destruct (parse_items n rest) as [[items tl]|].
Qed.

Lemma be16_eq v : [Z.land (Z.shiftr v 8) 255; Z.land v 255] = be_bytes 2 v.
Proof. done. Qed.
Lemma be32_eq v :
  [Z.land (Z.shiftr v 24) 255; Z.land (Z.shiftr v 16) 255; Z.land (Z.shiftr v 8) 255; Z.land v 255]
  = be_bytes 4 v.
Proof. done. Qed.

Lemma be_value_16 v : 0 <= v < 2 ^ 16 ->
  be_value [Z.land (Z.shiftr v 8) 255; Z.land v 255] = v.
Proof. intros Hv. rewrite be16_eq. by apply (be_value_bytes_small 2). Qed.
Lemma be_value_32 v : 0 <= v < 2 ^ 32 ->
  be_value [Z.land (Z.shiftr v 24) 255; Z.land (Z.shiftr v 16) 255; Z.land (Z.shiftr v 8) 255;
            Z.land v 255] = v.
Proof. intros Hv. rewrite be32_eq. by apply (be_value_bytes_small 4). Qed.

(** Read back every 2- and 4-byte field of a parsed item. *)
Ltac be_values :=
  change (8 * Z.of_nat 0) with 0; change (8 * Z.of_nat 1) with 8;
  change (8 * Z.of_nat 2) with 16; change (8 * Z.of_nat 3) with 24; rewrite ?Z.shiftr_0_r;
  rewrite ?be_value_32, ?be_value_16 by (unfold in_unsigned in *; lia); reflexivity.

Lemma land_255_ok z : byte_ok (Z.land z 255).
Proof. rewrite land_255. unfold in_unsigned. apply Z.mod_pos_bound. lia. Qed.

#[export] Hint Resolve land_255_ok : media.

Lemma take_min_length (l : list Z) n :
  take (Z.to_nat (Z.min (Z.of_nat (length l)) (Z.of_nat n))) l = take n l.
Proof.
  destruct (decide (length l <= n)%nat).
  - rewrite Z.min_l, Nat2Z.id by lia. by rewrite !take_ge by lia.
  - by rewrite Z.min_r, Nat2Z.id by lia.
Qed.

Lemma bytes_ok_take n (l : list Z) : bytes_ok l -> bytes_ok (take n l).
Proof. apply Forall_take. Qed.

Lemma detectionType_ok o : bytes_ok (detectionTypeToUtf8 o).
Proof. apply bytes_of_string_ok. Qed.

#[export] Hint Resolve bytes_ok_take detectionType_ok : media.

Lemma appendMspBboxItem_spec payload o :
  bbox_ok o ->
  exists enc item, bbox_item_of o = Some item /\ encodes enc item /\
    appendMspBboxItem payload o = Some (payload ++ enc, 1).
Proof.
  intros [Hid [Hc Hcn] [Hx Hxn] [Hy Hyn] [Hw Hwn] [Hh Hhn] Ha].
  unfold bbox_item_of, appendMspBboxItem.
  destruct (quantizeUnitToU8_total _ Hc Hcn) as (c & -> & Hcr).
  destruct (quantizeUnitToU16_total _ Hx Hxn) as (x & -> & Hxr).
  destruct (quantizeUnitToU16_total _ Hy Hyn) as (y & -> & Hyr).
  destruct (quantizeUnitToU16_total _ Hw Hwn) as (w & -> & Hwr).
  destruct (quantizeUnitToU16_total _ Hh Hhn) as (h & -> & Hhr).
  destruct (quantizeAngleToU16_total _ Ha) as (a & -> & Har). simpl.
  assert (bytes_ok (detectionTypeToUtf8 o)) as Hname by apply detectionType_ok.
  set (name := detectionTypeToUtf8 o) in *. set (tl := Z.min (Z.of_nat (length name)) (255 - 18)).
  assert (Z.of_nat (length (take 237 name)) = tl) as Htl by (rewrite length_take; unfold tl; lia).
  assert (0 <= tl <= 237) by (unfold tl; lia).
  set (id := u16 (Z.min (do_object_id o) 65535)).
  assert (id = Z.min (do_object_id o) 65535) as Hide.
  { apply wrap_small. unfold in_unsigned in *. lia. }
  assert (u8 (18 + tl) = 18 + tl) as Hsz by (apply wrap_small; unfold in_unsigned; lia).
  assert (u8 tl = tl) as Htlw by (apply wrap_small; unfold in_unsigned; lia).
  eexists ([1; u8 (18 + tl)] ++ be_bytes 2 id ++ [u8 tl; c] ++ be_bytes 2 x ++ be_bytes 2 y ++
    be_bytes 2 w ++ be_bytes 2 h ++ be_bytes 2 a ++ be_bytes 4 0 ++ take 237 name), _.
  split; [done|]. split.
  - rewrite Hsz, Htlw. apply encodes_item.
    + done.
    + unfold in_unsigned. lia.
    + solve_bytes.
    + rewrite !length_app, !length_be_bytes, !Nat2Z.inj_add, Htl. simpl. lia.
    + set (text := take 237 name) in *. unfold parse_item. cbn [be_bytes app].
      change (1 =? 1) with true. cbv beta iota. rewrite Htl, Z.eqb_refl.
      rewrite Hide. f_equal. f_equal. be_values.
  - assert (take (Z.to_nat tl) name = take 237 name) as Htake by apply (take_min_length name 237).
    unfold appendBeU16, appendBeU32, kMspItemTypeBbox, kFixedBboxPayloadSize. fold tl. fold id.
    rewrite Htake, !be16_eq, !be32_eq. by rewrite <- !(assoc_L (++)).
Qed.


Lemma appendMspTextOsdItem_spec payload i :
  text_ok i ->
  exists enc item, text_item_of i = Some item /\ encodes enc item /\
    appendMspTextOsdItem payload i = Some (payload ++ enc, 1).
Proof.
  intros [Hf Hs Hr [Hx Hxn] [Hy Hyn] [Hw Hwn] [Hh Hhn] Hc Hb Ht].
  unfold text_item_of, appendMspTextOsdItem, osdTextToUtf8.
  destruct (quantizeUnitToU16_total _ Hx Hxn) as (x & -> & Hxr).
  destruct (quantizeUnitToU16_total _ Hy Hyn) as (y & -> & Hyr).
  destruct (quantizeUnitToU16_total _ Hw Hwn) as (w & -> & Hwr).
  destruct (quantizeUnitToU16_total _ Hh Hhn) as (h & -> & Hhr). simpl.
  set (text := osd_text i) in *. set (tl := Z.min (Z.of_nat (length text)) (255 - 20)).
  assert (Z.of_nat (length (take 235 text)) = tl) as Htl by (rewrite length_take; unfold tl; lia).
  assert (0 <= tl <= 235) by (unfold tl; lia).
  assert (u8 (20 + tl) = 20 + tl) as Hsz by (apply wrap_small; unfold in_unsigned; lia).
  assert (u8 tl = tl) as Htlw by (apply wrap_small; unfold in_unsigned; lia).
  eexists ([2; u8 (20 + tl)] ++ [osd_flags i; osd_style i] ++ be_bytes 2 x ++ be_bytes 2 y ++
    be_bytes 2 w ++ be_bytes 2 h ++ [u8 tl; osd_reserved i] ++ be_bytes 4 (osd_text_color i) ++
    be_bytes 4 (osd_bg_color i) ++ take 235 text), _.
  split; [done|]. split.
  - rewrite Hsz, Htlw. apply encodes_item.
    + done.
    + unfold in_unsigned. lia.
    + solve_bytes.
    + rewrite !length_app, !length_be_bytes, !Nat2Z.inj_add, Htl. simpl. lia.
    + set (t := take 235 text) in *. unfold parse_item. cbn [be_bytes app].
      change (2 =? 1) with false. change (2 =? 2) with true. cbv beta iota. rewrite Htl, Z.eqb_refl.
      f_equal. f_equal. be_values.
  - assert (take (Z.to_nat tl) text = take 235 text) as Htake by apply (take_min_length text 235).
    unfold appendBeU16, appendBeU32, kMspItemTypeTextOsd, kFixedTextOsdPayloadSize. fold tl.
    rewrite Htake, !be16_eq, !be32_eq. by rewrite <- !(assoc_L (++)).
Qed.

(** ** The payload *)

(** Encodings laid end to end parse back to their items. *)
Lemma encodes_concat encs items :
  Forall2 encodes encs items ->
  bytes_ok (concat encs) /\ parse_items (length items) (concat encs) = Some (items, []).
Proof.
  induction 1 as [|enc item encs items [Hb Hp] _ [IHb IHp]]; [done|]. simpl concat. split.
  - by apply Forall_app_2.
  - simpl length. by rewrite Hp, IHp.
Qed.

Lemma mapM_cons_eq {A B} (f : A -> option B) x l :
  mapM f (x :: l) =
  match f x with
  | Some y => match mapM f l with Some k => Some (y :: k) | None => None end
  | None => None
  end.
Proof. done. Qed.

Section Items.
Context {A : Type} (append : list Z -> A -> option (list Z * Z)) (item_of : A -> option msp_item)
  (ok : A -> Prop).
Hypothesis append_spec : forall payload a, ok a ->
  exists enc item, item_of a = Some item /\ encodes enc item /\
    append payload a = Some (payload ++ enc, 1).

(** The counting loop writes the first [255 - item_count] items and counts them. *)
Lemma append_items_spec items : forall payload (item_count : nat),
  Forall ok items -> (item_count <= 255)%nat ->
  exists encs its, let written := take (255 - item_count) items in
    mapM item_of written = Some its /\ Forall2 encodes encs its /\
    append_items append items payload (Z.of_nat item_count) =
      Some (payload ++ concat encs, Z.of_nat (item_count + length written)).
Proof.
  induction items as [|a items IH]; intros payload n Hok Hn.
  { exists [], []. rewrite take_nil. simpl. rewrite app_nil_r, Nat.add_0_r. by repeat constructor. }
  apply Forall_cons in Hok as [Ha Hok]. simpl append_items.
  destruct (Z.ltb_spec (Z.of_nat n) 255) as [Hlt|Hge].
  - destruct (append_spec payload a Ha) as (enc & item & Hi & He & ->).
    assert (u8 (Z.of_nat n + u8 1) = Z.of_nat (S n)) as ->.
    { rewrite (wrap_small 8 1) by done. rewrite wrap_small; [lia|]. unfold in_unsigned. lia. }
    destruct (IH (payload ++ enc) (S n) Hok) as (encs & its & Hm & Hf & ->); [lia|].
    exists (enc :: encs), (item :: its).
    replace (255 - n)%nat with (S (255 - S n)) by lia. cbn [take]. cbv zeta.
    split; [by rewrite mapM_cons_eq, Hi, Hm|]. split; [by constructor|]. rewrite <- (assoc_L (++)). by rewrite length_cons, Nat.add_succ_r.
  - exists [], []. replace (255 - n)%nat with 0%nat by lia. simpl.
    rewrite app_nil_r, Nat.add_0_r. by repeat constructor.
Qed.
End Items.

(** The values of the context the C++ types and the quantisers admit. *)
Record ctx_ok (c : SeiMessageContext) : Prop := {
  co_bbox : Forall bbox_ok (ctx_bbox_items c);
  co_text : Forall text_ok (ctx_text_osd_items c);
}.

(** The items of a context that fit: boxes first, at most 255 in all. *)
Definition ctx_items (c : SeiMessageContext) : option (list msp_item) :=
  let bboxes := take 255 (ctx_bbox_items c) in
  bs ← mapM bbox_item_of bboxes;
  ts ← mapM text_item_of (take (255 - length bboxes) (ctx_text_osd_items c));
  Some (bs ++ ts).

Lemma kSeiUuid_ok : bytes_ok kSeiUuid.
Proof. unfold kSeiUuid. solve_bytes. Qed.

Lemma take_take_min {A} (l : list A) n m : take n (take (Nat.min (length l) m) l) = take (Nat.min n m) l.
Proof.
  rewrite take_take. destruct (decide (length l <= n `min` m)%nat).
  - rewrite !take_ge by lia. done.
  - f_equal. lia.
Qed.

Lemma mapM_length_eq {A B} (f : A -> option B) l k : mapM f l = Some k -> length l = length k.
Proof. apply length_mapM. Qed.

Lemma buildMsp_parts c :
  ctx_ok c ->
  exists encs items, ctx_items c = Some items /\ (length items <= 255)%nat /\ Forall2 encodes encs items /\
    buildMspV1UserDataPayload c =
      Some (kSeiUuid ++ [1; 0; 0; Z.of_nat (length items)] ++ concat encs).
Proof.
  intros [Hb Ht]. unfold buildMspV1UserDataPayload, ctx_items. cbv zeta.
  set (payload := (kSeiUuid ++ [kVersion; 0; 0]) ++ [0]).
  destruct (append_items_spec appendMspBboxItem bbox_item_of bbox_ok appendMspBboxItem_spec
    (take (Nat.min (length (ctx_bbox_items c)) 255) (ctx_bbox_items c)) payload 0)
    as (encs & its & Hm & Hf & E); [by apply Forall_take|lia|].
  rewrite take_take_min in Hm, E. change (Nat.min (255 - 0) 255) with 255%nat in Hm, E.
  change (Z.of_nat 0) with 0 in E. rewrite Nat.add_0_l in E. rewrite E. clear E. cbn [mbind option_bind].
  set (k := length (take 255 (ctx_bbox_items c))).
  assert (k <= 255)%nat as Hk by (unfold k; rewrite length_take; lia).
  destruct (append_items_spec appendMspTextOsdItem text_item_of text_ok appendMspTextOsdItem_spec
    (take (Nat.min (length (ctx_text_osd_items c)) 255) (ctx_text_osd_items c)) (payload ++ concat encs) k)
    as (encs' & its' & Hm' & Hf' & E); [by apply Forall_take|lia|].
  rewrite take_take_min in Hm', E. replace (Nat.min (255 - k) 255) with (255 - k)%nat in Hm', E by lia.
  rewrite E. cbn [mbind option_bind]. exists (encs ++ encs'), (its ++ its').
  apply mapM_length_eq in Hm as Hl. apply mapM_length_eq in Hm' as Hl'.
  rewrite Hm. cbn [mbind option_bind]. rewrite Hm'. split; [done|].
  fold k in Hl. rewrite length_app, <- Hl, <- Hl'. split; [rewrite length_take; lia|].
  split; [by apply Forall2_app|]. rewrite concat_app. f_equal.
Qed.

(** C24: Encoding then decoding is the identity: for every context whose values are
    real numbers the encoder is defined, its output is a byte sequence, and the
    receiver the protocol prescribes reads back exactly the items of the context,
    quantised: the boxes first, then the texts, the first 255 of them, each string
    cut to the bytes that fit. *)
Theorem msp_payload_roundtrip (c : SeiMessageContext) :
  ctx_ok c ->
  exists payload items, buildMspV1UserDataPayload c = Some payload /\ bytes_ok payload /\
    ctx_items c = Some items /\ parse_msp payload = Some items.
Proof.
  intros (encs & items & Hi & Hle & Hf & ->)%buildMsp_parts.
  apply encodes_concat in Hf as [Hb Hp]. eexists _, items. split; [done|]. split; [|split; [done|]].
  - apply Forall_app_2; [apply kSeiUuid_ok|]. solve_bytes.
  - unfold parse_msp. rewrite take_app_length', drop_app_length' by done.
    rewrite bool_decide_true by done. simpl. by rewrite Nat2Z.id, Hp.
Qed.

(** ** The SEI length code and the emulation prevention *)

Lemma sei_length_loop_spec fuel rbsp value :
  0 <= value ->
  sei_length_loop fuel rbsp value =
    (rbsp ++ repeat 255 (Nat.min fuel (Z.to_nat (value / 255))),
     value - 255 * Z.of_nat (Nat.min fuel (Z.to_nat (value / 255)))).
Proof.
  revert rbsp value. induction fuel as [|fuel IH]; intros rbsp value Hv; simpl sei_length_loop.
  { rewrite Nat.min_0_l. simpl. rewrite app_nil_r. f_equal; lia. }
  destruct (Z.leb_spec 255 value) as [Hge|Hlt].
  - rewrite IH by lia.
    assert (Z.to_nat (value / 255) = S (Z.to_nat ((value - 255) / 255))) as ->.
    { replace value with (value - 255 + 1 * 255) at 1 by lia. rewrite Z.div_add by lia.
      rewrite <- Z2Nat.inj_succ by (apply Z.div_pos; lia). f_equal; lia. }
    rewrite <- Nat.succ_min_distr. simpl repeat. rewrite <- (assoc_L (++)). f_equal; lia.
  - rewrite (Z.div_small value) by lia. rewrite Nat.min_0_r. simpl. rewrite app_nil_r. f_equal; lia.
Qed.

(** The fuel given suffices: the loop ends with a value below 255. *)
Lemma appendSeiLength_eq rbsp value :
  0 <= value ->
  appendSeiLength rbsp value = rbsp ++ repeat 255 (Z.to_nat (value / 255)) ++ [value mod 255].
Proof.
  intros Hv. unfold appendSeiLength. rewrite sei_length_loop_spec, Nat.min_id by done.
  rewrite <- (assoc_L (++)). do 3 f_equal.
  pose proof (Z.div_pos value 255 Hv ltac:(lia)). rewrite Z2Nat.id by done.
  pose proof (Z.div_mod value 255 ltac:(lia)). pose proof (Z.mod_pos_bound value 255 ltac:(lia)).
  replace (value - 255 * (value / 255)) with (value mod 255) by lia.
  apply wrap_small. unfold in_unsigned. lia.
Qed.

(** The receiver's side of the length code. *)
Fixpoint parse_sei_length (l : list Z) : option (Z * list Z) :=
  match l with
  | [] => None
  | b :: r =>
      if b =? 255 then match parse_sei_length r with Some (v, r') => Some (255 + v, r') | None => None end
      else Some (b, r)
  end.

Lemma parse_sei_length_append value rest :
  0 <= value -> parse_sei_length (appendSeiLength [] value ++ rest) = Some (value, rest).
Proof.
  intros Hv. rewrite appendSeiLength_eq by done. simpl.
  pose proof (Z.div_mod value 255 ltac:(lia)) as Hd. pose proof (Z.mod_pos_bound value 255 ltac:(lia)).
  pose proof (Z.div_pos value 255 Hv ltac:(lia)).
  assert (forall n, parse_sei_length ((repeat 255 n ++ [value mod 255]) ++ rest) =
            Some (255 * Z.of_nat n + value mod 255, rest)) as Hgen.
  { induction n as [|n IH].
    - simpl. by rewrite (proj2 (Z.eqb_neq _ _)) by lia.
    - cbn [repeat app parse_sei_length]. rewrite Z.eqb_refl.
      change (repeat 255 n ++ [value mod 255] ++ rest) with (repeat 255 n ++ ([value mod 255] ++ rest)).
      rewrite IH. do 2 f_equal. lia. }
  rewrite Hgen, Z2Nat.id by done. do 2 f_equal. lia.
Qed.

(** The receiver drops the 3 of every 0, 0, 3. *)
Fixpoint from_ebsp_loop (ebsp : list Z) (zero_count : Z) : list Z :=
  match ebsp with
  | [] => []
  | byte :: rest =>
      if (2 <=? zero_count) && (byte =? 3) then from_ebsp_loop rest 0
      else byte :: from_ebsp_loop rest (if byte =? 0 then zero_count + 1 else 0)
  end.

Definition fromEbsp (ebsp : list Z) : list Z := from_ebsp_loop ebsp 0.

Lemma ebsp_loop_roundtrip rbsp zero_count :
  from_ebsp_loop (to_ebsp_loop rbsp zero_count) zero_count = rbsp.
Proof.
  revert zero_count. induction rbsp as [|b r IH]; intros zc; simpl; [done|].
  destruct (Z.leb_spec 2 zc), (Z.leb_spec b 3); simpl.
  - rewrite (proj2 (Z.leb_le _ _)) by done. simpl. by destruct (b =? 0); rewrite IH.
  - rewrite (proj2 (Z.leb_le _ _)) by done. simpl. rewrite (proj2 (Z.eqb_neq b 3)) by lia.
    by rewrite IH.
  - rewrite (proj2 (Z.leb_gt _ _)) by done. simpl. by rewrite IH.
  - rewrite (proj2 (Z.leb_gt _ _)) by done. simpl. by rewrite IH.
Qed.

(** After two zeros comes at least a 3, so no start code (0, 0, 1) or (0, 0, 0). *)
Definition no_emulation (l : list Z) : Prop :=
  forall i b, l !! i = Some 0 -> l !! S i = Some 0 -> l !! S (S i) = Some b -> 3 <= b.

Fixpoint emulation_free (zero_count : Z) (l : list Z) : Prop :=
  match l with
  | [] => True
  | b :: r => (2 <= zero_count -> 3 <= b) /\ emulation_free (if b =? 0 then zero_count + 1 else 0) r
  end.

Lemma emulation_free_lookup zc l : 0 <= zc -> emulation_free zc l -> no_emulation l.
Proof.
  unfold no_emulation. revert zc. induction l as [|b l IH]; intros zc Hzc; [done|].
  intros [_ Hl] i c. destruct i as [|i]; simpl.
  - intros [= ->]. destruct l as [|b1 [|b2 l]]; simpl in *; try done.
    intros [= ->] [= ->]. apply Hl. simpl. lia.
  - apply (IH (if b =? 0 then zc + 1 else 0)); [|done]. by destruct (b =? 0); lia.
Qed.

Lemma to_ebsp_emulation_free rbsp zc : emulation_free zc (to_ebsp_loop rbsp zc).
Proof.
  revert zc. induction rbsp as [|b r IH]; intros zc; simpl; [done|].
  destruct (Z.leb_spec 2 zc), (Z.leb_spec b 3); simpl.
  - split; [lia|]. split; [lia|]. by destruct (b =? 0).
  - split; [lia|]. by destruct (b =? 0).
  - split; [lia|]. by destruct (b =? 0).
  - split; [lia|]. by destruct (b =? 0).
Qed.

Lemma to_ebsp_last rbsp b zc : last (to_ebsp_loop (rbsp ++ [b]) zc) = Some b.
Proof.
  revert zc. induction rbsp as [|c r IH]; intros zc; simpl.
  - by destruct (_ && _).
  - assert (forall zc', to_ebsp_loop (r ++ [b]) zc' <> []) as Hne.
    { intros zc'. destruct r; simpl; by destruct (_ && _). }
    destruct (_ && _).
    + set (zc' := if c =? 0 then 0 + 1 else 0). specialize (IH zc'). specialize (Hne zc').
      by destruct (to_ebsp_loop (r ++ [b]) zc').
    + set (zc' := if c =? 0 then zc + 1 else 0). specialize (IH zc'). specialize (Hne zc').
      by destruct (to_ebsp_loop (r ++ [b]) zc').
Qed.

(** The receiver of an SEI NAL unit body holding one message, with the stop bit. *)
Definition parse_sei_rbsp (rbsp : list Z) : option (Z * list Z) :=
  '(type, l) ← parse_sei_length rbsp;
  '(size, l) ← parse_sei_length l;
  if bool_decide (drop (Z.to_nat size) l = [0x80]) then Some (type, take (Z.to_nat size) l) else None.

Definition parse_h264_sei (nal : list Z) : option (Z * list Z) :=
  match nal with 6 :: ebsp => parse_sei_rbsp (fromEbsp ebsp) | _ => None end.

(** [nal_unit_type] 39 (prefix SEI), layer 0, temporal id 1. *)
Definition parse_h265_sei (nal : list Z) : option (Z * list Z) :=
  match nal with 78 :: 1 :: ebsp => parse_sei_rbsp (fromEbsp ebsp) | _ => None end.

Lemma parse_sei_rbsp_build payload : parse_sei_rbsp (sei_rbsp payload) = Some (5, payload).
Proof.
  unfold parse_sei_rbsp, sei_rbsp.
  assert (forall l v, 0 <= v -> appendSeiLength l v = l ++ appendSeiLength [] v) as Happ.
  { intros l v Hv. by rewrite !appendSeiLength_eq. }
  rewrite (Happ (appendSeiLength [] 5)), <- (assoc_L (++)) by lia.
  rewrite parse_sei_length_append by lia. simpl.
  rewrite parse_sei_length_append by lia. simpl.
  rewrite Nat2Z.id, drop_app_length, take_app_length. by rewrite bool_decide_true.
Qed.

Lemma sei_body_free payload : emulation_free 0 (toEbsp (sei_rbsp payload)).
Proof. apply to_ebsp_emulation_free. Qed.

(** A receiver of either codec extracts from the built SEI unit the
    user-data-unregistered message (type 5) with exactly the payload given, for
    every payload; no start code is emulated inside the unit, which ends in the
    stop byte. *)
Theorem sei_nal_roundtrip (payload : list Z) :
  parse_h264_sei (buildH264SeiNal payload) = Some (5, payload) /\
  parse_h265_sei (buildH265SeiNal payload) = Some (5, payload) /\
  no_emulation (buildH264SeiNal payload) /\ no_emulation (buildH265SeiNal payload) /\
  last (buildH264SeiNal payload) = Some 0x80 /\ last (buildH265SeiNal payload) = Some 0x80.
Proof.
  assert (fromEbsp (toEbsp (sei_rbsp payload)) = sei_rbsp payload) as Hrt
    by apply ebsp_loop_roundtrip.
  assert (last (toEbsp (sei_rbsp payload)) = Some 0x80) as Hl.
  { unfold toEbsp, sei_rbsp. rewrite (assoc_L (++)). apply to_ebsp_last. }
  pose proof (sei_body_free payload) as Hf.
  split_and!.
  - change (parse_sei_rbsp (fromEbsp (toEbsp (sei_rbsp payload))) = Some (5, payload)).
    by rewrite Hrt, parse_sei_rbsp_build.
  - change (parse_sei_rbsp (fromEbsp (toEbsp (sei_rbsp payload))) = Some (5, payload)).
    by rewrite Hrt, parse_sei_rbsp_build.
  - apply (emulation_free_lookup 0); [done|]. split; [lia|]. exact Hf.
  - change (buildH265SeiNal payload) with (78 :: 1 :: toEbsp (sei_rbsp payload)).
    apply (emulation_free_lookup 0); [done|]. split; [lia|]. split; [simpl; lia|]. exact Hf.
  - unfold buildH264SeiNal. simpl. by destruct (toEbsp (sei_rbsp payload)).
  - unfold buildH265SeiNal. simpl. by destruct (toEbsp (sei_rbsp payload)).
Qed.

(** ** Framing *)

(** length-prefixed framing succeeds exactly for prefix sizes 1 to 4 and units
    whose length fits the prefix, and then a reader of the prefix recovers the
    unit; in every other case it reports failure by an empty result. *)
Theorem toLengthPrefixedNal_spec (nal : list Z) (n : Z) :
  let out := toLengthPrefixedNal nal n in
  if bool_decide (1 <= n <= 4 /\ Z.of_nat (length nal) < 256 ^ n)
  then be_value (take (Z.to_nat n) out) = Z.of_nat (length nal) /\ drop (Z.to_nat n) out = nal
  else out = [].
Proof.
  cbv zeta. unfold toLengthPrefixedNal, appendNalLength.
  assert (1 <= n <= 4 -> (if n =? 4 then 2 ^ 32 - 1 else Z.shiftl 1 (n * 8) - 1) = 256 ^ n - 1) as Hmax.
  { intros Hn. assert (n = 1 \/ n = 2 \/ n = 3 \/ n = 4) as [-> |[-> |[-> | ->]]] by lia; done. }
  case_bool_decide as Hok.
  - destruct Hok as [Hn Hlen]. rewrite (proj2 (Z.ltb_ge n 1)), (proj2 (Z.ltb_ge 4 n)) by lia. simpl orb.
    rewrite Hmax, (proj2 (Z.ltb_ge _ _)) by lia.
    change ([] ++ be_bytes (Z.to_nat n) (Z.of_nat (length nal))) with
      (be_bytes (Z.to_nat n) (Z.of_nat (length nal))).
    rewrite take_app_length', drop_app_length' by by rewrite length_be_bytes.
    split; [|done]. apply be_value_bytes_small. rewrite Z2Nat.id by lia. lia.
  - destruct (Z.ltb_spec n 1), (Z.ltb_spec 4 n); simpl; try done.
    rewrite Hmax by lia. destruct (Z.ltb_spec (256 ^ n - 1) (Z.of_nat (length nal))); [done|].
    exfalso. apply Hok. lia.
Qed.

(** What [inject] puts in front of the source data. *)
Definition framed (data : list Z) (nal_length_size : Z) (sei : list Z) : list Z :=
  if isAnnexB (Some data) then toAnnexBNal sei else toLengthPrefixedNal sei nal_length_size.

Definition built_sei (codec : SeiCodecType) (payload : list Z) : list Z :=
  if bool_decide (codec = H265) then buildH265SeiNal payload else buildH264SeiNal payload.

(** The outcomes of one injection. *)
Inductive injected (source : EncodedPacket) (codec : SeiCodecType) (n : Z) (c : SeiMessageContext)
  : bool -> option AVPacket -> Prop :=
| injected_unchanged : injected source codec n c false (ep_packet source)
| injected_nothing_to_add : hasItems c = false -> injected source codec n c true (ep_packet source)
| injected_front packet data payload :
    ep_packet source = Some packet -> pkt_data packet = Some data -> data <> [] ->
    buildMspV1UserDataPayload c = Some payload -> framed data n (built_sei codec payload) <> [] ->
    injected source codec n c true
      (Some (pkt_with_data (framed data n (built_sei codec payload) ++ data) packet)).

Lemma buildMsp_some c : ctx_ok c -> exists payload, buildMspV1UserDataPayload c = Some payload /\ payload <> [].
Proof. intros (encs & items & _ & _ & _ & ->)%buildMsp_parts. by eexists. Qed.

(** C25: [inject] is defined whenever the context's values are real numbers; it
    either reports failure and hands back the source packet untouched, or succeeds
    and hands back the source packet (nothing to add) or a packet whose data is one
    framed SEI unit carrying the payload followed by the whole source data, with
    every other property of the source packet. *)
Theorem inject_spec (lib : PacketLibrary) (source : EncodedPacket) (codec : SeiCodecType) (n : Z)
    (c : SeiMessageContext) :
  ctx_ok c -> exists ok out, inject lib source codec n c = Some (ok, out) /\ injected source codec n c ok out.
Proof.
  intros Hc. destruct (buildMsp_some c Hc) as (payload & Hp & Hne). unfold inject.
  destruct (ep_packet source) as [packet|] eqn:Es; [|rewrite <- Es; eauto using injected].
  destruct (pkt_data packet) as [data|] eqn:Ed; [|rewrite <- Es; eauto using injected].
  destruct (Z.leb_spec (Z.of_nat (length data)) 0) as [|Hd]; [rewrite <- Es; eauto using injected|].
  destruct (hasItems c) eqn:Hi; simpl negb; cbv iota;
    [|rewrite <- Es; eexists _, _; split; [done|]; by apply injected_nothing_to_add].
  rewrite Hp. cbn [mbind option_bind]. destruct payload as [|b payload]; [done|].
  change (if isAnnexB (Some data) then _ else _) with (framed data n (built_sei codec (b :: payload))).
  destruct (framed data n _) as [|f fs] eqn:Ef; [rewrite <- Es; eauto using injected|].
  destruct (allocatePacket _ _); simpl negb; cbv iota; [|rewrite <- Es; eauto using injected].
  destruct (av_packet_copy_props_ok _ _); simpl negb; cbv iota; [|rewrite <- Es; eauto using injected].
  eexists _, _. split; [done|]. rewrite <- Ef.
  apply injected_front; try done; [|by rewrite Ef]. intros ->. simpl in Hd. lia.
Qed.

(** A four-byte length prefix whose third byte is 1 reads as a start code. *)
Lemma isAnnexB_avcc nal rest :
  (256 <= length nal < 512)%nat -> isAnnexB (Some (toLengthPrefixedNal nal 4 ++ rest)) = true.
Proof.
  intros Hlen. unfold toLengthPrefixedNal, appendNalLength.
  change ((4 <? 1) || (4 <? 4)) with false. cbv iota. change (4 =? 4) with true. cbv iota zeta.
  rewrite (proj2 (Z.ltb_ge _ _)) by lia. set (len := Z.of_nat (length nal)).
  change (be_bytes (Z.to_nat 4) len) with [Z.land (Z.shiftr len 24) 255; Z.land (Z.shiftr len 16) 255;
    Z.land (Z.shiftr len 8) 255; Z.land (Z.shiftr len 0) 255].
  cbn [app isAnnexB]. rewrite !land_255, !Z.shiftr_div_pow2 by lia.
  change (2 ^ 24) with 16777216. change (2 ^ 16) with 65536. change (2 ^ 8) with 256.
  rewrite (Z.div_small len 16777216), (Z.div_small len 65536) by lia.
  assert (len / 256 = 1) as -> by (symmetry; apply (Z.div_unique len 256 1 (len - 256)); lia).
  change (0 mod 256 =? 0) with true. change (1 mod 256 =? 1) with true. apply orb_true_r.
Qed.

(** The framing of the source is guessed wrongly when it is length prefixed with
    four-byte lengths and its first unit is 256 to 511 bytes long: the prefix
    0, 0, 1, x passes for a start code, so the SEI unit is put in front with an
    Annex B start code and the packet is no longer a sequence of length-prefixed
    units. *)
Theorem inject_corrupts_avcc (lib : PacketLibrary) (source : EncodedPacket) (codec : SeiCodecType)
    (c : SeiMessageContext) (packet : AVPacket) (nal rest : list Z) :
  (256 <= length nal < 512)%nat ->
  ep_packet source = Some packet -> pkt_data packet = Some (toLengthPrefixedNal nal 4 ++ rest) ->
  ctx_ok c -> hasItems c = true ->
  (forall size, av_new_packet_ok lib size = true) -> av_packet_copy_props_ok lib packet = true ->
  exists sei, inject lib source codec 4 c =
    Some (true, Some (pkt_with_data ([0; 0; 0; 1] ++ sei ++ toLengthPrefixedNal nal 4 ++ rest) packet)).
Proof.
  intros Hlen Hp Hd Hc Hi Halloc Hcopy. destruct (buildMsp_some c Hc) as (payload & Hb & Hne).
  exists (built_sei codec payload).
  set (data := toLengthPrefixedNal nal 4 ++ rest) in *.
  assert (isAnnexB (Some data) = true) as Hx by by apply isAnnexB_avcc.
  unfold inject. rewrite Hp, Hd, Hi, Hb. cbn [negb mbind option_bind].
  destruct data as [|d ds]; [done|]. rewrite (proj2 (Z.leb_gt _ _)) by (simpl; lia).
  destruct payload as [|b payload]; [done|]. rewrite Hx.
  change (if bool_decide (codec = H265) then _ else _) with (built_sei codec (b :: payload)).
  unfold allocatePacket. rewrite Halloc, Hcopy. done.
Qed.

(** ** Concrete injections *)

Definition ex_object : DetectionObject :=
  mkDetectionObject 70000 1 "person" (f32_hundredths 87)
    (Some (mkBox (f32_hundredths 50) (f32_hundredths 40) (f32_hundredths 10) (f32_hundredths 20) (f32_of_Z (-90)))).
Definition ex_context : SeiMessageContext :=
  buildSeiMessageContext "2024-01-01 00:00:00" "cam" 7 3600 "person" [ex_object] false 0.
Definition ex_library : PacketLibrary := mkPacketLibrary (fun size => 0 <? size) (fun _ => true).

Lemma ex_context_ok : ctx_ok ex_context.
Proof.
  split; simpl; repeat (constructor; [split; simpl|]); try constructor; try done;
    try apply bytes_of_string_ok; unfold in_unsigned; lia.
Qed.

Lemma msp_payload_roundtrip_witness :
  exists payload items, buildMspV1UserDataPayload ex_context = Some payload /\ bytes_ok payload /\
    ctx_items ex_context = Some items /\ parse_msp payload = Some items.
Proof. exact (msp_payload_roundtrip ex_context ex_context_ok). Defined.

(** The object id is clamped, the angle normalised to 270 degrees. *)
Example ex_items :
  exists t1 t2, ctx_items ex_context =
    Some [MspBbox 65535 222 32768 26214 6554 13107 49151 0 (bytes_of_string "person"); t1; t2].
Proof. eexists _, _. vm_compute. reflexivity. Qed.

Definition ex_source (data : list Z) : EncodedPacket :=
  mkEncodedPacket Video (Some (mkAVPacket (Some data) 0 3600 3600 3600 1 (-1))) 0 3600 3600 3600 0 true 7 0.

Lemma inject_spec_witness :
  exists ok out, inject ex_library (ex_source [0; 0; 0; 1; 0x65; 0x88]) H264 0 ex_context = Some (ok, out) /\
    injected (ex_source [0; 0; 0; 1; 0x65; 0x88]) H264 0 ex_context ok out.
Proof. exact (inject_spec ex_library (ex_source [0; 0; 0; 1; 0x65; 0x88]) H264 0 ex_context ex_context_ok). Defined.

(** An IDR slice of 300 bytes behind a four-byte length. *)
Lemma inject_corrupts_avcc_witness :
  let nal := 0x65 :: repeat 0x88 299 in
  exists sei, inject (mkPacketLibrary (fun _ => true) (fun _ => true)) (ex_source (toLengthPrefixedNal nal 4 ++ []))
      H264 4 ex_context =
    Some (true, Some (pkt_with_data ([0; 0; 0; 1] ++ sei ++ toLengthPrefixedNal nal 4 ++ [])
      (mkAVPacket (Some (toLengthPrefixedNal nal 4 ++ [])) 0 3600 3600 3600 1 (-1)))).
Proof.
  refine (inject_corrupts_avcc (mkPacketLibrary (fun _ => true) (fun _ => true)) (ex_source (toLengthPrefixedNal (0x65 :: repeat 0x88 299) 4 ++ [])) H264
    ex_context _ (0x65 :: repeat 0x88 299) [] _ eq_refl eq_refl ex_context_ok eq_refl (fun _ => eq_refl) eq_refl).
  simpl. lia.
Defined.
