(* ===== verification/Socket.v ===== *)
(** * SocketSender (src/src/ipc/SocketSender.h, SocketSender.cpp)

    The framed transport over a Unix domain socket.  The sending thread and the
    receiving thread share [fd_] and [connected_]; everything the kernel and the
    other thread decide - how many bytes a call moves, errors, a reconnection
    between two calls - is an explicit event, consumed in order by the loops. *)
From S2P Require Import Prelude SafeQueue.

Definition kMagic : Z := 0xDEADBEEF.
Definition kMaxFrameSize : Z := 4 * 1024 * 1024.
Definition kInitRetryDelayMs : Z := 1000.
Definition kMaxRetryDelayMs : Z := 30000.

Abbreviation bytes := (list Z).

(** ** Writing *)

(** What one turn of the loop of [writeAll] meets. *)
Inductive send_event :=
| SendClosed                       (* [fd_] is negative *)
| SendSome (n : positive)          (* [send] accepted up to [n] bytes *)
| SendFailed.                      (* [send] returned 0 or an error *)

(** The loop of [writeAll] on the bytes not yet sent; the second component is what
    went onto the wire.  Without an event the call is still blocked: [None]. *)
Fixpoint writeAll (events : list send_event) (remaining : bytes)
  : option bool * bytes * list send_event :=
  match remaining with
  | [] => (Some true, [], events)
  | _ =>
      match events with
      | [] => (None, [], [])
      | SendClosed :: events => (Some false, [], events)
      | SendFailed :: events => (Some false, [], events)
      | SendSome n :: events =>
          let k := Nat.min (Pos.to_nat n) (length remaining) in
          let '(ok, wire, events') := writeAll events (drop k remaining) in
          (ok, take k remaining ++ wire, events')
      end
  end.

(** The header and the payload; the length field is the size cast to [uint32_t]. *)
Definition frame (data : bytes) : bytes :=
  be_bytes 4 kMagic ++ be_bytes 4 (u32 (Z.of_nat (length data))) ++ data.

Definition sendRaw (data : bytes) (events : list send_event)
  : option bool * bytes * list send_event :=
  let magic := be_bytes 4 kMagic in
  let len := be_bytes 4 (u32 (Z.of_nat (length data))) in
  match writeAll events magic with
  | (Some true, w1, events) =>
      match writeAll events len with
      | (Some true, w2, events) =>
          let '(ok, w3, events) := writeAll events data in (ok, w1 ++ w2 ++ w3, events)
      | (ok, w2, events) => (ok, w1 ++ w2, events)
      end
  | (ok, w1, events) => (ok, w1, events)
  end.

(** ** Reading *)

(** What one turn of the loop of [readAll] meets.  [Reconnected s] is the other thread
    replacing the connection: from then on [fd_] delivers the bytes [s]. *)
Inductive recv_event :=
| RecvClosed                       (* [fd_] is negative *)
| RecvSome (n : positive)          (* [recv] returned up to [n] of the bytes that arrived *)
| RecvEof
| RecvEintr
| RecvError
| Reconnected (incoming : bytes).

(** The loop of [readAll]: bytes read so far are in [buf]; [None] is a call still
    blocked.  [recv] on a connection with nothing to read blocks. *)
Fixpoint readAll (events : list recv_event) (incoming : bytes) (remaining : nat) (buf : bytes)
  : option bool * bytes * bytes * list recv_event :=
  match remaining with
  | O => (Some true, buf, incoming, events)
  | _ =>
      match events with
      | [] => (None, buf, incoming, [])
      | RecvClosed :: events => (Some false, buf, incoming, events)
      | RecvEof :: events => (Some false, buf, incoming, events)
      | RecvError :: events => (Some false, buf, incoming, events)
      | RecvEintr :: events => readAll events incoming remaining buf
      | Reconnected s :: events => readAll events s remaining buf
      | RecvSome n :: events =>
          let k := Nat.min (Pos.to_nat n) (Nat.min remaining (length incoming)) in
          readAll events (drop k incoming) (remaining - k) (buf ++ take k incoming)
      end
  end.

(** What one turn of [recvLoop] with a connection does. *)
Inductive recv_outcome :=
| Delivered (payload : bytes)      (* handed to [recv_cb_] *)
| Disconnect                       (* [disconnectSocket], unless stopping *)
| Blocked.

Definition recv_turn (events : list recv_event) (incoming : bytes)
  : recv_outcome * bytes * list recv_event :=
  match readAll events incoming 4 [] with
  | (Some true, magic, incoming, events) =>
      match readAll events incoming 4 [] with
      | (Some true, len, incoming, events) =>
          let magic := be_value magic in
          let len := be_value len in
          if negb (magic =? kMagic) then (Disconnect, incoming, events)
          else if (len =? 0) || (kMaxFrameSize <? len) then (Disconnect, incoming, events)
          else
            match readAll events incoming (Z.to_nat len) [] with
            | (Some true, buf, incoming, events) => (Delivered buf, incoming, events)
            | (Some false, _, incoming, events) => (Disconnect, incoming, events)
            | (None, _, incoming, events) => (Blocked, incoming, events)
            end
      | (Some false, _, incoming, events) => (Disconnect, incoming, events)
      | (None, _, incoming, events) => (Blocked, incoming, events)
      end
  | (Some false, _, incoming, events) => (Disconnect, incoming, events)
  | (None, _, incoming, events) => (Blocked, incoming, events)
  end.

(** While not connected [recvLoop] polls; it goes on with the next connection. *)
Fixpoint await_connection (events : list recv_event) : option (bytes * list recv_event) :=
  match events with
  | [] => None
  | Reconnected s :: events => Some (s, events)
  | _ :: events => await_connection events
  end.

(** [recvLoop]: the payloads delivered, in order.  [fuel] bounds the number of turns. *)
Fixpoint recvLoop (fuel : nat) (events : list recv_event) (incoming : bytes) : list bytes :=
  match fuel with
  | O => []
  | S fuel =>
      match recv_turn events incoming with
      | (Delivered payload, incoming, events) => payload :: recvLoop fuel events incoming
      | (Disconnect, _, events) =>
          match await_connection events with
          | None => []
          | Some (incoming, events) => recvLoop fuel events incoming
          end
      | (Blocked, _, _) => []
      end
  end.

(** ** The sender's state *)

Record SocketSender := mkSocketSender {
  ss_queue : ThreadSafeQueue bytes;
  ss_connected : bool;             (* [connected_], and [fd_ >= 0] *)
  ss_ever_connected : bool;
  ss_stop_flag : bool;
  ss_running : bool;
  ss_sent_count : Z;               (* uint64_t *)
  ss_failed_count : Z;
  ss_reconnect_count : Z;
  ss_retry_delay_ms : Z;           (* local of [sendLoop] *)
}.

(** The constructor: [send_queue_size] is an [int], converted to [size_t]. *)
Definition SocketSender_new (send_queue_size : Z) : SocketSender :=
  mkSocketSender (tsq_new send_queue_size) false false false false 0 0 0 kInitRetryDelayMs.

Definition ss_start (s : SocketSender) : SocketSender :=
  if ss_running s then s
  else mkSocketSender (ss_queue s) (ss_connected s) (ss_ever_connected s) false true
         (ss_sent_count s) (ss_failed_count s) (ss_reconnect_count s) kInitRetryDelayMs.

Definition disconnectSocket (s : SocketSender) : SocketSender :=
  mkSocketSender (ss_queue s) false (ss_ever_connected s) (ss_stop_flag s) (ss_running s)
    (ss_sent_count s) (ss_failed_count s) (ss_reconnect_count s) (ss_retry_delay_ms s).

Definition ss_stop (s : SocketSender) : SocketSender :=
  mkSocketSender (tsq_stop (ss_queue s)) false (ss_ever_connected s) true false
    (ss_sent_count s) (ss_failed_count s) (ss_reconnect_count s) (ss_retry_delay_ms s).

(** [sendFrame]: [None] is the undefined [push] into a queue of capacity 0. *)
Definition sendFrame (data : bytes) (s : SocketSender) : option (bool * SocketSender) :=
  match tsq_push data (ss_queue s) with
  | PushUndefined => None
  | PushOk ok q => Some (ok, mkSocketSender q (ss_connected s) (ss_ever_connected s) (ss_stop_flag s)
      (ss_running s) (ss_sent_count s) (ss_failed_count s) (ss_reconnect_count s) (ss_retry_delay_ms s))
  end.

(** [connectSocket]: [established] when both [socket] and [connect] succeed. *)
Definition connectSocket (established : bool) (s : SocketSender) : bool * SocketSender :=
  if negb established then (false, s)
  else
    (true,
     mkSocketSender (ss_queue s) true true (ss_stop_flag s) (ss_running s) (ss_sent_count s)
       (ss_failed_count s)
       (if ss_ever_connected s then u64 (ss_reconnect_count s + 1) else ss_reconnect_count s)
       (ss_retry_delay_ms s)).

Definition ss_with_retry (d : Z) (s : SocketSender) : SocketSender :=
  mkSocketSender (ss_queue s) (ss_connected s) (ss_ever_connected s) (ss_stop_flag s) (ss_running s)
    (ss_sent_count s) (ss_failed_count s) (ss_reconnect_count s) d.

(** What happens in one turn of [sendLoop]. *)
Inductive send_action :=
| SendWaited (ms : Z)              (* the back-off wait *)
| SendIdle                         (* nothing to send within the timeout *)
| SendTried (data : bytes) (ok : bool) (wire : bytes)
| SendBlocked.

(** One turn of the body of [sendLoop]. *)
Definition sendLoop_turn (established : bool) (events : list send_event) (s : SocketSender)
  : send_action * SocketSender :=
  let '(go, s) :=
    if ss_connected s then (true, s)
    else match connectSocket established s with
         | (false, s) => (false, s)
         | (true, s) => (true, ss_with_retry kInitRetryDelayMs s)
         end in
  if negb go then
    (SendWaited (ss_retry_delay_ms s),
     ss_with_retry (Z.min (ss_retry_delay_ms s * 2) kMaxRetryDelayMs) s)
  else
    match tsq_pop (ss_queue s) with
    | (None, _) => (SendIdle, s)
    | (Some item, q) =>
        let s := mkSocketSender q (ss_connected s) (ss_ever_connected s) (ss_stop_flag s) (ss_running s)
          (ss_sent_count s) (ss_failed_count s) (ss_reconnect_count s) (ss_retry_delay_ms s) in
        match sendRaw item events with
        | (Some true, wire, _) =>
            (SendTried item true wire,
             mkSocketSender (ss_queue s) (ss_connected s) (ss_ever_connected s) (ss_stop_flag s)
               (ss_running s) (u64 (ss_sent_count s + 1)) (ss_failed_count s) (ss_reconnect_count s)
               (ss_retry_delay_ms s))
        | (Some false, wire, _) =>
            (SendTried item false wire,
             disconnectSocket (mkSocketSender (ss_queue s) (ss_connected s) (ss_ever_connected s)
               (ss_stop_flag s) (ss_running s) (ss_sent_count s) (u64 (ss_failed_count s + 1))
               (ss_reconnect_count s) (ss_retry_delay_ms s)))
        | (None, wire, _) => (SendBlocked, s)
        end
    end.

(** ** What goes onto the wire *)

Lemma writeAll_spec events data :
  exists tail, data = (writeAll events data).1.2 ++ tail /\
    ((writeAll events data).1.1 = Some true <-> tail = []).
Proof.
  revert data. induction events as [|e events IH]; intros data.
  { destruct data; simpl; [by exists []|]. eexists. split; [done|]. by split. }
  destruct data as [|b data]; [by exists []|]. cbn [writeAll].
  destruct e as [|n|]; simpl; [by exists (b :: data)| |by exists (b :: data)].
  set (k := Nat.min _ _). destruct (IH (drop k (b :: data))) as (tail & Heq & Hiff).
  destruct (writeAll events (drop k (b :: data))) as [[ok wire] ev]. simpl in *.
  exists tail. split; [|done]. by rewrite <- (assoc_L (++)), <- Heq, take_drop.
Qed.

(** Whatever the kernel accepts per call, [sendRaw] puts onto the wire a prefix
    of the frame - magic, big-endian length, payload - and reports success exactly
    when it is the whole frame. *)
Lemma sendRaw_writes_frame (data : bytes) (events : list send_event) :
  exists tail, frame data = (sendRaw data events).1.2 ++ tail /\
    ((sendRaw data events).1.1 = Some true <-> tail = []).
Proof.
  unfold sendRaw, frame. set (m := be_bytes 4 kMagic). set (l := be_bytes 4 _).
  assert (m <> []) as Hm by done. assert (l <> []) as Hl by done. clearbody m l.
  destruct (writeAll_spec events m) as (t1 & E1 & I1).
  destruct (writeAll events m) as [[[[|]|] w1] ev1]; simpl in *.
  2,3: exists (t1 ++ l ++ data); rewrite E1 at 1; rewrite <- (assoc_L (++)); split; [done|];
    (split; [done|]); intros ?; destruct l; [done|]; destruct t1; done.
  assert (t1 = []) as -> by by apply I1. rewrite app_nil_r in E1. subst w1.
  destruct (writeAll_spec ev1 l) as (t2 & E2 & I2).
  destruct (writeAll ev1 l) as [[[[|]|] w2] ev2]; simpl in *.
  2,3: exists (t2 ++ data); rewrite E2 at 1; rewrite <- !(assoc_L (++)); split; [done|];
    (split; [done|]); intros [-> _]%app_nil; by apply I2.
  assert (t2 = []) as -> by by apply I2. rewrite app_nil_r in E2. subst w2.
  destruct (writeAll_spec ev2 data) as (t3 & E3 & I3).
  destruct (writeAll ev2 data) as [[ok w3] ev3]; simpl in *.
  exists t3. split; [|done]. by rewrite <- !(assoc_L (++)), <- E3.
Qed.

(** ** Reading frames back *)

(** The connection stays up: bytes arrive in pieces of any size, calls may be
    interrupted. *)
Definition quiet (e : recv_event) : Prop :=
  match e with RecvSome _ | RecvEintr => True | _ => False end.

Definition reads (events : list recv_event) : nat :=
  length (base.filter (fun e => match e with RecvSome _ => true | _ => false end = true) events).

Lemma reads_cons e events :
  reads (e :: events) = ((match e with RecvSome _ => 1 | _ => 0 end) + reads events)%nat.
Proof. unfold reads. rewrite filter_cons. by destruct e. Qed.

Inductive read_result (events : list recv_event) (incoming : bytes) (n : nat) (buf : bytes)
  : option bool * bytes * bytes * list recv_event -> Prop :=
| read_full events' :
    (n <= length incoming)%nat -> Forall quiet events' -> (reads events <= reads events' + n)%nat ->
    read_result events incoming n buf (Some true, buf ++ take n incoming, drop n incoming, events')
| read_blocked k :
    (k < n)%nat -> (k <= length incoming)%nat -> (reads events <= k \/ length incoming = k)%nat ->
    read_result events incoming n buf (None, buf ++ take k incoming, drop k incoming, []).

Lemma readAll_quiet events incoming n buf :
  Forall quiet events -> read_result events incoming n buf (readAll events incoming n buf).
Proof.
  intros Hq. revert incoming n buf. induction Hq as [|e events He Hq IH]; intros incoming n buf.
  { destruct n as [|n]; simpl.
    - rewrite <- (app_nil_r buf) at 2. apply (read_full [] incoming 0 buf []); [lia|done|done].
    - rewrite <- (app_nil_r buf) at 2.
      apply (read_blocked [] incoming (S n) buf 0); [lia|lia|]. left. by unfold reads. }
  destruct n as [|n]; cbn [readAll].
  { rewrite <- (app_nil_r buf) at 2. apply (read_full _ incoming 0 buf); [lia|by constructor|lia]. }
  destruct e as [|m| | | |s]; try done.
  - set (k := Nat.min _ _). assert (k <= S n /\ k <= length incoming)%nat as [Hk1 Hk2] by lia.
    assert (incoming = [] \/ 0 < k)%nat as Hk3.
    { destruct incoming; [by left|]. right. unfold k. simpl. lia. }
    specialize (IH (drop k incoming) (S n - k)%nat (buf ++ take k incoming)).
    assert (forall j, (buf ++ take k incoming) ++ take j (drop k incoming) = buf ++ take (k + j) incoming) as Ht.
    { intros j. by rewrite <- (assoc_L (++)), take_take_drop. }
    inversion IH as [ev' Hn Hq' Hr Heq|j Hj Hji Hj' Heq]; rewrite Ht, drop_drop.
    + rewrite length_drop in Hn. replace (k + (S n - k))%nat with (S n) by lia.
      apply read_full; [lia|done|]. rewrite reads_cons. destruct Hk3 as [->|?]; [simpl in *; lia|lia].
    + rewrite length_drop in Hji, Hj'. apply read_blocked; [lia|lia|]. rewrite reads_cons.
      destruct Hk3 as [->|?]; [right; simpl in *; lia|]. lia.
  - specialize (IH incoming (S n) buf). inversion IH as [ev' Hn Hq' Hr Heq|j Hj Hji Hj' Heq].
    + by apply read_full; [| |rewrite reads_cons].
    + by apply read_blocked; [| |rewrite reads_cons].
Qed.

Definition payload_ok (p : bytes) : Prop := 0 < Z.of_nat (length p) <= kMaxFrameSize.

Lemma length_frame p : length (frame p) = (8 + length p)%nat.
Proof. unfold frame. rewrite !length_app, !length_be_bytes. lia. Qed.

Lemma u32_payload p : payload_ok p -> u32 (Z.of_nat (length p)) = Z.of_nat (length p).
Proof. intros Hp. apply wrap_small. unfold payload_ok, kMaxFrameSize in Hp. unfold in_unsigned. lia. Qed.

(** One turn on a connection whose next bytes are a whole frame. *)
Lemma recv_turn_frame events p rest :
  Forall quiet events -> payload_ok p ->
  (exists events', recv_turn events (frame p ++ rest) = (Delivered p, rest, events') /\
     Forall quiet events' /\ (reads events <= reads events' + length (frame p))%nat) \/
  ((recv_turn events (frame p ++ rest)).1.1 = Blocked /\ (reads events < length (frame p))%nat).
Proof.
  intros Hq Hp. pose proof (u32_payload p Hp) as Hlen. unfold recv_turn.
  pose proof (length_frame p) as Hlf. unfold frame in *. rewrite Hlen in *.
  set (m := be_bytes 4 kMagic) in *. set (l := be_bytes 4 (Z.of_nat (length p))) in *.
  assert (length m = 4%nat) as Hm by apply length_be_bytes.
  assert (length l = 4%nat) as Hl by apply length_be_bytes.
  assert (be_value m = kMagic) as Hmv by (by apply be_value_bytes_small).
  assert (be_value l = Z.of_nat (length p)) as Hlv.
  { apply be_value_bytes_small. unfold payload_ok, kMaxFrameSize in Hp. change (256 ^ Z.of_nat 4) with (2 ^ 32). lia. }
  rewrite <- !(assoc_L (++)). clearbody m l.
  pose proof (readAll_quiet events (m ++ l ++ p ++ rest) 4 [] Hq) as R1.
  inversion R1 as [ev1 _ Hq1 Hr1 E1|j Hj Hji Hj' E1].
  2: { right. split; [done|]. rewrite !length_app in *. lia. }
  simpl app. rewrite take_app_length', drop_app_length' by done.
  pose proof (readAll_quiet ev1 (l ++ p ++ rest) 4 [] Hq1) as R2.
  inversion R2 as [ev2 _ Hq2 Hr2 E2|j Hj Hji Hj' E2].
  2: { right. split; [done|]. rewrite !length_app in *. lia. }
  simpl app. rewrite take_app_length', drop_app_length' by done.
  rewrite Hmv, Hlv, Z.eqb_refl. simpl negb. cbv iota.
  unfold payload_ok in Hp. rewrite (proj2 (Z.eqb_neq _ _)), (proj2 (Z.ltb_ge _ _)) by lia. simpl orb. cbv iota.
  rewrite Nat2Z.id.
  pose proof (readAll_quiet ev2 (p ++ rest) (length p) [] Hq2) as R3.
  inversion R3 as [ev3 _ Hq3 Hr3 E3|j Hj Hji Hj' E3].
  - left. exists ev3. simpl app. rewrite take_app_length, drop_app_length. split; [done|]. split; [done|lia].
  - right. split; [done|]. rewrite !length_app in *. lia.
Qed.

Lemma recv_turn_nothing events : Forall quiet events -> (recv_turn events []).1.1 = Blocked.
Proof.
  intros Hq. unfold recv_turn. pose proof (readAll_quiet events [] 4 [] Hq) as R.
  inversion R as [ev Hn _ _ E|j _ _ _ E]; [simpl in Hn; lia|done].
Qed.

Lemma recvLoop_frames_aux ps : forall fuel events,
  Forall payload_ok ps -> Forall quiet events ->
  recvLoop fuel events (concat (frame <$> ps)) `prefix_of` ps /\
  ((length ps <= fuel)%nat -> (length (concat (frame <$> ps)) <= reads events)%nat ->
   recvLoop fuel events (concat (frame <$> ps)) = ps).
Proof.
  induction ps as [|p ps IH]; intros fuel events Hps Hq.
  - simpl. assert (recvLoop fuel events [] = []) as ->; [|done].
    destruct fuel as [|fuel]; [done|]. cbn [recvLoop].
    pose proof (recv_turn_nothing events Hq) as Hb.
    destruct (recv_turn events []) as [[o inc] ev]. simpl in Hb. by subst o.
  - apply Forall_cons in Hps as [Hp Hps].
    change (concat (frame <$> p :: ps)) with (frame p ++ concat (frame <$> ps)).
    destruct fuel as [|fuel]; [split; [apply prefix_nil|simpl; lia]|]. cbn [recvLoop].
    destruct (recv_turn_frame events p (concat (frame <$> ps)) Hq Hp) as [(ev & -> & Hq' & Hr)|[Hb Hr]].
    + destruct (IH fuel ev Hps Hq') as [Hpre Heq]. split; [by apply prefix_cons|].
      rewrite length_app. intros Hf Hlen. f_equal. simpl in Hf. apply Heq; lia.
    + destruct (recv_turn events _) as [[o inc] ev] eqn:E.
      simpl in Hb. subst o.
      split; [apply prefix_nil|]. rewrite length_app. lia.
Qed.

(** C23: Framing round trip under arbitrary chunking: when the peer's stream is a
    sequence of frames with payloads of 1 byte to 4 MiB and the connection stays up,
    then however the bytes are cut into [recv] results and however often calls are
    interrupted, [recvLoop] delivers a prefix of the payloads, in order and
    unaltered - and all of them once every byte had a chance to be read. *)
Theorem recvLoop_frames (ps : list bytes) (fuel : nat) (events : list recv_event) :
  Forall payload_ok ps -> Forall quiet events ->
  recvLoop fuel events (concat (frame <$> ps)) `prefix_of` ps /\
  ((length ps <= fuel)%nat -> (length (concat (frame <$> ps)) <= reads events)%nat ->
   recvLoop fuel events (concat (frame <$> ps)) = ps).
Proof. apply recvLoop_frames_aux. Qed.

Lemma recvLoop_frames_witness :
  recvLoop 2 (replicate 22 (RecvSome 3)) (concat (frame <$> [[1; 2]; [3; 4; 5; 6]])) = [[1; 2]; [3; 4; 5; 6]].
Proof.
  refine (proj2 (recvLoop_frames [[1; 2]; [3; 4; 5; 6]] 2 (replicate 22 (RecvSome 3)) _ _) _ _).
  - repeat constructor; unfold payload_ok; simpl; unfold kMaxFrameSize; lia.
  - by apply Forall_replicate.
  - simpl. lia.
  - apply Nat.leb_le. vm_compute. reflexivity.
Defined.

(** ** What a turn can deliver *)

Lemma be_bytes_mod n m a b : (n <= m)%nat -> a mod 256 ^ Z.of_nat m = b mod 256 ^ Z.of_nat m -> be_bytes n a = be_bytes n b.
Proof.
  intros Hn Hab. induction n as [|n IH]; [done|]. cbn [be_bytes]. f_equal; [|apply IH; lia].
  change 256 with (2 ^ 8) in Hab. rewrite <- !Z.pow_mul_r in Hab by lia.
  change 255 with (Z.ones 8). apply Z.bits_inj'. intros i Hi. rewrite !Z.land_spec, !Z.shiftr_spec by done.
  destruct (Z.ltb_spec i 8).
  - f_equal. rewrite <- (Z.mod_pow2_bits_low a (8 * Z.of_nat m)), <- (Z.mod_pow2_bits_low b (8 * Z.of_nat m)) by lia.
    by rewrite Hab.
  - rewrite !Z.ones_spec_high by lia. by rewrite !andb_false_r.
Qed.

Lemma be_bytes_value l : bytes_ok l -> be_bytes (length l) (be_value l) = l.
Proof.
  intros Hl. induction Hl as [|b l Hb Hl IH]; [done|].
  unfold be_value. cbn [foldl length be_bytes]. rewrite be_value_acc.
  assert (0 <= be_value l < 256 ^ Z.of_nat (length l)) as Hr.
  { rewrite <- IH, be_value_bytes, length_be_bytes. apply Z.mod_pos_bound, Z.pow_pos_nonneg; lia. }
  unfold in_unsigned in Hb. change (2 ^ 8) with 256 in Hb. f_equal.
  - rewrite land_255, Z.shiftr_div_pow2, Z.pow_mul_r by lia. change (2 ^ 8) with 256.
    rewrite Z.div_add_l by lia. rewrite Z.div_small by done. rewrite Z.add_0_r. by apply Z.mod_small.
  - etrans; [|exact IH]. apply (be_bytes_mod _ (length l)); [done|]. change (0 * 256 + b) with b.
    rewrite Z.add_comm. apply Z_mod_plus_full.
Qed.

(** One uninterrupted read of [n] bytes takes the first [n] bytes that arrive. *)
Lemma readAll_quiet_full events incoming n buf inc' ev' :
  Forall quiet events -> readAll events incoming n [] = (Some true, buf, inc', ev') ->
  buf = take n incoming /\ inc' = drop n incoming /\ (n <= length incoming)%nat /\ Forall quiet ev'.
Proof.
  intros Hq E. pose proof (readAll_quiet events incoming n [] Hq) as R. rewrite E in R.
  inversion R; subst. done.
Qed.

(** nothing but frames is delivered: on a connection that stays up, a payload
    handed to the callback was preceded on the wire by the magic and its own
    length, is 1 byte to 4 MiB long, and exactly that frame has been consumed. *)
Theorem recv_delivers_only_frames (events events' : list recv_event) (incoming incoming' payload : bytes) :
  bytes_ok incoming -> Forall quiet events ->
  recv_turn events incoming = (Delivered payload, incoming', events') ->
  payload_ok payload /\ incoming = frame payload ++ incoming'.
Proof.
  intros Hb Hq. unfold recv_turn.
  destruct (readAll events incoming 4 []) as [[[[[|]|] m] i1] e1] eqn:R1; try done.
  apply readAll_quiet_full in R1 as (-> & -> & H1 & Hq1); [|done].
  destruct (readAll e1 (drop 4 incoming) 4 []) as [[[[[|]|] l] i2] e2] eqn:R2; try done.
  apply readAll_quiet_full in R2 as (-> & -> & H2 & Hq2); [|done].
  set (m := take 4 incoming). set (l := take 4 (drop 4 incoming)).
  destruct (Z.eqb_spec (be_value m) kMagic) as [Hm|]; simpl negb; cbv iota; [|done].
  destruct ((be_value l =? 0) || (kMaxFrameSize <? be_value l)) eqn:Hl; [done|]. bool_crush.
  destruct (readAll e2 _ _ []) as [[[[[|]|] buf] i3] e3] eqn:R3; try done.
  apply readAll_quiet_full in R3 as (-> & -> & H3 & Hq3); [|done]. intros [= <- <- <-].
  rewrite !drop_drop in *. rewrite length_drop in *. set (rest := drop (4 + 4) incoming) in *.
  assert (length m = 4%nat) as Lm by (unfold m; rewrite length_take; lia).
  assert (length l = 4%nat) as Ll by (unfold l; rewrite length_take, length_drop; lia).
  assert (bytes_ok m) as Bm by by apply Forall_take.
  assert (bytes_ok l) as Bl by by apply Forall_take, Forall_drop.
  assert (0 <= be_value l) as Hpos.
  { rewrite <- (be_bytes_value l Bl), be_value_bytes. apply Z.mod_pos_bound, Z.pow_pos_nonneg; lia. }
  assert (Z.of_nat (length (take (Z.to_nat (be_value l)) rest)) = be_value l) as Hlen.
  { unfold rest. rewrite length_take, length_drop. lia. }
  split; [unfold payload_ok; lia|].
  assert (payload_ok (take (Z.to_nat (be_value l)) rest)) as Hpay by (unfold payload_ok; lia).
  unfold frame. rewrite (u32_payload _ Hpay), Hlen, <- Hm.
  rewrite <- Lm at 1. rewrite <- Ll at 1. rewrite !be_bytes_value by done.
  rewrite <- !(assoc_L (++)). replace (4 + (4 + Z.to_nat (be_value l)))%nat with (4 + 4 + Z.to_nat (be_value l))%nat by lia.
  rewrite <- drop_drop. unfold rest. rewrite take_drop. unfold m, l. rewrite <- drop_drop.
  by rewrite take_drop, take_drop.
Qed.

Lemma recv_delivers_only_frames_witness :
  exists inc' ev', recv_turn (replicate 9 (RecvSome 5)) (frame [7; 8] ++ [9]) = (Delivered [7; 8], inc', ev') /\
    payload_ok [7; 8] /\ frame [7; 8] ++ [9] = frame [7; 8] ++ inc'.
Proof.
  eexists _, _. split; [vm_compute; reflexivity|].
  refine (recv_delivers_only_frames (replicate 9 (RecvSome 5)) _ (frame [7; 8] ++ [9]) _ [7; 8] _ _ _).
  - apply Forall_app_2; [unfold frame; solve_bytes|]. solve_bytes.
  - by apply Forall_replicate.
  - vm_compute. reflexivity.
Defined.

(** The guarantee ends at a reconnection: [readAll] fetches [fd_] again for every
    call, so when the sending thread replaces the connection after the header of
    [a] has been read, the payload delivered is made of the first bytes of the new
    connection's frame - its header included. *)
Theorem reconnect_splices_frames (a b : bytes) :
  payload_ok a -> (length a <= length (frame b))%nat ->
  exists n, recv_turn [RecvSome 4; RecvSome 4; Reconnected (frame b); RecvSome n] (take 8 (frame a)) =
    (Delivered (take (length a) (frame b)), drop (length a) (frame b), []).
Proof.
  intros Ha Hle. exists (Pos.of_nat (length a)). unfold payload_ok in Ha.
  pose proof (u32_payload a Ha) as Hlen.
  assert (be_value (be_bytes 4 (Z.of_nat (length a))) = Z.of_nat (length a)) as Hv.
  { apply be_value_bytes_small. unfold kMaxFrameSize in Ha. change (256 ^ Z.of_nat 4) with (2 ^ 32). lia. }
  assert (take 8 (frame a) = be_bytes 4 kMagic ++ be_bytes 4 (Z.of_nat (length a))) as ->.
  { unfold frame. rewrite Hlen, (assoc_L (++)). by rewrite take_app_length' by done. }
  set (l := be_bytes 4 (Z.of_nat (length a))) in *.
  assert (exists l1 l2 l3 l4, l = [l1; l2; l3; l4]) as (l1 & l2 & l3 & l4 & El) by (eexists _, _, _, _; reflexivity).
  rewrite El in *. clear El. clearbody l.
  unfold recv_turn.
  change (readAll [RecvSome 4; RecvSome 4; Reconnected (frame b); RecvSome (Pos.of_nat (length a))]
            (be_bytes 4 kMagic ++ [l1; l2; l3; l4]) 4 []) with
    (Some true, be_bytes 4 kMagic, [l1; l2; l3; l4],
       [RecvSome 4; Reconnected (frame b); RecvSome (Pos.of_nat (length a))]).
  cbv beta iota.
  change (readAll [RecvSome 4; Reconnected (frame b); RecvSome (Pos.of_nat (length a))] [l1; l2; l3; l4] 4 [])
    with (Some true, [l1; l2; l3; l4], @nil Z, [Reconnected (frame b); RecvSome (Pos.of_nat (length a))]).
  cbv beta iota zeta. rewrite Hv. change (be_value (be_bytes 4 kMagic) =? kMagic) with true. cbv iota delta [negb].
  rewrite (proj2 (Z.eqb_neq _ _)), (proj2 (Z.ltb_ge _ _)) by lia. cbn [orb]. rewrite Nat2Z.id.
  destruct (length a) as [|n] eqn:Ela; [lia|]. cbn [readAll].
  rewrite Nat2Pos.id by lia.
  replace (Nat.min (S n) (Nat.min (S n) (length (frame b)))) with (S n) by lia.
  rewrite Nat.sub_diag. done.
Qed.

Lemma reconnect_splices_frames_witness :
  exists n, recv_turn [RecvSome 4; RecvSome 4; Reconnected (frame [42]); RecvSome n] (take 8 (frame [1; 2; 3; 4; 5])) =
    (Delivered [0xDE; 0xAD; 0xBE; 0xEF; 0], [0; 0; 1; 42], []).
Proof.
  refine (reconnect_splices_frames [1; 2; 3; 4; 5] [42] _ _); [|simpl; lia].
  unfold payload_ok, kMaxFrameSize. simpl. lia.
Defined.

(** ** The sending thread *)

(** [n] turns in a row with no server listening. *)
Fixpoint failing_turns (n : nat) (s : SocketSender) : list send_action * SocketSender :=
  match n with
  | O => ([], s)
  | S n =>
      let '(a, s1) := sendLoop_turn false [] s in
      let '(l, s2) := failing_turns n s1 in (a :: l, s2)
  end.

Definition backoff (d : Z) (k : nat) : Z := Z.min (d * 2 ^ Z.of_nat k) kMaxRetryDelayMs.

Lemma failing_turns_from n : forall s,
  ss_connected s = false -> 0 < ss_retry_delay_ms s <= kMaxRetryDelayMs ->
  failing_turns n s =
    ((fun k => SendWaited (backoff (ss_retry_delay_ms s) k)) <$> seq 0 n,
     ss_with_retry (backoff (ss_retry_delay_ms s) n) s).
Proof.
  induction n as [|n IH]; intros s Hc Hd.
  { simpl. unfold backoff. rewrite Z.mul_1_r, Z.min_l by lia. by destruct s. }
  cbn [failing_turns]. unfold sendLoop_turn. rewrite Hc. cbn [connectSocket negb].
  cbv iota beta zeta. unfold connectSocket. cbn [negb].
  set (s1 := ss_with_retry (Z.min (ss_retry_delay_ms s * 2) kMaxRetryDelayMs) s).
  unfold kMaxRetryDelayMs in *.
  assert (ss_retry_delay_ms s1 = backoff (ss_retry_delay_ms s) 1) as Hd1.
  { simpl. unfold backoff, kMaxRetryDelayMs. by rewrite Z.pow_1_r. }
  assert (forall k, backoff (ss_retry_delay_ms s1) k = backoff (ss_retry_delay_ms s) (S k)) as Hb.
  { intros k. rewrite Hd1. unfold backoff, kMaxRetryDelayMs.
    change (2 ^ Z.of_nat 1) with 2. rewrite Nat2Z.inj_succ, Z.pow_succ_r by lia.
    assert (0 < 2 ^ Z.of_nat k) as Hp by (apply Z.pow_pos_nonneg; lia). clearbody s1. clear Hd1 IH.
    destruct (Z.le_gt_cases (ss_retry_delay_ms s * 2) 30000) as [Hle|Hgt].
    - rewrite (Z.min_l (ss_retry_delay_ms s * 2)) by done. by rewrite Z.mul_assoc.
    - rewrite (Z.min_r (ss_retry_delay_ms s * 2)) by lia. rewrite !Z.min_r by nia. done. }
  rewrite IH; [|done|rewrite Hd1; unfold backoff, kMaxRetryDelayMs; change (2 ^ Z.of_nat 1) with 2; lia].
  cbn [seq fmap list_fmap]. f_equal.
  - f_equal.
    + f_equal. unfold backoff, kMaxRetryDelayMs. simpl. lia.
    + rewrite <- (fmap_S_seq 0 n), <- list_fmap_compose. apply list_fmap_ext. intros ? k _. simpl. by rewrite Hb.
  - rewrite Hb. done.
Qed.

(** while no server listens, [sendLoop] waits 1 s, 2 s, 4 s ... doubling up to
    30 s, touching neither the queue nor the counters. *)
Theorem sendLoop_backoff (s : SocketSender) (n : nat) :
  ss_connected s = false -> ss_retry_delay_ms s = kInitRetryDelayMs ->
  failing_turns n s =
    ((fun k => SendWaited (Z.min (1000 * 2 ^ Z.of_nat k) 30000)) <$> seq 0 n,
     ss_with_retry (Z.min (1000 * 2 ^ Z.of_nat n) 30000) s).
Proof.
  intros Hc Hd. rewrite failing_turns_from, Hd; try done. rewrite Hd.
  unfold kInitRetryDelayMs, kMaxRetryDelayMs. lia.
Qed.

Lemma sendLoop_backoff_witness :
  (failing_turns 7 (SocketSender_new 100)).1 =
    SendWaited <$> [1000; 2000; 4000; 8000; 16000; 30000; 30000].
Proof. rewrite (sendLoop_backoff (SocketSender_new 100) 7 eq_refl eq_refl). reflexivity. Defined.
