(* ===== verification/SenderStop.v ===== *)
(** * Stopping the sender (src/src/ipc/SocketSender.cpp)

    [sendLoop], [recvLoop] and [stop] as three threads that share the flags, the queue and
    the connection, one rule for each read or write of these.  [ss_stop] of Socket is what
    [stop] does when the other two do nothing in between. *)
From S2P Require Import Prelude SafeQueue Socket.
From stdpp Require Import relations.

(** Where [sendLoop] is: before its test of the flag, before its test of [connected_], in
    [connect], waiting to try again, waiting for an item, in [send]. *)
Inductive send_pc := SendTest | SendCheck | SendConnecting | SendBackedOff | SendPopping | SendWriting | SendEnded.

(** Where [recvLoop] is: before its test of the flag, before its test of [connected_], about
    to read [fd_] for another [recv], in [recv] on a connection, with a read that failed. *)
Inductive recv_pc := RecvTest | RecvCheck | RecvFetch | RecvBlocked (connection : nat) | RecvFailed | RecvEnded.

(** Where [stop] is. *)
Inductive stop_pc := NotStopping | FlagSet | QueueStopped | JoinRecv | JoinSend | Stopped.

(** [sy_sender]: its flags and queue; [sy_connection] numbers the connections made, of which
    only the last can be open. *)
Record sender_state := mkSenderState {
  sy_sender : SocketSender;
  sy_connection : nat;
  sy_send : send_pc;
  sy_recv : recv_pc;
  sy_stop : stop_pc;
}.

Definition ss_set_stop_flag (s : SocketSender) : SocketSender :=
  mkSocketSender (ss_queue s) (ss_connected s) (ss_ever_connected s) true (ss_running s) (ss_sent_count s)
    (ss_failed_count s) (ss_reconnect_count s) (ss_retry_delay_ms s).
Definition ss_with_queue (q : ThreadSafeQueue bytes) (s : SocketSender) : SocketSender :=
  mkSocketSender q (ss_connected s) (ss_ever_connected s) (ss_stop_flag s) (ss_running s) (ss_sent_count s)
    (ss_failed_count s) (ss_reconnect_count s) (ss_retry_delay_ms s).
Definition ss_stop_queue (s : SocketSender) : SocketSender := ss_with_queue (tsq_stop (ss_queue s)) s.
Definition ss_finish (s : SocketSender) : SocketSender :=
  mkSocketSender (ss_queue s) (ss_connected s) (ss_ever_connected s) (ss_stop_flag s) false (ss_sent_count s)
    (ss_failed_count s) (ss_reconnect_count s) (ss_retry_delay_ms s).

(** The stop of Socket in one go. *)
Lemma ss_stop_steps s : ss_stop s = ss_finish (disconnectSocket (ss_stop_queue (ss_set_stop_flag s))).
Proof. by destruct s. Qed.

(** The steps; those the peer takes part in only with [peer]: a connection that succeeds,
    bytes that arrive, a connection it closes. *)
Inductive sender_step (peer : bool) : sender_state -> sender_state -> Prop :=
| send_test s n r p :
    sender_step peer (mkSenderState s n SendTest r p) (mkSenderState s n (if ss_stop_flag s then SendEnded else SendCheck) r p)
| send_check s n r p :
    sender_step peer (mkSenderState s n SendCheck r p) (mkSenderState s n (if ss_connected s then SendPopping else SendConnecting) r p)
| send_connect s n r p :
    peer = true ->
    sender_step peer (mkSenderState s n SendConnecting r p) (mkSenderState (connectSocket true s).2 (S n) SendPopping r p)
| send_no_connection s n r p :
    sender_step peer (mkSenderState s n SendConnecting r p) (mkSenderState (connectSocket false s).2 n SendBackedOff r p)
| send_backed_off s n r p : sender_step peer (mkSenderState s n SendBackedOff r p) (mkSenderState s n SendTest r p)
| send_pop s n r p :
    (* an item, or none within 500 ms or because the queue is stopped *)
    sender_step peer (mkSenderState s n SendPopping r p)
      (match tsq_pop (ss_queue s) with
       | (Some _, q) => mkSenderState (ss_with_queue q s) n SendWriting r p
       | (None, _) => mkSenderState s n SendTest r p
       end)
| send_written s n r p : sender_step peer (mkSenderState s n SendWriting r p) (mkSenderState s n SendTest r p)
| send_failed s n r p : sender_step peer (mkSenderState s n SendWriting r p) (mkSenderState (disconnectSocket s) n SendTest r p)
| recv_test s n t p :
    sender_step peer (mkSenderState s n t RecvTest p) (mkSenderState s n t (if ss_stop_flag s then RecvEnded else RecvCheck) p)
| recv_check s n t p :
    sender_step peer (mkSenderState s n t RecvCheck p) (mkSenderState s n t (if ss_connected s then RecvFetch else RecvTest) p)
| recv_fetch s n t p :
    sender_step peer (mkSenderState s n t RecvFetch p) (mkSenderState s n t (if ss_connected s then RecvBlocked n else RecvFailed) p)
| recv_shut_down s n t c p :
    (* [recv] returns when its connection is shut down *)
    ss_connected s = false \/ c <> n -> sender_step peer (mkSenderState s n t (RecvBlocked c) p) (mkSenderState s n t RecvFailed p)
| recv_more s n t c p : peer = true -> sender_step peer (mkSenderState s n t (RecvBlocked c) p) (mkSenderState s n t RecvFetch p)
| recv_frame s n t c p : peer = true -> sender_step peer (mkSenderState s n t (RecvBlocked c) p) (mkSenderState s n t RecvTest p)
| recv_closed s n t c p : peer = true -> sender_step peer (mkSenderState s n t (RecvBlocked c) p) (mkSenderState s n t RecvFailed p)
| recv_failed s n t p :
    sender_step peer (mkSenderState s n t RecvFailed p)
      (mkSenderState (if ss_stop_flag s then s else disconnectSocket s) n t RecvTest p)
| stop_flag s n t r :
    sender_step peer (mkSenderState s n t r NotStopping) (mkSenderState (ss_set_stop_flag s) n t r FlagSet)
| stop_queue s n t r :
    sender_step peer (mkSenderState s n t r FlagSet) (mkSenderState (ss_stop_queue s) n t r QueueStopped)
| stop_disconnect s n t r :
    sender_step peer (mkSenderState s n t r QueueStopped) (mkSenderState (disconnectSocket s) n t r JoinRecv)
| stop_join_recv s n t : sender_step peer (mkSenderState s n t RecvEnded JoinRecv) (mkSenderState s n t RecvEnded JoinSend)
| stop_join_send s n r :
    sender_step peer (mkSenderState s n SendEnded r JoinSend) (mkSenderState (ss_finish s) n SendEnded r Stopped).

(** A started sender. *)
Definition sender_started (queue_size : Z) : sender_state :=
  mkSenderState (ss_start (SocketSender_new queue_size)) 0 SendTest RecvTest NotStopping.

(** ** The stop may hang *)

(** C11: The stop can hang: while [stop] closes the connection, the sending thread, which tested
    the flag before it was set, is in [connect]; the connection it then makes is found by the
    receiving thread, which also tested the flag before.  [recv] blocks on it, the sending
    thread ends, and [stop] waits for the receiving thread until the peer sends something or
    goes away. *)
Theorem stop_leaves_receiver_blocked (queue_size : Z) :
  exists y, rtc (sender_step true) (sender_started queue_size) y /\
    ss_stop_flag (sy_sender y) = true /\ sy_stop y = JoinRecv /\ sy_send y = SendEnded /\
    forall z, ~ sender_step false y z.
Proof.
  set (s0 := ss_start (SocketSender_new queue_size)).
  exists (mkSenderState (connectSocket true (disconnectSocket (ss_stop_queue (ss_set_stop_flag s0)))).2 1 SendEnded (RecvBlocked 1) JoinRecv).
  split_and!; [|done|done|done|].
  - unfold sender_started. eapply rtc_l; [apply send_test|]. eapply rtc_l; [apply recv_test|]. cbn.
    eapply rtc_l; [apply send_check|]. cbn. eapply rtc_l; [apply stop_flag|]. eapply rtc_l; [apply stop_queue|].
    eapply rtc_l; [apply stop_disconnect|]. eapply rtc_l; [by apply send_connect|].
    eapply rtc_l; [apply send_pop|]. cbn. eapply rtc_l; [apply send_test|]. cbn.
    eapply rtc_l; [apply recv_check|]. cbn. eapply rtc_l; [apply recv_fetch|]. apply rtc_refl.
  - intros z Hz. inversion Hz; subst; [naive_solver|done|done|done].
Qed.

(** ** When it ends *)

(** [stop] has disconnected, and the sending thread was not on its way to connect. *)
Record no_connection (y : sender_state) : Prop := {
  nc_flag : ss_stop_flag (sy_sender y) = true;
  nc_connected : ss_connected (sy_sender y) = false;
  nc_send : sy_send y <> SendCheck /\ sy_send y <> SendConnecting;
  nc_stop : sy_stop y = JoinRecv \/ (sy_stop y = JoinSend \/ sy_stop y = Stopped) /\ sy_recv y = RecvEnded;
  nc_done : sy_stop y = Stopped -> sy_send y = SendEnded;
}.

(** The steps the threads still have in front of them. *)
Definition send_left (t : send_pc) : nat :=
  match t with SendEnded => 0 | SendTest => 1 | SendBackedOff | SendWriting => 2 | SendPopping => 3 | _ => 9 end.
Definition recv_left (r : recv_pc) : nat :=
  match r with RecvEnded => 0 | RecvTest => 1 | RecvCheck | RecvFailed => 2 | RecvFetch | RecvBlocked _ => 3 end.
Definition stop_left (p : stop_pc) : nat :=
  match p with Stopped => 0 | JoinSend => 1 | JoinRecv => 2 | _ => 9 end.
Definition steps_left (y : sender_state) : nat := send_left (sy_send y) + recv_left (sy_recv y) + stop_left (sy_stop y).

Lemma no_connection_step y z :
  no_connection y -> sender_step false y z -> no_connection z /\ (steps_left z < steps_left y)%nat.
Proof.
  intros [H1 H2 [H3 H4] H5 H6] Hstep.
  destruct Hstep as [| | | | |s n r p| | | | | | | | | | | | | | |]; cbn in *; rewrite ?H1, ?H2; try done;
    try (exfalso; naive_solver congruence); try (destruct (tsq_pop (ss_queue s)) as [[item|] q]);
    (split; [split; cbn; try done; naive_solver|unfold steps_left; cbn; lia]).
Qed.

Lemma no_connection_stuck y : no_connection y -> (forall z, ~ sender_step false y z) -> sy_stop y = Stopped.
Proof.
  intros [H1 H2 [H3 H4] H5 H6] Hno. destruct y as [s n t r p]. cbn in *.
  destruct t; try (exfalso; eapply Hno; by constructor); try done.
  destruct r; try (exfalso; eapply Hno; constructor; by auto).
  destruct H5 as [->|[[->| ->] _]]; [|exfalso; eapply Hno; by constructor..|done].
  exfalso. eapply Hno. by constructor.
Qed.

Lemma stopping_flag queue_size y :
  rtc (sender_step true) (sender_started queue_size) y -> sy_stop y <> NotStopping -> ss_stop_flag (sy_sender y) = true.
Proof.
  intros Hrun. remember (sender_started queue_size) as x eqn:Hx.
  assert (Hinv : sy_stop x <> NotStopping -> ss_stop_flag (sy_sender x) = true) by (by subst x). clear Hx.
  induction Hrun as [x|x y z Hstep _ IH]; [done|]. apply IH. clear IH.
  destruct Hstep as [| | | | |s n r p| | | | | | | | | | | | | | |]; try (destruct (tsq_pop (ss_queue s)) as [[item|] q]); cbn in *;
    intros Hp; try done; try (by apply Hinv); destruct (ss_stop_flag s) eqn:E; cbn; try done; rewrite ?E; try done; specialize (Hinv ltac:(congruence)); congruence.
Qed.

(** C12: Stopping the sender ends it unless the sending thread is just connecting: once [stop]
    has disconnected while the sending thread is not between its tests and the end of
    [connect], both threads end and [stop] returns, whatever the peer does not do, after at
    most eight more steps. *)
Theorem sender_stop_ends (queue_size : Z) (y : sender_state)
    (Hrun : rtc (sender_step true) (sender_started queue_size) y)
    (Hstop : sy_stop y = JoinRecv) (Hconnected : ss_connected (sy_sender y) = false)
    (Hsend : sy_send y <> SendCheck /\ sy_send y <> SendConnecting) :
  (forall n z, nsteps (sender_step false) n y z -> (n <= 8)%nat) /\
  (forall z, rtc (sender_step false) y z -> nf (sender_step false) z -> sy_stop z = Stopped).
Proof.
  assert (Hy : no_connection y).
  { split; [|done|done|by left|congruence]. apply (stopping_flag queue_size); [done|congruence]. }
  split.
  - intros n z Hn. assert (Hle : (n <= steps_left y)%nat).
    { clear -Hn Hy. induction Hn as [y|n x y z Hstep _ IH]; [lia|]. destruct (no_connection_step x y Hy Hstep) as [Hy' Hlt].
      specialize (IH Hy'). lia. }
    unfold steps_left in Hle. rewrite Hstop in Hle. cbn in Hle. destruct Hsend.
    assert (send_left (sy_send y) <= 3)%nat by (destruct (sy_send y); cbn; try lia; done).
    assert (recv_left (sy_recv y) <= 3)%nat by (destruct (sy_recv y); cbn; lia). lia.
  - intros z Hz Hnf. apply no_connection_stuck; [|intros w Hw; apply Hnf; by exists w].
    clear -Hy Hz. induction Hz as [y|x y z Hstep _ IH]; [done|]. apply IH. by apply (no_connection_step x).
Qed.

(** The sender is stopped while it is connected: the receiving thread is in [recv], the
    sending thread waits for an item. *)
Definition ex_stopping : sender_state :=
  mkSenderState (disconnectSocket (ss_stop_queue (ss_set_stop_flag (connectSocket true (ss_start (SocketSender_new 4))).2)))
    1 SendPopping (RecvBlocked 1) JoinRecv.

Lemma ex_stopping_reached : rtc (sender_step true) (sender_started 4) ex_stopping.
Proof.
  unfold sender_started. eapply rtc_l; [apply send_test|]. cbn. eapply rtc_l; [apply send_check|]. cbn.
  eapply rtc_l; [by apply send_connect|]. eapply rtc_l; [apply recv_test|]. cbn. eapply rtc_l; [apply recv_check|]. cbn.
  eapply rtc_l; [apply recv_fetch|]. cbn. eapply rtc_l; [apply stop_flag|]. eapply rtc_l; [apply stop_queue|].
  eapply rtc_l; [apply stop_disconnect|]. apply rtc_refl.
Qed.

Lemma sender_stop_ends_witness :
  sy_recv ex_stopping = RecvBlocked 1 /\
  forall z, rtc (sender_step false) ex_stopping z -> nf (sender_step false) z -> sy_stop z = Stopped.
Proof.
  destruct (sender_stop_ends 4 ex_stopping ex_stopping_reached) as [_ H]; [reflexivity|reflexivity|by split|].
  split; [reflexivity|exact H].
Defined.
