(* ===== verification/Ipc.v ===== *)
(** * IPC (src/src/ipc/IpcClient.cpp, src/src/protocol/MessageMapper.cpp)

    The messages the agent builds and the client that sends them and dispatches
    what arrives.  Protobuf's wire format is third-party: [EnvelopeCodec] is
    [SerializeToString] and [ParseFromString] with the round trip the code relies
    on. *)
From S2P Require Import Prelude Float32 Messages SafeQueue Socket.

Class EnvelopeCodec := {
  SerializeToString : Envelope -> list Z;
  ParseFromString : list Z -> option Envelope;
  (** the values of the fields' types, strings valid UTF-8 *)
  envelope_ok : Envelope -> Prop;
  Parse_Serialize e : envelope_ok e -> ParseFromString (SerializeToString e) = Some e;
}.

(** ** MessageMapper *)

Definition makeEnvelope (type seq : Z) (body : EnvelopeBody) : Envelope :=
  mkEnvelope PROTO_VERSION_CURRENT type seq (Some body).

(** [uuid] and [now_ms] are drawn by [generateUuidV4] and [systemNowMs]. *)
Definition buildAlarmInfo (uuid : string) (now_ms : Z) (stream_id : string)
    (detector_cfg : AlgorithmConfig) (targets : list DetectionObject)
    (snapshot_name record_name : string) : AlarmInfo :=
  let algorithm_id :=
    match targets with
    | primary_target :: _ =>
        if str_empty (ac_algorithm_id detector_cfg) then do_class_name primary_target
        else ac_algorithm_id detector_cfg
    | [] => ac_algorithm_id detector_cfg
    end in
  let max_confidence := foldl std_fmax f32_zero (do_confidence <$> targets) in
  mkAlarmInfo uuid stream_id now_ms algorithm_id (ac_alarm_level detector_cfg) max_confidence targets ""
    snapshot_name record_name.

Definition buildHeartbeat (agent_id : string) (stream_count uptime_s : Z) : HeartBeat :=
  mkHeartBeat agent_id uptime_s stream_count.

Definition buildConfigAck (agent_id : string) (success : bool) (message : string) : ConfigAck :=
  mkConfigAck agent_id success message.

(** an alarm carries every target in order, takes its algorithm id from the
    configuration or, when that is empty, from the first target's class, and its
    confidence is 0 or some target's confidence and is exceeded by no target's -
    NaN confidences are passed over. *)
Theorem buildAlarmInfo_spec (uuid : string) (now : Z) (stream_id : string) (cfg : AlgorithmConfig)
    (targets : list DetectionObject) (snapshot record : string) :
  let alarm := buildAlarmInfo uuid now stream_id cfg targets snapshot record in
  ai_target alarm = targets /\
  (ai_algorithm_id alarm = ac_algorithm_id cfg \/
   ac_algorithm_id cfg = EmptyString /\ do_class_name <$> head targets = Some (ai_algorithm_id alarm)) /\
  (ai_confidence alarm = f32_zero \/ exists t, t ∈ targets /\ ai_confidence alarm = do_confidence t) /\
  f32_is_nan (ai_confidence alarm) = false /\ f32_ltb (ai_confidence alarm) f32_zero = false /\
  forall t, t ∈ targets -> f32_ltb (ai_confidence alarm) (do_confidence t) = false.
Proof.
  cbv zeta. unfold buildAlarmInfo. simpl.
  destruct (fmax_fold (do_confidence <$> targets) f32_zero eq_refl) as (Hn & Hin & H0 & Hall).
  split; [done|]. split.
  { destruct targets as [|t ts]; [by left|]. destruct (str_empty (ac_algorithm_id cfg)) eqn:E; [|by left].
    right. by apply str_empty_true in E. }
  split.
  { destruct Hin as [Hin|Hin]; [by left|]. right. apply list_elem_of_fmap in Hin as (t & -> & ?). eauto. }
  split; [done|]. split; [done|]. intros t Ht. apply Hall. by apply (list_elem_of_fmap_2 do_confidence).
Qed.

(** ** IpcClient *)

(** [ic_sender] is null before [start]. *)
Record IpcClient := mkIpcClient {
  ic_agent_id : string;
  ic_send_queue_size : Z;
  ic_sender : option SocketSender;
  ic_has_config_cb : bool;
  ic_seq : Z;                      (* atomic<uint32_t> *)
}.

Definition IpcClient_new (agent_id : string) (send_queue_size : Z) : IpcClient :=
  mkIpcClient agent_id send_queue_size None false 0.

Definition setConfigCallback (c : IpcClient) : IpcClient :=
  mkIpcClient (ic_agent_id c) (ic_send_queue_size c) (ic_sender c) true (ic_seq c).

Definition ic_start (c : IpcClient) : IpcClient :=
  mkIpcClient (ic_agent_id c) (ic_send_queue_size c) (Some (ss_start (SocketSender_new (ic_send_queue_size c))))
    (ic_has_config_cb c) (ic_seq c).

Definition ic_stop (c : IpcClient) : IpcClient :=
  mkIpcClient (ic_agent_id c) (ic_send_queue_size c) (ss_stop <$> ic_sender c) (ic_has_config_cb c) (ic_seq c).

Section Client.
Context `{EnvelopeCodec}.

Definition buildEnvelopePayload (body : EnvelopeBody) (seq : Z) : list Z :=
  let type := match body with
    | BodyAlarm _ => MSG_ALARM | BodyHeartbeat _ => MSG_HEARTBEAT | BodyConfigAck _ => MSG_CONFIG_ACK
    | BodyConfig _ => MSG_CONFIG | BodyDetection => 4 end in
  SerializeToString (makeEnvelope type seq body).

(** [sender_->sendFrame(buildEnvelopePayload(body, seq_++))]; undefined ([None]) without
    a sender or when the queue's [push] is. *)
Definition ic_send (body : EnvelopeBody) (c : IpcClient) : option (bool * IpcClient) :=
  match ic_sender c with
  | None => None
  | Some s =>
      match sendFrame (buildEnvelopePayload body (ic_seq c)) s with
      | None => None
      | Some (ok, s') =>
          Some (ok, mkIpcClient (ic_agent_id c) (ic_send_queue_size c) (Some s') (ic_has_config_cb c)
                      (u32 (ic_seq c + 1)))
      end
  end.

Definition pushAlarm (alarm : AlarmInfo) (c : IpcClient) : option (bool * IpcClient) :=
  ic_send (BodyAlarm alarm) c.

Definition pushHeartbeat (heartbeat : HeartBeat) (c : IpcClient) : option (bool * IpcClient) :=
  ic_send (BodyHeartbeat heartbeat) c.

(** The configurations handed to [config_cb_], and the client after the acknowledgement. *)
Definition handleConfig (cfg : AgentConfig) (c : IpcClient) : option (list AgentConfig * IpcClient) :=
  let called := if ic_has_config_cb c then [cfg] else [] in
  match ic_send (BodyConfigAck (buildConfigAck (ic_agent_id c) true "")) c with
  | None => None
  | Some (_, c) => Some (called, c)
  end.

Definition onRecv (data : list Z) (c : IpcClient) : option (list AgentConfig * IpcClient) :=
  match ParseFromString data with
  | None => Some ([], c)
  | Some env =>
      if negb (env_version env =? PROTO_VERSION_CURRENT) then Some ([], c)
      else if env_type env =? MSG_CONFIG then
        match env_body env with
        | Some (BodyConfig cfg) => handleConfig cfg c
        | _ => Some ([], c)
        end
      else Some ([], c)
  end.

(** ** Dispatch *)

(** A configuration message of the version the agent speaks. *)
Definition accepted_config (data : list Z) (cfg : AgentConfig) : Prop :=
  exists seq, ParseFromString data = Some (mkEnvelope PROTO_VERSION_CURRENT MSG_CONFIG seq (Some (BodyConfig cfg))).

(** The client can queue: it is started, with a queue of positive capacity. *)
Definition can_queue (c : IpcClient) : Prop :=
  exists s, ic_sender c = Some s /\ tsq_inv (ss_queue s).

(** Sending queues one envelope behind what is queued, dropping the oldest entry of a
    full queue, and takes the next sequence number. *)
Lemma ic_send_spec body c :
  can_queue c ->
  exists s q, ic_sender c = Some s /\ tsq_inv q /\
    ic_send body c = Some (negb (tsq_stopped (ss_queue s)),
      mkIpcClient (ic_agent_id c) (ic_send_queue_size c)
        (Some (mkSocketSender q (ss_connected s) (ss_ever_connected s) (ss_stop_flag s) (ss_running s)
           (ss_sent_count s) (ss_failed_count s) (ss_reconnect_count s) (ss_retry_delay_ms s)))
        (ic_has_config_cb c) (u32 (ic_seq c + 1))) /\
    tsq_stopped q = tsq_stopped (ss_queue s) /\ tsq_max_size q = tsq_max_size (ss_queue s) /\
    (if tsq_stopped (ss_queue s) then q = ss_queue s
     else tsq_items q =
       (if tsq_max_size (ss_queue s) <=? tsq_size (ss_queue s) then tail (tsq_items (ss_queue s))
        else tsq_items (ss_queue s)) ++ [buildEnvelopePayload body (ic_seq c)]).
Proof.
  intros (s & Hs & Hinv). unfold ic_send, sendFrame. rewrite Hs.
  destruct (tsq_push_spec (buildEnvelopePayload body (ic_seq c)) (ss_queue s) Hinv) as (q & -> & Hq & Hst & Hm & Hi).
  by exists s, q.
Qed.

(** [onRecv] calls the configuration callback exactly for a well-formed envelope of
    the current protocol version and type MSG_CONFIG with a configuration body, with
    that configuration and once, and then queues one positive acknowledgement under
    the next sequence number; every other input is ignored and changes nothing. *)
Theorem onRecv_spec (data : list Z) (c : IpcClient) :
  can_queue c ->
  exists called c', onRecv data c = Some (called, c') /\
    ((exists cfg ok, accepted_config data cfg /\ called = (if ic_has_config_cb c then [cfg] else []) /\
        ic_send (BodyConfigAck (mkConfigAck (ic_agent_id c) true "")) c = Some (ok, c') /\
        ic_seq c' = u32 (ic_seq c + 1)) \/
     ((forall cfg, ~ accepted_config data cfg) /\ called = [] /\ c' = c)).
Proof.
  intros Hc. unfold onRecv, accepted_config.
  destruct (ParseFromString data) as [[v t sq body]|] eqn:Ep; simpl;
    [|eexists _, _; split; [done|]; right; split_and!; [by intros cfg (? & ?)|done..]].
  destruct (Z.eqb_spec v PROTO_VERSION_CURRENT) as [->|Hv]; simpl;
    [|eexists _, _; split; [done|]; right; split_and!; [intros cfg (? & ?); congruence|done..]].
  destruct (Z.eqb_spec t MSG_CONFIG) as [->|Ht]; simpl;
    [|eexists _, _; split; [done|]; right; split_and!; [intros cfg (? & ?); congruence|done..]].
  destruct body as [[h|cfg|a| |al]|];
    try (eexists _, _; split; [done|]; right; split_and!; [intros cfg' (? & ?); congruence|done..]).
  unfold handleConfig, buildConfigAck.
  destruct (ic_send_spec (BodyConfigAck (mkConfigAck (ic_agent_id c) true "")) c Hc)
    as (s & q & _ & _ & Hsend & _).
  rewrite Hsend. eexists _, _. split; [done|]. left. exists cfg, (negb (tsq_stopped (ss_queue s))).
  split_and!; try done. eauto.
Qed.

(** ** From [pushAlarm] to the peer *)

(** C38: An alarm pushed on a connected, idle client arrives: the turn of the sending
    thread that transmits it puts onto the wire bytes from which a peer running the
    same framing, however the bytes are cut, reads one payload, and that payload
    parses to the envelope of the current version and type MSG_ALARM with the
    client's sequence number and the alarm itself. *)
Theorem alarm_reaches_peer (c : IpcClient) (s : SocketSender) (alarm : AlarmInfo) :
  let env := makeEnvelope MSG_ALARM (ic_seq c) (BodyAlarm alarm) in
  envelope_ok env -> payload_ok (SerializeToString env) ->
  ic_sender c = Some s -> tsq_inv (ss_queue s) -> tsq_items (ss_queue s) = [] ->
  tsq_stopped (ss_queue s) = false -> ss_connected s = true ->
  exists c' s', pushAlarm alarm c = Some (true, c') /\ ic_sender c' = Some s' /\
    forall writes data wire s'' arrivals,
      sendLoop_turn false writes s' = (SendTried data true wire, s'') ->
      Forall quiet arrivals -> (length wire <= reads arrivals)%nat ->
      exists payload rest, recv_turn arrivals wire = (Delivered payload, [], rest) /\
        ParseFromString payload = Some env.
Proof.
  intros env Hok Hpay Hs Hinv Hempty Hrun Hconn. unfold pushAlarm.
  destruct (ic_send_spec (BodyAlarm alarm) c) as (s0 & q & Hs0 & Hq & -> & _ & _ & Hitems); [by exists s|].
  simplify_eq. rewrite Hrun, Hempty in Hitems. unfold tsq_size in Hitems. rewrite Hempty in Hitems.
  assert (tsq_items q = [SerializeToString env]) as Hqi.
  { rewrite Hitems. by destruct (_ <=? _). }
  rewrite Hrun. eexists _, _. split; [done|]. split; [done|].
  intros writes data wire s'' arrivals Hturn Hquiet Hreads.
  unfold sendLoop_turn in Hturn. simpl in Hturn. rewrite Hconn in Hturn. simpl in Hturn.
  unfold tsq_pop, tsq_pop_ready in Hturn. rewrite Hqi in Hturn. simpl in Hturn.
  destruct (sendRaw_writes_frame (SerializeToString env) writes) as (tl & Hframe & Hiff).
  destruct (sendRaw (SerializeToString env) writes) as [[[[|]|] w] ev]; simplify_eq/=.
  assert (tl = []) as -> by by apply Hiff. rewrite app_nil_r in Hframe. subst wire.
  destruct (recv_turn_frame arrivals (SerializeToString env) [] Hquiet Hpay) as [(ev' & Hr & _)|[_ Hlt]]; [|lia].
  rewrite app_nil_r in Hr. exists (SerializeToString env), ev'. split; [done|]. by apply Parse_Serialize.
Qed.
End Client.

(** ** A concrete client *)

Definition ex_alarm : AlarmInfo := mkAlarmInfo "id" "cam" 5 "person" 2 f32_one [] "" "s.jpg" "r.mp4".
Definition ex_envelope : Envelope := makeEnvelope MSG_ALARM 0 (BodyAlarm ex_alarm).
Definition ex_config_envelope : Envelope :=
  makeEnvelope MSG_CONFIG 9 (BodyConfig (mkAgentConfig "agent" 1 [])).

(** A codec for these two envelopes. *)
Definition ex_codec : EnvelopeCodec.
Proof.
  refine {| SerializeToString e := match env_body e with Some (BodyAlarm _) => [1; 2; 3] | _ => [4] end;
            ParseFromString l := match l with [1; 2; 3] => Some ex_envelope | [4] => Some ex_config_envelope | _ => None end;
            envelope_ok e := e = ex_envelope |}.
  by intros e ->.
Defined.

Definition ex_client : IpcClient := ic_start (setConfigCallback (IpcClient_new "agent" 10)).

Lemma onRecv_spec_witness :
  exists called c', onRecv (H := ex_codec) [4] ex_client = Some (called, c') /\
    called = [mkAgentConfig "agent" 1 []].
Proof.
  destruct (onRecv_spec (H := ex_codec) [4] ex_client) as (called & c' & E & Hcases).
  - eexists. split; [reflexivity|]. apply tsq_new_inv. reflexivity.
  - exists called, c'. split; [done|]. destruct Hcases as [(cfg & ok & (sq & Hp) & -> & _)|(Hno & _)].
    + simpl in Hp. unfold ex_config_envelope, makeEnvelope in Hp. injection Hp as _ <-. reflexivity.
    + destruct (Hno (mkAgentConfig "agent" 1 [])). by exists 9.
Defined.

Definition ex_connected : SocketSender := (connectSocket true (SocketSender_new 10)).2.

Lemma alarm_reaches_peer_witness :
  exists c' s', pushAlarm (H := ex_codec) ex_alarm (mkIpcClient "agent" 10 (Some ex_connected) true 0)
      = Some (true, c') /\ ic_sender c' = Some s' /\
    forall writes data wire s'' arrivals,
      sendLoop_turn false writes s' = (SendTried data true wire, s'') ->
      Forall quiet arrivals -> (length wire <= reads arrivals)%nat ->
      exists payload rest, recv_turn arrivals wire = (Delivered payload, [], rest) /\
        ParseFromString (EnvelopeCodec := ex_codec) payload = Some ex_envelope.
Proof.
  apply (alarm_reaches_peer (H := ex_codec) (mkIpcClient "agent" 10 (Some ex_connected) true 0)
    ex_connected ex_alarm); try reflexivity.
  - by split.
  - by apply tsq_new_inv.
Defined.
