(* ===== verification/Stats.v ===== *)
(** * Statistics (src/src/common/Statistics.h, Statistics.cpp)

    Per-stream counters and the reporting thread.  Every method holds [mutex_]; the
    reporting [loop] holds it twice per turn, so the other threads act between the
    copy of the counters ([loop_snapshot]) and the write-back ([loop_store]). *)
From S2P Require Import Prelude.

Record Counters := mkCounters {
  ct_rtsp_pull_frames : Z;         (* each field is a uint64_t *)
  ct_mpp_decode_frames : Z;
  ct_infer_frames : Z;
  ct_publish_frames : Z;
  ct_remain_packet_size : Z;
  ct_remain_frame_size : Z;
}.
Definition Counters_default : Counters := mkCounters 0 0 0 0 0 0.

Record Statistics := mkStatistics {
  st_counters : gmap string Counters;
  st_last_snapshot : gmap string Counters;
  st_running : bool;
  st_interval_ms : Z;              (* uint32_t *)
}.

Definition Statistics_new : Statistics := mkStatistics ∅ ∅ false 5000.

Definition st_with_counters (c : gmap string Counters) (s : Statistics) : Statistics :=
  mkStatistics c (st_last_snapshot s) (st_running s) (st_interval_ms s).

Definition st_stop (s : Statistics) : Statistics :=
  mkStatistics (st_counters s) (st_last_snapshot s) false (st_interval_ms s).

Definition st_start (interval_ms : Z) (s : Statistics) : Statistics :=
  let effective_interval_ms := if interval_ms =? 0 then 5000 else interval_ms in
  let s := st_stop s in
  mkStatistics (st_counters s) ∅ true effective_interval_ms.

Definition ensureStreamLocked (stream_id : string) (s : Statistics) : Statistics :=
  match st_counters s !! stream_id with
  | None => st_with_counters (<[stream_id := Counters_default]> (st_counters s)) s
  | Some _ => s
  end.

Definition registerStream (stream_id : string) (s : Statistics) : Statistics :=
  if str_empty stream_id then s else ensureStreamLocked stream_id s.

Definition unregisterStream (stream_id : string) (s : Statistics) : Statistics :=
  if str_empty stream_id then s
  else mkStatistics (delete stream_id (st_counters s)) (delete stream_id (st_last_snapshot s))
         (st_running s) (st_interval_ms s).

(** [counters_[stream_id]] followed by an update of the entry. *)
Definition update_counter (f : Counters -> Counters) (stream_id : string) (s : Statistics) : Statistics :=
  st_with_counters
    (<[stream_id := f (default Counters_default (st_counters s !! stream_id))]> (st_counters s)) s.

Definition incRtspPullFrame (stream_id : string) (n : Z) (s : Statistics) : Statistics :=
  if str_empty stream_id || (n =? 0) then s
  else update_counter (fun c => mkCounters (u64 (ct_rtsp_pull_frames c + n)) (ct_mpp_decode_frames c)
         (ct_infer_frames c) (ct_publish_frames c) (ct_remain_packet_size c) (ct_remain_frame_size c)) stream_id s.

Definition incMppDecodeFrame (stream_id : string) (n : Z) (s : Statistics) : Statistics :=
  if str_empty stream_id || (n =? 0) then s
  else update_counter (fun c => mkCounters (ct_rtsp_pull_frames c) (u64 (ct_mpp_decode_frames c + n))
         (ct_infer_frames c) (ct_publish_frames c) (ct_remain_packet_size c) (ct_remain_frame_size c)) stream_id s.

Definition incInferFrame (stream_id : string) (n : Z) (s : Statistics) : Statistics :=
  if str_empty stream_id || (n =? 0) then s
  else update_counter (fun c => mkCounters (ct_rtsp_pull_frames c) (ct_mpp_decode_frames c)
         (u64 (ct_infer_frames c + n)) (ct_publish_frames c) (ct_remain_packet_size c) (ct_remain_frame_size c)) stream_id s.

Definition incPublishFrame (stream_id : string) (n : Z) (s : Statistics) : Statistics :=
  if str_empty stream_id || (n =? 0) then s
  else update_counter (fun c => mkCounters (ct_rtsp_pull_frames c) (ct_mpp_decode_frames c)
         (ct_infer_frames c) (u64 (ct_publish_frames c + n)) (ct_remain_packet_size c) (ct_remain_frame_size c)) stream_id s.

Definition setRemainPacketSize (stream_id : string) (size : Z) (s : Statistics) : Statistics :=
  if str_empty stream_id then s
  else update_counter (fun c => mkCounters (ct_rtsp_pull_frames c) (ct_mpp_decode_frames c)
         (ct_infer_frames c) (ct_publish_frames c) size (ct_remain_frame_size c)) stream_id s.

Definition setRemainFrameSize (stream_id : string) (size : Z) (s : Statistics) : Statistics :=
  if str_empty stream_id then s
  else update_counter (fun c => mkCounters (ct_rtsp_pull_frames c) (ct_mpp_decode_frames c)
         (ct_infer_frames c) (ct_publish_frames c) (ct_remain_packet_size c) size) stream_id s.

(** ** The reporting thread *)

(** The copies a turn of [loop] takes under the lock. *)
Record loop_copy := mkLoopCopy {
  lc_snapshot : gmap string Counters;
  lc_last_snapshot : gmap string Counters;
}.

Definition loop_snapshot (s : Statistics) : loop_copy := mkLoopCopy (st_counters s) (st_last_snapshot s).

Record StreamReport := mkStreamReport {
  sr_delta_rtsp : Z; sr_delta_decode : Z; sr_delta_infer : Z; sr_delta_publish : Z; sr_current : Counters;
}.

(** The report on one stream: unsigned subtractions. *)
Definition stream_report (current last : Counters) : StreamReport :=
  mkStreamReport (u64 (ct_rtsp_pull_frames current - ct_rtsp_pull_frames last))
    (u64 (ct_mpp_decode_frames current - ct_mpp_decode_frames last))
    (u64 (ct_infer_frames current - ct_infer_frames last))
    (u64 (ct_publish_frames current - ct_publish_frames last)) current.

Definition loop_report (l : loop_copy) : gmap string StreamReport :=
  map_imap (fun stream_id current =>
    Some (stream_report current (default Counters_default (lc_last_snapshot l !! stream_id)))) (lc_snapshot l).

(** The totals of the summary line: rtsp, decode, infer, publish, packets, frames. *)
Definition add_totals (_ : string) (r : StreamReport) (t : Z * Z * Z * Z * Z * Z) : Z * Z * Z * Z * Z * Z :=
  let '(a, b, c, d, e, f) := t in
  (u64 (a + sr_delta_rtsp r), u64 (b + sr_delta_decode r), u64 (c + sr_delta_infer r),
   u64 (d + sr_delta_publish r), u64 (e + ct_remain_packet_size (sr_current r)),
   u64 (f + ct_remain_frame_size (sr_current r))).

Definition loop_totals (l : loop_copy) : Z * Z * Z * Z * Z * Z :=
  map_fold add_totals (0, 0, 0, 0, 0, 0) (loop_report l).

(** The write-back at the end of a turn; an empty snapshot skips it ([continue]). *)
Definition loop_store (l : loop_copy) (s : Statistics) : Statistics :=
  if bool_decide (lc_snapshot l = ∅) then s
  else mkStatistics (st_counters s) (lc_snapshot l) (st_running s) (st_interval_ms s).

(** ** Interleavings *)

(** A step of the other threads, the start of a reporting turn, or its end. *)
Inductive stats_step :=
| StRegister (id : string)
| StUnregister (id : string)
| StPull (id : string) (n : Z)
| StDecode (id : string) (n : Z)
| StInfer (id : string) (n : Z)
| StPublish (id : string) (n : Z)
| StPackets (id : string) (n : Z)
| StFrames (id : string) (n : Z)
| StLoopSnapshot
| StLoopStore.

(** The statistics, the copy a turn in progress holds, and the reports made so far. *)
Record stats_system := mkStatsSystem {
  sy_stats : Statistics;
  sy_turn : option loop_copy;
  sy_reports : list (gmap string StreamReport);
}.

Definition stats_apply (st : stats_step) (y : stats_system) : stats_system :=
  let upd f := mkStatsSystem (f (sy_stats y)) (sy_turn y) (sy_reports y) in
  match st with
  | StRegister id => upd (registerStream id)
  | StUnregister id => upd (unregisterStream id)
  | StPull id n => upd (incRtspPullFrame id n)
  | StDecode id n => upd (incMppDecodeFrame id n)
  | StInfer id n => upd (incInferFrame id n)
  | StPublish id n => upd (incPublishFrame id n)
  | StPackets id n => upd (setRemainPacketSize id n)
  | StFrames id n => upd (setRemainFrameSize id n)
  | StLoopSnapshot =>
      match sy_turn y with
      | Some _ => y                (* one reporting thread: a turn ends before the next *)
      | None => let l := loop_snapshot (sy_stats y) in
                mkStatsSystem (sy_stats y) (Some l) (sy_reports y ++ [loop_report l])
      end
  | StLoopStore =>
      match sy_turn y with
      | None => y
      | Some l => mkStatsSystem (loop_store l (sy_stats y)) None (sy_reports y)
      end
  end.

Definition stats_run (steps : list stats_step) (y : stats_system) : stats_system :=
  foldl (fun y st => stats_apply st y) y steps.

Definition stats_initial (interval_ms : Z) : stats_system :=
  mkStatsSystem (st_start interval_ms Statistics_new) None [].

(** The pulled frames of [id] in a map of counters, absent meaning none. *)
Definition pulled (m : gmap string Counters) (id : string) : Z :=
  ct_rtsp_pull_frames (default Counters_default (m !! id)).

(** The sum of the deltas reported for [id]. *)
Definition reported (id : string) (rs : list (gmap string StreamReport)) : Z :=
  foldl (fun acc r => acc + match r !! id with Some r => sr_delta_rtsp r | None => 0 end) 0 rs.

Lemma reported_snoc id rs r :
  reported id (rs ++ [r]) = reported id rs + match r !! id with Some r => sr_delta_rtsp r | None => 0 end.
Proof. unfold reported. by rewrite foldl_app. Qed.

(** Each frame pulled is counted by exactly one report. *)
Record stats_inv (id : string) (pushed : Z) (y : stats_system) : Prop := {
  si_counter : pulled (st_counters (sy_stats y)) id = u64 pushed;
  si_range m : m = st_counters (sy_stats y) \/ m = st_last_snapshot (sy_stats y) ->
               in_unsigned 64 (pulled m id);
  si_reported : u64 (reported id (sy_reports y)) =
    pulled match sy_turn y with
           | Some l => if bool_decide (lc_snapshot l = ∅) then st_last_snapshot (sy_stats y) else lc_snapshot l
           | None => st_last_snapshot (sy_stats y)
           end id;
  si_turn l : sy_turn y = Some l -> in_unsigned 64 (pulled (lc_snapshot l) id);
  (** no entry of the last snapshot is lost from the counters *)
  si_dom : is_Some (st_last_snapshot (sy_stats y) !! id) -> is_Some (st_counters (sy_stats y) !! id);
  si_turn_dom l : sy_turn y = Some l -> is_Some (lc_snapshot l !! id) -> is_Some (st_counters (sy_stats y) !! id);
}.

(** The frames a step reports as pulled for [id]. *)
Definition step_pulled (id : string) (st : stats_step) : Z :=
  match st with
  | StPull i n => if str_empty i || (n =? 0) then 0 else if bool_decide (i = id) then n else 0
  | _ => 0
  end.

Definition total_pulled (id : string) (steps : list stats_step) : Z :=
  foldl (fun acc st => acc + step_pulled id st) 0 steps.

Definition keeps (id : string) (st : stats_step) : Prop := st <> StUnregister id.

Lemma pulled_update f i id m :
  pulled (<[i := f (default Counters_default (m !! i))]> m) id =
  if bool_decide (i = id) then ct_rtsp_pull_frames (f (default Counters_default (m !! id))) else pulled m id.
Proof.
  unfold pulled. case_bool_decide as H; [subst; by rewrite lookup_insert_eq|by rewrite lookup_insert_ne].
Qed.

(** An update of an entry that adds [d] to the pulled frames. *)
Lemma stats_inv_update f i id d pushed y :
  (forall c, ct_rtsp_pull_frames (f c) = u64 (ct_rtsp_pull_frames c + d)) ->
  stats_inv id pushed y ->
  stats_inv id (pushed + if bool_decide (i = id) then d else 0)
    (mkStatsSystem (update_counter f i (sy_stats y)) (sy_turn y) (sy_reports y)).
Proof.
  intros Hf [H1 H2 H3 H4 H5 H6].
  assert (pulled (<[i := f (default Counters_default (st_counters (sy_stats y) !! i))]> (st_counters (sy_stats y))) id
    = u64 (pushed + (if bool_decide (i = id) then d else 0))) as Hp.
  { rewrite pulled_update. case_bool_decide as Hi; [|by rewrite Z.add_0_r].
    rewrite Hf. change (ct_rtsp_pull_frames (default Counters_default (st_counters (sy_stats y) !! id)))
      with (pulled (st_counters (sy_stats y)) id). by rewrite H1, wrap_add_l. }
  split; simpl; try done.
  - intros m [->| ->]; [|by apply H2; right]. rewrite Hp. by apply wrap_range.
  - intros Hl. rewrite lookup_insert_is_Some'. auto.
  - intros l Hl Hs. rewrite lookup_insert_is_Some'. right. by eapply H6.
Qed.

Lemma stats_inv_counters g id pushed y :
  pulled g id = pulled (st_counters (sy_stats y)) id ->
  (is_Some (st_counters (sy_stats y) !! id) -> is_Some (g !! id)) ->
  stats_inv id pushed y -> 
  stats_inv id pushed (mkStatsSystem (st_with_counters g (sy_stats y)) (sy_turn y) (sy_reports y)).
Proof.
  intros Hg Hd [H1 H2 H3 H4 H5 H6]. split; simpl; try done.
  - by rewrite Hg.
  - intros m [->| ->]; [rewrite Hg; apply H2; by left|apply H2; by right].
  - auto.
  - intros l Hl Hs. eauto.
Qed.

Lemma loop_report_lookup l id :
  loop_report l !! id =
    (fun c => stream_report c (default Counters_default (lc_last_snapshot l !! id))) <$> lc_snapshot l !! id.
Proof. unfold loop_report. rewrite map_lookup_imap. by destruct (lc_snapshot l !! id). Qed.

(** The report of a turn started now accounts for everything not yet reported. *)
Lemma reported_after_snapshot id pushed y :
  stats_inv id pushed y -> sy_turn y = None ->
  u64 (reported id (sy_reports y ++ [loop_report (loop_snapshot (sy_stats y))])) = u64 pushed.
Proof.
  intros [H1 H2 H3 H4 H5 H6] Ht. rewrite Ht in H3. rewrite reported_snoc, loop_report_lookup. simpl.
  destruct (st_counters (sy_stats y) !! id) as [c|] eqn:Ec; simpl.
  - change (ct_rtsp_pull_frames (default Counters_default (st_last_snapshot (sy_stats y) !! id)))
      with (pulled (st_last_snapshot (sy_stats y)) id).
    assert (ct_rtsp_pull_frames c = u64 pushed) as -> by (rewrite <- H1; unfold pulled; by rewrite Ec).
    rewrite <- H3. set (r := reported id (sy_reports y)). unfold wrap.
    rewrite Zplus_mod_idemp_r, <- Zplus_mod_idemp_l.
    replace (r mod 2 ^ 64 + (pushed mod 2 ^ 64 - r mod 2 ^ 64)) with (pushed mod 2 ^ 64) by lia.
    apply Zmod_mod.
  - rewrite Z.add_0_r, H3, <- H1. unfold pulled. rewrite Ec.
    destruct (st_last_snapshot (sy_stats y) !! id) eqn:El; [|done].
    destruct H5 as [? ?]; [eauto|congruence].
Qed.

Lemma stats_inv_step id pushed y st :
  keeps id st -> stats_inv id pushed y -> stats_inv id (pushed + step_pulled id st) (stats_apply st y).
Proof.
  intros Hk Hinv.
  assert (forall (b : bool) i f, (forall c, ct_rtsp_pull_frames (f c) = ct_rtsp_pull_frames c) ->
    stats_inv id (pushed + 0)
      (mkStatsSystem (if b then sy_stats y else update_counter f i (sy_stats y)) (sy_turn y) (sy_reports y)))
    as Hother.
  { intros b i f Hf. rewrite Z.add_0_r. destruct b; [by destruct y|].
    apply stats_inv_counters; [| |done].
    - rewrite pulled_update. case_bool_decide; [|done]. rewrite Hf. done.
    - rewrite lookup_insert_is_Some'. auto. }
  destruct st as [i|i|i n|i n|i n|i n|i n|i n| |]; simpl stats_apply; simpl step_pulled.
  - rewrite Z.add_0_r. unfold registerStream. destruct (str_empty i); [by destruct y|].
    unfold ensureStreamLocked. destruct (st_counters (sy_stats y) !! i) eqn:E; [by destruct y|].
    apply stats_inv_counters; [| |done].
    + unfold pulled. destruct (decide (i = id)) as [->|]; [by rewrite lookup_insert_eq, E|by rewrite lookup_insert_ne].
    + rewrite lookup_insert_is_Some'. auto.
  - rewrite Z.add_0_r. unfold unregisterStream. destruct (str_empty i); [by destruct y|].
    assert (i <> id) as Hne by (intros ->; by apply Hk).
    destruct Hinv as [H1 H2 H3 H4 H5 H6].
    assert (forall m, pulled (delete i m) id = pulled m id) as Hd
      by (intros m; unfold pulled; by rewrite lookup_delete_ne).
    split; simpl; try done.
    + by rewrite Hd.
    + intros m [->| ->]; rewrite Hd; apply H2; [by left|by right].
    + rewrite H3. destruct (sy_turn y) as [l|]; [|by rewrite Hd]. case_bool_decide; [by rewrite Hd|done].
    + rewrite !lookup_delete_ne by done. done.
    + intros l Hl. rewrite lookup_delete_ne by done. by apply H6.
  - unfold incRtspPullFrame. destruct (str_empty i || (n =? 0)); [rewrite Z.add_0_r; by destruct y|].
    by apply stats_inv_update.
  - by apply Hother.
  - by apply Hother.
  - by apply Hother.
  - by apply Hother.
  - by apply Hother.
  - rewrite Z.add_0_r. destruct (sy_turn y) as [l|] eqn:Et; [by destruct y; simpl in *; subst|].
    pose proof (reported_after_snapshot id pushed y Hinv Et) as Hr.
    destruct Hinv as [H1 H2 H3 H4 H5 H6]. split; simpl; try done.
    + case_bool_decide as He; [|by rewrite Hr, H1].
      rewrite Et in H3. rewrite <- H3, reported_snoc, loop_report_lookup. simpl. by rewrite He, Z.add_0_r.
    + intros l [= <-]. apply H2. by left.
    + by intros l [= <-].
  - rewrite Z.add_0_r. destruct (sy_turn y) as [l|] eqn:Et; [|by destruct y; simpl in *; subst].
    destruct Hinv as [H1 H2 H3 H4 H5 H6]. rewrite Et in *. unfold loop_store.
    case_bool_decide as He; split; simpl; try done.
    + intros m [->| ->]; [apply H2; by left|by apply H4].
    + by apply H6.
Qed.

(** Counting is exact modulo 2^64: as long as a stream is not unregistered,
    then however the reporting turns interleave with the counting threads, the
    deltas reported for it add up to the frames counted - each frame is in exactly
    one report. *)
Theorem stats_deltas_conserve (interval_ms : Z) (id : string) (steps : list stats_step) :
  Forall (keeps id) steps ->
  let y := stats_run steps (stats_initial interval_ms) in
  sy_turn y = None ->
  u64 (reported id (sy_reports (stats_apply StLoopSnapshot y))) = u64 (total_pulled id steps).
Proof.
  intros Hk y Ht. assert (stats_inv id (total_pulled id steps) y) as Hinv.
  { clear Ht. unfold y, stats_run, total_pulled. induction steps as [|st steps IH] using rev_ind.
    - split; simpl; try done.
      + intros m [->| ->]; done.
    - apply Forall_app in Hk as [Hk [Hst _]%Forall_cons]. rewrite !foldl_app. simpl.
      by apply stats_inv_step; [|apply IH]. }
  simpl. rewrite Ht. simpl. by apply reported_after_snapshot.
Qed.

Lemma stats_deltas_conserve_witness :
  u64 (reported "cam" (sy_reports (stats_apply StLoopSnapshot
    (stats_run [StPull "cam" 3; StLoopSnapshot; StPull "cam" 4; StLoopStore; StPull "cam" 5] (stats_initial 1000)))))
  = u64 12.
Proof.
  apply (stats_deltas_conserve 1000 "cam" [StPull "cam" 3; StLoopSnapshot; StPull "cam" 4; StLoopStore; StPull "cam" 5]);
    [|reflexivity]. by repeat constructor.
Defined.

(** Unregistering loses that: when a stream is unregistered and registered again
    while a reporting turn holds its copy, the turn writes the old counters back,
    and the next report of the new stream is the difference wrapped around 2^64. *)
Theorem stats_reregister_wraps (id : string) (before after : Z) :
  id <> EmptyString -> 0 < after < before -> before < 2 ^ 64 ->
  let y := stats_run
    [StPull id before; StLoopSnapshot; StUnregister id; StRegister id; StLoopStore; StPull id after; StLoopSnapshot]
    (stats_initial 5000) in
  sr_delta_rtsp <$> (last (sy_reports y) ≫= fun r => r !! id) = Some (2 ^ 64 - (before - after)).
Proof.
  intros Hid Hlt Hmax. apply str_empty_false in Hid.
  assert ((before =? 0) = false /\ (after =? 0) = false) as [Hb Ha] by lia.
  unfold stats_run. cbn [foldl stats_apply stats_initial sy_stats sy_turn sy_reports].
  unfold incRtspPullFrame, unregisterStream, registerStream. rewrite Hid, Ha, Hb. cbn [orb].
  unfold ensureStreamLocked, loop_store, loop_snapshot, update_counter, st_start, st_stop, Statistics_new.
  cbn [st_counters st_last_snapshot st_with_counters lc_snapshot lc_last_snapshot st_running st_interval_ms].
  rewrite lookup_empty, !lookup_delete_eq. cbn [st_counters st_with_counters st_last_snapshot st_running st_interval_ms default].
  rewrite bool_decide_false by apply insert_non_empty. cbn [st_counters st_last_snapshot st_with_counters].
  rewrite !lookup_insert_eq. cbn [last app mbind option_bind]. rewrite loop_report_lookup. cbn [lc_snapshot lc_last_snapshot].
  rewrite !lookup_insert_eq. cbn. f_equal. rewrite !Z.add_0_l, !(wrap_small 64 before), (wrap_small 64 after)
    by (unfold in_unsigned; lia).
  unfold wrap. symmetry. apply (Z.mod_unique_pos _ _ (-1)); lia.
Qed.

Lemma stats_reregister_wraps_witness :
  sr_delta_rtsp <$> (last (sy_reports (stats_run
    [StPull "cam" 100; StLoopSnapshot; StUnregister "cam"; StRegister "cam"; StLoopStore; StPull "cam" 1; StLoopSnapshot]
    (stats_initial 5000))) ≫= fun r => r !! "cam"%string) = Some (2 ^ 64 - 99).
Proof. apply (stats_reregister_wraps "cam" 100 1); [done|lia|lia]. Defined.
