(* ===== verification/Detector.v ===== *)
(** * Detection (the directories src/src/detector and src/src/tracker)

    [AlgoDetector] with its pre- and postprocessing steps, the tracker and its
    factory.  The inference engine (EdgeInfer) and the native tracker
    (media_agent_tracker) are third-party: what their calls answer is an argument.
    The calls to the native tracker are recorded, so that leaked handles and uses after
    destruction are visible.  Clock readings are arguments. *)
From S2P Require Import Prelude Float32 Messages Config.

(** ** Data of the engine and of the tracker (ed_common.h, media_agent_tracker.h) *)

Record rotated_rect := mkRotatedRect {
  rect_x : float32; rect_y : float32; rect_w : float32; rect_h : float32; rect_angle : float32;
}.

Record object_result := mkObjectResult {
  or_box : rotated_rect; or_prop : float32; or_class_id : Z; or_class_name : string;
}.

Record image_buffer_t := mkImageBuffer {
  ib_width : Z; ib_height : Z; ib_width_stride : Z; ib_height_stride : Z; ib_format : Z;
  ib_virt_addr : option Z; ib_size : Z; ib_fd : Z;
}.

Record ma_tracker_detection_t := mkTrackerDetection {
  td_x : float32; td_y : float32; td_width : float32; td_height : float32;
  td_confidence : float32; td_class_id : Z;
}.

(** The fields of an output the code reads. *)
Record ma_tracker_output_t := mkTrackerOutput { tro_track_id : Z; tro_matched : bool }.

Record ma_tracker_config_t := mkTrackerNativeConfig {
  tn_enabled : bool; tn_tracker_type : string; tn_min_thresh : float32; tn_high_thresh : float32;
  tn_max_iou_distance : float32; tn_high_thresh_person : float32; tn_high_thresh_motorbike : float32;
  tn_max_age : Z; tn_n_init : Z;
}.

Record TrackFrame := mkTrackFrame {
  tf_stream_id : string; tf_frame_id : Z; tf_timestamp_ms : Z; tf_width : Z; tf_height : Z;
}.

(** ** The native tracker API *)

(** [ma_tracker_frame_desc_t]. *)
Record ma_tracker_frame_desc_t := mkTrackerFrameDesc { tfd_width : Z; tfd_height : Z; tfd_timestamp_ms : Z }.

(** What the library answers at its [n]-th call: whether a handle is created, and the
    outputs of a processing call ([None]: an error code). *)
Record TrackerApi := mkTrackerApi {
  ma_create_ok : nat -> ma_tracker_config_t -> bool;
  ma_process : nat -> Z -> ma_tracker_frame_desc_t -> list ma_tracker_detection_t ->
               option (list ma_tracker_output_t);
}.

(** The calls made to the library, newest first. *)
Inductive tracker_call :=
| CallCreate (created : option Z)
| CallProcess (h : Z)
| CallReset (h : Z)
| CallDestroy (h : Z).
Definition TrackerWorld : Type := list tracker_call.

Definition ma_tracker_create (api : TrackerApi) (cfg : ma_tracker_config_t) (w : TrackerWorld)
  : option Z * TrackerWorld :=
  let handle := if ma_create_ok api (length w) cfg then Some (Z.of_nat (length w)) else None in
  (handle, CallCreate handle :: w).

Definition ma_tracker_process (api : TrackerApi) (h : Z) (desc : ma_tracker_frame_desc_t)
    (detections : list ma_tracker_detection_t) (w : TrackerWorld)
  : option (list ma_tracker_output_t) * TrackerWorld :=
  (ma_process api (length w) h desc detections, CallProcess h :: w).

Definition ma_tracker_reset (h : Z) (w : TrackerWorld) : TrackerWorld := CallReset h :: w.
Definition ma_tracker_destroy (h : Z) (w : TrackerWorld) : TrackerWorld := CallDestroy h :: w.

(** The handles created and not destroyed. *)
Fixpoint live_handles (w : TrackerWorld) : list Z :=
  match w with
  | [] => []
  | CallCreate (Some h) :: w => h :: live_handles w
  | CallDestroy h :: w => List.filter (fun x => negb (x =? h)) (live_handles w)
  | _ :: w => live_handles w
  end.

(** Every handle is alive when it is used or destroyed. *)
Fixpoint handles_used_alive (w : TrackerWorld) : Prop :=
  match w with
  | [] => True
  | CallCreate _ :: w => handles_used_alive w
  | (CallProcess h | CallReset h | CallDestroy h) :: w => h ∈ live_handles w /\ handles_used_alive w
  end.

(** ** ByteTrackTracker *)

Record ByteTrackTracker := mkByteTrackTracker { bt_cfg : TrackerConfig; bt_handle : option Z }.

Definition toNativeConfig (cfg : TrackerConfig) : ma_tracker_config_t :=
  mkTrackerNativeConfig (tc_enabled cfg)
    (if str_empty (tc_tracker_type cfg) then "bytetrack" else tc_tracker_type cfg)
    (tc_min_thresh cfg) (tc_high_thresh cfg) (tc_max_iou_distance cfg) (tc_high_thresh_person cfg)
    (tc_high_thresh_motorbike cfg) (tc_max_age cfg) (tc_n_init cfg).

Definition bt_init (api : TrackerApi) (t : ByteTrackTracker) (w : TrackerWorld)
  : bool * ByteTrackTracker * TrackerWorld :=
  match bt_handle t with
  | Some _ => (true, t, w)
  | None =>
      match ma_tracker_create api (toNativeConfig (bt_cfg t)) w with
      | (None, w) => (false, t, w)
      | (Some handle, w) => (true, mkByteTrackTracker (bt_cfg t) (Some handle), w)
      end
  end.

Definition native_detection (object : DetectionObject) : ma_tracker_detection_t :=
  mkTrackerDetection (box_cx (do_bbox object)) (box_cy (do_bbox object)) (box_width (do_bbox object))
    (box_height (do_bbox object)) (do_confidence object) (to_signed 32 (do_class_id object)).

Definition set_object_id (id : Z) (o : DetectionObject) : DetectionObject :=
  mkDetectionObject (u32 id) (do_class_id o) (do_class_name o) (do_confidence o) (do_bbox_field o).

(** The loop that writes the track ids back, index by index. *)
Fixpoint assign_tracks (objects : list DetectionObject) (outputs : list ma_tracker_output_t)
  : list DetectionObject :=
  match objects, outputs with
  | o :: objects, out :: outputs =>
      (if tro_matched out && (0 <=? tro_track_id out) then set_object_id (tro_track_id out) o else o)
        :: assign_tracks objects outputs
  | _, _ => objects
  end.

Definition bt_track (api : TrackerApi) (frame : TrackFrame) (objects : list DetectionObject)
    (t : ByteTrackTracker) (w : TrackerWorld)
  : bool * list DetectionObject * ByteTrackTracker * TrackerWorld :=
  let '(ready, t, w) :=
    match bt_handle t with None => bt_init api t w | Some _ => (true, t, w) end in
  if negb ready then (false, objects, t, w)
  else match bt_handle t with
  | None => (false, objects, t, w)
  | Some h =>
      if (tf_width frame <=? 0) || (tf_height frame <=? 0) then (false, objects, t, w)
      else
        let desc := mkTrackerFrameDesc (tf_width frame) (tf_height frame) (tf_timestamp_ms frame) in
        match ma_tracker_process api h desc (native_detection <$> objects) w with
        | (None, w) => (false, objects, t, w)
        | (Some outputs, w) => (true, assign_tracks objects outputs, t, w)
        end
  end.

Definition bt_reset (t : ByteTrackTracker) (w : TrackerWorld) : TrackerWorld :=
  match bt_handle t with None => w | Some h => ma_tracker_reset h w end.

Definition bt_release (t : ByteTrackTracker) (w : TrackerWorld) : ByteTrackTracker * TrackerWorld :=
  match bt_handle t with
  | None => (t, w)
  | Some h => (mkByteTrackTracker (bt_cfg t) None, ma_tracker_destroy h w)
  end.

(** [TrackerFactory::create]. *)
Definition TrackerFactory_create (cfg : TrackerConfig) : option ByteTrackTracker :=
  if negb (tc_enabled cfg) then None
  else if str_empty (tc_tracker_type cfg) || str_eqb (tc_tracker_type cfg) "bytetrack"
  then Some (mkByteTrackTracker cfg None)
  else None.

(** ** Preprocessing *)

(** [filters] holds the confidence threshold it is given. *)
Record AlgoDetectContext := mkAlgoDetectContext {
  dc_active_algorithms : list AlgorithmConfig;
  dc_filter_threshold : float32;
  dc_alarm_config : AlgorithmConfig;
  dc_should_infer : bool;
  dc_has_alarm_config : bool;
}.
Definition AlgoDetectContext_default : AlgoDetectContext :=
  mkAlgoDetectContext [] f32_zero AlgorithmConfig_default false false.

(** [now_ms] is [systemNowMs()]. *)
Definition isAlgorithmActiveNow (now_ms : Z) (cfg : AlgorithmConfig) : bool :=
  let start_ts := ac_start_date cfg in
  let end_ts := ac_end_date cfg in
  if (start_ts <=? 0) && (end_ts <=? 0) then true
  else
    let now_s := Z.quot now_ms 1000 in
    if (0 <? start_ts) && (now_s <? start_ts) then false
    else if (0 <? end_ts) && (end_ts <? now_s) then false
    else true.

Definition active_algorithm_run (now_ms : Z) (cfg : StreamConfig) (c : AlgoDetectContext)
  : bool * AlgoDetectContext :=
  let active := List.filter (isAlgorithmActiveNow now_ms) (sc_algorithms cfg) in
  match active with
  | [] => (false, mkAlgoDetectContext [] (dc_filter_threshold c) (dc_alarm_config c) false (dc_has_alarm_config c))
  | first :: _ => (true, mkAlgoDetectContext active (dc_filter_threshold c) first true true)
  end.

Definition infer_filter_run (cfg : StreamConfig) (c : AlgoDetectContext) : bool * AlgoDetectContext :=
  if negb (dc_has_alarm_config c) then
    (false, mkAlgoDetectContext (dc_active_algorithms c) (dc_filter_threshold c) (dc_alarm_config c) false
              (dc_has_alarm_config c))
  else
    (true, mkAlgoDetectContext (dc_active_algorithms c) (ac_threshold (dc_alarm_config c)) (dc_alarm_config c)
             (dc_should_infer c) (dc_has_alarm_config c)).

(** [runPreprocessSteps] on [createDefaultPreprocessSteps]. *)
Definition runPreprocessSteps (now_ms : Z) (cfg : StreamConfig) (c : AlgoDetectContext)
  : bool * AlgoDetectContext :=
  match active_algorithm_run now_ms cfg c with
  | (false, c) => (false, c)
  | (true, c) => infer_filter_run cfg c
  end.

(** ** Postprocessing: formatting *)

Definition hasDetectionTarget (target : DetectionObject) : bool :=
  f32_ltb f32_zero (do_confidence target) && f32_ltb f32_zero (box_width (do_bbox target)) &&
  f32_ltb f32_zero (box_height (do_bbox target)).

Definition buildDetectionObject (item : object_result) : DetectionObject :=
  mkDetectionObject 0 (u32 (or_class_id item)) (or_class_name item) (or_prop item)
    (Some (mkBox (rect_x (or_box item)) (rect_y (or_box item)) (rect_w (or_box item)) (rect_h (or_box item))
             (rect_angle (or_box item)))).

Definition fr_with_objects (objects alarms : list DetectionObject) (r : FrameInferenceResult)
  : FrameInferenceResult :=
  mkFrameInferenceResult (fr_stream_id r) (fr_frame_id r) (fr_pts r) (fr_algorithm_id r) objects alarms
    (fr_infer_start_mono_ms r) (fr_infer_done_mono_ms r) (fr_expire_at_mono_ms r).

Definition format_run (frame : FrameBundle) (c : AlgoDetectContext) (raw_results : list object_result)
    (output : FrameInferenceResult) : FrameInferenceResult :=
  mkFrameInferenceResult (fb_stream_id frame) (fb_frame_id frame) (fb_pts frame)
    (if dc_has_alarm_config c then ac_algorithm_id (dc_alarm_config c) else "")
    (List.filter hasDetectionTarget (buildDetectionObject <$> raw_results)) []
    (fr_infer_start_mono_ms output) (fr_infer_done_mono_ms output) (fr_expire_at_mono_ms output).

(** ** Postprocessing: tracking *)

Record TrackingStep := mkTrackingStep {
  ts_active_tracker_config : TrackerConfig;
  ts_tracker_initialized_for_config : bool;
  ts_tracker : option ByteTrackTracker;
}.
Definition TrackingStep_new : TrackingStep := mkTrackingStep TrackerConfig_default false None.

Section Tracking.
Context `{MessageDifferencer} (api : TrackerApi).

(** [tracker_->release(); tracker_.reset();] when there is one. *)
Definition drop_tracker (t : option ByteTrackTracker) (w : TrackerWorld) : TrackerWorld :=
  match t with None => w | Some t => (bt_release t w).2 end.

Definition ensureTrackerLocked (tracker_cfg : TrackerConfig) (s : TrackingStep) (w : TrackerWorld)
  : bool * TrackingStep * TrackerWorld :=
  let tracker_changed :=
    negb (ts_tracker_initialized_for_config s) ||
    negb (same_tracker (ts_active_tracker_config s) tracker_cfg) in
  if negb tracker_changed then
    (match ts_tracker s with Some _ => true | None => false end, s, w)
  else
    let w := drop_tracker (ts_tracker s) w in
    match TrackerFactory_create tracker_cfg with
    | None => (false, mkTrackingStep tracker_cfg true None, w)
    | Some t =>
        match bt_init api t w with
        | (false, _, w) => (false, mkTrackingStep tracker_cfg true None, w)
        | (true, t, w) => (true, mkTrackingStep tracker_cfg true (Some t), w)
        end
    end.

Definition tracking_run (frame : FrameBundle) (cfg : StreamConfig) (output : FrameInferenceResult)
    (s : TrackingStep) (w : TrackerWorld) : FrameInferenceResult * TrackingStep * TrackerWorld :=
  match fr_objects output with
  | [] => (output, s, w)
  | _ =>
      if negb (sc_has_tracker cfg) || negb (tc_enabled (sc_tracker cfg)) then
        (output, mkTrackingStep TrackerConfig_default false None, drop_tracker (ts_tracker s) w)
      else
        match ensureTrackerLocked (sc_tracker cfg) s w with
        | (false, s, w) => (output, s, w)
        | (true, s, w) =>
            match ts_tracker s with
            | None => (output, s, w)
            | Some t =>
                let track_frame := mkTrackFrame (fb_stream_id frame) (fb_frame_id frame) (fb_timestamp_ms frame)
                  (fb_width frame) (fb_height frame) in
                let '(_, objects, t, w) := bt_track api track_frame (fr_objects output) t w in
                (fr_with_objects objects (fr_alarm_objects output) output,
                 mkTrackingStep (ts_active_tracker_config s) (ts_tracker_initialized_for_config s) (Some t), w)
            end
        end
  end.
End Tracking.

(** ** Postprocessing: alarm deduplication *)

Record DedupStep := mkDedupStep {
  dd_last_alarm_by_object_id : gmap Z Z;
  dd_last_alarm_by_class_id : gmap Z Z;
}.
Definition DedupStep_new : DedupStep := mkDedupStep ∅ ∅.

Definition kDefaultAlarmDedupIntervalMs : Z := 5000.

Definition getAlarmDedupWindowMs (cfg : StreamConfig) : Z :=
  if sc_alarm_dedup_interval_s cfg <=? 0 then kDefaultAlarmDedupIntervalMs
  else sc_alarm_dedup_interval_s cfg * 1000.

Definition pruneExpiredEntries (now_mono_ms dedup_window_ms : Z) (s : DedupStep) : DedupStep :=
  let expired_before := now_mono_ms - dedup_window_ms in
  mkDedupStep (base.filter (fun e => ~ e.2 <= expired_before) (dd_last_alarm_by_object_id s))
    (base.filter (fun e => ~ e.2 <= expired_before) (dd_last_alarm_by_class_id s)).

Definition shouldKeepObject (cfg : StreamConfig) (object : DetectionObject) (now_mono_ms dedup_window_ms : Z)
    (s : DedupStep) : bool * DedupStep :=
  let tracker_enabled := sc_has_tracker cfg && tc_enabled (sc_tracker cfg) in
  let recent (m : gmap Z Z) (k : Z) :=
    match m !! k with Some t => now_mono_ms - t <? dedup_window_ms | None => false end in
  if tracker_enabled && (0 <? do_object_id object) then
    if recent (dd_last_alarm_by_object_id s) (do_object_id object) then (false, s)
    else (true, mkDedupStep (<[do_object_id object := now_mono_ms]> (dd_last_alarm_by_object_id s))
                  (dd_last_alarm_by_class_id s))
  else
    if recent (dd_last_alarm_by_class_id s) (do_class_id object) then (false, s)
    else (true, mkDedupStep (dd_last_alarm_by_object_id s)
                  (<[do_class_id object := now_mono_ms]> (dd_last_alarm_by_class_id s))).

Fixpoint keep_objects (cfg : StreamConfig) (objects : list DetectionObject) (now_mono_ms dedup_window_ms : Z)
    (s : DedupStep) : list DetectionObject * DedupStep :=
  match objects with
  | [] => ([], s)
  | object :: rest =>
      match shouldKeepObject cfg object now_mono_ms dedup_window_ms s with
      | (true, s) => let '(kept, s) := keep_objects cfg rest now_mono_ms dedup_window_ms s in (object :: kept, s)
      | (false, s) => keep_objects cfg rest now_mono_ms dedup_window_ms s
      end
  end.

(** [steady_now] is what [steadyNowMs()] would return. *)
Definition dedup_run (steady_now : Z) (cfg : StreamConfig) (output : FrameInferenceResult) (s : DedupStep)
  : FrameInferenceResult * DedupStep :=
  match fr_objects output with
  | [] => (fr_with_objects [] [] output, s)
  | objects =>
      let now_mono_ms := if 0 <? fr_infer_done_mono_ms output then fr_infer_done_mono_ms output else steady_now in
      let dedup_window_ms := getAlarmDedupWindowMs cfg in
      if dedup_window_ms <=? 0 then (fr_with_objects objects objects output, s)
      else
        let s := pruneExpiredEntries now_mono_ms dedup_window_ms s in
        let '(kept, s) := keep_objects cfg objects now_mono_ms dedup_window_ms s in
        (fr_with_objects objects kept output, s)
  end.

(** ** AlgoDetector *)

Definition kDetectionTtlMs : Z := 5000.

(** The engine: whether [init] on a model file succeeds, and the results of [infer]
    on an image with a threshold ([None]: an error code). *)
Record EdgeInferApi := mkEdgeInferApi {
  edge_init_ok : string -> bool;
  edge_infer : image_buffer_t -> float32 -> option (list object_result);
}.

(** [ad_infer] is the model the engine was initialised with. *)
Record AlgoDetector := mkAlgoDetector {
  ad_cfg : StreamConfig;
  ad_inited : bool;
  ad_infer : option string;
  ad_tracking : TrackingStep;
  ad_dedup : DedupStep;
}.

Definition AlgoDetector_new (cfg : StreamConfig) : AlgoDetector :=
  mkAlgoDetector cfg false None TrackingStep_new DedupStep_new.

Definition ad_init (edge : EdgeInferApi) (d : AlgoDetector) : bool * AlgoDetector :=
  let config_paths :=
    List.filter (fun p => negb (str_empty p)) (ac_model_path <$> sc_algorithms (ad_cfg d)) in
  match config_paths with
  | [] => (false, d)
  | path :: _ =>
      if edge_init_ok edge path
      then (true, mkAlgoDetector (ad_cfg d) true (Some path) (ad_tracking d) (ad_dedup d))
      else (false, mkAlgoDetector (ad_cfg d) (ad_inited d) None (ad_tracking d) (ad_dedup d))
  end.

Definition ad_release (d : AlgoDetector) : AlgoDetector :=
  if negb (ad_inited d) then d
  else mkAlgoDetector (ad_cfg d) false None (ad_tracking d) (ad_dedup d).

(** The destructor: [release], then the members, the tracking step's tracker among them. *)
Definition AlgoDetector_destroy (d : AlgoDetector) (w : TrackerWorld) : TrackerWorld :=
  drop_tracker (ts_tracker (ad_tracking (ad_release d))) w.

Definition input_image (i : DmaImage) : image_buffer_t :=
  mkImageBuffer (img_width i) (img_height i) (img_width_stride i) (img_height_stride i) (img_format i)
    (img_virt_addr i) (to_signed 32 (img_size i)) (img_fd i).

(** The clock readings of one [detect]: [systemNowMs] in the preprocessing, then
    [steadyNowMs] before and after inference. *)
Record detect_clock := mkDetectClock { ck_system : Z; ck_start : Z; ck_done : Z }.

Section Detect.
Context `{MessageDifferencer} (api : TrackerApi) (edge : EdgeInferApi).

(** [runPostprocessSteps] on [createDefaultPostprocessSteps]. *)
Definition runPostprocessSteps (ck : detect_clock) (frame : FrameBundle) (cfg : StreamConfig)
    (c : AlgoDetectContext) (raw : list object_result) (output : FrameInferenceResult)
    (d : AlgoDetector) (w : TrackerWorld) : FrameInferenceResult * AlgoDetector * TrackerWorld :=
  let output := format_run frame c raw output in
  let '(output, tracking, w) := tracking_run api frame cfg output (ad_tracking d) w in
  let '(output, dedup) := dedup_run (ck_done ck) cfg output (ad_dedup d) in
  (output, mkAlgoDetector (ad_cfg d) (ad_inited d) (ad_infer d) tracking dedup, w).

Definition detect (ck : detect_clock) (frame : FrameBundle) (cfg : StreamConfig) (d : AlgoDetector)
    (w : TrackerWorld) : FrameInferenceResult * AlgoDetector * TrackerWorld :=
  let output := FrameInferenceResult_default in
  match ad_inited d, ad_infer d with
  | true, Some _ =>
      match fb_decoded_image frame with
      | None => (output, d, w)
      | Some image =>
          if img_fd image <? 0 then (output, d, w)
          else
            match runPreprocessSteps (ck_system ck) cfg AlgoDetectContext_default with
            | (false, _) => (output, d, w)
            | (true, c) =>
                if negb (dc_should_infer c) then (output, d, w)
                else
                  let started := mkFrameInferenceResult "" (-1) (-1) "" [] [] (ck_start ck) 0 0 in
                  match edge_infer edge (input_image image) (dc_filter_threshold c) with
                  | None => (started, d, w)
                  | Some results =>
                      let output := mkFrameInferenceResult "" (-1) (-1) "" [] [] (ck_start ck) (ck_done ck)
                        (ck_done ck + kDetectionTtlMs) in
                      runPostprocessSteps ck frame cfg c results output d w
                  end
            end
      end
  | _, _ => (output, d, w)
  end.

(** A detector's life: one [detect] after the other, as the pipeline's inference loop
    calls it. *)
Definition detect_input : Type := detect_clock * FrameBundle * StreamConfig.

Fixpoint detect_all (calls : list detect_input) (d : AlgoDetector) (w : TrackerWorld)
  : list FrameInferenceResult * AlgoDetector * TrackerWorld :=
  match calls with
  | [] => ([], d, w)
  | (ck, frame, cfg) :: calls =>
      let '(r, d, w) := detect ck frame cfg d w in
      let '(rs, d, w) := detect_all calls d w in (r :: rs, d, w)
  end.
End Detect.

(** ** Tracker handles *)

Definition tracker_handles (t : option ByteTrackTracker) : list Z :=
  match t with
  | Some (mkByteTrackTracker _ (Some h)) => [h]
  | _ => []
  end.

(** The handle the step owns is the only one alive. *)
Definition owns (t : option ByteTrackTracker) (w : TrackerWorld) : Prop :=
  handles_used_alive w /\ live_handles w = tracker_handles t.

Lemma owns_drop t w : owns t w -> owns None (drop_tracker t w).
Proof.
  intros [Hu Hl]. destruct t as [[cfg [h|]]|]; [|done..].
  split; cbn in *; rewrite Hl; cbn; [|by rewrite Z.eqb_refl].
  split; [left | done].
Qed.

Lemma owns_init api cfg w ok t w' :
  owns None w -> bt_init api (mkByteTrackTracker cfg None) w = (ok, t, w') ->
  owns (Some t) w' /\ (ok = false -> owns None w') /\ bt_cfg t = cfg /\ (ok = true <-> bt_handle t <> None).
Proof.
  intros [Hu Hl]. unfold bt_init, ma_tracker_create; cbn.
  destruct (ma_create_ok api (length w) _); intros [= <- <- <-]; unfold owns; cbn in *;
    rewrite ?Hl; intuition congruence.
Qed.

Lemma owns_create api tracker_cfg t w ok t' w' :
  TrackerFactory_create tracker_cfg = Some t -> owns None w -> bt_init api t w = (ok, t', w') ->
  owns (Some t') w' /\ (ok = false -> owns None w').
Proof.
  unfold TrackerFactory_create. intros Hf Ho Hi.
  destruct (negb _); [done|]. destruct (_ || _); [|done].
  injection Hf as <-. by destruct (owns_init _ _ _ _ _ _ Ho Hi) as (?&?&_).
Qed.

Section Handles.
Context `{MessageDifferencer} (api : TrackerApi) (edge : EdgeInferApi).

Lemma owns_ensure tracker_cfg s w ok s' w' :
  owns (ts_tracker s) w -> ensureTrackerLocked api tracker_cfg s w = (ok, s', w') ->
  owns (ts_tracker s') w'.
Proof.
  intros Ho. unfold ensureTrackerLocked. destruct (negb (_ || _)); [by intros [= <- <- <-]|].
  apply owns_drop in Ho. destruct (TrackerFactory_create tracker_cfg) as [t|] eqn:Hf; [|by intros [= <- <- <-]].
  destruct (bt_init api t _) as [[[|] t'] w1] eqn:Hi; intros [= <- <- <-];
    destruct (owns_create _ _ _ _ _ _ _ Hf Ho Hi); cbn; auto.
Qed.

Lemma owns_track frame objects t w ok objects' t' w' :
  owns (Some t) w -> bt_track api frame objects t w = (ok, objects', t', w') -> owns (Some t') w'.
Proof.
  intros Ho. unfold bt_track.
  destruct (match bt_handle t with Some _ => (true, t, w) | None => bt_init api t w end)
    as [[ready t1] w1] eqn:Hi.
  assert (H1 : owns (Some t1) w1).
  { destruct t as [cfg [h|]]; cbn in Hi; [by injection Hi as <- <- <-|].
    by apply (owns_init api cfg w ready t1 w1) in Hi as (?&_). }
  destruct ready; cbn; [|by intros [= <- <- <- <-]].
  destruct t1 as [cfg [h|]]; cbn; [|by intros [= <- <- <- <-]].
  destruct (_ || _); [by intros [= <- <- <- <-]|].
  assert (H2 : owns (Some (mkByteTrackTracker cfg (Some h))) (CallProcess h :: w1)).
  { destruct H1 as [Hu Hl]. split; cbn in *; rewrite Hl; [split; [left|done] | done]. }
  destruct (ma_process _ _ _ _ _); by intros [= <- <- <- <-].
Qed.

Lemma owns_tracking frame cfg output s w output' s' w' :
  owns (ts_tracker s) w -> tracking_run api frame cfg output s w = (output', s', w') ->
  owns (ts_tracker s') w'.
Proof.
  intros Ho. unfold tracking_run. destruct (fr_objects output) eqn:Hobj; [by intros [= <- <- <-]|].
  destruct (_ || _); [intros [= <- <- <-]; by apply owns_drop|].
  destruct (ensureTrackerLocked _ _ _ _) as [[ok s1] w1] eqn:He. apply owns_ensure in He; [|done].
  destruct ok; [|by intros [= <- <- <-]].
  destruct (ts_tracker s1) as [t|] eqn:Ht; [|intros [= <- <- <-]; by rewrite Ht].
  destruct (bt_track _ _ _ _ _) as [[[ok objs] t'] w2] eqn:Hb. intros [= <- <- <-].
  by eapply owns_track.
Qed.

Lemma owns_detect ck frame cfg d w r d' w' :
  owns (ts_tracker (ad_tracking d)) w -> detect api edge ck frame cfg d w = (r, d', w') ->
  owns (ts_tracker (ad_tracking d')) w'.
Proof.
  intros Ho. unfold detect, runPostprocessSteps.
  repeat (match goal with
          | |- (match ?x with _ => _ end) = _ -> _ => destruct x eqn:?
          end; try by intros [= <- <- <-]).
  intros [= <- <- <-]. by eapply owns_tracking.
Qed.

Lemma owns_detect_all calls : forall d w rs d' w',
  owns (ts_tracker (ad_tracking d)) w -> detect_all api edge calls d w = (rs, d', w') ->
  owns (ts_tracker (ad_tracking d')) w'.
Proof.
  induction calls as [|[[ck frame] cfg] calls IH]; intros d w rs d' w' Ho; cbn.
  { by intros [= <- <- <-]. }
  destruct (detect _ _ _ _ _ _ _) as [[r d1] w1] eqn:Hd. apply owns_detect in Hd; [|done].
  destruct (detect_all _ _ _ _ _) as [[rs1 d2] w2] eqn:Ha. intros [= <- <- <-]. by eapply IH.
Qed.

(** Whatever frames and configurations a fresh detector is run on, and whatever
    the native library answers, each tracker handle is alive whenever it is used or
    destroyed, at most one is alive at a time, it is the one the tracking step owns,
    and none is left once the detector is destroyed: no leak, no double free, no use
    after free. *)
Theorem tracker_handles_safe (cfg : StreamConfig) (calls : list detect_input) :
  let '(_, d, w) := detect_all api edge calls (ad_init edge (AlgoDetector_new cfg)).2 [] in
  handles_used_alive w /\ live_handles w = tracker_handles (ts_tracker (ad_tracking d)) /\
  handles_used_alive (AlgoDetector_destroy d w) /\ live_handles (AlgoDetector_destroy d w) = [].
Proof.
  destruct (detect_all _ _ _ _ _) as [[rs d] w] eqn:Ha.
  assert (Ho : owns (ts_tracker (ad_tracking d)) w).
  { eapply owns_detect_all, Ha. unfold ad_init. by repeat case_match. }
  split; [apply Ho|]. split; [apply Ho|].
  unfold AlgoDetector_destroy. replace (ad_tracking (ad_release d)) with (ad_tracking d)
    by (unfold ad_release; by destruct (negb _)).
  by apply owns_drop in Ho as [? ?].
Qed.
End Handles.

(** ** Alarm deduplication against an unbounded history *)

(** What an alarm is deduplicated by: the tracked object, or else the class. *)
Definition dedup_key (cfg : StreamConfig) (object : DetectionObject) : Z + Z :=
  if sc_has_tracker cfg && tc_enabled (sc_tracker cfg) && (0 <? do_object_id object)
  then inl (do_object_id object) else inr (do_class_id object).

(** The alarms raised so far, newest first, never pruned. *)
Definition alarm_history : Type := list ((Z + Z) * Z).

Definition raised_within (window now : Z) (k : Z + Z) (h : alarm_history) : bool :=
  existsb (fun e => bool_decide (e.1 = k) && (now - e.2 <? window)) h.

(** The specification: an object alarms unless an alarm of its key was raised less
    than the window ago. *)
Fixpoint spec_keep (cfg : StreamConfig) (objects : list DetectionObject) (now window : Z) (h : alarm_history)
  : list DetectionObject * alarm_history :=
  match objects with
  | [] => ([], h)
  | object :: rest =>
      if raised_within window now (dedup_key cfg object) h then spec_keep cfg rest now window h
      else let '(kept, h) := spec_keep cfg rest now window ((dedup_key cfg object, now) :: h) in
           (object :: kept, h)
  end.

(** A sequence of runs: the clock, the configuration and the formatted result. *)
Definition dedup_input : Type := Z * StreamConfig * FrameInferenceResult.

Definition run_time (i : dedup_input) : Z :=
  let '(steady_now, _, output) := i in
  if 0 <? fr_infer_done_mono_ms output then fr_infer_done_mono_ms output else steady_now.

Fixpoint dedup_runs (runs : list dedup_input) (s : DedupStep) : list (list DetectionObject) :=
  match runs with
  | [] => []
  | (steady_now, cfg, output) :: runs =>
      let '(output, s) := dedup_run steady_now cfg output s in
      fr_alarm_objects output :: dedup_runs runs s
  end.

Fixpoint spec_runs (window : Z) (runs : list dedup_input) (h : alarm_history) : list (list DetectionObject) :=
  match runs with
  | [] => []
  | (steady_now, cfg, output) :: runs =>
      let '(kept, h) := spec_keep cfg (fr_objects output) (run_time (steady_now, cfg, output)) window h in
      kept :: spec_runs window runs h
  end.

Definition dd_lookup (s : DedupStep) (k : Z + Z) : option Z :=
  match k with inl i => dd_last_alarm_by_object_id s !! i | inr c => dd_last_alarm_by_class_id s !! c end.

Definition dd_recent (window now : Z) (s : DedupStep) (k : Z + Z) : bool :=
  match dd_lookup s k with Some t => now - t <? window | None => false end.

Definition dd_store (s : DedupStep) (k : Z + Z) (now : Z) : DedupStep :=
  match k with
  | inl i => mkDedupStep (<[i := now]> (dd_last_alarm_by_object_id s)) (dd_last_alarm_by_class_id s)
  | inr c => mkDedupStep (dd_last_alarm_by_object_id s) (<[c := now]> (dd_last_alarm_by_class_id s))
  end.

Lemma shouldKeepObject_by_key cfg object now window s :
  shouldKeepObject cfg object now window s =
  if dd_recent window now s (dedup_key cfg object) then (false, s)
  else (true, dd_store s (dedup_key cfg object) now).
Proof.
  unfold shouldKeepObject, dedup_key, dd_recent. destruct (_ && (0 <? _)); cbn; by repeat case_match.
Qed.

Lemma dd_lookup_store s k k' now :
  dd_lookup (dd_store s k now) k' = if decide (k = k') then Some now else dd_lookup s k'.
Proof.
  destruct k as [i|c], k' as [i'|c']; cbn; rewrite ?lookup_insert; repeat case_decide; congruence.
Qed.

Lemma dd_lookup_prune now window s k t :
  dd_lookup (pruneExpiredEntries now window s) k = Some t <->
  dd_lookup s k = Some t /\ now - window < t.
Proof.
  destruct k; cbn; rewrite map_lookup_filter_Some; cbn; intuition lia.
Qed.

(** The maps agree with the history at every time from [now] on. *)
Definition agrees (window now : Z) (s : DedupStep) (h : alarm_history) : Prop :=
  forall k t, now <= t -> dd_recent window t s k = raised_within window t k h.

Lemma agrees_later window now now' s h : agrees window now s h -> now <= now' -> agrees window now' s h.
Proof. intros Ha Hle k t Ht. apply Ha. lia. Qed.

Lemma agrees_prune window now s h :
  agrees window now s h -> agrees window now (pruneExpiredEntries now window s) h.
Proof.
  intros Ha k t Ht. rewrite <- Ha by done. unfold dd_recent.
  destruct (dd_lookup (pruneExpiredEntries _ _ _) k) as [u|] eqn:Hp.
  - apply dd_lookup_prune in Hp as [-> ?]. done.
  - destruct (dd_lookup s k) as [u|] eqn:Hl; [|done].
    destruct (Z.ltb_spec (t - u) window); [|done].
    assert (dd_lookup (pruneExpiredEntries now window s) k = Some u) as Hs; [|congruence].
    apply dd_lookup_prune. split; [done | lia].
Qed.

(** A raised alarm is the newest of its key, so it decides for the key. *)
Lemma agrees_store window now s h k :
  agrees window now s h -> raised_within window now k h = false ->
  agrees window now (dd_store s k now) ((k, now) :: h).
Proof.
  intros Ha Hr k' t Ht. unfold dd_recent, raised_within. rewrite dd_lookup_store; cbn.
  destruct (decide (k = k')) as [<-|Hne].
  - rewrite bool_decide_true by done; cbn. fold (raised_within window t k h).
    destruct (Z.ltb_spec (t - now) window); [done|].
    symmetry. unfold raised_within in *. apply not_true_iff_false. intros Hex.
    apply existsb_exists in Hex as (e & Hin & [He Hlt]%andb_true_iff).
    apply not_true_iff_false in Hr. apply Hr, existsb_exists. exists e. split; [done|].
    rewrite He; cbn. apply Z.ltb_lt in Hlt. apply Z.ltb_lt. lia.
  - rewrite bool_decide_false by done; cbn. apply Ha. done.
Qed.

Lemma keep_objects_spec cfg window now objects : forall s h,
  agrees window now s h ->
  let '(kept, s') := keep_objects cfg objects now window s in
  let '(kept', h') := spec_keep cfg objects now window h in
  kept = kept' /\ agrees window now s' h'.
Proof.
  induction objects as [|o objects IH]; intros s h Ha; cbn; [done|].
  rewrite shouldKeepObject_by_key, (Ha _ now (Z.le_refl now)).
  destruct (raised_within _ _ _ h) eqn:Hr; [by apply IH|].
  specialize (IH _ _ (agrees_store _ _ _ _ _ Ha Hr)).
  destruct (keep_objects _ _ _ _ _), (spec_keep _ _ _ _ _). by destruct IH as [-> ?].
Qed.

Lemma getAlarmDedupWindowMs_pos cfg : 0 < getAlarmDedupWindowMs cfg.
Proof. unfold getAlarmDedupWindowMs, kDefaultAlarmDedupIntervalMs. destruct (Z.leb_spec (sc_alarm_dedup_interval_s cfg) 0); lia. Qed.

Lemma dedup_run_spec steady_now cfg output s h last :
  let now := run_time (steady_now, cfg, output) in
  let window := getAlarmDedupWindowMs cfg in
  last <= now -> agrees window last s h ->
  let '(output', s') := dedup_run steady_now cfg output s in
  let '(kept, h') := spec_keep cfg (fr_objects output) now window h in
  fr_alarm_objects output' = kept /\ agrees window now s' h'.
Proof.
  intros now window Hle Ha. unfold dedup_run.
  apply agrees_later with (now' := now) in Ha; [|done].
  destruct (fr_objects output) as [|o objects] eqn:Ho; [by cbn|].
  pose proof (getAlarmDedupWindowMs_pos cfg).
  rewrite (proj2 (Z.leb_gt _ 0)) by done.
  pose proof (keep_objects_spec cfg window now (o :: objects) _ _ (agrees_prune _ _ _ _ Ha)) as Hk.
  change (if 0 <? fr_infer_done_mono_ms output then fr_infer_done_mono_ms output else steady_now) with now.
  fold window. destruct (keep_objects _ _ _ _ _), (spec_keep _ _ _ _ _). by destruct Hk as [-> ?].
Qed.

(** C32: Deduplication with its two pruned maps raises exactly the alarms of the
    specification with an unbounded history, over any sequence of frames whose
    inference times do not go back, under one deduplication window: an object alarms
    iff its tracked id (its class when it is not tracked) raised no alarm less than
    the window ago.  Pruning is never observed. *)
Theorem dedup_refines_history (window : Z) (runs : list dedup_input)
    (Hw : Forall (fun i => getAlarmDedupWindowMs (i.1.2) = window) runs)
    (Hsorted : StronglySorted Z.le (run_time <$> runs)) :
  dedup_runs runs DedupStep_new = spec_runs window runs [].
Proof.
  assert (Hgen : forall last s h, Forall (fun i => last <= run_time i) runs -> agrees window last s h ->
                   dedup_runs runs s = spec_runs window runs h).
  { induction runs as [|[[sn cfg] output] runs IH]; intros last s h Hlast Ha; [done|].
    inversion Hw as [|?? Hw1 Hw2]; subst; cbn in *. inversion Hlast; subst.
    inversion Hsorted as [|?? Hs1 Hs2]; subst.
    pose proof (dedup_run_spec sn cfg output s h last ltac:(done) ltac:(done)) as Hr.
    destruct (dedup_run _ _ _ _), (spec_keep _ _ _ _ _). destruct Hr as [-> Ha']. f_equal.
    eapply IH; [done..| |exact Ha']. apply (Forall_map run_time) in Hs2. exact Hs2. }
  destruct runs as [|i runs]; [done|].
  apply (Hgen (run_time i)); [|by intros [?|?] ??].
  inversion Hsorted as [|?? _ Hs]; subst. constructor; [lia|]. apply (Forall_map run_time) in Hs. exact Hs.
Qed.

(** *** Concrete runs *)

Definition ex_cfg : StreamConfig := StreamConfig_default.
Definition ex_box := mkBox f32_zero f32_zero f32_zero f32_zero f32_zero.
Definition ex_object (id cls : Z) : DetectionObject :=
  mkDetectionObject id cls "c" f32_zero (Some ex_box).
Definition ex_result (t : Z) (objects : list DetectionObject) : FrameInferenceResult :=
  mkFrameInferenceResult "s" 1 1 "a" objects [] t t (t + kDetectionTtlMs).
Definition ex_runs : list dedup_input :=
  [(0, ex_cfg, ex_result 1000 [ex_object 0 7; ex_object 0 7; ex_object 0 8]);
   (0, ex_cfg, ex_result 3000 [ex_object 0 7]);
   (0, ex_cfg, ex_result 6000 [ex_object 0 8; ex_object 0 9])].

Theorem dedup_refines_history_witness :
  dedup_runs ex_runs DedupStep_new = [[ex_object 0 7; ex_object 0 8]; []; [ex_object 0 8; ex_object 0 9]] /\
  dedup_runs ex_runs DedupStep_new = spec_runs 5000 ex_runs [].
Proof.
  split; [by vm_compute|].
  apply dedup_refines_history; [repeat constructor|]. repeat constructor; cbn; lia.
Defined.

(** ** What [detect] answers *)

Definition forget_id (o : DetectionObject) : DetectionObject := set_object_id 0 o.

(** The objects of a raw engine result that are reported. *)
Definition formatted (raw : list object_result) : list DetectionObject :=
  List.filter hasDetectionTarget (buildDetectionObject <$> raw).

Lemma forget_id_formatted raw : forget_id <$> formatted raw = formatted raw.
Proof.
  unfold formatted. induction raw as [|x raw IH]; [done|]. cbn.
  destruct (hasDetectionTarget _); [|done]. cbn. by rewrite IH.
Qed.

Lemma assign_tracks_forget objects : forall outputs,
  forget_id <$> assign_tracks objects outputs = forget_id <$> objects.
Proof.
  induction objects as [|o objects IH]; intros [|out outputs]; cbn; try done.
  rewrite IH. by destruct (_ && _).
Qed.

Lemma bt_track_forget api frame objects t w ok objects' t' w' :
  bt_track api frame objects t w = (ok, objects', t', w') -> forget_id <$> objects' = forget_id <$> objects.
Proof.
  unfold bt_track. destruct (match bt_handle t with Some _ => _ | None => _ end) as [[ready t1] w1].
  repeat case_match; intros; simplify_eq; try done. apply assign_tracks_forget.
Qed.

Lemma spec_keep_sublist cfg objects now window : forall h,
  sublist (spec_keep cfg objects now window h).1 objects.
Proof.
  induction objects as [|o objects IH]; intros h; cbn; [constructor|].
  destruct (raised_within _ _ _ _); [by constructor|].
  specialize (IH ((dedup_key cfg o, now) :: h)). destruct (spec_keep _ _ _ _ _). by constructor.
Qed.

Lemma keep_objects_sublist cfg now window objects : forall s,
  sublist (keep_objects cfg objects now window s).1 objects.
Proof.
  induction objects as [|o objects IH]; intros s; cbn; [constructor|].
  destruct (shouldKeepObject _ _ _ _ _) as [[|] s1]; [|by constructor].
  specialize (IH s1). destruct (keep_objects _ _ _ _ _). by constructor.
Qed.

(** Deduplication only chooses the alarms. *)
Lemma dedup_run_result steady_now cfg output s output' s' :
  dedup_run steady_now cfg output s = (output', s') ->
  output' = fr_with_objects (fr_objects output) (fr_alarm_objects output') output /\
  sublist (fr_alarm_objects output') (fr_objects output).
Proof.
  unfold dedup_run. destruct (fr_objects output) as [|o objects] eqn:Ho.
  { intros [= <- <-]; cbn. split; [done|constructor]. }
  destruct (_ <=? 0); [intros [= <- <-]; cbn; done|].
  set (now := if _ : bool then _ else _). set (s1 := pruneExpiredEntries _ _ _).
  pose proof (keep_objects_sublist cfg now (getAlarmDedupWindowMs cfg) (o :: objects) s1).
  destruct (keep_objects _ _ _ _ _) as [kept s2]. by intros [= <- <-].
Qed.

(** Tracking only changes object ids. *)
Lemma tracking_run_result `{MessageDifferencer} api frame cfg output s w output' s' w' :
  tracking_run api frame cfg output s w = (output', s', w') ->
  output' = fr_with_objects (fr_objects output') (fr_alarm_objects output) output /\
  forget_id <$> fr_objects output' = forget_id <$> fr_objects output.
Proof.
  assert (Hid : output = fr_with_objects (fr_objects output) (fr_alarm_objects output) output)
    by by destruct output.
  unfold tracking_run. destruct (fr_objects output) as [|o objects] eqn:Ho.
  { intros [= <- <- <-]. by rewrite Ho. }
  destruct (_ || _); [intros [= <- <- <-]; by rewrite Ho|].
  destruct (ensureTrackerLocked _ _ _ _) as [[[|] s1] w1]; [|intros [= <- <- <-]; by rewrite Ho].
  destruct (ts_tracker s1) as [t|]; [|intros [= <- <- <-]; by rewrite Ho].
  destruct (bt_track _ _ _ _ _) as [[[ok objs] t'] w2] eqn:Hb. intros [= <- <- <-]; cbn.
  split; [done|]. by apply bt_track_forget in Hb.
Qed.

Lemma active_algorithm_run_spec now cfg c :
  active_algorithm_run now cfg c =
  match List.filter (isAlgorithmActiveNow now) (sc_algorithms cfg) with
  | [] => (false, mkAlgoDetectContext [] (dc_filter_threshold c) (dc_alarm_config c) false (dc_has_alarm_config c))
  | first :: rest => (true, mkAlgoDetectContext (first :: rest) (dc_filter_threshold c) first true true)
  end.
Proof. unfold active_algorithm_run. by destruct (List.filter _ _). Qed.

Section DetectSpec.
Context `{MessageDifferencer} (api : TrackerApi) (edge : EdgeInferApi).

(** The default result with a start time. *)
Definition started_result (start_ms : Z) : FrameInferenceResult :=
  let r := FrameInferenceResult_default in
  mkFrameInferenceResult (fr_stream_id r) (fr_frame_id r) (fr_pts r) (fr_algorithm_id r) (fr_objects r)
    (fr_alarm_objects r) start_ms (fr_infer_done_mono_ms r) (fr_expire_at_mono_ms r).

(** C37: On an initialised detector and a frame with an image, [detect] answers the
    default result (and changes nothing) when no algorithm is within its dates;
    otherwise it runs the engine once with the threshold of the first active algorithm
    only: on an engine error the result is the default one with the start time, and the
    detector and the tracker's library are as before; on success
    it carries the frame's identity, the id of that algorithm, one object per raw
    result with positive confidence and size, in order and unchanged by tracking but
    for the object ids, alarms that are an ordered selection of these objects, and an
    expiry 5000 ms after the inference. *)
Theorem detect_spec (ck : detect_clock) (frame : FrameBundle) (cfg : StreamConfig) (d : AlgoDetector)
    (w : TrackerWorld) (model : string) (image : DmaImage)
    (Hinit : ad_inited d = true /\ ad_infer d = Some model)
    (Himage : fb_decoded_image frame = Some image /\ 0 <= img_fd image) :
  let '(r, d', w') := detect api edge ck frame cfg d w in
  match List.filter (isAlgorithmActiveNow (ck_system ck)) (sc_algorithms cfg) with
  | [] => r = FrameInferenceResult_default /\ d' = d /\ w' = w
  | first :: _ =>
      match edge_infer edge (input_image image) (ac_threshold first) with
      | None => r = started_result (ck_start ck) /\ d' = d /\ w' = w
      | Some raw =>
          fr_stream_id r = fb_stream_id frame /\ fr_frame_id r = fb_frame_id frame /\ fr_pts r = fb_pts frame /\
          fr_algorithm_id r = ac_algorithm_id first /\
          fr_infer_start_mono_ms r = ck_start ck /\ fr_infer_done_mono_ms r = ck_done ck /\
          fr_expire_at_mono_ms r = ck_done ck + kDetectionTtlMs /\
          forget_id <$> fr_objects r = formatted raw /\
          sublist (fr_alarm_objects r) (fr_objects r)
      end
  end.
Proof.
  destruct Hinit as [Hi Hm], Himage as [Himg Hfd]. unfold detect, runPreprocessSteps.
  rewrite Hi, Hm, Himg, (proj2 (Z.ltb_ge _ 0)), active_algorithm_run_spec by done.
  destruct (List.filter _ _) as [|first rest]; [done|]. cbn.
  destruct (edge_infer _ _ _) as [raw|]; cbn; [|done].
  unfold runPostprocessSteps.
  destruct (tracking_run _ _ _ _ _ _) as [[output tracking] w1] eqn:Ht.
  apply tracking_run_result in Ht as [Hout Hobj].
  destruct (dedup_run _ _ _ _) as [output' dedup] eqn:Hd.
  apply dedup_run_result in Hd as [-> Hsub]. rewrite Hout in *; cbn in *.
  do 7 (split; [done|]). split; [|done]. rewrite Hobj. apply forget_id_formatted.
Qed.

(** A result names the frame it was computed from, or none. *)
Lemma detect_frame_id ck frame cfg d w :
  let r := (detect api edge ck frame cfg d w).1.1 in
  fr_frame_id r = fb_frame_id frame \/ fr_frame_id r = -1.
Proof.
  unfold detect, runPreprocessSteps. destruct (ad_inited d), (ad_infer d); cbn; try by right.
  destruct (fb_decoded_image frame) as [image|]; [|by right]. destruct (img_fd image <? 0); [by right|].
  rewrite active_algorithm_run_spec. destruct (List.filter _ _) as [|first rest]; [by right|]. cbn.
  destruct (edge_infer _ _ _) as [raw|]; cbn; [|by right]. unfold runPostprocessSteps.
  destruct (tracking_run _ _ _ _ _ _) as [[output tracking] w1] eqn:Ht.
  apply tracking_run_result in Ht as [Hout _].
  destruct (dedup_run _ _ _ _) as [output' dedup] eqn:Hd.
  apply dedup_run_result in Hd as [-> _]. rewrite Hout. by left.
Qed.
End DetectSpec.

(** *** A concrete detection *)

Definition ex_tracker_api : TrackerApi :=
  mkTrackerApi (fun _ _ => true)
    (fun _ _ _ detections => Some (imap (fun i _ => mkTrackerOutput (Z.of_nat i + 40) true) detections)).
Definition ex_raw (p : Z) (cls : Z) : object_result :=
  mkObjectResult (mkRotatedRect f32_zero f32_zero (f32_of_Z 4) (f32_of_Z 3) f32_zero) (f32_of_Z p) cls "c".
Definition ex_edge : EdgeInferApi := mkEdgeInferApi (fun _ => true) (fun _ _ => Some [ex_raw 1 2; ex_raw (-1) 3]).
Definition ex_algorithm : AlgorithmConfig := AlgorithmConfig_default.
Definition ex_image : DmaImage := mkDmaImage 5 None 0 640 480 640 480 1.
Definition ex_frame : FrameBundle :=
  mkFrameBundle "s" 9 90 90 1 1000 true 640 480 25 0 0 AV_CODEC_ID_H264 (Some ex_image) Idle.
Definition ex_tracked_cfg : StreamConfig :=
  mkStreamConfig true "s" "" "" 0 "" "" 0 0 [ex_algorithm]
    (Some (mkTrackerConfig true "" f32_zero f32_zero f32_zero f32_zero f32_zero 0 0)).
Definition ex_detector : AlgoDetector := mkAlgoDetector ex_tracked_cfg true (Some "m") TrackingStep_new DedupStep_new.

(** Of the two raw results the one with a positive confidence is reported, with the
    tracker's id 40. *)
Theorem detect_spec_witness :
  fr_objects (detect ex_tracker_api ex_edge (mkDetectClock 5 10 20) ex_frame ex_tracked_cfg ex_detector []).1.1 =
    [set_object_id 40 (buildDetectionObject (ex_raw 1 2))] /\
  let '(r, d', w') :=
    detect ex_tracker_api ex_edge (mkDetectClock 5 10 20) ex_frame ex_tracked_cfg ex_detector [] in
  forget_id <$> fr_objects r = formatted [ex_raw 1 2; ex_raw (-1) 3].
Proof.
  split; [by vm_compute|].
  pose proof (detect_spec ex_tracker_api ex_edge (mkDetectClock 5 10 20) ex_frame ex_tracked_cfg ex_detector []
                "m" ex_image ltac:(done) ltac:(done)) as Hs.
  destruct (detect _ _ _ _ _ _ _) as [[r d'] w']. apply Hs.
Defined.
