(* ===== verification/Decoder.v ===== *)
(** * MppDecoder (src/src/stream/MppDecoder.h, MppDecoder.cpp)

    The wrapper of the hardware decoder.  Rockchip MPP is third-party: what its calls
    answer is an argument, and the contexts and buffer groups it holds alive for the
    decoder are counted, so that leaks are visible.  A decoder is used by one thread. *)
From S2P Require Import Prelude Float32 Messages.

(** ** Data of MPP the code reads *)

Record MppBuffer := mkMppBuffer { mb_fd : Z; mb_ptr : option Z; mb_size : Z }.

(** A non-null [MppFrame]: what its getters answer. *)
Record MppFrame := mkMppFrame {
  mf_pts : Z; mf_dts : Z; mf_eos : Z; mf_errinfo : Z; mf_discard : Z; mf_info_change : Z;
  mf_buffer : option MppBuffer;
  mf_width : Z; mf_height : Z; mf_hor_stride : Z; mf_ver_stride : Z; mf_buf_size : Z;
}.

Inductive put_result := PutOk | PutBufferFull | PutError.

(** Whether the calls of one [configureFrameBufferGroup] succeed. *)
Record configure_answers := mkConfigureAnswers {
  an_group_get : bool; an_group_limit : bool; an_set_ext_group : bool;
}.

(** The answers during one [init]. *)
Record init_answers := mkInitAnswers {
  an_create : bool; an_init : bool; an_extra_packet : bool; an_extra_put : put_result;
}.

(** The answers during one [submitPacket]: [an_frames] are the frames [decode_get_frame]
    hands out before it answers "none". *)
Record submit_answers := mkSubmitAnswers {
  an_packet : bool; an_put : put_result; an_frames : list MppFrame;
  an_configure : MppFrame -> configure_answers;
}.

(** Contexts and buffer groups alive. *)
Record MppWorld := mkMppWorld { mw_contexts : Z; mw_groups : Z }.

(** ** The decoder *)

(** [dec_ctx], [dec_group]: the pointer is not null ([mpi_] is null exactly when [ctx_] is). *)
Record MppDecoder := mkMppDecoder {
  dec_ctx : bool;
  dec_group : bool;
  dec_buffer_size : Z;
  dec_buffer_count : Z;
  dec_stream_id : string;
}.
Definition MppDecoder_new : MppDecoder := mkMppDecoder false false 0 0 "".

Definition kDecoderFrameBufferCount : Z := 24.

Definition MPP_FRAME_ERR_UNKNOW : Z := 0x0001.
Definition MPP_FRAME_ERR_UNSUPPORT : Z := 0x0002.
Definition MPP_FRAME_ERR_DEC_INVALID : Z := 0x0010.
Definition MPP_FRAME_ERR_DEC_HW_ERR : Z := 0x0100.
Definition MPP_FRAME_ERR_DEC_MISS_REF : Z := 0x0200.

(** The name of each error bit set, joined by ["|"]. *)
Definition frameErrInfoToString (errinfo : Z) : string :=
  if errinfo =? 0 then "none"
  else
    let append_flag (text name : string) :=
      String.append (if str_empty text then text else String.append text "|") name in
    let flag (mask : Z) (name text : string) :=
      if Z.land errinfo mask =? 0 then text else append_flag text name in
    let text := flag MPP_FRAME_ERR_UNKNOW "unknown" "" in
    let text := flag MPP_FRAME_ERR_UNSUPPORT "unsupported" text in
    let text := flag MPP_FRAME_ERR_DEC_INVALID "dec_invalid" text in
    let text := flag MPP_FRAME_ERR_DEC_HW_ERR "dec_hw_err" text in
    let text := flag MPP_FRAME_ERR_DEC_MISS_REF "dec_miss_ref" text in
    if str_empty text then "unmapped" else text.

Definition avCodecIdToMppCoding (codec_id : AVCodecID) : Z :=
  match codec_id with
  | AV_CODEC_ID_H264 => MPP_VIDEO_CodingAVC
  | AV_CODEC_ID_HEVC => MPP_VIDEO_CodingHEVC
  | AV_CODEC_ID_VP8 => MPP_VIDEO_CodingVP8
  | AV_CODEC_ID_VP9 => MPP_VIDEO_CodingVP9
  | _ => MPP_VIDEO_CodingUnused
  end.

Definition dec_with_buffers (group : bool) (size count : Z) (d : MppDecoder) : MppDecoder :=
  mkMppDecoder (dec_ctx d) group size count (dec_stream_id d).

Definition configureFrameBufferGroup (an : configure_answers) (frame : MppFrame) (d : MppDecoder) (w : MppWorld)
  : bool * MppDecoder * MppWorld :=
  if negb (dec_ctx d) then (false, d, w)
  else
    let required_size :=
      if mf_buf_size frame =? 0 then u64 (u64 (mf_hor_stride frame * mf_ver_stride frame) * 2)
      else mf_buf_size frame in
    if negb (dec_group d) && negb (an_group_get an) then (false, d, w)
    else
      let w := if dec_group d then w else mkMppWorld (mw_contexts w) (mw_groups w + 1) in
      let d := dec_with_buffers true (dec_buffer_size d) (dec_buffer_count d) d in
      let resize := negb (dec_buffer_size d =? required_size) ||
                    negb (dec_buffer_count d =? kDecoderFrameBufferCount) in
      if resize && negb (an_group_limit an) then (false, d, w)
      else
        let d := if resize then dec_with_buffers true required_size kDecoderFrameBufferCount d else d in
        if an_set_ext_group an then (true, d, w) else (false, d, w).

Definition releaseFrameBufferGroup (d : MppDecoder) (w : MppWorld) : MppDecoder * MppWorld :=
  (dec_with_buffers false 0 0 d,
   if dec_group d then mkMppWorld (mw_contexts w) (mw_groups w - 1) else w).

Definition dec_destroy (d : MppDecoder) (w : MppWorld) : MppDecoder * MppWorld :=
  let w := if dec_ctx d then mkMppWorld (mw_contexts w - 1) (mw_groups w) else w in
  releaseFrameBufferGroup
    (mkMppDecoder false (dec_group d) (dec_buffer_size d) (dec_buffer_count d) (dec_stream_id d)) w.

(** [extradata] is [None] for a null pointer. *)
Definition dec_init (an : init_answers) (coding : Z) (extradata : option (list Z)) (stream_id : string)
    (d : MppDecoder) (w : MppWorld) : bool * MppDecoder * MppWorld :=
  let with_ctx (ctx : bool) :=
    mkMppDecoder ctx (dec_group d) (dec_buffer_size d) (dec_buffer_count d) stream_id in
  if negb (an_create an) then (false, with_ctx (dec_ctx d), w)
  else
    let w := mkMppWorld (mw_contexts w + 1) (mw_groups w) in
    let d := with_ctx true in
    if negb (an_init an) then (false, with_ctx false, mkMppWorld (mw_contexts w - 1) (mw_groups w))
    else match extradata with
    | Some (_ :: _) =>
        if negb (an_extra_packet an) then let '(d, w) := dec_destroy d w in (false, d, w)
        else match an_extra_put an with
             | PutOk | PutBufferFull => (true, d, w)
             | PutError => let '(d, w) := dec_destroy d w in (false, d, w)
             end
    | _ => (true, d, w)
    end.

(** [drainFrames] over the frames MPP hands out: those appended to [out], and what is
    left of the list when the loop ends. *)
Fixpoint drainFrames (configure : MppFrame -> configure_answers) (frames out : list MppFrame)
    (d : MppDecoder) (w : MppWorld) : list MppFrame * list MppFrame * MppDecoder * MppWorld :=
  match frames with
  | [] => (out, [], d, w)
  | frame :: frames =>
      let is_eos := negb (mf_eos frame =? 0) in
      let is_err := negb (mf_errinfo frame =? 0) in
      let is_discard := negb (mf_discard frame =? 0) in
      let is_info_change := negb (mf_info_change frame =? 0) in
      if is_info_change then
        match configureFrameBufferGroup (configure frame) frame d w with
        | (false, d, w) => (out, frames, d, w)
        | (true, d, w) => if is_eos then (out, frames, d, w) else drainFrames configure frames out d w
        end
      else
        let out := if negb is_eos && negb is_err && negb is_discard then out ++ [frame] else out in
        if is_eos then (out, frames, d, w) else drainFrames configure frames out d w
  end.

(** With the frames appended to [out_frames]. *)
Definition submitPacket (an : submit_answers) (pkt : AVPacket) (out_frames : list MppFrame)
    (d : MppDecoder) (w : MppWorld) : bool * list MppFrame * MppDecoder * MppWorld :=
  if negb (dec_ctx d) then (false, out_frames, d, w)
  else if negb (an_packet an) then (false, out_frames, d, w)
  else match an_put an with
  | PutError => (false, out_frames, d, w)
  | PutOk | PutBufferFull =>
      let '(out_frames, _, d, w) := drainFrames (an_configure an) (an_frames an) out_frames d w in
      (true, out_frames, d, w)
  end.

(** ** What is alive *)

(** The decoder holds a context and a group exactly when its pointers are not null,
    and has recorded no buffer size without a group. *)
Definition dec_owns (d : MppDecoder) (w : MppWorld) : Prop :=
  mw_contexts w = (if dec_ctx d then 1 else 0) /\ mw_groups w = (if dec_group d then 1 else 0).

Lemma configure_owns an frame d w ok d' w' :
  dec_owns d w -> configureFrameBufferGroup an frame d w = (ok, d', w') ->
  dec_owns d' w' /\ dec_ctx d' = dec_ctx d.
Proof.
  destruct d as [ctx group size count id]. intros [Hc Hg].
  unfold configureFrameBufferGroup, dec_with_buffers, dec_owns. cbn in *.
  destruct ctx; cbn; [|by intros [= <- <- <-]].
  destruct group, (an_group_get an); cbn; try (by intros [= <- <- <-]);
    destruct (_ && _); cbn; destruct (an_set_ext_group an); intros [= <- <- <-]; cbn;
    repeat case_match; cbn; lia || done.
Qed.

Lemma drain_owns configure frames : forall out d w out' rest d' w',
  dec_owns d w -> drainFrames configure frames out d w = (out', rest, d', w') ->
  dec_owns d' w' /\ dec_ctx d' = dec_ctx d.
Proof.
  induction frames as [|frame frames IH]; intros out d w out' rest d' w' Ho; cbn; [by intros [= <- <- <- <-]|].
  destruct (negb (mf_info_change frame =? 0)).
  - destruct (configureFrameBufferGroup _ _ _ _) as [[[|] d1] w1] eqn:Hc;
      apply configure_owns in Hc as [Ho1 Hd1]; try done; [|by intros [= <- <- <- <-]].
    destruct (negb _); [by intros [= <- <- <- <-]|]. rewrite <- Hd1. by apply IH.
  - destruct (negb (mf_eos frame =? 0)); [by intros [= <- <- <- <-]|]. by apply IH.
Qed.

Lemma submit_owns an pkt out d w ok out' d' w' :
  dec_owns d w -> submitPacket an pkt out d w = (ok, out', d', w') -> dec_owns d' w' /\ dec_ctx d' = dec_ctx d.
Proof.
  intros Ho. unfold submitPacket. destruct (negb (dec_ctx d)); [by intros [= <- <- <- <-]|].
  destruct (negb (an_packet an)); [by intros [= <- <- <- <-]|].
  destruct (an_put an); try (by intros [= <- <- <- <-]);
    destruct (drainFrames _ _ _ _ _) as [[[o r] d1] w1] eqn:Hd; intros [= <- <- <- <-]; by eapply drain_owns.
Qed.

Lemma destroy_owns d w d' w' :
  dec_owns d w -> dec_destroy d w = (d', w') ->
  dec_owns d' w' /\ dec_ctx d' = false /\ dec_group d' = false.
Proof.
  intros [Hc Hg]. unfold dec_destroy, releaseFrameBufferGroup, dec_owns.
  destruct (dec_ctx d), (dec_group d); cbn; intros [= <- <-]; cbn; lia || done.
Qed.

(** [init] on a decoder without a context. *)
Lemma init_owns an coding extradata id d w ok d' w' :
  dec_owns d w -> dec_ctx d = false -> dec_init an coding extradata id d w = (ok, d', w') ->
  dec_owns d' w' /\ dec_ctx d' = ok.
Proof.
  destruct d as [ctx group size count sid]. intros [Hc Hg] Hn.
  unfold dec_init, dec_destroy, releaseFrameBufferGroup, dec_owns. cbn in *. subst ctx.
  destruct (an_create an), (an_init an), (an_extra_packet an), (an_extra_put an), extradata as [[|x l]|], group;
    cbn; intros [= <- <- <-]; cbn; lia || done.
Qed.

(** ** Which frames come out *)

Definition valid_frame (f : MppFrame) : bool :=
  (mf_info_change f =? 0) && (mf_eos f =? 0) && (mf_errinfo f =? 0) && (mf_discard f =? 0).

(** The loop ends at the first end-of-stream frame. *)
Fixpoint until_eos (frames : list MppFrame) : list MppFrame :=
  match frames with
  | [] => []
  | f :: frames => if mf_eos f =? 0 then f :: until_eos frames else []
  end.

(** When every buffer-group configuration succeeds, draining appends exactly the
    frames before the end of the stream that hold a picture, without an error or a
    discard mark, in the order MPP decoded them; a failing configuration only cuts
    this list short.  The decoder's resources stay accounted for either way. *)
Theorem drainFrames_spec (configure : MppFrame -> configure_answers) (frames out : list MppFrame)
    (d : MppDecoder) (w : MppWorld) (Ho : dec_owns d w) (Hc : dec_ctx d = true) :
  let '(out', _, d', w') := drainFrames configure frames out d w in
  dec_owns d' w' /\
  (exists kept, out' = out ++ kept /\ prefix kept (List.filter valid_frame (until_eos frames))) /\
  ((forall f, f ∈ frames -> configure f = mkConfigureAnswers true true true) ->
   out' = out ++ List.filter valid_frame (until_eos frames)).
Proof.
  revert out d w Ho Hc. induction frames as [|f frames IH]; intros out d w Ho Hc.
  { cbn. rewrite app_nil_r. split; [done|]. split; [|done]. by exists []; rewrite app_nil_r. }
  assert (Hv : valid_frame f = (mf_info_change f =? 0) && (mf_eos f =? 0) && (mf_errinfo f =? 0) &&
    (mf_discard f =? 0)) by done.
  cbn [drainFrames until_eos].
  destruct (mf_info_change f =? 0) eqn:Ei; cbn [negb andb].
  - destruct (mf_eos f =? 0) eqn:Ee; cbn [negb andb].
    + set (out1 := if _ : bool then _ else _).
      specialize (IH out1 d w Ho Hc). destruct (drainFrames _ _ _ _ _) as [[[o r] d'] w'].
      destruct IH as (Ho' & (kept & -> & Hp) & Hall). split; [done|].
      cbn [List.filter]. rewrite Hv. subst out1. cbn.
      destruct (mf_errinfo f =? 0), (mf_discard f =? 0); cbn in *.
      1: { split; [exists (f :: kept); split; [by rewrite <- app_assoc | by apply prefix_cons] |].
           intros Hf. rewrite Hall, <- app_assoc; [done|]. intros g Hg. apply Hf. by right. }
      all: split; [by exists kept|]; intros Hf; apply Hall; intros g Hg; apply Hf; by right.
    + rewrite app_nil_r. split; [done|]. split; [|done]. by exists []; rewrite app_nil_r.
  - destruct (configureFrameBufferGroup _ _ _ _) as [[ok d1] w1] eqn:Hcfg.
    apply configure_owns in Hcfg as Ho1; [|done]. destruct Ho1 as [Ho1 Hd1].
    assert (configure f = mkConfigureAnswers true true true -> ok = true) as Hok.
    { intros E. rewrite E in Hcfg. unfold configureFrameBufferGroup in Hcfg. rewrite Hc in Hcfg. cbn in Hcfg.
      rewrite !andb_false_r in Hcfg. congruence. }
    destruct ok.
    + destruct (mf_eos f =? 0) eqn:Ee; cbn [negb andb].
      * specialize (IH out d1 w1 Ho1 ltac:(congruence)).
        destruct (drainFrames _ _ _ _ _) as [[[o r] d'] w']. destruct IH as (Ho' & Hk & Hall).
        cbn [List.filter]. rewrite Hv. cbn.
        split; [done|]. split; [done|]. intros Hf. apply Hall. intros g Hg. apply Hf. by right.
      * split; [done|]. split; [by exists []; rewrite app_nil_r | by rewrite app_nil_r].
    + split; [done|]. split; [exists []; rewrite app_nil_r; split; [done|apply prefix_nil]|].
      intros Hf. by discriminate (Hok (Hf f ltac:(left))).
Qed.

(** *** A concrete drain: an info-change notice, a picture, a broken one, another picture,
    the end of the stream and a frame after it *)

Definition ex_mpp_frame (pts eos err info : Z) : MppFrame :=
  mkMppFrame pts pts eos err 0 info (Some (mkMppBuffer 7 None 100)) 64 48 64 48 0.
Definition ex_mpp_frames : list MppFrame :=
  [ex_mpp_frame 0 0 0 1; ex_mpp_frame 1 0 0 0; ex_mpp_frame 2 0 0x100 0; ex_mpp_frame 3 0 0 0;
   ex_mpp_frame 4 1 0 0; ex_mpp_frame 5 0 0 0].
Definition ex_decoder : MppDecoder := mkMppDecoder true false 0 0 "s".

Lemma drainFrames_spec_witness :
  (drainFrames (fun _ => mkConfigureAnswers true true true) ex_mpp_frames [] ex_decoder (mkMppWorld 1 0)).1.1.1 =
    [ex_mpp_frame 1 0 0 0; ex_mpp_frame 3 0 0 0] /\
  (drainFrames (fun _ => mkConfigureAnswers true true true) ex_mpp_frames [] ex_decoder (mkMppWorld 1 0)).1.1.1 =
    List.filter valid_frame (until_eos ex_mpp_frames).
Proof.
  split; [by vm_compute|].
  pose proof (drainFrames_spec (fun _ => mkConfigureAnswers true true true) ex_mpp_frames [] ex_decoder
                (mkMppWorld 1 0) ltac:(done) ltac:(done)) as Hs.
  destruct (drainFrames _ _ _ _ _) as [[[o r] d'] w']. by apply Hs.
Defined.

Example ex_err_text : frameErrInfoToString 0x101 = "unknown|dec_hw_err"%string.
Proof. reflexivity. Qed.
