(* ===== verification/Puller.v ===== *)
(** * RTSPPuller (src/src/stream/RTSPPuller.h, RTSPPuller.cpp)

    The demuxing and decoding thread of a stream: every packet read goes into the
    stream buffer, every video packet also into the decoder, and each decoded picture
    is matched to the packet it came from before its frame enters the buffer.

    FFmpeg and MPP are third-party: what their calls answer is an argument.  The
    buffer is shared with the inference and publishing threads, so it is kept as the
    sequence of calls made on it ([pw_calls]), in which other threads' calls
    interleave at any point of the pull loop ([RdOther]).  The stop flag is set by
    another thread ([RdStop]). *)
From S2P Require Import Prelude Float32 Messages StreamBuffer Stats Decoder.

(** ** FFmpeg data the code reads *)

Record AVStream := mkAVStream {
  as_avg_frame_rate : AVRational;
  as_r_frame_rate : AVRational;
  as_time_base : AVRational;
  as_codec_id : AVCodecID;
  as_bit_rate : Z;                 (* int64_t *)
  as_width : Z; as_height : Z; as_sample_rate : Z; as_channels : Z;
  as_extradata : option (list Z);  (* None: null pointer *)
}.

Record AVFormatContext := mkAVFormatContext { fc_streams : list AVStream; fc_bit_rate : Z }.

(** The conversion of an [int64_t] to [int]. *)
Definition to_int (n : Z) : Z := to_signed 32 n.

(** *** Frame rate *)

(** [av_q2d] and the rounding are in doubles; for 32-bit numerators and denominators
    both the comparison with 1 and the truncation of [fps + 0.5] are exact (a quotient
    is at least [1/(2 den)] away from a rounding boundary, far above its last place). *)
Definition fpsFromStream (stream : option AVStream) : Z :=
  match stream with
  | None => 25
  | Some s =>
      let valid (r : AVRational) := (0 <? av_num r) && (0 <? av_den r) in
      let rate := if valid (as_avg_frame_rate s) then as_avg_frame_rate s else as_r_frame_rate s in
      if negb (valid rate) then 25
      else if av_num rate <=? av_den rate then 25
      else (2 * av_num rate + av_den rate) / (2 * av_den rate)
  end.

(** *** Decoded images and time *)

Definition IMAGE_FORMAT_YUV420SP_NV12 : Z := 4.

Definition buildDecodedImage (frame : MppFrame) : option DmaImage :=
  match mf_buffer frame with
  | None => None
  | Some buf =>
      Some (mkDmaImage (mb_fd buf) (mb_ptr buf) (mb_size buf) (to_int (mf_width frame)) (to_int (mf_height frame))
              (to_int (mf_hor_stride frame)) (to_int (mf_ver_stride frame)) IMAGE_FORMAT_YUV420SP_NV12)
  end.

Section Rescale.
(** [av_rescale_q a bq cq]: FFmpeg's conversion between time bases. *)
Context (av_rescale_q : Z -> AVRational -> AVRational -> Z).

Definition toMillis (value : Z) (time_base : AVRational) : Z :=
  if (value =? AV_NOPTS_VALUE) || (av_num time_base <=? 0) || (av_den time_base <=? 0) then 0
  else av_rescale_q value time_base (mkAVRational 1 1000).
End Rescale.

(** ** The puller *)

Record PendingVideoFrameMeta := mkPending {
  pm_frame_id : Z; pm_pts : Z; pm_dts : Z; pm_duration : Z; pm_timestamp_ms : Z; pm_is_keyframe : bool;
}.

Record RTSPPuller := mkPuller {
  pl_cfg : StreamConfig;
  pl_fmt_ctx : option AVFormatContext;
  pl_video_stream_idx : Z;
  pl_audio_stream_idx : Z;
  pl_src_w : Z;
  pl_src_h : Z;
  pl_src_coding : Z;
  pl_src_fps : Z;
  pl_src_bitrate : Z;
  pl_input_stream_specs : list RtspStreamSpec;
  pl_pending_video_frames : list PendingVideoFrameMeta;    (* front first *)
  pl_next_frame_id : Z;
  pl_decoder : MppDecoder;
  pl_running : bool;
  pl_stop_flag : bool;
  pl_total_frames : Z;                                     (* uint64_t *)
}.

Definition RTSPPuller_new (cfg : StreamConfig) : RTSPPuller :=
  mkPuller cfg None (-1) (-1) 0 0 MPP_VIDEO_CodingUnused 25 0 [] [] 0 MppDecoder_new false false 0.

(** What the puller acts on: the calls on the stream's buffer, oldest first; the
    statistics; MPP; the streams reported ready for inference and the specs handed to
    the stream-ready callback, oldest first. *)
Record PullWorld := mkPullWorld {
  pw_calls : list sb_call;
  pw_stats : Statistics;
  pw_mpp : MppWorld;
  pw_frame_ready : list string;
  pw_stream_ready : list (list RtspStreamSpec);
}.

(** The buffer these calls lead to. *)
Definition pw_buffer (p : RTSPPuller) (w : PullWorld) : StreamBuffer :=
  sb_run (pw_calls w) (createStreamBuffer (sc_stream_id (pl_cfg p))).

Definition pw_call (c : sb_call) (w : PullWorld) : PullWorld :=
  mkPullWorld (pw_calls w ++ [c]) (pw_stats w) (pw_mpp w) (pw_frame_ready w) (pw_stream_ready w).
Definition pw_with_stats (f : Statistics -> Statistics) (w : PullWorld) : PullWorld :=
  mkPullWorld (pw_calls w) (f (pw_stats w)) (pw_mpp w) (pw_frame_ready w) (pw_stream_ready w).
Definition pw_with_mpp (m : MppWorld) (w : PullWorld) : PullWorld :=
  mkPullWorld (pw_calls w) (pw_stats w) m (pw_frame_ready w) (pw_stream_ready w).
Definition pw_notify (id : string) (w : PullWorld) : PullWorld :=
  mkPullWorld (pw_calls w) (pw_stats w) (pw_mpp w) (pw_frame_ready w ++ [id]) (pw_stream_ready w).
Definition pw_announce (specs : list RtspStreamSpec) (w : PullWorld) : PullWorld :=
  mkPullWorld (pw_calls w) (pw_stats w) (pw_mpp w) (pw_frame_ready w) (pw_stream_ready w ++ [specs]).

Definition pl_with_pending (l : list PendingVideoFrameMeta) (p : RTSPPuller) : RTSPPuller :=
  mkPuller (pl_cfg p) (pl_fmt_ctx p) (pl_video_stream_idx p) (pl_audio_stream_idx p) (pl_src_w p) (pl_src_h p)
    (pl_src_coding p) (pl_src_fps p) (pl_src_bitrate p) (pl_input_stream_specs p) l (pl_next_frame_id p)
    (pl_decoder p) (pl_running p) (pl_stop_flag p) (pl_total_frames p).
Definition pl_with_decoder (d : MppDecoder) (p : RTSPPuller) : RTSPPuller :=
  mkPuller (pl_cfg p) (pl_fmt_ctx p) (pl_video_stream_idx p) (pl_audio_stream_idx p) (pl_src_w p) (pl_src_h p)
    (pl_src_coding p) (pl_src_fps p) (pl_src_bitrate p) (pl_input_stream_specs p) (pl_pending_video_frames p)
    (pl_next_frame_id p) d (pl_running p) (pl_stop_flag p) (pl_total_frames p).
Definition pl_with_thread (running stop_flag : bool) (p : RTSPPuller) : RTSPPuller :=
  mkPuller (pl_cfg p) (pl_fmt_ctx p) (pl_video_stream_idx p) (pl_audio_stream_idx p) (pl_src_w p) (pl_src_h p)
    (pl_src_coding p) (pl_src_fps p) (pl_src_bitrate p) (pl_input_stream_specs p) (pl_pending_video_frames p)
    (pl_next_frame_id p) (pl_decoder p) running stop_flag (pl_total_frames p).
(** [++total_frames_]. *)
Definition pl_count_frame (p : RTSPPuller) : RTSPPuller :=
  mkPuller (pl_cfg p) (pl_fmt_ctx p) (pl_video_stream_idx p) (pl_audio_stream_idx p) (pl_src_w p) (pl_src_h p)
    (pl_src_coding p) (pl_src_fps p) (pl_src_bitrate p) (pl_input_stream_specs p) (pl_pending_video_frames p)
    (pl_next_frame_id p) (pl_decoder p) (pl_running p) (pl_stop_flag p) (u64 (pl_total_frames p + 1)).
(** [pending_video_frames_.push_back(meta); ++next_frame_id_]. *)
Definition pl_push_pending (m : PendingVideoFrameMeta) (p : RTSPPuller) : RTSPPuller :=
  mkPuller (pl_cfg p) (pl_fmt_ctx p) (pl_video_stream_idx p) (pl_audio_stream_idx p) (pl_src_w p) (pl_src_h p)
    (pl_src_coding p) (pl_src_fps p) (pl_src_bitrate p) (pl_input_stream_specs p)
    (pl_pending_video_frames p ++ [m]) (pl_next_frame_id p + 1) (pl_decoder p) (pl_running p) (pl_stop_flag p)
    (pl_total_frames p).

(** [fmt_ctx_->streams[index]]; FFmpeg only uses indexes of its own array. *)
Definition fc_stream (c : AVFormatContext) (index : Z) : option AVStream :=
  if index <? 0 then None else fc_streams c !! Z.to_nat index.

(** [ffmpegInterruptCallback] on a puller. *)
Definition ffmpegInterruptCallback (p : option RTSPPuller) : Z :=
  match p with Some p => if pl_stop_flag p then 1 else 0 | None => 0 end.

(** *** Frames *)

Definition pending_bundle (meta : PendingVideoFrameMeta) (image : option DmaImage) (p : RTSPPuller) : FrameBundle :=
  mkFrameBundle (sc_stream_id (pl_cfg p)) (pm_frame_id meta) (pm_pts meta) (pm_dts meta) (pm_duration meta)
    (pm_timestamp_ms meta) (pm_is_keyframe meta) (pl_src_w p) (pl_src_h p) (pl_src_fps p) (pl_src_bitrate p)
    (pl_src_coding p)
    (match pl_fmt_ctx p with
     | Some c =>
         if 0 <=? pl_video_stream_idx p
         then match fc_stream c (pl_video_stream_idx p) with Some s => as_codec_id s | None => AV_CODEC_ID_NONE end
         else AV_CODEC_ID_NONE
     | None => AV_CODEC_ID_NONE
     end) image Idle.

Definition enqueuePendingFrame (meta : PendingVideoFrameMeta) (image : option DmaImage)
    (notify_frame_ready : bool) (p : RTSPPuller) (w : PullWorld) : PullWorld :=
  let bundle := pending_bundle meta image p in
  let accepted := (enqueueFrame (Some bundle) (pw_buffer p w)).1 in
  let w := pw_call (CallEnqueueFrame (Some bundle)) w in
  if accepted && notify_frame_ready then pw_notify (sc_stream_id (pl_cfg p)) w else w.

(** [std::find_if]: the metas before the match, the match, those after it. *)
Fixpoint find_pending (matches : PendingVideoFrameMeta -> bool) (l : list PendingVideoFrameMeta)
  : option (list PendingVideoFrameMeta * PendingVideoFrameMeta * list PendingVideoFrameMeta) :=
  match l with
  | [] => None
  | m :: l =>
      if matches m then Some ([], m, l)
      else match find_pending matches l with
           | None => None
           | Some (before, x, after) => Some (m :: before, x, after)
           end
  end.

Definition match_pending (frame_pts frame_dts : Z) (l : list PendingVideoFrameMeta) :=
  let match_it :=
    if frame_pts =? AV_NOPTS_VALUE then None else find_pending (fun m => pm_pts m =? frame_pts) l in
  match match_it with
  | Some r => Some r
  | None => if frame_dts =? AV_NOPTS_VALUE then None else find_pending (fun m => pm_dts m =? frame_dts) l
  end.

Definition enqueue_skipped (skipped : list PendingVideoFrameMeta) (p : RTSPPuller) (w : PullWorld) : PullWorld :=
  foldl (fun w m => enqueuePendingFrame m None false p w) w skipped.

(** On a non-null frame; its timestamps are read as [int64_t]. *)
Definition takePendingVideoFrameMeta (frame : MppFrame) (p : RTSPPuller) (w : PullWorld)
  : option PendingVideoFrameMeta * RTSPPuller * PullWorld :=
  match pl_pending_video_frames p with
  | [] => (None, p, w)
  | front :: others =>
      let frame_pts := mf_pts frame in
      let frame_dts := mf_dts frame in
      match match_pending frame_pts frame_dts (pl_pending_video_frames p) with
      | None =>
          if (frame_pts =? AV_NOPTS_VALUE) && (frame_dts =? AV_NOPTS_VALUE)
          then (Some front, pl_with_pending others p, w)
          else (None, p, w)
      | Some (before, meta, after) =>
          (Some meta, pl_with_pending after p, enqueue_skipped before p w)
      end
  end.

Section Pull.
Context (av_rescale_q : Z -> AVRational -> AVRational -> Z).

(** In [enqueuePendingFrame( *meta, std::move(image), image != nullptr)] C++ leaves the
    order of the arguments open: when the move into the by-value parameter comes first
    ([move_first]), [image] is already null in the comparison. *)
Context (move_first : bool).

Fixpoint publishDecodedFrames (decoded_frames : list MppFrame) (p : RTSPPuller) (w : PullWorld)
  : RTSPPuller * PullWorld :=
  match decoded_frames with
  | [] => (p, w)
  | frame :: rest =>
      let w := pw_with_stats (incMppDecodeFrame (sc_stream_id (pl_cfg p)) 1) w in
      match takePendingVideoFrameMeta frame p w with
      | (None, p, w) => publishDecodedFrames rest p w
      | (Some meta, p, w) =>
          let image := buildDecodedImage frame in
          let notify := negb move_first && bool_decide (is_Some image) in
          publishDecodedFrames rest (pl_count_frame p) (enqueuePendingFrame meta image notify p w)
      end
  end.

(** *** Opening and closing *)

Definition buildSpec (c : AVFormatContext) (stream_index : Z) (media_type : MediaType) : list RtspStreamSpec :=
  match fc_stream c stream_index with
  | None => []                     (* [stream_index] is one of FFmpeg's *)
  | Some s =>
      [mkRtspStreamSpec (as_codec_id s) (as_time_base s)
         (if bool_decide (media_type = Video) then fpsFromStream (Some s) else 0)
         (if 0 <? as_bit_rate s then to_int (as_bit_rate s) else 0)
         (as_width s) (as_height s) (default [] (as_extradata s)) media_type stream_index
         (as_sample_rate s) (as_channels s)]
  end.

Definition buildInputStreamSpecs (p : RTSPPuller) : list RtspStreamSpec :=
  match pl_fmt_ctx p with
  | None => []
  | Some c =>
      (if 0 <=? pl_video_stream_idx p then buildSpec c (pl_video_stream_idx p) Video else []) ++
      (if 0 <=? pl_audio_stream_idx p then buildSpec c (pl_audio_stream_idx p) Audio else [])
  end.

(** The answers during one [openStream]. *)
Record open_answers := mkOpenAnswers {
  op_alloc : bool;
  op_open_input : Z;
  op_find_info : Z;
  op_context : AVFormatContext;
  op_best_video : Z;
  op_best_audio : Z;
  op_decoder : init_answers;
}.

Definition openStream (an : open_answers) (p : RTSPPuller) (w : PullWorld) : bool * RTSPPuller * PullWorld :=
  if negb (op_alloc an) || (op_open_input an <? 0) || (op_find_info an <? 0) then (false, p, w)
  else
    let video := op_best_video an in
    let with_streams (audio : Z) (ctx : option AVFormatContext) (sw sh coding fps bitrate : Z)
        (specs : list RtspStreamSpec) (pending : list PendingVideoFrameMeta) (d : MppDecoder) :=
      mkPuller (pl_cfg p) ctx video audio sw sh coding fps bitrate specs pending (pl_next_frame_id p) d
        (pl_running p) (pl_stop_flag p) (pl_total_frames p) in
    let old audio ctx := with_streams audio ctx (pl_src_w p) (pl_src_h p) (pl_src_coding p) (pl_src_fps p)
      (pl_src_bitrate p) (pl_input_stream_specs p) (pl_pending_video_frames p) (pl_decoder p) in
    if video <? 0 then (false, old (pl_audio_stream_idx p) (pl_fmt_ctx p), w)
    else
      let audio := if op_best_audio an <? 0 then -1 else op_best_audio an in
      match fc_stream (op_context an) video with
      | None => (false, old audio (pl_fmt_ctx p), w)       (* [video] is one of FFmpeg's *)
      | Some par =>
          let bitrate :=
            if 0 <? as_bit_rate par then to_int (as_bit_rate par)
            else if 0 <? fc_bit_rate (op_context an) then to_int (fc_bit_rate (op_context an)) else 0 in
          let coding := avCodecIdToMppCoding (as_codec_id par) in
          let opened ctx := with_streams audio ctx (as_width par) (as_height par) coding (fpsFromStream (Some par))
            bitrate in
          if coding =? MPP_VIDEO_CodingUnused
          then (false, opened None (pl_input_stream_specs p) (pl_pending_video_frames p) (pl_decoder p), w)
          else
            let '(ok, d, m) := dec_init (op_decoder an) coding (as_extradata par) (sc_stream_id (pl_cfg p))
              (pl_decoder p) (pw_mpp w) in
            let w := pw_with_mpp m w in
            if negb ok
            then (false, opened None (pl_input_stream_specs p) (pl_pending_video_frames p) d, w)
            else
              let p := opened (Some (op_context an)) (pl_input_stream_specs p) [] d in
              (true, opened (Some (op_context an)) (buildInputStreamSpecs p) [] d, w)
      end.

Definition closeStream (p : RTSPPuller) (w : PullWorld) : RTSPPuller * PullWorld :=
  let '(d, m) := dec_destroy (pl_decoder p) (pw_mpp w) in
  (mkPuller (pl_cfg p) None (-1) (-1) (pl_src_w p) (pl_src_h p) MPP_VIDEO_CodingUnused 25 0 [] []
     (pl_next_frame_id p) d (pl_running p) (pl_stop_flag p) (pl_total_frames p), pw_with_mpp m w).

(** *** The pull loop *)

(** What a turn of the inner loop meets: a packet read (with whether it could be
    cloned, the clock, and MPP's answers), a read error, the stop flag set by another
    thread, or another thread's call on the buffer. *)
Inductive read_event :=
| RdPacket (pkt : AVPacket) (cloned : bool) (now_mono_ms : Z) (mpp : submit_answers)
| RdError (ret : Z)
| RdStop
| RdOther (c : sb_call).

Definition encoded_packet (pkt : AVPacket) (media_type : MediaType) (frame_id now_mono_ms : Z)
    (time_base : AVRational) : EncodedPacket :=
  mkEncodedPacket media_type (Some pkt) (pkt_stream_index pkt) (pkt_pts pkt) (pkt_dts pkt) (pkt_duration pkt)
    (toMillis av_rescale_q (pkt_pts pkt) time_base) (negb (Z.land (pkt_flags pkt) AV_PKT_FLAG_KEY =? 0))
    frame_id now_mono_ms.

Definition pending_meta (e : EncodedPacket) : PendingVideoFrameMeta :=
  mkPending (ep_frame_id e) (ep_pts e) (ep_dts e) (ep_duration e) (ep_timestamp_ms e) (ep_is_keyframe e).

(** One packet through the loop body. *)
Definition pull_packet (pkt : AVPacket) (cloned : bool) (now_mono_ms : Z) (mpp : submit_answers)
    (p : RTSPPuller) (w : PullWorld) : RTSPPuller * PullWorld :=
  match pl_fmt_ctx p with
  | None => (p, w)                 (* the loop runs on an open context *)
  | Some c =>
      if negb cloned then (p, w)
      else
        let time_base := match fc_stream c (pkt_stream_index pkt) with
                         | Some s => as_time_base s | None => mkAVRational 0 0 end in
        if pkt_stream_index pkt =? pl_video_stream_idx p then
          let encoded := encoded_packet pkt Video (pl_next_frame_id p) now_mono_ms time_base in
          let id := sc_stream_id (pl_cfg p) in
          let w := pw_with_stats (incRtspPullFrame id 1) w in
          let w := pw_call (CallEnqueuePacket (Some encoded)) w in
          let w := pw_with_stats (setRemainPacketSize id (packetCount (pw_buffer p w))) w in
          let p := pl_push_pending (pending_meta encoded) p in
          let '(_, frames, d, m) := submitPacket mpp pkt [] (pl_decoder p) (pw_mpp w) in
          publishDecodedFrames frames (pl_with_decoder d p) (pw_with_mpp m w)
        else if pkt_stream_index pkt =? pl_audio_stream_idx p then
          let encoded := encoded_packet pkt Audio (-1) now_mono_ms time_base in
          (p, pw_call (CallEnqueuePacket (Some encoded)) w)
        else (p, w)
  end.

(** The inner loop, over what happens until it ends; the rest of the list is unused. *)
Fixpoint read_loop (events : list read_event) (p : RTSPPuller) (w : PullWorld) : RTSPPuller * PullWorld :=
  if pl_stop_flag p then (p, w)
  else match events with
  | [] => (p, w)
  | RdPacket pkt cloned now mpp :: events =>
      let '(p, w) := pull_packet pkt cloned now mpp p w in read_loop events p w
  | RdError ret :: _ => (p, w)
  | RdStop :: events => read_loop events (pl_with_thread (pl_running p) true p) w
  | RdOther c :: events => read_loop events p (pw_call c w)
  end.

(** One turn of the outer loop: the answers to [openStream], the inner loop's events,
    and whether the stop flag is set while the puller waits to reconnect.  [true]: the
    loop goes on. *)
Record connection := mkConnection {
  cn_open : open_answers; cn_events : list read_event; cn_stopped_in_wait : bool;
}.

Definition pull_turn (cn : connection) (p : RTSPPuller) (w : PullWorld) : bool * RTSPPuller * PullWorld :=
  match openStream (cn_open cn) p w with
  | (false, p, w) =>
      if pl_stop_flag p then (false, p, w)
      else if sc_reconnect_interval_s (pl_cfg p) <=? 0 then (false, p, w)
      else if cn_stopped_in_wait cn then (false, pl_with_thread (pl_running p) true p, w)
      else (true, p, w)
  | (true, p, w) =>
      let w := pw_announce (pl_input_stream_specs p) w in
      let '(p, w) := read_loop (cn_events cn) p w in
      let '(p, w) := closeStream p w in
      (true, p, w)
  end.

Fixpoint pullLoop (connections : list connection) (p : RTSPPuller) (w : PullWorld) : RTSPPuller * PullWorld :=
  if pl_stop_flag p then (pl_with_thread false (pl_stop_flag p) p, w)
  else match connections with
  | [] => (p, w)
  | cn :: connections =>
      match pull_turn cn p w with
      | (false, p, w) => (pl_with_thread false (pl_stop_flag p) p, w)
      | (true, p, w) => pullLoop connections p w
      end
  end.
End Pull.

(** [start]: true when the thread is created. *)
Definition puller_start (p : RTSPPuller) : bool * RTSPPuller :=
  if pl_running p then (false, p) else (true, pl_with_thread true false p).

(** [stop], after the thread has been joined. *)
Definition puller_stop (p : RTSPPuller) (w : PullWorld) : RTSPPuller * PullWorld :=
  let '(p, w) := closeStream (pl_with_thread (pl_running p) true p) w in
  (pl_with_thread false (pl_stop_flag p) p, w).

(** ** What a run adds to the buffer *)

Definition bundle_meta (f : FrameBundle) : PendingVideoFrameMeta :=
  mkPending (fb_frame_id f) (fb_pts f) (fb_dts f) (fb_duration f) (fb_timestamp_ms f) (fb_is_keyframe f).

(** The metas of the frames and of the video packets these calls enqueue. *)
Definition frame_metas : list sb_call -> list PendingVideoFrameMeta :=
  omap (fun c => match c with CallEnqueueFrame (Some f) => Some (bundle_meta f) | _ => None end).
Definition packet_metas : list sb_call -> list PendingVideoFrameMeta :=
  omap (fun c => match c with
                 | CallEnqueuePacket (Some e) =>
                     if bool_decide (ep_media_type e = Video) then Some (pending_meta e) else None
                 | _ => None end).

(** The puller's own calls; the other threads enqueue nothing. *)
Definition puller_call (c : sb_call) : Prop :=
  match c with CallEnqueuePacket _ | CallEnqueueFrame (Some _) => True | _ => False end.
Definition foreign_call (c : sb_call) : Prop :=
  match c with CallEnqueuePacket _ | CallEnqueueFrame _ => False | _ => True end.

(** The ids of the video packets and of the frames that were enqueued. *)
Definition ids_seen : Type := list Z * list Z.
Definition note (seen : ids_seen) (c : sb_call) : ids_seen :=
  match c with
  | CallEnqueuePacket (Some e) =>
      if bool_decide (ep_media_type e = Video) then (ep_frame_id e :: seen.1, seen.2) else seen
  | CallEnqueueFrame (Some f) => (seen.1, fb_frame_id f :: seen.2)
  | _ => seen
  end.

(** Video packets get ascending ids; frames are enqueued idle, by ascending id, each
    after its packet. *)
Definition allowed (seen : ids_seen) (c : sb_call) : Prop :=
  match c with
  | CallEnqueuePacket (Some e) =>
      ep_media_type e = Video -> 0 <= ep_frame_id e /\ forall i, i ∈ seen.1 -> i < ep_frame_id e
  | CallEnqueueFrame (Some f) =>
      fb_frame_id f ∈ seen.1 /\ (forall i, i ∈ seen.2 -> i < fb_frame_id f) /\ fb_infer_state f = Idle
  | _ => True
  end.

Fixpoint frames_follow (seen : ids_seen) (cs : list sb_call) : Prop :=
  match cs with
  | [] => True
  | c :: cs => allowed seen c /\ frames_follow (note seen c) cs
  end.

Lemma frames_follow_app cs ds : forall seen,
  frames_follow seen (cs ++ ds) <-> frames_follow seen cs /\ frames_follow (foldl note seen cs) ds.
Proof. induction cs as [|c cs IH]; intros seen; cbn; [tauto|]. rewrite IH. tauto. Qed.

(** What lets a puller go on: its pending packets were enqueued and no frame from theirs on. *)
Record may_enqueue (pending : list PendingVideoFrameMeta) (next : Z) (seen : ids_seen) : Prop := {
  me_pending m : m ∈ pending -> pm_frame_id m ∈ seen.1 /\ forall i, i ∈ seen.2 -> i < pm_frame_id m;
  me_sorted : StronglySorted Z.lt (pm_frame_id <$> pending);
  me_next : 0 <= next;
  me_ids id : id ∈ seen.1 \/ id ∈ seen.2 -> 0 <= id < next;
}.

Lemma sublist_StronglySorted {A} (R : A -> A -> Prop) (l k : list A) :
  sublist l k -> StronglySorted R k -> StronglySorted R l.
Proof.
  induction 1 as [|x l k Hs IH|x l k Hs IH]; intros Hk; [done|..]; apply StronglySorted_inv in Hk as [Hk Hx]; [|auto].
  constructor; [auto|]. rewrite Forall_forall in *. intros y Hy. apply Hx. by eapply elem_of_sublist.
Qed.

Lemma may_enqueue_sublist l k next seen : sublist l k -> may_enqueue k next seen -> may_enqueue l next seen.
Proof.
  intros Hs [H1 H2 H3 H4]. split; try done.
  - intros m Hm. apply H1. by eapply elem_of_sublist.
  - by eapply sublist_StronglySorted; [apply (sublist_fmap pm_frame_id), Hs|].
Qed.

(** Enqueueing the frames of the oldest pending packets. *)
Lemma may_enqueue_frames {A} (bundle : A -> FrameBundle) (meta : A -> PendingVideoFrameMeta) (l : list A) after next :
  (forall a, fb_frame_id (bundle a) = pm_frame_id (meta a) /\ fb_infer_state (bundle a) = Idle) ->
  forall seen, may_enqueue ((meta <$> l) ++ after) next seen ->
  let cs := (fun a => CallEnqueueFrame (Some (bundle a))) <$> l in
  frames_follow seen cs /\ may_enqueue after next (foldl note seen cs).
Proof.
  intros Hb. induction l as [|a l IH]; intros seen [H1 H2 H3 H4]; [done|]. cbn in *. destruct (Hb a) as [Hid Hidle]. rewrite Hid.
  destruct (H1 (meta a) ltac:(left)) as [Ha1 Ha2]. apply StronglySorted_inv in H2 as [H2 Hlt].
  destruct (IH (seen.1, pm_frame_id (meta a) :: seen.2)) as [Hf Hm].
  { split; try done.
    - intros m Hm. destruct (H1 m ltac:(by right)) as [? ?]. cbn. split; [done|].
      intros i [->|?]%elem_of_cons; [|auto]. rewrite Forall_forall in Hlt. by apply Hlt, (list_elem_of_fmap_2 pm_frame_id).
    - cbn. intros id [?|[->|?]%elem_of_cons]; auto. }
  done.
Qed.

(** From [p, w] to [p', w'] the calls [cs] were made: what was pending and the packets
    that came are, in order, the frames enqueued and what is pending now, and the
    packets carry the next frame ids; at any point, a frame follows its packet.  [Q] holds
    of the other threads' calls. *)
Record pulled (Q : sb_call -> Prop) (p : RTSPPuller) (w : PullWorld) (p' : RTSPPuller) (w' : PullWorld)
    (cs : list sb_call) : Prop := {
  pu_calls : pw_calls w' = pw_calls w ++ cs;
  pu_who : Forall (fun c => puller_call c \/ (foreign_call c /\ Q c)) cs;
  pu_order : pl_pending_video_frames p ++ packet_metas cs = frame_metas cs ++ pl_pending_video_frames p';
  pu_ids : pm_frame_id <$> packet_metas cs = seqZ (pl_next_frame_id p) (Z.of_nat (length (packet_metas cs)));
  pu_next : pl_next_frame_id p' = pl_next_frame_id p + Z.of_nat (length (packet_metas cs));
  pu_cfg : pl_cfg p' = pl_cfg p;
  pu_follow seen : may_enqueue (pl_pending_video_frames p) (pl_next_frame_id p) seen ->
    frames_follow seen cs /\ may_enqueue (pl_pending_video_frames p') (pl_next_frame_id p') (foldl note seen cs);
}.

Lemma packet_metas_app a b : packet_metas (a ++ b) = packet_metas a ++ packet_metas b.
Proof. apply omap_app. Qed.
Lemma frame_metas_app a b : frame_metas (a ++ b) = frame_metas a ++ frame_metas b.
Proof. apply omap_app. Qed.

Lemma pulled_refl Q p w p' :
  pl_pending_video_frames p' = pl_pending_video_frames p -> pl_next_frame_id p' = pl_next_frame_id p ->
  pl_cfg p' = pl_cfg p -> pulled Q p w p' w [].
Proof.
  intros Hp Hn Hc. split; cbn; rewrite ?app_nil_r; [done|constructor|done|done|lia|done|]. by rewrite Hp, Hn.
Qed.

Lemma pulled_trans Q p1 w1 p2 w2 p3 w3 cs ds :
  pulled Q p1 w1 p2 w2 cs -> pulled Q p2 w2 p3 w3 ds -> pulled Q p1 w1 p3 w3 (cs ++ ds).
Proof.
  intros [Hc1 Hw1 Ho1 Hi1 Hn1 Hg1 Hf1] [Hc2 Hw2 Ho2 Hi2 Hn2 Hg2 Hf2].
  split; rewrite ?packet_metas_app, ?frame_metas_app, ?length_app.
  - by rewrite Hc2, Hc1, app_assoc.
  - by apply Forall_app.
  - by rewrite app_assoc, Ho1, <- !app_assoc, Ho2.
  - rewrite fmap_app, Hi1, Hi2, Hn1, Nat2Z.inj_add, seqZ_app by lia. done.
  - lia.
  - congruence.
  - intros seen [Ha Hb]%Hf1. rewrite frames_follow_app, foldl_app. by destruct (Hf2 _ Hb).
Qed.

(** States and worlds that agree on what [pulled] reads may be exchanged. *)
Lemma pulled_eq Q p w p' w' cs q q' v v' :
  pulled Q p w p' w' cs ->
  pl_pending_video_frames q = pl_pending_video_frames p -> pl_next_frame_id q = pl_next_frame_id p ->
  pl_cfg q = pl_cfg p -> pw_calls v = pw_calls w ->
  pl_pending_video_frames q' = pl_pending_video_frames p' -> pl_next_frame_id q' = pl_next_frame_id p' ->
  pl_cfg q' = pl_cfg p' -> pw_calls v' = pw_calls w' -> pulled Q q v q' v' cs.
Proof. intros [] E1 E2 E3 E4 E5 E6 E7 E8. split; try congruence. by rewrite E1, E2, E5, E6. Qed.

Lemma bundle_meta_pending m image p : bundle_meta (pending_bundle m image p) = m.
Proof. by destruct m. Qed.

Lemma enqueuePendingFrame_calls m image notify p w :
  pw_calls (enqueuePendingFrame m image notify p w) =
  pw_calls w ++ [CallEnqueueFrame (Some (pending_bundle m image p))].
Proof. unfold enqueuePendingFrame. by destruct (_ && _). Qed.

(** Enqueueing the oldest pending frame. *)
Lemma pulled_enqueue Q m l image notify p w :
  pl_pending_video_frames p = m :: l ->
  pulled Q p w (pl_with_pending l p) (enqueuePendingFrame m image notify p w)
    [CallEnqueueFrame (Some (pending_bundle m image p))].
Proof.
  intros Hp. split; cbn; [apply enqueuePendingFrame_calls | | | done | lia | done | ].
  - by repeat constructor.
  - by rewrite Hp, app_nil_r, bundle_meta_pending.
  - rewrite Hp. intros seen. by apply (may_enqueue_frames (fun m => pending_bundle m image p) id [m]).
Qed.

(** What [enqueue_skipped] calls. *)
Definition skipped_calls (p : RTSPPuller) (l : list PendingVideoFrameMeta) : list sb_call :=
  (fun m => CallEnqueueFrame (Some (pending_bundle m None p))) <$> l.

Lemma enqueue_skipped_calls l p : forall w,
  pw_calls (enqueue_skipped l p w) = pw_calls w ++ skipped_calls p l.
Proof.
  unfold enqueue_skipped, skipped_calls. induction l as [|m l IH]; intros w; cbn; [by rewrite app_nil_r|].
  by rewrite IH, enqueuePendingFrame_calls, <- app_assoc.
Qed.

Lemma frame_metas_skipped p l : frame_metas (skipped_calls p l) = l.
Proof. unfold skipped_calls. induction l as [|m l IH]; [done|]. cbn. rewrite bundle_meta_pending. f_equal. apply IH. Qed.
Lemma packet_metas_skipped p l : packet_metas (skipped_calls p l) = [].
Proof. unfold skipped_calls. by induction l. Qed.
Lemma skipped_who Q p l : Forall (fun c => puller_call c \/ (foreign_call c /\ Q c)) (skipped_calls p l).
Proof. unfold skipped_calls. apply Forall_fmap, Forall_forall. intros. by left. Qed.

Lemma find_pending_Some f l before m after :
  find_pending f l = Some (before, m, after) ->
  l = before ++ m :: after /\ f m = true /\ Forall (fun x => f x = false) before.
Proof.
  revert before m after. induction l as [|x l IH]; intros before m after; cbn; [done|].
  destruct (f x) eqn:E; [by intros [= <- <- <-]|].
  destruct (find_pending f l) as [[[b y] a]|]; [|done]. intros [= <- <- <-].
  destruct (IH b y a eq_refl) as (-> & ? & ?). split; [done|]. split; [done|]. by constructor.
Qed.

Lemma find_pending_None f l : find_pending f l = None <-> Forall (fun x => f x = false) l.
Proof.
  induction l as [|x l IH]; cbn; [split; [constructor|done]|].
  destruct (f x) eqn:E.
  - split; [done|]. intros H. inversion H; congruence.
  - destruct (find_pending f l) as [[[b y] a]|] eqn:F; rewrite Forall_cons.
    + split; [done|]. intros [_ H]. by apply IH in H.
    + split; [|done]. intros _. split; [done|]. by apply IH.
Qed.

Lemma match_pending_split pts dts l before m after :
  match_pending pts dts l = Some (before, m, after) -> l = before ++ m :: after.
Proof.
  unfold match_pending. destruct (if pts =? AV_NOPTS_VALUE then None else _) as [[[b x] a]|] eqn:E.
  - intros [= <- <- <-]. destruct (pts =? _); [done|]. by apply find_pending_Some in E as (?&_).
  - destruct (dts =? _); [done|]. intros F. by apply find_pending_Some in F as (?&_).
Qed.

(** The meta a picture takes and what is enqueued before it, as one step: the meta is
    out of the queue and its own frame still to be enqueued. *)
Lemma take_split frame p w m p' w' :
  takePendingVideoFrameMeta frame p w = (Some m, p', w') ->
  exists before after, pl_pending_video_frames p = before ++ m :: after /\
    p' = pl_with_pending after p /\ pw_calls w' = pw_calls w ++ skipped_calls p before.
Proof.
  unfold takePendingVideoFrameMeta. destruct (pl_pending_video_frames p) as [|x l] eqn:Hp; [done|].
  destruct (match_pending _ _ _) as [[[b y] a]|] eqn:Hm.
  - intros [= <- <- <-]. exists b, a. apply match_pending_split in Hm.
    split; [done|]. split; [done|]. apply enqueue_skipped_calls.
  - destruct (_ && _); [|done]. intros [= <- <- <-]. exists [], l. by rewrite app_nil_r.
Qed.

Lemma take_none frame p w p' w' :
  takePendingVideoFrameMeta frame p w = (None, p', w') -> p' = p /\ w' = w.
Proof.
  unfold takePendingVideoFrameMeta. destruct (pl_pending_video_frames p); [by intros [= <- <-]|].
  destruct (match_pending _ _ _) as [[[b y] a]|]; [done|]. destruct (_ && _); [done|]. by intros [= <- <-].
Qed.

Lemma pulled_take Q frame p w m p1 w1 image notify :
  takePendingVideoFrameMeta frame p w = (Some m, p1, w1) ->
  exists cs, pulled Q p w (pl_count_frame p1) (enqueuePendingFrame m image notify p1 w1) cs.
Proof.
  intros (before & after & Hp & -> & Hc)%take_split.
  eexists. split; [by rewrite enqueuePendingFrame_calls, Hc, <- app_assoc | | | | |done|].
  - apply Forall_app. split; [apply skipped_who | by repeat constructor].
  - rewrite packet_metas_app, frame_metas_app, packet_metas_skipped, frame_metas_skipped. cbn.
    by rewrite Hp, bundle_meta_pending, app_nil_r, <- app_assoc.
  - by rewrite packet_metas_app, packet_metas_skipped.
  - rewrite packet_metas_app, packet_metas_skipped; cbn. lia.
  - rewrite Hp. intros seen Hm. rewrite frames_follow_app, foldl_app. unfold skipped_calls. cbn.
    destruct (may_enqueue_frames (fun m => pending_bundle m None p) id before (m :: after) (pl_next_frame_id p)
                ltac:(done) seen) as [Hf1 Hm1]; [by rewrite list_fmap_id|].
    set (seen1 := foldl note seen _) in *.
    destruct (may_enqueue_frames (fun x => pending_bundle x image (pl_with_pending after p)) id [m] after
                (pl_next_frame_id p) ltac:(done) seen1 Hm1) as [[Ha _] Hm2].
    by split.
Qed.

Section Pulled.
Context (av_rescale_q : Z -> AVRational -> AVRational -> Z) (move_first : bool).

Lemma pulled_publish Q frames : forall p w,
  exists cs, let '(p', w') := publishDecodedFrames move_first frames p w in pulled Q p w p' w' cs.
Proof.
  induction frames as [|frame frames IH]; intros p w; cbn.
  { exists []. by apply pulled_refl. }
  set (w0 := pw_with_stats _ w).
  destruct (takePendingVideoFrameMeta frame p w0) as [[[m|] p1] w1] eqn:Ht.
  - set (notify := negb move_first && _).
    destruct (pulled_take Q frame p w0 m p1 w1 (buildDecodedImage frame) notify Ht) as [cs Hcs].
    destruct (IH (pl_count_frame p1) (enqueuePendingFrame m (buildDecodedImage frame) notify p1 w1)) as [ds Hds].
    destruct (publishDecodedFrames _ _ _ _) as [p2 w2]. exists (cs ++ ds).
    eapply pulled_trans, Hds. by apply (pulled_eq _ _ _ _ _ _ p _ w _ Hcs).
  - apply take_none in Ht as [-> ->]. destruct (IH p w0) as [ds Hds].
    destruct (publishDecodedFrames _ _ _ _) as [p2 w2]. exists ds. by apply (pulled_eq _ _ _ _ _ _ p _ w _ Hds).
Qed.

Lemma pulled_video_packet Q e p w :
  ep_media_type e = Video -> ep_frame_id e = pl_next_frame_id p ->
  pulled Q p w (pl_push_pending (pending_meta e) p) (pw_call (CallEnqueuePacket (Some e)) w)
    [CallEnqueuePacket (Some e)].
Proof.
  intros Hv Hid. split; cbn; [done| | | | |done|].
  - repeat constructor.
  - rewrite Hv. by rewrite bool_decide_true.
  - rewrite Hv, bool_decide_true by done. cbn. rewrite Hid. f_equal; lia.
  - rewrite Hv, bool_decide_true by done. cbn. lia.
  - intros seen [H1 H2 H3 H4]. rewrite Hv, bool_decide_true by done.
    assert (Hnew : forall i, i ∈ seen.1 \/ i ∈ seen.2 -> i < ep_frame_id e) by (intros i Hi; specialize (H4 i Hi); lia).
    split; [split; [intros _; split; [lia|auto]|done]|]. split; cbn; [| |lia|].
    + intros m [Hm| ->%list_elem_of_singleton]%elem_of_app; [|split; [by left|auto]].
      destruct (H1 m Hm). split; [by right|done].
    + rewrite fmap_app. apply StronglySorted_app. split; [|split; [done|by repeat constructor]].
      intros x y (m & -> & Hm)%list_elem_of_fmap ->%list_elem_of_singleton. destruct (H1 m Hm) as [Hin _]. auto.
    + intros id [[->|?]%elem_of_cons|?]; [lia| |]; specialize (H4 id); lia || (assert (0 <= id < pl_next_frame_id p) by auto; lia).
Qed.

Lemma pulled_other_packet Q e p w :
  ep_media_type e = Audio ->
  pulled Q p w p (pw_call (CallEnqueuePacket (Some e)) w) [CallEnqueuePacket (Some e)].
Proof.
  intros Ha. split; cbn; rewrite ?Ha; rewrite ?bool_decide_false by done; cbn; try done; try lia.
  - repeat constructor.
  - by rewrite app_nil_r.
Qed.

Lemma pulled_packet Q pkt cloned now mpp p w :
  exists cs, let '(p', w') := pull_packet av_rescale_q move_first pkt cloned now mpp p w in pulled Q p w p' w' cs.
Proof.
  unfold pull_packet. destruct (pl_fmt_ctx p) as [c|]; [|by exists []; apply pulled_refl].
  destruct cloned; cbn [negb]; [|by exists []; apply pulled_refl].
  set (tb := match fc_stream c _ with Some _ => _ | None => _ end).
  destruct (pkt_stream_index pkt =? pl_video_stream_idx p).
  - set (e := encoded_packet _ pkt Video _ _ _).
    set (w1 := pw_call (CallEnqueuePacket (Some e)) _). set (w2 := pw_with_stats _ w1).
    destruct (submitPacket mpp pkt [] _ (pw_mpp w2)) as [[[ok frames] d] m].
    pose proof (pulled_video_packet Q e p w eq_refl eq_refl) as H1.
    destruct (pulled_publish Q frames (pl_with_decoder d (pl_push_pending (pending_meta e) p))
                (pw_with_mpp m w2)) as [cs Hcs].
    destruct (publishDecodedFrames _ _ _ _) as [p3 w3]. eexists.
    eapply pulled_trans; [exact H1|]. by apply (pulled_eq _ _ _ _ _ _ _ _ _ _ Hcs).
  - destruct (pkt_stream_index pkt =? pl_audio_stream_idx p); [|by exists []; apply pulled_refl].
    eexists. by apply pulled_other_packet.
Qed.

Definition event_ok (Q : sb_call -> Prop) (e : read_event) : Prop :=
  match e with RdOther c => foreign_call c /\ Q c | _ => True end.

Lemma pulled_other Q c p w :
  foreign_call c /\ Q c -> pulled Q p w p (pw_call c w) [c].
Proof.
  intros [Hf HQ]. split; cbn; [done | constructor; [by right|constructor] | | | | done |];
    destruct c; cbn in *; rewrite ?app_nil_r; done || lia.
Qed.

Lemma pulled_read_loop Q events : forall p w,
  Forall (event_ok Q) events ->
  exists cs, let '(p', w') := read_loop av_rescale_q move_first events p w in pulled Q p w p' w' cs.
Proof.
  assert (Hstay : forall p w, exists cs, pulled Q p w p w cs) by (intros; exists []; by apply pulled_refl).
  induction events as [|e events IH]; intros p w Hev; cbn; destruct (pl_stop_flag p); try apply Hstay.
  apply Forall_cons in Hev as [He Hev]. destruct e as [pkt cloned now mpp|ret| |c].
  - destruct (pulled_packet Q pkt cloned now mpp p w) as [cs Hcs].
    destruct (pull_packet _ _ _ _ _ _ _ _) as [p1 w1]. destruct (IH p1 w1 Hev) as [ds Hds].
    destruct (read_loop _ _ _ _ _) as [p2 w2]. exists (cs ++ ds). by eapply pulled_trans.
  - apply Hstay.
  - destruct (IH (pl_with_thread (pl_running p) true p) w Hev) as [ds Hds].
    destruct (read_loop _ _ _ _ _) as [p2 w2]. exists ds. by apply (pulled_eq _ _ _ _ _ _ p _ w _ Hds).
  - destruct (IH p (pw_call c w) Hev) as [ds Hds]. destruct (read_loop _ _ _ _ _) as [p2 w2].
    exists ([c] ++ ds). eapply pulled_trans; [|exact Hds]. by apply pulled_other.
Qed.

(** C33: While a connection lasts, whatever packets arrive, whatever the decoder outputs
    and whatever other threads do to the buffer: what was pending together with the
    packets that arrived is, in order and with their timestamps, exactly the frames
    enqueued followed by what is still pending.  So frames enter the buffer in packet
    order, each packet's at most once, none invented and none skipped over, and the
    packets carry consecutive frame ids. *)
Theorem frames_follow_packets (events : list read_event) (p p' : RTSPPuller) (w w' : PullWorld)
    (Hev : Forall (event_ok (fun _ => True)) events)
    (Hrun : read_loop av_rescale_q move_first events p w = (p', w')) :
  exists cs, pw_calls w' = pw_calls w ++ cs /\
    pl_pending_video_frames p ++ packet_metas cs = frame_metas cs ++ pl_pending_video_frames p' /\
    pm_frame_id <$> packet_metas cs = seqZ (pl_next_frame_id p) (Z.of_nat (length (packet_metas cs))) /\
    pl_next_frame_id p' = pl_next_frame_id p + Z.of_nat (length (packet_metas cs)).
Proof.
  destruct (pulled_read_loop (fun _ => True) events p w Hev) as [cs Hcs]. rewrite Hrun in Hcs.
  destruct Hcs. by exists cs.
Qed.
End Pulled.

(** A decoded picture takes the meta of the oldest pending packet with its
    presentation time, or failing that with its decoding time, or, when it carries
    neither time, the oldest pending one; the older pending packets get frames without a
    picture and leave the queue with it; a picture that matches no pending packet takes
    none and changes nothing. *)
Theorem takePending_spec (frame : MppFrame) (p : RTSPPuller) (w : PullWorld) :
  let pending := pl_pending_video_frames p in
  let pts := mf_pts frame in let dts := mf_dts frame in
  let by_pts (m : PendingVideoFrameMeta) := pts <> AV_NOPTS_VALUE /\ pm_pts m = pts in
  let by_dts (m : PendingVideoFrameMeta) := dts <> AV_NOPTS_VALUE /\ pm_dts m = dts in
  let '(r, p', w') := takePendingVideoFrameMeta frame p w in
  match r with
  | None =>
      p' = p /\ w' = w /\ Forall (fun m => ~ by_pts m /\ ~ by_dts m) pending /\
      (pending <> [] -> pts <> AV_NOPTS_VALUE \/ dts <> AV_NOPTS_VALUE)
  | Some m =>
      exists before after, pending = before ++ m :: after /\ p' = pl_with_pending after p /\
        pw_calls w' = pw_calls w ++ skipped_calls p before /\
        ((by_pts m /\ Forall (fun x => ~ by_pts x) before) \/
         (by_dts m /\ Forall (fun x => ~ by_dts x) before /\ Forall (fun x => ~ by_pts x) pending) \/
         (before = [] /\ pts = AV_NOPTS_VALUE /\ dts = AV_NOPTS_VALUE))
  end.
Proof.
  assert (Hno : forall (f : PendingVideoFrameMeta -> Z) v l,
            Forall (fun x => (f x =? v) = false) l -> Forall (fun x => ~ (v <> AV_NOPTS_VALUE /\ f x = v)) l).
  { intros f v l Hl. eapply Forall_impl; [exact Hl|]. intros x Hx%Z.eqb_neq [_ ?]. done. }
  assert (Hnv : forall (f : PendingVideoFrameMeta -> Z) l,
            Forall (fun x => ~ (AV_NOPTS_VALUE <> AV_NOPTS_VALUE /\ f x = AV_NOPTS_VALUE)) l).
  { intros f l. apply Forall_forall. intros x _ [? _]. done. }
  cbn. unfold takePendingVideoFrameMeta.
  destruct (pl_pending_video_frames p) as [|x l] eqn:Hp; [by split_and!; [..|constructor|]|].
  unfold match_pending.
  destruct (Z.eqb_spec (mf_pts frame) AV_NOPTS_VALUE) as [Ep|Ep].
  - rewrite Ep. destruct (Z.eqb_spec (mf_dts frame) AV_NOPTS_VALUE) as [Ed|Ed]; cbn [andb].
    + exists [], l. rewrite app_nil_r. by split_and!; [..|right; right].
    + destruct (find_pending _ _) as [[[b y] a]|] eqn:F.
      * apply find_pending_Some in F as (F1 & F2%Z.eqb_eq & F3). exists b, a.
        split; [done|]. split; [done|]. split; [apply enqueue_skipped_calls|].
        right; left. split; [done|]. split; [by apply Hno|apply Hnv].
      * apply find_pending_None in F. split_and!; [done..| |by right].
        apply Forall_and. split; [apply Hnv | by apply Hno].
  - destruct (find_pending _ (x :: l)) as [[[b y] a]|] eqn:F.
    + apply find_pending_Some in F as (F1 & F2%Z.eqb_eq & F3). exists b, a.
      split; [done|]. split; [done|]. split; [apply enqueue_skipped_calls|].
      left. split; [done|by apply Hno].
    + apply find_pending_None in F. rewrite andb_false_l.
      destruct (Z.eqb_spec (mf_dts frame) AV_NOPTS_VALUE) as [Ed|Ed].
      * split_and!; [done..| |by left]. rewrite Ed. apply Forall_and. split; [by apply Hno | apply Hnv].
      * destruct (find_pending _ _) as [[[b y] a]|] eqn:G.
        -- apply find_pending_Some in G as (G1 & G2%Z.eqb_eq & G3). exists b, a.
           split; [done|]. split; [done|]. split; [apply enqueue_skipped_calls|].
           right; left. split; [done|]. split; [by apply Hno | by apply Hno].
        -- apply find_pending_None in G. split_and!; [done..| |by left].
           apply Forall_and. split; by apply Hno.
Qed.

(** ** A puller's whole life *)

(** As [pulled], when connections may be closed in between: some packets then never get
    their frame. *)
Record lived (Q : sb_call -> Prop) (p : RTSPPuller) (w : PullWorld) (p' : RTSPPuller) (w' : PullWorld)
    (cs : list sb_call) : Prop := {
  lv_calls : pw_calls w' = pw_calls w ++ cs;
  lv_who : Forall (fun c => puller_call c \/ (foreign_call c /\ Q c)) cs;
  lv_order : sublist (frame_metas cs ++ pl_pending_video_frames p') (pl_pending_video_frames p ++ packet_metas cs);
  lv_ids : pm_frame_id <$> packet_metas cs = seqZ (pl_next_frame_id p) (Z.of_nat (length (packet_metas cs)));
  lv_next : pl_next_frame_id p' = pl_next_frame_id p + Z.of_nat (length (packet_metas cs));
  lv_cfg : pl_cfg p' = pl_cfg p;
  lv_follow seen : may_enqueue (pl_pending_video_frames p) (pl_next_frame_id p) seen ->
    frames_follow seen cs /\ may_enqueue (pl_pending_video_frames p') (pl_next_frame_id p') (foldl note seen cs);
}.

Lemma pulled_lived Q p w p' w' cs : pulled Q p w p' w' cs -> lived Q p w p' w' cs.
Proof. intros []. split; try done. by match goal with H : _ = _ ++ _ |- sublist _ _ => rewrite H end. Qed.

Lemma lived_trans Q p1 w1 p2 w2 p3 w3 cs ds :
  lived Q p1 w1 p2 w2 cs -> lived Q p2 w2 p3 w3 ds -> lived Q p1 w1 p3 w3 (cs ++ ds).
Proof.
  intros [Hc1 Hw1 Ho1 Hi1 Hn1 Hg1 Hf1] [Hc2 Hw2 Ho2 Hi2 Hn2 Hg2 Hf2].
  split; rewrite ?packet_metas_app, ?frame_metas_app, ?length_app.
  - by rewrite Hc2, Hc1, app_assoc.
  - by apply Forall_app.
  - rewrite <- app_assoc, (app_assoc (pl_pending_video_frames p1)).
    transitivity (frame_metas cs ++ pl_pending_video_frames p2 ++ packet_metas ds).
    + by apply sublist_app.
    + rewrite app_assoc. by apply sublist_app.
  - rewrite fmap_app, Hi1, Hi2, Hn1, Nat2Z.inj_add, seqZ_app by lia. done.
  - lia.
  - congruence.
  - intros seen [Ha Hb]%Hf1. rewrite frames_follow_app, foldl_app. by destruct (Hf2 _ Hb).
Qed.

(** Steps that call nothing and at most forget what is pending. *)
Lemma lived_quiet Q p w p' w' :
  pw_calls w' = pw_calls w -> pl_next_frame_id p' = pl_next_frame_id p -> pl_cfg p' = pl_cfg p ->
  sublist (pl_pending_video_frames p') (pl_pending_video_frames p) -> lived Q p w p' w' [].
Proof.
  intros Hc Hn Hg Hp. split; cbn; rewrite ?app_nil_r; [done|constructor|done|done|lia|done|].
  rewrite Hn. intros seen Hm. split; [done|]. by eapply may_enqueue_sublist.
Qed.

Lemma openStream_quiet an p w :
  let '(ok, p', w') := openStream an p w in
  pw_calls w' = pw_calls w /\ pl_next_frame_id p' = pl_next_frame_id p /\ pl_cfg p' = pl_cfg p /\
  (pl_pending_video_frames p' = [] \/ pl_pending_video_frames p' = pl_pending_video_frames p) /\
  pw_frame_ready w' = pw_frame_ready w.
Proof. unfold openStream. repeat case_match; simplify_eq/=; auto 10. Qed.

Lemma lived_open Q an p w :
  let '(ok, p', w') := openStream an p w in lived Q p w p' w' [].
Proof.
  pose proof (openStream_quiet an p w) as Hq. destruct (openStream an p w) as [[ok p'] w'].
  destruct Hq as (Hc & Hn & Hg & [Hp|Hp] & _); apply lived_quiet; try done; rewrite Hp;
    [apply sublist_nil_l|done].
Qed.

Lemma lived_close Q p w : let '(p', w') := closeStream p w in lived Q p w p' w' [].
Proof. unfold closeStream. destruct (dec_destroy _ _). apply lived_quiet; try done. apply sublist_nil_l. Qed.

Definition connection_ok (Q : sb_call -> Prop) (cn : connection) : Prop := Forall (event_ok Q) (cn_events cn).

Section Life.
Context (av_rescale_q : Z -> AVRational -> AVRational -> Z) (move_first : bool).

Lemma lived_turn Q cn p w :
  connection_ok Q cn ->
  exists cs, let '(_, p', w') := pull_turn av_rescale_q move_first cn p w in lived Q p w p' w' cs.
Proof.
  intros Hcn. unfold pull_turn. pose proof (lived_open Q (cn_open cn) p w) as Ho.
  destruct (openStream (cn_open cn) p w) as [[[|] p1] w1].
  - destruct (pulled_read_loop av_rescale_q move_first Q (cn_events cn) p1
                (pw_announce (pl_input_stream_specs p1) w1) Hcn) as [cs Hcs].
    destruct (read_loop _ _ _ _ _) as [p2 w2].
    pose proof (lived_close Q p2 w2) as Hcl. destruct (closeStream p2 w2) as [p3 w3].
    exists ([] ++ (cs ++ [])). eapply lived_trans; [exact Ho|]. eapply lived_trans; [|exact Hcl].
    apply pulled_lived. by apply (pulled_eq _ _ _ _ _ _ p1 p2 w1 w2 Hcs).
  - exists []. destruct (pl_stop_flag p1); [done|]. destruct (_ <=? 0); [done|].
    destruct (cn_stopped_in_wait cn); [|done]. destruct Ho. by split.
Qed.

Lemma lived_stay Q p w p' : lived Q p w p w [] /\ (pl_pending_video_frames p' = pl_pending_video_frames p ->
  pl_next_frame_id p' = pl_next_frame_id p -> pl_cfg p' = pl_cfg p -> lived Q p w p' w []).
Proof. split; [by apply lived_quiet|]. intros E ??. apply lived_quiet; try done. by rewrite E. Qed.

Lemma lived_loop Q cns : forall p w,
  Forall (connection_ok Q) cns ->
  exists cs, let '(p', w') := pullLoop av_rescale_q move_first cns p w in lived Q p w p' w' cs.
Proof.
  induction cns as [|cn cns IH]; intros p w Hok; cbn; destruct (pl_stop_flag p).
  1-3: exists []; by apply lived_stay.
  apply Forall_cons in Hok as [Hcn Hok]. destruct (lived_turn Q cn p w Hcn) as [cs Hcs].
  destruct (pull_turn _ _ _ _ _) as [[[|] p1] w1].
  - destruct (IH p1 w1 Hok) as [ds Hds]. destruct (pullLoop _ _ _ _ _) as [p2 w2].
    exists (cs ++ ds). by eapply lived_trans.
  - exists (cs ++ []). eapply lived_trans; [exact Hcs|]. by apply lived_stay.
Qed.

(** Over a puller's whole life, through any number of connections, the frames it
    enqueues are, in order and with their timestamps, a selection of the video packets
    it enqueued, which are numbered 0, 1, 2, ... without a gap: no frame id is ever
    used for two packets or two frames, and a frame always finds its packet's data.  At
    any point of the call sequence a frame comes after its packet, which is what the
    publishing side relies on to free it. *)
Theorem puller_life (cfg : StreamConfig) (cns : list connection) (w : PullWorld)
    (Hw : pw_calls w = []) (Hok : Forall (connection_ok (fun _ => True)) cns) :
  let '(p', w') := pullLoop av_rescale_q move_first cns (puller_start (RTSPPuller_new cfg)).2 w in
  sublist (frame_metas (pw_calls w')) (packet_metas (pw_calls w')) /\
  pm_frame_id <$> packet_metas (pw_calls w') = seqZ 0 (pl_next_frame_id p') /\
  NoDup (pm_frame_id <$> frame_metas (pw_calls w')) /\
  frames_follow ([], []) (pw_calls w').
Proof.
  destruct (lived_loop (fun _ => True) cns (puller_start (RTSPPuller_new cfg)).2 w Hok) as [cs Hcs].
  destruct (pullLoop _ _ _ _ _) as [p' w']. destruct Hcs as [Hc _ Ho Hi Hn _ Hf].
  rewrite Hc, Hw. cbn in *.
  assert (Hsub : sublist (frame_metas cs) (packet_metas cs)).
  { etransitivity; [|exact Ho]. apply sublist_inserts_r. done. }
  split; [done|]. split; [by rewrite Hi, Hn|]. split.
  2: { apply (Hf ([], [])). split; cbn; [by intros ? ?%elem_of_nil | constructor | lia | by intros ? [?%elem_of_nil|?%elem_of_nil]]. }
  eapply sublist_NoDup; [|by apply (sublist_fmap pm_frame_id), Hsub]. rewrite Hi. apply NoDup_seqZ.
Qed.

(** C35: When a connection ends while a packet at the head of the publishing queue still
    waits for its frame, the queue is blocked for good: whatever connections follow and
    whatever the inference thread does, the packet's frame never comes and no packet of
    the stream, audio included, is published again.  [closeStream] forgets the pending
    packets without enqueueing their frames. *)
Theorem reconnect_stalls_stream (wm : Z) (front : EncodedPacket) (p p1 p2 : RTSPPuller)
    (w w1 w2 : PullWorld) (cns : list connection)
    (Hwm : 0 < wm) (Hvideo : ep_media_type front = Video)
    (Hid : 0 <= ep_frame_id front < pl_next_frame_id p)
    (Hwaits : front_waits front (pw_buffer p w))
    (Hclose : closeStream p w = (p1, w1))
    (Hok : Forall (connection_ok (fun c => c <> CallPopPacket)) cns)
    (Hrun : pullLoop av_rescale_q move_first cns p1 w1 = (p2, w2)) :
  waitForPublishable wm (pw_buffer p2 w2) = false /\ peekPacket (pw_buffer p2 w2) = Some front.
Proof.
  unfold closeStream in Hclose. destruct (dec_destroy _ _) as [d m]. injection Hclose as <- <-.
  set (p1 := mkPuller _ _ _ _ _ _ _ _ _ _ _ _ _ _ _ _) in Hrun.
  destruct (lived_loop _ cns p1 (pw_with_mpp m w) Hok) as [cs Hcs]. rewrite Hrun in Hcs.
  destruct Hcs as [Hc Hwho Ho Hi _ Hg _]. cbn in *.
  unfold pw_buffer in *. rewrite Hc, Hg. cbn. unfold sb_run. rewrite foldl_app.
  apply (front_waits_run wm front); try done; [apply sb_run_wf, sb_wf_new | lia |].
  apply Forall_forall. intros c Hin. rewrite Forall_forall in Hwho. specialize (Hwho c Hin).
  destruct c as [|[f|]| | | | | | | | |]; cbn in *; try done; [|by destruct Hwho as [|[??]]].
  intros Heq.
  assert (Hf : bundle_meta f ∈ frame_metas cs) by (apply list_elem_of_omap; by exists (CallEnqueueFrame (Some f))).
  assert (Hpk : bundle_meta f ∈ packet_metas cs).
  { eapply elem_of_sublist; [|exact Ho]. apply elem_of_app. by left. }
  apply (list_elem_of_fmap_2 pm_frame_id) in Hpk. rewrite Hi in Hpk.
  apply elem_of_seqZ in Hpk. cbn in Hpk. lia.
Qed.
End Life.

(** ** MPP resources *)

Section Resources.
Context (av_rescale_q : Z -> AVRational -> AVRational -> Z) (move_first : bool).

(** The decoder's resources are accounted for; [ctx] tells whether it may hold any. *)
Definition mpp_ok (p : RTSPPuller) (w : PullWorld) : Prop := dec_owns (pl_decoder p) (pw_mpp w).

Lemma enqueue_mpp m image notify p w : pw_mpp (enqueuePendingFrame m image notify p w) = pw_mpp w.
Proof. unfold enqueuePendingFrame. by destruct (_ && _). Qed.

Lemma enqueue_skipped_mpp l p : forall w, pw_mpp (enqueue_skipped l p w) = pw_mpp w.
Proof.
  unfold enqueue_skipped. induction l as [|m l IH]; intros w; cbn; [done|]. by rewrite IH, enqueue_mpp.
Qed.

Lemma take_mpp frame p w :
  let '(_, p', w') := takePendingVideoFrameMeta frame p w in
  pl_decoder p' = pl_decoder p /\ pw_mpp w' = pw_mpp w.
Proof.
  unfold takePendingVideoFrameMeta. destruct (pl_pending_video_frames p); [done|].
  destruct (match_pending _ _ _) as [[[b y] a]|]; [by rewrite enqueue_skipped_mpp|]. by destruct (_ && _).
Qed.

Lemma publish_mpp frames : forall p w,
  let '(p', w') := publishDecodedFrames move_first frames p w in
  pl_decoder p' = pl_decoder p /\ pw_mpp w' = pw_mpp w.
Proof.
  induction frames as [|frame frames IH]; intros p w; cbn; [done|].
  set (w0 := pw_with_stats _ w). pose proof (take_mpp frame p w0) as Ht.
  destruct (takePendingVideoFrameMeta frame p w0) as [[[m|] p1] w1]; destruct Ht as [Hd Hm].
  - match goal with |- context [publishDecodedFrames _ _ ?q ?v] => specialize (IH q v) end.
    destruct (publishDecodedFrames _ _ _ _). rewrite enqueue_mpp in IH. cbn in IH.
    by rewrite Hd, Hm in IH.
  - specialize (IH p1 w1). destruct (publishDecodedFrames _ _ _ _). by rewrite Hd, Hm in IH.
Qed.

Lemma packet_mpp pkt cloned now mpp p w p' w' :
  mpp_ok p w -> pull_packet av_rescale_q move_first pkt cloned now mpp p w = (p', w') -> mpp_ok p' w'.
Proof.
  intros Ho. unfold pull_packet. destruct (pl_fmt_ctx p) as [c|]; [|by intros [= <- <-]].
  destruct (negb cloned); [by intros [= <- <-]|].
  destruct (pkt_stream_index pkt =? pl_video_stream_idx p).
  - set (p1 := pl_push_pending _ p). set (w1 := pw_with_stats _ (pw_call _ _)).
    destruct (submitPacket mpp pkt [] (pl_decoder p1) (pw_mpp w1)) as [[[ok frames] d] m] eqn:Hs.
    apply submit_owns in Hs as [Hd _]; [|done].
    pose proof (publish_mpp frames (pl_with_decoder d p1) (pw_with_mpp m w1)) as Hp.
    intros Heq. rewrite Heq in Hp. destruct Hp as [E1 E2]. unfold mpp_ok. by rewrite E1, E2.
  - by destruct (pkt_stream_index pkt =? pl_audio_stream_idx p); intros [= <- <-].
Qed.

Lemma read_loop_mpp events : forall p w,
  mpp_ok p w ->
  let '(p', w') := read_loop av_rescale_q move_first events p w in mpp_ok p' w'.
Proof.
  induction events as [|e events IH]; intros p w Ho; cbn; destruct (pl_stop_flag p); try done.
  destruct e as [pkt cloned now mpp|ret| |c]; [|done|by apply IH|by apply IH].
  destruct (pull_packet _ _ _ _ _ _ _ _) as [p1 w1] eqn:Hp. apply IH. by eapply packet_mpp.
Qed.

Lemma open_mpp an p w :
  mpp_ok p w -> dec_ctx (pl_decoder p) = false ->
  let '(ok, p', w') := openStream an p w in mpp_ok p' w' /\ (ok = false -> dec_ctx (pl_decoder p') = false).
Proof.
  intros Ho Hn. unfold openStream. destruct (_ || _); [done|]. destruct (_ <? 0); [done|].
  destruct (fc_stream _ _) as [par|]; [|done]. destruct (_ =? MPP_VIDEO_CodingUnused); [done|].
  destruct (dec_init _ _ _ _ _ _) as [[ok d] m] eqn:Hi.
  apply init_owns in Hi as [Hd Hc]; [|done..]. by destruct ok.
Qed.

Lemma close_mpp p w :
  mpp_ok p w ->
  let '(p', w') := closeStream p w in
  mpp_ok p' w' /\ dec_ctx (pl_decoder p') = false /\ dec_group (pl_decoder p') = false.
Proof.
  intros Ho. unfold closeStream. destruct (dec_destroy _ _) as [d m] eqn:Hd.
  by apply destroy_owns in Hd.
Qed.

Lemma turn_mpp cn p w :
  mpp_ok p w -> dec_ctx (pl_decoder p) = false ->
  let '(_, p', w') := pull_turn av_rescale_q move_first cn p w in
  mpp_ok p' w' /\ dec_ctx (pl_decoder p') = false.
Proof.
  intros Ho Hn. unfold pull_turn. pose proof (open_mpp (cn_open cn) p w Ho Hn) as Hop.
  destruct (openStream _ _ _) as [[[|] p1] w1]; destruct Hop as [Ho1 Hn1].
  - pose proof (read_loop_mpp (cn_events cn) p1 (pw_announce (pl_input_stream_specs p1) w1) Ho1) as Hr.
    destruct (read_loop _ _ _ _ _) as [p2 w2]. pose proof (close_mpp p2 w2 Hr) as Hc.
    destruct (closeStream p2 w2). by destruct Hc as (? & ? & _).
  - specialize (Hn1 eq_refl). destruct (pl_stop_flag p1); [done|]. destruct (_ <=? 0); [done|].
    by destruct (cn_stopped_in_wait cn).
Qed.

Lemma loop_mpp cns : forall p w,
  mpp_ok p w -> dec_ctx (pl_decoder p) = false ->
  let '(p', w') := pullLoop av_rescale_q move_first cns p w in
  mpp_ok p' w' /\ dec_ctx (pl_decoder p') = false.
Proof.
  induction cns as [|cn cns IH]; intros p w Ho Hn; cbn; destruct (pl_stop_flag p); try done.
  pose proof (turn_mpp cn p w Ho Hn) as Ht. destruct (pull_turn _ _ _ _ _) as [[[|] p1] w1]; [|done].
  destruct Ht. by apply IH.
Qed.

(** C39: After any number of connections, packets and decoder errors the puller holds no MPP
    context and at most one buffer group, the one its decoder knows of, and after [stop]
    neither: whatever its connections acquired they released, once. *)
Theorem puller_no_mpp_leak (cfg : StreamConfig) (cns : list connection) (w : PullWorld)
    (Hw : pw_mpp w = mkMppWorld 0 0) :
  let '(p', w') := pullLoop av_rescale_q move_first cns (puller_start (RTSPPuller_new cfg)).2 w in
  mpp_ok p' w' /\ mw_contexts (pw_mpp w') = 0 /\ 0 <= mw_groups (pw_mpp w') <= 1 /\
  pw_mpp (puller_stop p' w').2 = mkMppWorld 0 0.
Proof.
  pose proof (loop_mpp cns (puller_start (RTSPPuller_new cfg)).2 w) as Hl.
  destruct (pullLoop _ _ _ _ _) as [p' w']. destruct Hl as [Ho Hn]; [|done|].
  { unfold mpp_ok. by rewrite Hw. }
  pose proof Ho as [Hc Hg]. rewrite Hn in Hc.
  split; [done|]. split; [done|]. split; [destruct (dec_group _); lia|].
  unfold puller_stop.
  pose proof (close_mpp (pl_with_thread (pl_running p') true p') w' Ho) as Hcl.
  destruct (closeStream _ _) as [p2 w2]. destruct Hcl as ([Hc2 Hg2] & Hn2 & Hn3). cbn.
  rewrite Hn2 in Hc2. rewrite Hn3 in Hg2. destruct (pw_mpp w2). cbn in *. congruence.
Qed.
End Resources.

(** ** Notifying the scheduler *)

Section Notify.
Context (av_rescale_q : Z -> AVRational -> AVRational -> Z).

Lemma enqueue_silent m image p w :
  pw_frame_ready (enqueuePendingFrame m image false p w) = pw_frame_ready w.
Proof. unfold enqueuePendingFrame. by rewrite andb_false_r. Qed.

Lemma enqueue_skipped_silent l p : forall w, pw_frame_ready (enqueue_skipped l p w) = pw_frame_ready w.
Proof.
  unfold enqueue_skipped. induction l as [|m l IH]; intros w; cbn; [done|]. by rewrite IH, enqueue_silent.
Qed.

Lemma take_silent frame p w : pw_frame_ready (takePendingVideoFrameMeta frame p w).2 = pw_frame_ready w.
Proof.
  unfold takePendingVideoFrameMeta. destruct (pl_pending_video_frames p); [done|].
  destruct (match_pending _ _ _) as [[[b y] a]|]; [apply enqueue_skipped_silent|]. by destruct (_ && _).
Qed.

Lemma publish_silent frames : forall p w,
  pw_frame_ready (publishDecodedFrames true frames p w).2 = pw_frame_ready w.
Proof.
  induction frames as [|frame frames IH]; intros p w; cbn; [done|].
  set (w0 := pw_with_stats _ w). pose proof (take_silent frame p w0) as Ht.
  destruct (takePendingVideoFrameMeta frame p w0) as [[[m|] p1] w1]; rewrite IH; [|done].
  by rewrite enqueue_silent.
Qed.

Lemma packet_silent pkt cloned now mpp p w :
  pw_frame_ready (pull_packet av_rescale_q true pkt cloned now mpp p w).2 = pw_frame_ready w.
Proof.
  unfold pull_packet. destruct (pl_fmt_ctx p); [|done]. destruct (negb cloned); [done|].
  destruct (_ =? pl_video_stream_idx p); [|by destruct (_ =? _)].
  destruct (submitPacket _ _ _ _ _) as [[[ok frames] d] m]. by rewrite publish_silent.
Qed.

Lemma read_loop_silent events : forall p w,
  pw_frame_ready (read_loop av_rescale_q true events p w).2 = pw_frame_ready w.
Proof.
  induction events as [|e events IH]; intros p w; cbn; destruct (pl_stop_flag p); try done.
  destruct e as [pkt cloned now mpp|ret| |c]; [|done|by rewrite IH|by rewrite IH].
  pose proof (packet_silent pkt cloned now mpp p w) as Hp.
  destruct (pull_packet _ _ _ _ _ _ _ _) as [p1 w1]. by rewrite IH.
Qed.

Lemma turn_silent cn p w : pw_frame_ready (pull_turn av_rescale_q true cn p w).2 = pw_frame_ready w.
Proof.
  unfold pull_turn. pose proof (openStream_quiet (cn_open cn) p w) as Hq.
  destruct (openStream _ _ _) as [[[|] p1] w1]; destruct Hq as (_ & _ & _ & _ & Hq).
  - pose proof (read_loop_silent (cn_events cn) p1 (pw_announce (pl_input_stream_specs p1) w1)) as Hr.
    destruct (read_loop _ _ _ _ _) as [p2 w2]. unfold closeStream. destruct (dec_destroy _ _). cbn in *.
    congruence.
  - by repeat case_match.
Qed.

(** If the compiler moves [image] into its parameter before it evaluates
    [image != nullptr], as C++ allows, the puller never tells the scheduler that a
    frame is ready, however many pictures it decodes. *)
Theorem move_first_never_notifies (cns : list connection) (p : RTSPPuller) (w : PullWorld) :
  pw_frame_ready (pullLoop av_rescale_q true cns p w).2 = pw_frame_ready w.
Proof.
  revert p w. induction cns as [|cn cns IH]; intros p w; cbn; destruct (pl_stop_flag p); try done.
  pose proof (turn_silent cn p w) as Ht. destruct (pull_turn _ _ _ _ _) as [[[|] p1] w1]; [|done].
  by rewrite IH.
Qed.
End Notify.

(** ** Concrete runs *)

Definition ex_rescale (v : Z) (b c : AVRational) : Z := v * av_num b * av_den c / (av_den b * av_num c).
Definition ex_puller_cfg : StreamConfig := mkStreamConfig true "s" "rtsp://a" "" 5 "" "" 0 0 [] None.
Definition ex_video : AVStream :=
  mkAVStream (mkAVRational 25 1) (mkAVRational 0 1) (mkAVRational 1 90000) AV_CODEC_ID_H264 0 64 48 0 0 None.
Definition ex_open : open_answers :=
  mkOpenAnswers true 0 0 (mkAVFormatContext [ex_video] 1000) 0 (-1) (mkInitAnswers true true true PutOk).
Definition ex_pkt (pts : Z) : AVPacket := mkAVPacket (Some [1]) 0 pts pts 1 0 0.
Definition ex_submit (outputs : list Z) : submit_answers :=
  mkSubmitAnswers true PutOk ((fun pts => ex_mpp_frame pts 0 0 0) <$> outputs)
    (fun _ => mkConfigureAnswers true true true).
Definition ex_read (pts : Z) (outputs : list Z) : read_event := RdPacket (ex_pkt pts) true 0 (ex_submit outputs).
Definition ex_world : PullWorld := mkPullWorld [] Statistics_new (mkMppWorld 0 0) [] [].

(** The frames a run of one connection enqueues: id and whether they have a picture. *)
Definition ex_frames (move_first : bool) (events : list read_event) : list (Z * bool) * list string :=
  let w := (pullLoop ex_rescale move_first [mkConnection ex_open events false]
              (puller_start (RTSPPuller_new ex_puller_cfg)).2 ex_world).2 in
  (omap (fun c => match c with
                  | CallEnqueueFrame (Some f) => Some (fb_frame_id f, has_image f) | _ => None end) (pw_calls w),
   pw_frame_ready w).

(** The decoder is one packet behind; both orders of evaluation. *)
Example ex_frames_run :
  ex_frames false [ex_read 0 []; ex_read 1 [0]; ex_read 2 [1]] = ([(0, true); (1, true)], ["s"; "s"]) /\
  ex_frames true [ex_read 0 []; ex_read 1 [0]; ex_read 2 [1]] = ([(0, true); (1, true)], []).
Proof. by vm_compute. Qed.

(** With bidirectional prediction (I P B B sent, pictures output in display order)
    the P picture is lost to inference: the frames of the packets sent before a B
    packet are enqueued without a picture as soon as the B picture comes out, and the P
    picture then matches nothing. *)
Theorem reordered_picture_lost :
  ex_frames false [ex_read 0 [0]; ex_read 3 []; ex_read 1 [1]; ex_read 2 [2; 3]] =
  ([(0, true); (1, false); (2, true); (3, true)], ["s"; "s"; "s"]).
Proof. by vm_compute. Qed.

Definition ex_events : list read_event := [ex_read 0 []; ex_read 1 [0]; RdOther CallSelect; ex_read 2 [1]].
Definition ex_start : RTSPPuller := (puller_start (RTSPPuller_new ex_puller_cfg)).2.

Lemma ex_events_ok Q : Q CallSelect -> Forall (event_ok Q) ex_events.
Proof. intros HQ. by repeat constructor. Qed.

(** Packet 2 is pending when the events end. *)
Lemma frames_follow_packets_witness :
  let opened := openStream ex_open ex_start ex_world in
  let '(p', w') := read_loop ex_rescale false ex_events opened.1.2 opened.2 in
  (pm_frame_id <$> pl_pending_video_frames p' = [2]) /\
  exists cs, pw_calls w' = pw_calls opened.2 ++ cs /\
    pl_pending_video_frames opened.1.2 ++ packet_metas cs = frame_metas cs ++ pl_pending_video_frames p'.
Proof.
  intros opened. destruct (read_loop _ _ _ _ _) as [p' w'] eqn:Hrun. split.
  - vm_compute in Hrun. injection Hrun as <- <-. reflexivity.
  - destruct (frames_follow_packets ex_rescale false ex_events opened.1.2 p' opened.2 w'
                (ex_events_ok _ I) Hrun) as (cs & ? & ? & _).
    by exists cs.
Defined.

Definition ex_connections : list connection :=
  [mkConnection ex_open ex_events false; mkConnection ex_open [ex_read 9 [9]] false].

(** Frame 2 is the packet the reconnection loses. *)
Lemma puller_life_witness :
  pm_frame_id <$> frame_metas (pw_calls (pullLoop ex_rescale false ex_connections ex_start ex_world).2) = [0; 1; 3] /\
  let '(p', w') := pullLoop ex_rescale false ex_connections ex_start ex_world in
  sublist (frame_metas (pw_calls w')) (packet_metas (pw_calls w')) /\
  pm_frame_id <$> packet_metas (pw_calls w') = seqZ 0 (pl_next_frame_id p') /\
  NoDup (pm_frame_id <$> frame_metas (pw_calls w')) /\ frames_follow ([], []) (pw_calls w').
Proof.
  split; [by vm_compute|].
  apply (puller_life ex_rescale false ex_puller_cfg ex_connections ex_world eq_refl).
  constructor; [by apply (ex_events_ok (fun _ => True))|]. repeat constructor.
Defined.

Lemma puller_no_mpp_leak_witness :
  let '(p', w') := pullLoop ex_rescale false ex_connections ex_start ex_world in
  mpp_ok p' w' /\ mw_contexts (pw_mpp w') = 0 /\ 0 <= mw_groups (pw_mpp w') <= 1 /\
  pw_mpp (puller_stop p' w').2 = mkMppWorld 0 0.
Proof. exact (puller_no_mpp_leak ex_rescale false ex_puller_cfg ex_connections ex_world eq_refl). Defined.

(** The connection ends right after its first packet, whose picture is still in the
    decoder; the next connection delivers ten packets. *)
Definition ex_lost : RTSPPuller * PullWorld :=
  let opened := openStream ex_open ex_start ex_world in
  read_loop ex_rescale false [ex_read 0 []] opened.1.2 opened.2.
Definition ex_front : EncodedPacket := encoded_packet ex_rescale (ex_pkt 0) Video 0 0 (mkAVRational 1 90000).
Definition ex_next : list connection :=
  [mkConnection ex_open ((fun pts => ex_read pts [pts]) <$> seqZ 100 10) false].

Lemma reconnect_stalls_stream_witness :
  let closed := closeStream ex_lost.1 ex_lost.2 in
  let after := pullLoop ex_rescale false ex_next closed.1 closed.2 in
  waitForPublishable 1 (pw_buffer after.1 after.2) = false /\
  packetCount (pw_buffer after.1 after.2) = 11.
Proof.
  intros closed after. split; [|by vm_compute].
  assert (Hok : Forall (connection_ok (fun c => c <> CallPopPacket)) ex_next).
  { constructor; [|constructor]. apply Forall_fmap, Forall_forall. done. }
  apply (reconnect_stalls_stream ex_rescale false 1 ex_front ex_lost.1 closed.1 after.1 ex_lost.2 closed.2 after.2
           ex_next); [done | done | by vm_compute | by vm_compute | apply surjective_pairing | exact Hok |
                      apply surjective_pairing].
Defined.
