(* ===== verification/Mux.v ===== *)
(** * Output streams (src/src/stream/Utils.h, Utils.cpp) and RtspPublisher
    (src/src/stream/RtspPublisher.h, RtspPublisher.cpp)

    The helpers that lay out the tracks of an output, shared by the publisher and the
    recorder, and the publisher itself.  FFmpeg's muxer is third-party: what its calls
    answer is an argument; the contexts and I/O handles it holds alive and the packets it
    accepts are recorded. *)
From S2P Require Import Prelude Float32 Messages.

(** ** Tracks of an output *)

Definition normalizedTimeBase (time_base : AVRational) : AVRational :=
  if (av_num time_base <=? 0) || (av_den time_base <=? 0) then mkAVRational 1 1000 else time_base.

Definition sameStreamCodecParams (l r : RtspStreamSpec) : bool :=
  bool_decide (sp_codec_id l = sp_codec_id r) &&
  (av_num (sp_time_base l) =? av_num (sp_time_base r)) &&
  (av_den (sp_time_base l) =? av_den (sp_time_base r)) &&
  (sp_fps l =? sp_fps r) && (sp_bit_rate l =? sp_bit_rate r) && (sp_width l =? sp_width r) &&
  (sp_height l =? sp_height r) && bool_decide (sp_extradata l = sp_extradata r).

Inductive AVMediaType := AVMEDIA_TYPE_VIDEO | AVMEDIA_TYPE_AUDIO.

Definition avMediaTypeFrom (media_type : MediaType) : AVMediaType :=
  match media_type with Audio => AVMEDIA_TYPE_AUDIO | Video => AVMEDIA_TYPE_VIDEO end.

(** An [AVStream] of an output with its codec parameters. *)
Record OutStream := mkOutStream {
  os_index : Z;
  os_id : Z;
  os_time_base : AVRational;
  os_avg_frame_rate : AVRational;
  os_codec_type : AVMediaType;
  os_codec_id : AVCodecID;
  os_codec_tag : Z;
  os_bit_rate : Z; os_width : Z; os_height : Z; os_sample_rate : Z; os_channels : Z;
  os_extradata : option (list Z);
}.

(** [ot_stream] is the index of the stream in its context. *)
Record OutputStreamState := mkOutputStreamState { ot_spec : RtspStreamSpec; ot_stream : nat }.

(** An [AVFormatContext] opened for output. *)
Record OutContext := mkOutContext { oc_streams : list OutStream; oc_nofile : bool; oc_pb : bool }.

(** The answers of FFmpeg while one output is opened; [mx_time_base] is the time base
    the muxer settles on for a stream when it writes the header. *)
Record mux_answers := mkMuxAnswers {
  mx_alloc : bool;
  mx_new_stream : nat -> bool;
  mx_alloc_extradata : nat -> bool;
  mx_nofile : bool;
  mx_open_io : bool;
  mx_header : bool;
  mx_time_base : OutStream -> AVRational;
}.

(** [alloc_ok] tells whether [av_mallocz] succeeds. *)
Definition copyExtradata (alloc_ok : bool) (source : list Z) : option (option (list Z)) :=
  match source with
  | [] => Some None
  | _ => if alloc_ok then Some (Some source) else None
  end.

(** Whether it succeeded, and the context: on an allocation failure of the extradata the
    new stream stays in it. *)
Definition addOutputStream (an : mux_answers) (streams : list OutStream) (spec : RtspStreamSpec)
  : option OutputStreamState * list OutStream :=
  let n := length streams in
  if negb (mx_new_stream an n) then (None, streams)
  else
    let stream (extradata : option (list Z)) :=
      mkOutStream (Z.of_nat n) (sp_input_stream_index spec) (normalizedTimeBase (sp_time_base spec))
        (if bool_decide (sp_media_type spec = Video)
         then mkAVRational (if 0 <? sp_fps spec then sp_fps spec else 25) 1 else mkAVRational 0 0)
        (avMediaTypeFrom (sp_media_type spec)) (sp_codec_id spec) 0 (sp_bit_rate spec) (sp_width spec)
        (sp_height spec) (sp_sample_rate spec) (sp_channels spec) extradata in
    match copyExtradata (mx_alloc_extradata an n) (sp_extradata spec) with
    | None => (None, streams ++ [stream None])
    | Some extradata => (Some (mkOutputStreamState spec n), streams ++ [stream extradata])
    end.

(** [emplace]: the first spec of an input index wins. *)
Definition emplace_state (k : Z) (v : OutputStreamState) (m : gmap Z OutputStreamState) : gmap Z OutputStreamState :=
  match m !! k with Some _ => m | None => <[k := v]> m end.

Fixpoint add_output_streams (an : mux_answers) (specs : list RtspStreamSpec) (streams : list OutStream)
    (states : gmap Z OutputStreamState) : option (gmap Z OutputStreamState * list OutStream) :=
  match specs with
  | [] => Some (states, streams)
  | spec :: specs =>
      match addOutputStream an streams spec with
      | (None, _) => None
      | (Some st, streams) =>
          add_output_streams an specs streams (emplace_state (sp_input_stream_index spec) st states)
      end
  end.

Definition buildOutputStreamMap (an : mux_answers) (specs : list RtspStreamSpec)
  : option (gmap Z OutputStreamState * list OutStream) := add_output_streams an specs [] ∅.

(** What [avformat_write_header] leaves. *)
Definition settle_time_bases (an : mux_answers) (streams : list OutStream) : list OutStream :=
  (fun s => mkOutStream (os_index s) (os_id s) (mx_time_base an s) (os_avg_frame_rate s) (os_codec_type s)
     (os_codec_id s) (os_codec_tag s) (os_bit_rate s) (os_width s) (os_height s) (os_sample_rate s)
     (os_channels s) (os_extradata s)) <$> streams.

(** *** What the states point at *)

(** Every state points at the stream of its own input, with its parameters. *)
Definition states_match (states : gmap Z OutputStreamState) (streams : list OutStream) : Prop :=
  forall i st, states !! i = Some st ->
    sp_input_stream_index (ot_spec st) = i /\
    exists s, streams !! ot_stream st = Some s /\ os_index s = Z.of_nat (ot_stream st) /\
      os_id s = i /\ os_codec_id s = sp_codec_id (ot_spec st) /\
      os_codec_type s = avMediaTypeFrom (sp_media_type (ot_spec st)).

Lemma add_output_streams_spec an specs : forall streams states states' streams',
  states_match states streams ->
  add_output_streams an specs streams states = Some (states', streams') ->
  states_match states' streams' /\ length streams' = (length streams + length specs)%nat /\
  (forall i, is_Some (states' !! i) <-> is_Some (states !! i) \/ i ∈ (sp_input_stream_index <$> specs)).
Proof.
  induction specs as [|spec specs IH]; intros streams states states' streams' Hm; cbn.
  { intros [= <- <-]. split; [done|]. split; [lia|]. intros i. split; [by left|].
    intros [?|?%elem_of_nil]; done. }
  unfold addOutputStream. destruct (negb _); [done|].
  destruct (copyExtradata _ _) as [extradata|]; [|done].
  set (s := mkOutStream _ _ _ _ _ _ _ _ _ _ _ _ _). set (i := sp_input_stream_index spec).
  set (st := mkOutputStreamState spec (length streams)). intros Hadd.
  apply IH in Hadd as (Hm' & Hlen & Hdom).
  - split; [done|]. split; [rewrite Hlen, length_app; cbn; lia|].
    intros j. rewrite Hdom, elem_of_cons. unfold emplace_state. destruct (states !! i) as [x|] eqn:Ei.
    + split; [tauto|]. intros [?|[->|?]]; [by left| |by right]. left. by exists x.
    + rewrite lookup_insert_is_Some'. split; [intros [[->|?]|?]; tauto|]. intros [?|[->|?]]; tauto.
  - intros j x Hj. unfold emplace_state in Hj.
    assert (Hold : states !! j = Some x -> sp_input_stream_index (ot_spec x) = j /\
              exists s', (streams ++ [s]) !! ot_stream x = Some s' /\ os_index s' = Z.of_nat (ot_stream x) /\
                os_id s' = j /\ os_codec_id s' = sp_codec_id (ot_spec x) /\
                os_codec_type s' = avMediaTypeFrom (sp_media_type (ot_spec x))).
    { intros Hx. destruct (Hm j x Hx) as (? & s' & Hs & ?). split; [done|]. exists s'.
      split; [by apply lookup_app_l_Some|done]. }
    destruct (states !! i) as [y|]; [by apply Hold|].
    apply lookup_insert_Some in Hj as [[<- <-]|[_ Hj]]; [|by apply Hold].
    split; [done|]. exists s. split; [|done]. cbn. by rewrite lookup_app_r, Nat.sub_diag.
Qed.

(** A track layout that is built at all has one output stream per spec, a state for
    exactly the input indexes of the specs, and every state points at the output stream
    made for its input, with its media type and codec. *)
Theorem buildOutputStreamMap_spec (an : mux_answers) (specs : list RtspStreamSpec)
    (states : gmap Z OutputStreamState) (streams : list OutStream)
    (Hb : buildOutputStreamMap an specs = Some (states, streams)) :
  length streams = length specs /\
  (forall i, is_Some (states !! i) <-> i ∈ (sp_input_stream_index <$> specs)) /\
  states_match states streams.
Proof.
  apply add_output_streams_spec in Hb as (Hm & Hlen & Hdom); [|intros i st; by rewrite lookup_empty].
  split; [done|]. split; [|done]. intros i. rewrite Hdom, lookup_empty. split; [|tauto].
  intros [[? ?]|?]; done.
Qed.

(** ** RtspPublisher *)

(** The muxer: contexts and I/O handles alive, the number of writes tried, and the
    packets accepted, oldest first. *)
Record MuxWorld := mkMuxWorld {
  mu_contexts : Z; mu_handles : Z; mu_tries : nat; mu_written : list AVPacket;
}.

Record RtspPublisher := mkRtspPublisher {
  rp_stream_id : string;
  rp_output_url : string;
  rp_input_streams : list RtspStreamSpec;
  rp_streams : gmap Z OutputStreamState;
  rp_format_context : option OutContext;
  rp_configured : bool;
}.
Definition RtspPublisher_new : RtspPublisher := mkRtspPublisher "" "" [] ∅ None false.

Section Publisher.
(** [av_packet_rescale_ts]; whether the [n]-th write is accepted; whether a packet can be
    referenced. *)
Context (av_packet_rescale_ts : AVPacket -> AVRational -> AVRational -> AVPacket)
        (write_ok : nat -> bool) (ref_ok : AVPacket -> bool).

Definition rp_closeLocked (p : RtspPublisher) (w : MuxWorld) : RtspPublisher * MuxWorld :=
  (mkRtspPublisher (rp_stream_id p) (rp_output_url p) (rp_input_streams p) ∅ None false,
   match rp_format_context p with
   | None => w
   | Some c => mkMuxWorld (mu_contexts w - 1)
                 (if negb (oc_nofile c) && oc_pb c then mu_handles w - 1 else mu_handles w)
                 (mu_tries w) (mu_written w)
   end).

(** Every error path frees what it opened, so a failure leaves the world as it was. *)
Definition rp_openLocked (an : mux_answers) (p : RtspPublisher) (w : MuxWorld) : bool * RtspPublisher * MuxWorld :=
  if str_empty (rp_output_url p) || bool_decide (rp_input_streams p = []) then (false, p, w)
  else if negb (mx_alloc an) then (false, p, w)
  else match buildOutputStreamMap an (rp_input_streams p) with
  | None => (false, p, w)
  | Some (stream_map, streams) =>
      if negb (mx_nofile an) && negb (mx_open_io an) then (false, p, w)
      else if negb (mx_header an) then (false, p, w)
      else
        let c := mkOutContext (settle_time_bases an streams) (mx_nofile an) (negb (mx_nofile an)) in
        (true,
         mkRtspPublisher (rp_stream_id p) (rp_output_url p) (rp_input_streams p) stream_map (Some c) true,
         mkMuxWorld (mu_contexts w + 1) (if mx_nofile an then mu_handles w else mu_handles w + 1)
           (mu_tries w) (mu_written w))
  end.

Definition rp_configure (an : mux_answers) (stream_id output_url : string) (input_streams : list RtspStreamSpec)
    (p : RtspPublisher) (w : MuxWorld) : bool * RtspPublisher * MuxWorld :=
  let '(p, w) := rp_closeLocked p w in
  let p := mkRtspPublisher stream_id output_url input_streams (rp_streams p) (rp_format_context p) (rp_configured p) in
  if str_empty output_url || bool_decide (input_streams = []) then (false, p, w) else rp_openLocked an p w.

(** The packet handed to the muxer for [s]. *)
Definition mux_packet (packet : AVPacket) (spec : RtspStreamSpec) (s : OutStream) : AVPacket :=
  av_packet_rescale_ts
    (mkAVPacket (pkt_data packet) (os_index s) (pkt_pts packet) (pkt_dts packet) (pkt_duration packet)
       (pkt_flags packet) (-1))
    (sp_time_base spec) (os_time_base s).

Definition rp_writePacketLocked (packet : AVPacket) (p : RtspPublisher) (w : MuxWorld) : bool * MuxWorld :=
  match rp_streams p !! pkt_stream_index packet, rp_format_context p with
  | Some st, Some c =>
      match oc_streams c !! ot_stream st with
      | None => (false, w)
      | Some s =>
          if negb (ref_ok packet) then (false, w)
          else
            let accepted := write_ok (mu_tries w) in
            (accepted,
             mkMuxWorld (mu_contexts w) (mu_handles w) (S (mu_tries w))
               (if accepted then mu_written w ++ [mux_packet packet (ot_spec st) s] else mu_written w))
      end
  | _, _ => (false, w)
  end.

Definition rp_writePacket (an : mux_answers) (packet : AVPacket) (p : RtspPublisher) (w : MuxWorld)
  : bool * RtspPublisher * MuxWorld :=
  if negb (rp_configured p) || bool_decide (rp_format_context p = None) then (false, p, w)
  else match rp_writePacketLocked packet p w with
  | (true, w) => (true, p, w)
  | (false, w) =>
      let '(p, w) := rp_closeLocked p w in
      match rp_openLocked an p w with
      | (false, p, w) => (false, p, w)
      | (true, p, w) => let '(ok, w) := rp_writePacketLocked packet p w in (ok, p, w)
      end
  end.

Definition rp_close (p : RtspPublisher) (w : MuxWorld) : RtspPublisher * MuxWorld :=
  let '(p, w) := rp_closeLocked p w in
  (mkRtspPublisher (rp_stream_id p) "" [] (rp_streams p) (rp_format_context p) (rp_configured p), w).

(** *** Invariant *)

Record rp_wf (p : RtspPublisher) (w : MuxWorld) : Prop := {
  wf_configured : rp_configured p = true <-> is_Some (rp_format_context p);
  wf_contexts : mu_contexts w = match rp_format_context p with Some _ => 1 | None => 0 end;
  wf_handles : mu_handles w =
    match rp_format_context p with Some c => if oc_nofile c then 0 else 1 | None => 0 end;
  wf_pb c : rp_format_context p = Some c -> oc_pb c = negb (oc_nofile c);
  wf_streams : match rp_format_context p with
               | None => rp_streams p = ∅
               | Some c => states_match (rp_streams p) (oc_streams c)
               end;
}.

Lemma states_match_settle an states streams :
  states_match states streams -> states_match states (settle_time_bases an streams).
Proof.
  intros Hm i st Hi. destruct (Hm i st Hi) as (? & s & Hs & ?). split; [done|].
  unfold settle_time_bases. eexists. split; [by rewrite list_lookup_fmap, Hs|]. done.
Qed.

Lemma rp_close_wf p w p' w' :
  rp_wf p w -> rp_closeLocked p w = (p', w') -> rp_wf p' w' /\ rp_format_context p' = None.
Proof.
  intros [Hc Hn Hh Hp Hs]. unfold rp_closeLocked. intros [= <- <-]. split; [|done].
  split; cbn; [split; [done|by intros [? ?]]| | |done|done]; destruct (rp_format_context p) as [c|]; cbn;
    [lia | done | | done].
  rewrite (Hp c) by done. destruct (oc_nofile c); cbn; lia.
Qed.

Lemma rp_open_wf an p w ok p' w' :
  rp_wf p w -> rp_format_context p = None -> rp_openLocked an p w = (ok, p', w') ->
  rp_wf p' w' /\ (ok = true <-> is_Some (rp_format_context p')) /\ mu_tries w' = mu_tries w /\
  mu_written w' = mu_written w.
Proof.
  intros Hwf Hnone. unfold rp_openLocked.
  assert (Hid : forall ok p' w', (false, p, w) = (ok, p', w') -> rp_wf p' w' /\
            (ok = true <-> is_Some (rp_format_context p')) /\ mu_tries w' = mu_tries w /\ mu_written w' = mu_written w).
  { intros ? ? ? [= <- <- <-]. split; [done|]. split; [|done]. rewrite Hnone. split; [done|]. by intros [? ?]. }
  destruct (_ || _); [apply Hid|]. destruct (negb (mx_alloc an)); [apply Hid|].
  destruct (buildOutputStreamMap an _) as [[states streams]|] eqn:Hb; [|apply Hid].
  destruct (_ && _); [apply Hid|]. destruct (negb (mx_header an)); [apply Hid|].
  apply add_output_streams_spec in Hb as (Hm & _ & _); [|intros i st; by rewrite lookup_empty].
  intros [= <- <- <-]. destruct Hwf as [Hc Hn Hh Hp Hs]. rewrite Hnone in *.
  split; [|by split; [split; [by eexists|]|]].
  split; cbn; [split; [by eexists|done] | lia | destruct (mx_nofile an); lia | by intros c [= <-] |].
  by apply states_match_settle.
Qed.

Lemma rp_writeLocked_wf packet p w ok w' :
  rp_wf p w -> rp_writePacketLocked packet p w = (ok, w') -> rp_wf p w'.
Proof.
  intros [Hc Hn Hh Hp Hs]. unfold rp_writePacketLocked.
  destruct (rp_streams p !! _) as [st|]; [|by intros [= <- <-]; split].
  destruct (rp_format_context p) as [c|] eqn:Ec; [|by intros [= <- <-]; split; rewrite ?Ec].
  destruct (oc_streams c !! _); [|by intros [= <- <-]; split; rewrite ?Ec].
  destruct (negb _); intros [= <- <-]; by split; rewrite ?Ec.
Qed.

Inductive rp_call :=
| PubConfigure (an : mux_answers) (stream_id output_url : string) (input_streams : list RtspStreamSpec)
| PubWrite (an : mux_answers) (packet : AVPacket)
| PubClose.

Definition rp_apply (c : rp_call) (p : RtspPublisher) (w : MuxWorld) : bool * RtspPublisher * MuxWorld :=
  match c with
  | PubConfigure an id url specs => rp_configure an id url specs p w
  | PubWrite an packet => rp_writePacket an packet p w
  | PubClose => let '(p, w) := rp_close p w in (true, p, w)
  end.

Lemma rp_wf_rename p w id url specs :
  rp_wf p w ->
  rp_wf (mkRtspPublisher id url specs (rp_streams p) (rp_format_context p) (rp_configured p)) w.
Proof. intros []. by split. Qed.

Lemma rp_apply_wf c p w ok p' w' : rp_wf p w -> rp_apply c p w = (ok, p', w') -> rp_wf p' w'.
Proof.
  intros Hwf. destruct c as [an id url specs|an packet|]; cbn [rp_apply].
  - unfold rp_configure. destruct (rp_closeLocked p w) as [p1 w1] eqn:Hc.
    apply rp_close_wf in Hc as [H1 Hn]; [|done]. apply (rp_wf_rename _ _ id url specs) in H1.
    destruct (_ || _); [by intros [= <- <- <-]|]. intros Ho. by apply rp_open_wf in Ho as (? & _).
  - unfold rp_writePacket. destruct (_ || _); [by intros [= <- <- <-]|].
    destruct (rp_writePacketLocked packet p w) as [[|] w1] eqn:H1; apply rp_writeLocked_wf in H1; try done.
    { by intros [= <- <- <-]. }
    destruct (rp_closeLocked p w1) as [p2 w2] eqn:H2. apply rp_close_wf in H2 as [H2 Hn]; [|done].
    destruct (rp_openLocked an p2 w2) as [[[|] p3] w3] eqn:H3; apply rp_open_wf in H3 as (H3 & _); try done;
      [|by intros [= <- <- <-]].
    destruct (rp_writePacketLocked packet p3 w3) as [ok4 w4] eqn:H4. apply rp_writeLocked_wf in H4; [|done].
    by intros [= <- <- <-].
  - unfold rp_close. destruct (rp_closeLocked p w) as [p1 w1] eqn:Hc.
    apply rp_close_wf in Hc as [H1 _]; [|done]. intros [= <- <- <-]. by apply rp_wf_rename.
Qed.

Fixpoint rp_run (cs : list rp_call) (p : RtspPublisher) (w : MuxWorld) : RtspPublisher * MuxWorld :=
  match cs with
  | [] => (p, w)
  | c :: cs => let '(_, p, w) := rp_apply c p w in rp_run cs p w
  end.

(** Whatever is configured, written and closed, and whatever FFmpeg answers, the
    publisher holds an output context exactly while it is configured, with its I/O
    handle, its tracks point into that context, and closing leaves no context and no
    handle open. *)
Theorem publisher_resources (cs : list rp_call) (tries : nat) (written : list AVPacket) :
  let '(p, w) := rp_run cs RtspPublisher_new (mkMuxWorld 0 0 tries written) in
  rp_wf p w /\ mu_contexts (rp_close p w).2 = 0 /\ mu_handles (rp_close p w).2 = 0.
Proof.
  assert (Hrun : forall cs p w, rp_wf p w -> let '(p', w') := rp_run cs p w in rp_wf p' w').
  { clear. induction cs as [|c cs IH]; intros p w Hwf; cbn; [done|].
    destruct (rp_apply c p w) as [[ok p1] w1] eqn:Ha. apply IH. by eapply rp_apply_wf. }
  specialize (Hrun cs RtspPublisher_new (mkMuxWorld 0 0 tries written)).
  destruct (rp_run _ _ _) as [p w]. assert (Hwf : rp_wf p w).
  { apply Hrun. split; cbn; done. }
  split; [done|]. unfold rp_close. destruct (rp_closeLocked p w) as [p1 w1] eqn:Hc.
  apply rp_close_wf in Hc as [[_ Hn Hh _ _] E]; [|done]. by rewrite E in Hn, Hh.
Qed.

(** *** Writing *)

(** The packet the muxer is offered for [packet]. *)
Definition offered (packet : AVPacket) (p : RtspPublisher) : option AVPacket :=
  match rp_streams p !! pkt_stream_index packet, rp_format_context p with
  | Some st, Some c => mux_packet packet (ot_spec st) <$> oc_streams c !! ot_stream st
  | _, _ => None
  end.

Lemma rp_writeLocked_spec packet p w ok w' :
  rp_writePacketLocked packet p w = (ok, w') ->
  (mu_tries w <= mu_tries w' <= S (mu_tries w))%nat /\
  (if ok then exists m, offered packet p = Some m /\ mu_written w' = mu_written w ++ [m]
   else mu_written w' = mu_written w).
Proof.
  unfold rp_writePacketLocked, offered.
  destruct (rp_streams p !! _) as [st|]; [|by intros [= <- <-]; split; [lia|]].
  destruct (rp_format_context p) as [c|]; [|by intros [= <- <-]; split; [lia|]].
  destruct (oc_streams c !! _) as [s|]; [|by intros [= <- <-]; split; [lia|]].
  destruct (negb _); intros [= <- <-]; cbn; [by split; [lia|]|]. split; [lia|].
  destruct (write_ok _); [by eexists|done].
Qed.

(** Publishing a packet offers it to the muxer at most twice, the second time after
    reopening the output, and reports success exactly when the packet went out, once;
    when it fails nothing went out.  If the output cannot be reopened the publisher is
    left unconfigured. *)
Theorem writePacket_spec (an : mux_answers) (packet : AVPacket) (p : RtspPublisher) (w : MuxWorld)
    (Hwf : rp_wf p w) :
  let '(ok, p', w') := rp_writePacket an packet p w in
  (mu_tries w' <= 2 + mu_tries w)%nat /\
  (if ok then exists m, (offered packet p = Some m \/ offered packet p' = Some m) /\
                mu_written w' = mu_written w ++ [m]
   else mu_written w' = mu_written w) /\
  (rp_configured p' = false -> ok = false).
Proof.
  unfold rp_writePacket.
  destruct (rp_configured p) eqn:Ecfg; cbn [negb orb]; [|by split; [lia|]].
  case_bool_decide as En; [by split; [lia|]|].
  destruct (rp_writePacketLocked packet p w) as [[|] w1] eqn:H1;
    pose proof (rp_writeLocked_spec _ _ _ _ _ H1) as [Ht1 Hw1]; apply rp_writeLocked_wf in H1 as Hwf1; try done.
  { split; [lia|]. destruct Hw1 as (m & ? & ?). split; [exists m; auto|congruence]. }
  destruct (rp_closeLocked p w1) as [p2 w2] eqn:H2.
  assert (E2 : mu_tries w2 = mu_tries w1 /\ mu_written w2 = mu_written w1).
  { unfold rp_closeLocked in H2. injection H2 as <- <-. by destruct (rp_format_context p). }
  destruct E2 as [Et2 Ew2]. apply rp_close_wf in H2 as [H2 Hn]; [|done].
  destruct (rp_openLocked an p2 w2) as [[[|] p3] w3] eqn:H3; apply rp_open_wf in H3 as (H3 & Hok & Et3 & Ew3); try done.
  - destruct (rp_writePacketLocked packet p3 w3) as [ok w4] eqn:H4.
    pose proof (rp_writeLocked_spec _ _ _ _ _ H4) as [Ht4 Hw4].
    split; [lia|]. split.
    + destruct ok; [|congruence]. destruct Hw4 as (m & ? & ->). exists m. split; [auto|congruence].
    + destruct H3 as [Hc _ _ _ _]. intros E. rewrite (proj2 Hc) in E by tauto. done.
  - split; [lia|]. split; [congruence|done].
Qed.

(** After a failed reopen the publisher is dead: until it is configured again, every
    write fails without the muxer being tried or the output being reopened, however
    available the server is. *)
Theorem publisher_dead_after_failed_reopen (an : mux_answers) (packet : AVPacket) (p : RtspPublisher)
    (w : MuxWorld) (cs : list (mux_answers * AVPacket))
    (Hconf : rp_configured p = true) (Hwf : rp_wf p w)
    (Hfail : (rp_writePacketLocked packet p w).1 = false)
    (Hreopen : mx_alloc an = false \/ mx_header an = false) :
  let '(ok, p', w') := rp_writePacket an packet p w in
  ok = false /\ rp_run ((fun x => PubWrite x.1 x.2) <$> cs) p' w' = (p', w').
Proof.
  assert (Hdead : forall p' w', rp_configured p' = false ->
            rp_run ((fun x => PubWrite x.1 x.2) <$> cs) p' w' = (p', w')).
  { clear. intros p' w' Hd. induction cs as [|x cs' IH]; [done|]. cbn. unfold rp_writePacket at 1. by rewrite Hd. }
  unfold rp_writePacket. rewrite Hconf. cbn [negb orb].
  case_bool_decide as En; [by apply (wf_configured p w Hwf) in Hconf as [? ?]; congruence|].
  destruct (rp_writePacketLocked packet p w) as [ok1 w1] eqn:H1. cbn in Hfail. subst ok1.
  unfold rp_closeLocked. set (p2 := mkRtspPublisher _ _ _ _ _ _). set (w2 := match _ with None => _ | Some _ => _ end).
  assert (Hno : rp_openLocked an p2 w2 = (false, p2, w2)).
  { unfold rp_openLocked. destruct (_ || _); [done|]. destruct Hreopen as [->| ->]; [done|].
    destruct (negb (mx_alloc an)); [done|]. destruct (buildOutputStreamMap _ _) as [[? ?]|]; [|done].
    by destruct (_ && _). }
  rewrite Hno. split; [done|]. by apply Hdead.
Qed.
End Publisher.

(** *** Concrete runs *)

Definition ex_spec (index : Z) (t : MediaType) : RtspStreamSpec :=
  mkRtspStreamSpec AV_CODEC_ID_H264 (mkAVRational 1 90000) 25 0 64 48 [1; 2] t index 0 0.
Definition ex_mux (header : bool) : mux_answers :=
  mkMuxAnswers true (fun _ => true) (fun _ => true) true true header (fun _ => mkAVRational 1 1000).
Definition ex_rescale_ts (p : AVPacket) (a b : AVRational) : AVPacket :=
  let f v := v * av_num a * av_den b / (av_den a * av_num b) in
  mkAVPacket (pkt_data p) (pkt_stream_index p) (f (pkt_pts p)) (f (pkt_dts p)) (pkt_duration p) (pkt_flags p) (pkt_pos p).
Definition ex_mux_pkt : AVPacket := mkAVPacket (Some [1]) 4 90000 90000 0 0 7.

Lemma buildOutputStreamMap_spec_witness :
  exists states streams, buildOutputStreamMap (ex_mux true) [ex_spec 4 Video; ex_spec 2 Audio] = Some (states, streams) /\
    length streams = 2%nat /\ is_Some (states !! 2).
Proof.
  eexists _, _. split; [vm_compute; reflexivity|].
  destruct (buildOutputStreamMap_spec (ex_mux true) [ex_spec 4 Video; ex_spec 2 Audio] _ _ eq_refl) as (Hl & Hd & _).
  split; [exact Hl|]. apply Hd. cbn. right. left.
Defined.

Definition ex_configured : bool * RtspPublisher * MuxWorld :=
  rp_configure (ex_mux true) "s" "rtsp://out" [ex_spec 4 Video; ex_spec 2 Audio] RtspPublisher_new
    (mkMuxWorld 0 0 0 []).
Definition ex_pub : RtspPublisher := ex_configured.1.2.
Definition ex_pub_world : MuxWorld := ex_configured.2.
(** The muxer refuses its first packet. *)
Definition ex_refuse_first (n : nat) : bool := negb (Nat.eqb n 0).

Lemma ex_pub_wf : rp_wf ex_pub ex_pub_world.
Proof.
  exact (rp_apply_wf ex_rescale_ts ex_refuse_first (fun _ => true)
           (PubConfigure (ex_mux true) "s" "rtsp://out" [ex_spec 4 Video; ex_spec 2 Audio])
           RtspPublisher_new (mkMuxWorld 0 0 0 []) true ex_pub ex_pub_world
           ltac:(split; cbn; done) eq_refl).
Defined.

(** The second try, on the reopened output, goes through. *)
Lemma writePacket_spec_witness :
  (rp_writePacket ex_rescale_ts ex_refuse_first (fun _ => true) (ex_mux true) ex_mux_pkt ex_pub ex_pub_world).1.1 = true /\
  let '(ok, p', w') :=
    rp_writePacket ex_rescale_ts ex_refuse_first (fun _ => true) (ex_mux true) ex_mux_pkt ex_pub ex_pub_world in
  (mu_tries w' <= 2 + mu_tries ex_pub_world)%nat /\ (rp_configured p' = false -> ok = false).
Proof.
  split; [by vm_compute|].
  pose proof (writePacket_spec ex_rescale_ts ex_refuse_first (fun _ => true) (ex_mux true) ex_mux_pkt ex_pub
                ex_pub_world ex_pub_wf) as Hs.
  destruct (rp_writePacket _ _ _ _ _ _ _) as [[ok p'] w']. by destruct Hs as (? & _ & ?).
Defined.

(** One refused packet and one failed reopen. *)
Lemma publisher_dead_after_failed_reopen_witness :
  let '(ok, p', w') :=
    rp_writePacket ex_rescale_ts ex_refuse_first (fun _ => true) (ex_mux false) ex_mux_pkt ex_pub ex_pub_world in
  ok = false /\
  rp_run ex_rescale_ts ex_refuse_first (fun _ => true)
    ((fun x => PubWrite x.1 x.2) <$> replicate 100 (ex_mux true, ex_mux_pkt)) p' w' = (p', w').
Proof.
  apply (publisher_dead_after_failed_reopen ex_rescale_ts ex_refuse_first (fun _ => true) (ex_mux false) ex_mux_pkt
           ex_pub ex_pub_world (replicate 100 (ex_mux true, ex_mux_pkt)) eq_refl ex_pub_wf);
    [by vm_compute | by right].
Defined.
