(* ===== verification/Recorder.v ===== *)
(** * Recorder (src/src/stream/Recorder.h, Recorder.cpp)

    The alarm recorder of a stream: it caches the packets since the last keyframe and,
    once an alarm asks for a recording, writes that cache and the packets that follow to
    a file until a deadline that later alarms push back.  FFmpeg, the file system and the
    clocks are arguments.  [std::filesystem::create_directories] throws on an error, and
    nothing on the way up catches it: [None] stands for the exception. *)
From S2P Require Import Prelude Float32 Messages Common Mux.

Definition kDefaultRecordDurationS : Z := 10.

Definition sameStreamSpec (lhs rhs : RtspStreamSpec) : bool :=
  bool_decide (sp_media_type lhs = sp_media_type rhs) &&
  (sp_input_stream_index lhs =? sp_input_stream_index rhs) && (sp_sample_rate lhs =? sp_sample_rate rhs) &&
  (sp_channels lhs =? sp_channels rhs) && sameStreamCodecParams lhs rhs.

Fixpoint sameStreamSpecs (l r : list RtspStreamSpec) : bool :=
  match l, r with
  | [], [] => true
  | x :: l, y :: r => sameStreamSpec x y && sameStreamSpecs l r
  | _, _ => false
  end.

(** ** File names *)

Fixpoint has_slash (s : string) : bool :=
  match s with
  | EmptyString => false
  | String c s => Ascii.eqb c (Ascii.ascii_of_nat 47) || has_slash s
  end.

(** [parent_path() / ("." + filename())]. *)
Fixpoint hidden_name (visible_name : string) : string :=
  if has_slash visible_name
  then match visible_name with
       | String c s => String c (hidden_name s)
       | EmptyString => EmptyString
       end
  else String.append "." visible_name.

Definition makeHiddenRecordingName (visible_name : string) : string := hidden_name visible_name.

(** [timestamp] is [makeTimestamp()]. *)
Definition buildRecordingFileName (timestamp stream_id extension : string) : string :=
  let date_dir := String.substring 0 8 timestamp in
  let stream_dir := sanitizeFileComponent stream_id in
  let file_name := String.append stream_dir (String.append "_" (String.append timestamp
                     (String.append "." extension))) in
  String.append date_dir (String.append "/" (String.append stream_dir (String.append "/" file_name))).

(** [base / relative]. *)
Definition path_join (base relative : string) : string :=
  String.append base (String.append "/" relative).

(** ** The recorder *)

Record Recorder := mkRecorder {
  rc_stream_id : string;
  rc_base_dir : string;
  rc_record_file_name : string;
  rc_record_tmp_file_name : string;
  rc_stream_specs : list RtspStreamSpec;
  rc_deadline_ms : Z;
  rc_start_pts_us : Z;
  rc_fmt_ctx : option OutContext;
  rc_stream_states : gmap Z OutputStreamState;
  rc_gop_cache : list AVPacket;
  rc_record_format : string;
}.
Definition Recorder_new : Recorder := mkRecorder "" "" "" "" [] 0 (-1) None ∅ [] "flv".

(** The outside: contexts alive, writes tried, the packets in the file being written (each
    with the packet it was made from), and the finished files, oldest first. *)
Record RecWorld := mkRecWorld {
  rw_contexts : Z;
  rw_tries : nat;
  rw_open : list (AVPacket * AVPacket);
  rw_files : list (string * list (AVPacket * AVPacket));
}.

(** The answers while a recording is opened. *)
Record record_answers := mkRecordAnswers { ra_timestamp : string; ra_dirs : bool; ra_mux : mux_answers }.

Definition rc_with_format (fmt : string) (r : Recorder) : Recorder :=
  mkRecorder (rc_stream_id r) (rc_base_dir r) (rc_record_file_name r) (rc_record_tmp_file_name r)
    (rc_stream_specs r) (rc_deadline_ms r) (rc_start_pts_us r) (rc_fmt_ctx r) (rc_stream_states r)
    (rc_gop_cache r) fmt.
Definition rc_with_deadline (d : Z) (r : Recorder) : Recorder :=
  mkRecorder (rc_stream_id r) (rc_base_dir r) (rc_record_file_name r) (rc_record_tmp_file_name r)
    (rc_stream_specs r) d (rc_start_pts_us r) (rc_fmt_ctx r) (rc_stream_states r) (rc_gop_cache r)
    (rc_record_format r).
Definition rc_with_start (s : Z) (r : Recorder) : Recorder :=
  mkRecorder (rc_stream_id r) (rc_base_dir r) (rc_record_file_name r) (rc_record_tmp_file_name r)
    (rc_stream_specs r) (rc_deadline_ms r) s (rc_fmt_ctx r) (rc_stream_states r) (rc_gop_cache r)
    (rc_record_format r).
Definition rc_with_cache (l : list AVPacket) (r : Recorder) : Recorder :=
  mkRecorder (rc_stream_id r) (rc_base_dir r) (rc_record_file_name r) (rc_record_tmp_file_name r)
    (rc_stream_specs r) (rc_deadline_ms r) (rc_start_pts_us r) (rc_fmt_ctx r) (rc_stream_states r) l
    (rc_record_format r).

Definition setRecordFormat (fmt : string) (r : Recorder) : Recorder :=
  if str_eqb fmt "flv" || str_eqb fmt "mp4" then rc_with_format fmt r else r.

Definition rc_isConfigured (r : Recorder) : bool :=
  negb (str_empty (rc_stream_id r)) && negb (str_empty (rc_base_dir r)).
Definition rc_isActive (r : Recorder) : bool := match rc_fmt_ctx r with Some _ => true | None => false end.

Section Recorder.
(** FFmpeg's time-base conversions, whether the [n]-th write is accepted, whether a
    packet can be cloned, and whether a file can be renamed. *)
Context (av_rescale_q : Z -> AVRational -> AVRational -> Z)
        (av_packet_rescale_ts : AVPacket -> AVRational -> AVRational -> AVPacket)
        (write_ok : nat -> bool) (clone_ok : AVPacket -> bool) (rename_ok : string -> string -> bool).

Definition AV_TIME_BASE_Q : AVRational := mkAVRational 1 1000000.

Definition rc_close (r : Recorder) (w : RecWorld) : Recorder * RecWorld :=
  let closed (ctx : option OutContext) (states : gmap Z OutputStreamState) :=
    mkRecorder (rc_stream_id r) (rc_base_dir r) "" "" (rc_stream_specs r) 0 (-1) ctx states (rc_gop_cache r)
      (rc_record_format r) in
  match rc_fmt_ctx r with
  | None => (closed None (rc_stream_states r), w)
  | Some _ =>
      let tmp_path := path_join (rc_base_dir r) (rc_record_tmp_file_name r) in
      let final_path := path_join (rc_base_dir r) (rc_record_file_name r) in
      (closed None ∅,
       mkRecWorld (rw_contexts w - 1) (rw_tries w) []
         (rw_files w ++ [(if rename_ok tmp_path final_path then final_path else tmp_path, rw_open w)]))
  end.

Definition clearPacketCache (r : Recorder) : Recorder := rc_with_cache [] r.

Definition normalized_spec (spec : RtspStreamSpec) : RtspStreamSpec :=
  mkRtspStreamSpec (sp_codec_id spec) (normalizedTimeBase (sp_time_base spec))
    (if bool_decide (sp_media_type spec = Video) then (if 0 <? sp_fps spec then sp_fps spec else 25) else sp_fps spec)
    (sp_bit_rate spec) (sp_width spec) (sp_height spec) (sp_extradata spec) (sp_media_type spec)
    (sp_input_stream_index spec) (sp_sample_rate spec) (sp_channels spec).

Definition rc_configure (stream_id base_dir : string) (specs : list RtspStreamSpec) (r : Recorder) (w : RecWorld)
  : bool * Recorder * RecWorld :=
  if str_empty stream_id || str_empty base_dir || bool_decide (specs = []) then (false, r, w)
  else
    let normalized_specs := normalized_spec <$> specs in
    let has_video_stream := existsb (fun s => bool_decide (sp_media_type s = Video)) specs in
    if negb has_video_stream then (false, r, w)
    else
      let params_changed := negb (str_eqb (rc_stream_id r) stream_id) || negb (str_eqb (rc_base_dir r) base_dir) ||
                            negb (sameStreamSpecs (rc_stream_specs r) normalized_specs) in
      let '(r, w) := if params_changed then let '(r, w) := rc_close r w in (clearPacketCache r, w) else (r, w) in
      (true,
       mkRecorder stream_id base_dir (rc_record_file_name r) (rc_record_tmp_file_name r) normalized_specs
         (rc_deadline_ms r) (rc_start_pts_us r) (rc_fmt_ctx r) (rc_stream_states r) (rc_gop_cache r)
         (rc_record_format r), w).

(** [std::find_if] on the input index. *)
Fixpoint find_spec (stream_index : Z) (specs : list RtspStreamSpec) : option RtspStreamSpec :=
  match specs with
  | [] => None
  | s :: specs => if sp_input_stream_index s =? stream_index then Some s else find_spec stream_index specs
  end.

Definition isVideoPacket (packet : AVPacket) (r : Recorder) : bool :=
  match find_spec (pkt_stream_index packet) (rc_stream_specs r) with
  | Some s => bool_decide (sp_media_type s = Video)
  | None => false
  end.

Definition hasVideoStream (r : Recorder) : bool :=
  existsb (fun s => bool_decide (sp_media_type s = Video)) (rc_stream_specs r).

Definition is_key_packet (packet : AVPacket) (r : Recorder) : bool :=
  isVideoPacket packet r && negb (Z.land (pkt_flags packet) AV_PKT_FLAG_KEY =? 0).

Definition cachePacket (packet : AVPacket) (r : Recorder) : Recorder :=
  let is_keyframe := is_key_packet packet r in
  let r := if is_keyframe then rc_with_cache [] r else r in
  if bool_decide (rc_gop_cache r = []) && negb is_keyframe then r
  else if negb (clone_ok packet) then r
  else rc_with_cache (rc_gop_cache r ++ [packet]) r.

(** The packet handed to the muxer, given the time of the recording's first packet. *)
Definition recorded_packet (packet : AVPacket) (start_pts_us : Z) (spec : RtspStreamSpec) (s : OutStream) : AVPacket :=
  let shift (t : Z) :=
    if t =? AV_NOPTS_VALUE then t
    else av_rescale_q (Z.max 0 (av_rescale_q t (sp_time_base spec) AV_TIME_BASE_Q - start_pts_us))
           AV_TIME_BASE_Q (os_time_base s) in
  let mux :=
    mkAVPacket (pkt_data packet) (os_index s) (pkt_pts packet) (pkt_dts packet) (pkt_duration packet)
      (pkt_flags packet) (-1) in
  let mux :=
    if 0 <=? start_pts_us
    then mkAVPacket (pkt_data mux) (pkt_stream_index mux) (shift (pkt_pts mux)) (shift (pkt_dts mux))
           (pkt_duration mux) (pkt_flags mux) (pkt_pos mux)
    else av_packet_rescale_ts mux (sp_time_base spec) (os_time_base s) in
  if 0 <? pkt_duration mux
  then mkAVPacket (pkt_data mux) (pkt_stream_index mux) (pkt_pts mux) (pkt_dts mux)
         (av_rescale_q (pkt_duration mux) (sp_time_base spec) (os_time_base s)) (pkt_flags mux) (pkt_pos mux)
  else mux.

Definition recording_start (packet : AVPacket) (start_pts_us : Z) (spec : RtspStreamSpec) : Z :=
  let first_ts := if pkt_dts packet =? AV_NOPTS_VALUE then pkt_pts packet else pkt_dts packet in
  if (start_pts_us <? 0) && negb (first_ts =? AV_NOPTS_VALUE)
  then av_rescale_q first_ts (sp_time_base spec) AV_TIME_BASE_Q else start_pts_us.

Definition writePacketInternal (packet : AVPacket) (r : Recorder) (w : RecWorld) : bool * Recorder * RecWorld :=
  match rc_fmt_ctx r, rc_stream_states r !! pkt_stream_index packet with
  | Some c, Some st =>
      match oc_streams c !! ot_stream st with
      | None => (false, r, w)
      | Some s =>
          if negb (clone_ok packet) then (false, r, w)
          else
            let start := recording_start packet (rc_start_pts_us r) (ot_spec st) in
            let accepted := write_ok (rw_tries w) in
            (accepted, rc_with_start start r,
             mkRecWorld (rw_contexts w) (S (rw_tries w))
               (if accepted then rw_open w ++ [(packet, recorded_packet packet start (ot_spec st) s)] else rw_open w)
               (rw_files w))
      end
  | _, _ => (false, r, w)
  end.

Fixpoint flush_packets (packets : list AVPacket) (r : Recorder) (w : RecWorld) : bool * Recorder * RecWorld :=
  match packets with
  | [] => (true, r, w)
  | p :: packets =>
      match writePacketInternal p r w with
      | (false, r, w) => (false, r, w)
      | (true, r, w) => flush_packets packets r w
      end
  end.

Definition flushCachedGop (r : Recorder) (w : RecWorld) : bool * Recorder * RecWorld :=
  flush_packets (rc_gop_cache r) r w.

Definition openRecording (an : record_answers) (r : Recorder) (w : RecWorld) : option (bool * Recorder * RecWorld) :=
  let named (file tmp : string) (start : Z) (ctx : option OutContext) (states : gmap Z OutputStreamState) :=
    mkRecorder (rc_stream_id r) (rc_base_dir r) file tmp (rc_stream_specs r) (rc_deadline_ms r) start ctx states
      (rc_gop_cache r) (rc_record_format r) in
  let file := buildRecordingFileName (ra_timestamp an) (rc_stream_id r) (rc_record_format r) in
  let tmp := makeHiddenRecordingName file in
  let failed := named "" "" (rc_start_pts_us r) (rc_fmt_ctx r) (rc_stream_states r) in
  let mux := ra_mux an in
  if negb (ra_dirs an) then None
  else if negb (mx_alloc mux) then Some (false, failed, w)
  else match buildOutputStreamMap mux (rc_stream_specs r) with
  | None => Some (false, failed, w)
  | Some (states, streams) =>
      if negb (mx_nofile mux) && negb (mx_open_io mux) then Some (false, failed, w)
      else if negb (mx_header mux) then Some (false, failed, w)
      else
        let c := mkOutContext (settle_time_bases mux streams) (mx_nofile mux) (negb (mx_nofile mux)) in
        Some (true, named file tmp (-1) (Some c) states,
              mkRecWorld (rw_contexts w + 1) (rw_tries w) [] (rw_files w))
  end.

Definition rc_start (an : record_answers) (r : Recorder) (w : RecWorld) : option (bool * Recorder * RecWorld) :=
  if rc_isActive r then Some (true, r, w)
  else if negb (rc_isConfigured r) then Some (false, r, w)
  else match openRecording an r w with
  | None => None
  | Some (false, r, w) => Some (false, r, w)
  | Some (true, r, w) =>
      match flushCachedGop r w with
      | (true, r, w) => Some (true, r, w)
      | (false, r, w) => let '(r, w) := rc_close r w in Some (false, r, w)
      end
  end.

Definition requestRecording (an : record_answers) (duration_s now_ms : Z) (r : Recorder) (w : RecWorld)
  : option (bool * Recorder * RecWorld) :=
  if negb (rc_isConfigured r) then Some (false, r, w)
  else
    let normalized_duration_s := Z.max duration_s kDefaultRecordDurationS in
    let requested_deadline_ms := now_ms + normalized_duration_s * 1000 in
    let r := rc_with_deadline (Z.max (rc_deadline_ms r) requested_deadline_ms) r in
    if rc_isActive r then Some (true, r, w) else rc_start an r w.

Definition closeExpired (now_ms : Z) (r : Recorder) (w : RecWorld) : Recorder * RecWorld :=
  if rc_isActive r && (0 <? rc_deadline_ms r) && (rc_deadline_ms r <=? now_ms) then rc_close r w else (r, w).

Definition appendPacket (now_ms : Z) (packet : AVPacket) (r : Recorder) (w : RecWorld) : bool * Recorder * RecWorld :=
  if bool_decide (pkt_data packet = None) || (pkt_size packet <=? 0) then (false, r, w)
  else
    let '(r, w) := closeExpired now_ms r w in
    let r := cachePacket packet r in
    if negb (rc_isActive r) then (true, r, w)
    else match writePacketInternal packet r w with
         | (true, r, w) => (true, r, w)
         | (false, r, w) => let '(r, w) := rc_close r w in (false, r, w)
         end.

(** ** What a recording holds *)

(** The operations of the publishing and inference threads on a configured recorder,
    which hold its mutex. *)
Inductive rec_op :=
| RecAppend (now_ms : Z) (packet : AVPacket)
| RecRequest (an : record_answers) (duration_s now_ms : Z).

(** The recorder and the world after the operations; [None] when one throws. *)
Fixpoint rec_run (ops : list rec_op) (r : Recorder) (w : RecWorld) : option (Recorder * RecWorld) :=
  match ops with
  | [] => Some (r, w)
  | RecAppend now packet :: ops => let '(_, r, w) := appendPacket now packet r w in rec_run ops r w
  | RecRequest an duration now :: ops =>
      match requestRecording an duration now r w with
      | None => None
      | Some (_, r, w) => rec_run ops r w
      end
  end.

Definition appended (ops : list rec_op) : list AVPacket :=
  omap (fun o => match o with RecAppend _ p => Some p | RecRequest _ _ _ => None end) ops.

(** Nothing is lost on the way to the file. *)
Definition lossless : Prop := (forall n, write_ok n = true) /\ (forall p, clone_ok p = true).

(** A packet of one of the configured tracks, with data. *)
Definition track_packet (specs : list RtspStreamSpec) (p : AVPacket) : Prop :=
  0 < pkt_size p /\ pkt_stream_index p ∈ (sp_input_stream_index <$> specs).

Definition op_ok (specs : list RtspStreamSpec) (o : rec_op) : Prop :=
  match o with RecAppend _ p => track_packet specs p | RecRequest _ _ _ => True end.

(** The content of a file: the packets it was made from. *)
Definition sources (l : list (AVPacket * AVPacket)) : list AVPacket := l.*1.

(** [cache] holds what was appended from the last keyframe on; nothing before the first. *)
Definition last_gop (is_key : AVPacket -> bool) (h cache : list AVPacket) : Prop :=
  (exists before, h = before ++ cache) /\
  match cache with
  | [] => Forall (fun p => is_key p = false) h
  | k :: l => is_key k = true /\ Forall (fun p => is_key p = false) l
  end.

(** [h] is everything appended so far. *)
Record rec_inv (specs : list RtspStreamSpec) (h : list AVPacket) (r : Recorder) (w : RecWorld) : Prop := {
  ri_specs : rc_stream_specs r = specs;
  ri_tracks : Forall (track_packet specs) h;
  ri_cache : last_gop (fun p => is_key_packet p r) h (rc_gop_cache r);
  (** the open file is the end of the history too, from that keyframe on or longer *)
  ri_open : rc_isActive r = true ->
    (exists before, h = before ++ sources (rw_open w)) /\ exists before, sources (rw_open w) = before ++ rc_gop_cache r;
  (** an open recording has a track for every spec *)
  ri_states : match rc_fmt_ctx r with
              | None => True
              | Some c => states_match (rc_stream_states r) (oc_streams c) /\
                          forall i, i ∈ (sp_input_stream_index <$> specs) -> is_Some (rc_stream_states r !! i)
              end;
  (** a finished file is a stretch of the history *)
  ri_files : Forall (fun f => exists before after, h = before ++ sources f.2 ++ after) (rw_files w);
  ri_contexts : rw_contexts w = if rc_isActive r then 1 else 0;
}.

Lemma is_key_specs p r r' : rc_stream_specs r = rc_stream_specs r' -> is_key_packet p r = is_key_packet p r'.
Proof. unfold is_key_packet, isVideoPacket. by intros ->. Qed.

Lemma rec_inv_close specs h r w r' w' :
  rec_inv specs h r w -> rc_close r w = (r', w') -> rec_inv specs h r' w' /\ rc_fmt_ctx r' = None /\
  rc_gop_cache r' = rc_gop_cache r.
Proof.
  intros [Hs Ht Hc Ho Hst Hf Hn]. unfold rc_close, rc_isActive in *.
  destruct (rc_fmt_ctx r) as [c|] eqn:Ec; intros [= <- <-]; (split; [|done]); split; cbn; try done.
  - apply Forall_app. split; [done|]. constructor; [|constructor]. destruct (Ho eq_refl) as [[before ->] _].
    exists before, []. by rewrite app_nil_r.
  - lia.
Qed.

Lemma rec_inv_closeExpired specs h now r w r' w' :
  rec_inv specs h r w -> closeExpired now r w = (r', w') -> rec_inv specs h r' w'.
Proof.
  intros Hi. unfold closeExpired. destruct (_ && _); [|by intros [= <- <-]].
  intros Hc. by apply (rec_inv_close _ _ _ _ _ _ Hi) in Hc as (? & _).
Qed.

(** Writing a packet of a track always succeeds and adds it to the file. *)
Lemma write_track specs r w c p :
  lossless -> rc_fmt_ctx r = Some c -> states_match (rc_stream_states r) (oc_streams c) ->
  (forall i, i ∈ (sp_input_stream_index <$> specs) -> is_Some (rc_stream_states r !! i)) ->
  track_packet specs p ->
  exists start m, writePacketInternal p r w =
    (true, rc_with_start start r, mkRecWorld (rw_contexts w) (S (rw_tries w)) (rw_open w ++ [(p, m)]) (rw_files w)).
Proof.
  intros [Hw Hcl] Hc Hm Hdom [_ Hp]. unfold writePacketInternal. rewrite Hc.
  destruct (Hdom _ Hp) as [st Hst]. rewrite Hst. destruct (Hm _ _ Hst) as (_ & s & -> & _).
  rewrite Hcl, Hw. cbn. by eexists _, _.
Qed.

Lemma flush_tracks specs c ps : forall r w,
  lossless -> rc_fmt_ctx r = Some c -> states_match (rc_stream_states r) (oc_streams c) ->
  (forall i, i ∈ (sp_input_stream_index <$> specs) -> is_Some (rc_stream_states r !! i)) ->
  Forall (track_packet specs) ps ->
  exists start w', flush_packets ps r w = (true, rc_with_start start r, w') /\
    sources (rw_open w') = sources (rw_open w) ++ ps /\ rw_files w' = rw_files w /\ rw_contexts w' = rw_contexts w.
Proof.
  induction ps as [|p ps IH]; intros r w Hl Hc Hm Hdom Hps; cbn.
  { exists (rc_start_pts_us r), w. rewrite app_nil_r. by destruct r. }
  apply Forall_cons in Hps as [Hp Hps].
  destruct (write_track specs r w c p Hl Hc Hm Hdom Hp) as (start & m & ->).
  destruct (IH (rc_with_start start r) (mkRecWorld (rw_contexts w) (S (rw_tries w)) (rw_open w ++ [(p, m)]) (rw_files w))
              Hl Hc Hm Hdom Hps) as (start' & w' & -> & Ho & Hf & Hn).
  exists start', w'. split; [done|]. split; [|done]. rewrite Ho. unfold sources. cbn.
  by rewrite fmap_app, <- app_assoc.
Qed.

Lemma rec_inv_deadline specs h d r w : rec_inv specs h r w -> rec_inv specs h (rc_with_deadline d r) w.
Proof. intros []. by split. Qed.

(** The file names are not part of it. *)
Lemma rec_inv_names specs h r w file tmp :
  rec_inv specs h r w ->
  rec_inv specs h
    (mkRecorder (rc_stream_id r) (rc_base_dir r) file tmp (rc_stream_specs r) (rc_deadline_ms r)
       (rc_start_pts_us r) (rc_fmt_ctx r) (rc_stream_states r) (rc_gop_cache r) (rc_record_format r)) w.
Proof. intros []. by split. Qed.

Lemma rec_inv_request specs h an duration now r w ok r' w' :
  lossless -> rec_inv specs h r w -> requestRecording an duration now r w = Some (ok, r', w') ->
  rec_inv specs h r' w' /\ rc_gop_cache r' = rc_gop_cache r.
Proof.
  intros Hl Hi. unfold requestRecording. destruct (negb _); [by intros [= <- <- <-]|].
  set (d := Z.max _ (_ + _)). apply (rec_inv_deadline _ _ d) in Hi.
  set (r1 := rc_with_deadline d r) in *. change (rc_gop_cache r) with (rc_gop_cache r1). clearbody r1.
  unfold rc_start. destruct (rc_isActive r1) eqn:Ea; [by intros [= <- <- <-]|].
  destruct (negb _); [by intros [= <- <- <-]|].
  assert (Ec : rc_fmt_ctx r1 = None) by (unfold rc_isActive in Ea; by destruct (rc_fmt_ctx r1)).
  pose proof (rec_inv_names _ _ _ _ "" "" Hi) as Hfail.
  destruct Hi as [Hs Ht Hc Ho Hst Hf Hn].
  unfold openRecording. destruct (negb (ra_dirs an)); [done|].
  set (failed := mkRecorder _ _ _ _ _ _ _ _ _ _ _).
  destruct (negb (mx_alloc _)); [by intros [= <- <- <-]|].
  destruct (buildOutputStreamMap _ _) as [[states streams]|] eqn:Hb; [|by intros [= <- <- <-]].
  destruct (_ && _); [by intros [= <- <- <-]|]. destruct (negb (mx_header _)); [by intros [= <- <- <-]|].
  apply add_output_streams_spec in Hb as (Hm & _ & Hdom); [|intros i st; by rewrite lookup_empty].
  apply (states_match_settle (ra_mux an)) in Hm. rewrite Hs in Hdom.
  set (c := mkOutContext _ _ _). set (r2 := mkRecorder _ _ _ _ _ _ _ _ _ _ _). set (w2 := mkRecWorld _ _ _ _).
  assert (Hdom' : forall i, i ∈ (sp_input_stream_index <$> specs) -> is_Some (rc_stream_states r2 !! i))
    by (intros i Hin; apply Hdom; by right).
  assert (Hps : Forall (track_packet specs) (rc_gop_cache r2)).
  { destruct Hc as [[before ->] _]. by apply Forall_app in Ht as [_ ?]. }
  unfold flushCachedGop.
  destruct (flush_tracks specs c (rc_gop_cache r2) r2 w2 Hl eq_refl Hm Hdom' Hps) as (start & w3 & -> & Ho3 & Hf3 & Hn3).
  intros [= <- <- <-]. split; [|done]. split; cbn; try done.
  - intros _. rewrite Ho3. split; [apply Hc|by exists []].
  - by rewrite Hf3.
  - rewrite Hn3. cbn. unfold rc_isActive in Hn. rewrite Ec in Hn. lia.
Qed.

(** The cache after another packet. *)
Lemma cache_last_gop h p r :
  lossless -> last_gop (fun p => is_key_packet p r) h (rc_gop_cache r) ->
  exists cache, cachePacket p r = rc_with_cache cache r /\ last_gop (fun p => is_key_packet p r) (h ++ [p]) cache /\
    (forall l, (exists before, l = before ++ rc_gop_cache r) -> exists before, l ++ [p] = before ++ cache) /\
    (rc_gop_cache r <> [] \/ is_key_packet p r = true -> cache <> []).
Proof.
  intros [_ Hcl] [[b Hb] Hk]. unfold cachePacket. rewrite Hcl. cbn [negb]. destruct (is_key_packet p r) eqn:Ek; cbn.
  - exists [p]. split; [done|]. split; [|split; [intros l _; by exists l|done]]. split; [by exists h|by split].
  - destruct (rc_gop_cache r) as [|k l] eqn:E; cbn.
    + exists []. split; [by destruct r; cbn in *; rewrite E|].
      split; [|split; [intros l' _; exists (l' ++ [p]); by rewrite app_nil_r|by intros [?|?]]].
      split; [exists (h ++ [p]); by rewrite app_nil_r|]. apply Forall_app. split; [done|by constructor].
    + destruct Hk as [Hk Hl']. exists (k :: l ++ [p]). split; [done|].
      split; [|split; [intros l' [b' ->]; exists b'; by rewrite <- app_assoc|done]].
      split; [exists b; by rewrite Hb, <- app_assoc|]. split; [done|]. apply Forall_app. split; [done|by constructor].
Qed.

(** Appending a packet to the history and to the cache. *)
Lemma rec_inv_append specs h now p r w :
  lossless -> rec_inv specs h r w -> track_packet specs p ->
  let '(_, r', w') := appendPacket now p r w in
  rec_inv specs (h ++ [p]) r' w' /\
  (rc_gop_cache r <> [] \/ is_key_packet p r = true -> rc_gop_cache r' <> []).
Proof.
  intros Hl Hi Hp. unfold appendPacket.
  assert (Hsz : bool_decide (pkt_data p = None) || (pkt_size p <=? 0) = false).
  { destruct Hp as [Hsz _]. apply orb_false_iff. split; [|apply Z.leb_gt; lia].
    apply bool_decide_eq_false. intros E. unfold pkt_size in Hsz. rewrite E in Hsz. lia. }
  rewrite Hsz. destruct (closeExpired now r w) as [r1 w1] eqn:Hce.
  assert (Hg1 : rc_gop_cache r1 = rc_gop_cache r /\ rc_stream_specs r1 = rc_stream_specs r).
  { unfold closeExpired, rc_close in Hce. destruct (_ && _); [destruct (rc_fmt_ctx r)|]; by injection Hce as <- <-. }
  destruct Hg1 as [Hg1 Hsp1]. rewrite <- Hg1, <- (is_key_specs p _ _ Hsp1).
  apply (rec_inv_closeExpired _ _ _ _ _ _ _ Hi) in Hce as Hi1. clear Hi Hce Hg1 Hsp1 r w Hsz.
  destruct Hi1 as [Hs Ht Hc Ho Hst Hf Hn].
  destruct (cache_last_gop h p r1 Hl Hc) as (cache & -> & Hc' & Hext & Hne).
  set (r2 := rc_with_cache cache r1).
  assert (Hfiles : Forall (fun f => exists before after, h ++ [p] = before ++ sources f.2 ++ after) (rw_files w1)).
  { eapply Forall_impl; [exact Hf|]. intros f (b & a & ->). exists b, (a ++ [p]). by rewrite <- !app_assoc. }
  assert (Htr : Forall (track_packet specs) (h ++ [p])) by (apply Forall_app; split; [done|by constructor]).
  destruct (rc_isActive r2) eqn:Ea; cbn [negb].
  - change (rc_isActive r2) with (rc_isActive r1) in Ea. rewrite Ea in Hn.
    unfold rc_isActive in Ea. destruct (rc_fmt_ctx r1) as [c|] eqn:Ec; [|done]. destruct Hst as [Hm Hdom].
    destruct (write_track specs r2 w1 c p Hl Ec Hm Hdom Hp) as (start & m & ->).
    split; [|exact Hne]. split; cbn; try done.
    + intros _. unfold rc_isActive in Ho. rewrite Ec in Ho. destruct (Ho eq_refl) as [[b ->] Hsuf].
      unfold sources. rewrite fmap_app. split; [exists b; by rewrite app_assoc|by apply Hext].
    + by rewrite Ec.
    + unfold rc_isActive. cbn. by rewrite Ec.
  - split; [|exact Hne]. split; cbn; try done. by intros E; rewrite E in Ea.
Qed.

Lemma rec_inv_run specs ops : forall h r w r' w',
  lossless -> Forall (op_ok specs) ops -> rec_inv specs h r w -> rec_run ops r w = Some (r', w') ->
  rec_inv specs (h ++ appended ops) r' w' /\ (rc_gop_cache r <> [] -> rc_gop_cache r' <> []).
Proof.
  induction ops as [|o ops IH]; intros h r w r' w' Hl Hok Hi; cbn.
  { intros [= <- <-]. by rewrite app_nil_r. }
  apply Forall_cons in Hok as [Ho Hok]. destruct o as [now p|an d now]; cbn.
  - pose proof (rec_inv_append specs h now p r w Hl Hi Ho) as Ha.
    destruct (appendPacket now p r w) as [[ok r1] w1]. destruct Ha as [Hi1 Hc1]. intros Hr.
    destruct (IH _ _ _ _ _ Hl Hok Hi1 Hr) as [Hi2 Hc2]. rewrite <- app_assoc in Hi2. split; [done|]. auto.
  - destruct (requestRecording _ _ _ _ _) as [[[ok r1] w1]|] eqn:Hq; [|done]. intros Hr.
    destruct (rec_inv_request _ _ _ _ _ _ _ _ _ _ Hl Hi Hq) as [Hi1 Hc1].
    destruct (IH _ _ _ _ _ Hl Hok Hi1 Hr) as [Hi2 Hc2]. split; [done|]. rewrite Hc1 in Hc2. done.
Qed.

(** C34: With no loss in between, on packets of the configured tracks, and whatever
    alarms, deadlines and failed openings come: everything in the open file and in each
    finished file is an unbroken stretch of the packets appended, in order, each once;
    the open file ends with the last packet appended and goes back to the last keyframe at
    least; the cache is the tail of the packets from the last keyframe on, with no other
    keyframe in it, and empty before the first one; and one output context is alive exactly
    while a file is open. *)
Theorem recording_contiguous (specs : list RtspStreamSpec) (ops : list rec_op) (r r' : Recorder)
    (w w' : RecWorld)
    (Hl : lossless) (Hok : Forall (op_ok specs) ops) (Hi : rec_inv specs [] r w)
    (Hrun : rec_run ops r w = Some (r', w')) :
  (rc_isActive r' = true -> (exists before, appended ops = before ++ sources (rw_open w')) /\
     exists before, sources (rw_open w') = before ++ rc_gop_cache r') /\
  Forall (fun f => exists before after, appended ops = before ++ sources f.2 ++ after) (rw_files w') /\
  last_gop (fun p => is_key_packet p r') (appended ops) (rc_gop_cache r') /\
  rw_contexts w' = if rc_isActive r' then 1 else 0.
Proof. by destruct (rec_inv_run specs ops [] r w r' w' Hl Hok Hi Hrun) as [[] _]. Qed.

(** A request throws only when the directory of a new recording cannot be created. *)
Lemma requestRecording_throws (an : record_answers) (duration_s now_ms : Z) (r : Recorder) (w : RecWorld) :
  requestRecording an duration_s now_ms r w = None -> ra_dirs an = false.
Proof.
  unfold requestRecording, rc_start, openRecording. intros Hn. destruct (ra_dirs an); [|done]. exfalso. revert Hn.
  cbn [negb]. repeat case_match; done.
Qed.

(** A request for [duration_s] seconds at [now_ms] that starts a recording writes
    exactly the cached packets, from the last keyframe to now, and sets the deadline to
    the latest of the old one and [max duration_s 10] seconds from now; on an open
    recording it only moves the deadline; with no space for its directory it throws. *)
Theorem requestRecording_spec (specs : list RtspStreamSpec) (h : list AVPacket) (an : record_answers)
    (duration_s now_ms : Z) (r : Recorder) (w : RecWorld)
    (Hl : lossless) (Hi : rec_inv specs h r w) (Hconf : rc_isConfigured r = true) :
  let deadline := Z.max (rc_deadline_ms r) (now_ms + Z.max duration_s kDefaultRecordDurationS * 1000) in
  match requestRecording an duration_s now_ms r w with
  | None => ra_dirs an = false /\ rc_isActive r = false
  | Some (ok, r', w') =>
      rc_deadline_ms r' = deadline /\ rc_gop_cache r' = rc_gop_cache r /\
      (rc_isActive r = true -> ok = true /\ w' = w) /\
      (rc_isActive r = false -> ok = true -> rc_isActive r' = true /\ sources (rw_open w') = rc_gop_cache r) /\
      (ok = false -> rc_isActive r' = false /\ w' = w)
  end.
Proof.
  intros deadline. unfold requestRecording. rewrite Hconf. cbn [negb].
  fold deadline. set (r1 := rc_with_deadline deadline r).
  change (rc_isActive r1) with (rc_isActive r). unfold rc_start.
  change (rc_isActive r1) with (rc_isActive r).
  destruct (rc_isActive r) eqn:Ea; [done|].
  change (rc_isConfigured r1) with (rc_isConfigured r). rewrite Hconf. cbn [negb].
  unfold openRecording. destruct (ra_dirs an); cbn [negb]; [|done].
  assert (Ec : rc_fmt_ctx r = None) by (unfold rc_isActive in Ea; by destruct (rc_fmt_ctx r)).
  set (failed := mkRecorder _ _ _ _ _ _ _ _ _ _ _).
  assert (Hf : rc_isActive failed = false) by (unfold rc_isActive; cbn; by rewrite Ec).
  destruct (negb (mx_alloc _)); [by split_and!|].
  destruct (buildOutputStreamMap _ _) as [[states streams]|] eqn:Hb; [|by split_and!].
  destruct (_ && _); [by split_and!|]. destruct (negb (mx_header _)); [by split_and!|].
  destruct Hi as [Hs Ht Hc _ _ _ _].
  apply add_output_streams_spec in Hb as (Hm & _ & Hdom); [|intros i st; by rewrite lookup_empty].
  apply (states_match_settle (ra_mux an)) in Hm. cbn in Hdom. rewrite Hs in Hdom.
  set (c := mkOutContext _ _ _). set (r2 := mkRecorder _ _ _ _ _ _ _ _ _ _ _). set (w2 := mkRecWorld _ _ _ _).
  assert (Hdom' : forall i, i ∈ (sp_input_stream_index <$> specs) -> is_Some (rc_stream_states r2 !! i))
    by (intros i Hin; apply Hdom; by right).
  assert (Hps : Forall (track_packet specs) (rc_gop_cache r2)).
  { destruct Hc as [[before Hh] _]. rewrite Hh in Ht. by apply Forall_app in Ht as [_ ?]. }
  unfold flushCachedGop.
  destruct (flush_tracks specs c (rc_gop_cache r2) r2 w2 Hl eq_refl Hm Hdom' Hps) as (start & w3 & -> & Ho3 & _).
  split_and!; done.
Qed.

(** Caching a packet changes nothing but the cache. *)
Lemma cachePacket_cache p r : exists cache, cachePacket p r = rc_with_cache cache r.
Proof.
  assert (Hsame : r = rc_with_cache (rc_gop_cache r) r) by by destruct r.
  unfold cachePacket. destruct (is_key_packet p r); cbn.
  - destruct (negb (clone_ok p)); by eexists.
  - destruct (_ && true); [by eexists|]. destruct (negb (clone_ok p)); by eexists.
Qed.

(** While a recording is open, a packet appended before the deadline is written and
    leaves it open; the first packet appended at or after the deadline finds the file
    finished under its visible name (its hidden one if it cannot be renamed), with
    everything written so far, and is not written. *)
Theorem recording_window (specs : list RtspStreamSpec) (h : list AVPacket) (now_ms : Z) (p : AVPacket)
    (r : Recorder) (w : RecWorld)
    (Hl : lossless) (Hi : rec_inv specs h r w) (Hp : track_packet specs p)
    (Hopen : rc_isActive r = true) (Hdeadline : 0 < rc_deadline_ms r) :
  let '(ok, r', w') := appendPacket now_ms p r w in
  ok = true /\
  if now_ms <? rc_deadline_ms r
  then rc_isActive r' = true /\ sources (rw_open w') = sources (rw_open w) ++ [p] /\ rw_files w' = rw_files w /\
       rc_deadline_ms r' = rc_deadline_ms r
  else rc_isActive r' = false /\
       rw_files w' = rw_files w ++
         [(let tmp := path_join (rc_base_dir r) (rc_record_tmp_file_name r) in
           let final := path_join (rc_base_dir r) (rc_record_file_name r) in
           if rename_ok tmp final then final else tmp, rw_open w)].
Proof.
  unfold appendPacket.
  assert (Hsz : bool_decide (pkt_data p = None) || (pkt_size p <=? 0) = false).
  { destruct Hp as [Hsz _]. apply orb_false_iff. split; [|apply Z.leb_gt; lia].
    apply bool_decide_eq_false. intros E. unfold pkt_size in Hsz. rewrite E in Hsz. lia. }
  rewrite Hsz. unfold closeExpired. rewrite Hopen, (proj2 (Z.ltb_lt 0 _)) by done.
  rewrite Z.ltb_antisym. destruct (rc_deadline_ms r <=? now_ms) eqn:E; cbn.
  - unfold rc_isActive in Hopen. unfold rc_close. destruct (rc_fmt_ctx r) as [c|]; [|done].
    set (closed := mkRecorder _ _ _ _ _ _ _ _ _ _ _).
    destruct (cachePacket_cache p closed) as [cache ->]. by cbn.
  - destruct (cachePacket_cache p r) as [cache ->].
    change (rc_isActive (rc_with_cache cache r)) with (rc_isActive r).
    rewrite Hopen. cbn [negb]. unfold rc_isActive in Hopen. destruct Hi as [_ _ _ _ Hst _ _].
    destruct (rc_fmt_ctx r) as [c|] eqn:Ec; [|done]. destruct Hst as [Hm Hdom].
    destruct (write_track specs (rc_with_cache cache r) w c p Hl Ec Hm Hdom Hp) as (start & m & ->).
    split; [done|]. unfold rc_isActive. cbn. rewrite Ec. unfold sources. by rewrite fmap_app.
Qed.

(** A fresh recorder, once configured, starts the invariant. *)
Lemma rec_inv_configured stream_id base_dir specs w ok r' w' :
  rw_contexts w = 0 -> rw_files w = [] ->
  rc_configure stream_id base_dir specs Recorder_new w = (ok, r', w') -> ok = true ->
  rec_inv (normalized_spec <$> specs) [] r' w'.
Proof.
  intros Hn Hf. unfold rc_configure. destruct (_ || _); [by intros [= <- <- <-]|].
  destruct (negb _); [by intros [= <- <- <-]|]. unfold rc_close. cbn.
  match goal with |- context [if ?b then _ else _] => destruct b end; cbn; intros [= <- <- <-] _;
    (split; cbn; [done|constructor|split; [by exists []|constructor]|done|done|by rewrite Hf|done]).
Qed.
End Recorder.

(** ** Concrete recordings *)

Definition ex_rescale_q (v : Z) (b c : AVRational) : Z := v * av_num b * av_den c / (av_den b * av_num c).
Definition ex_rec_pkt (t : Z) (key : bool) : AVPacket :=
  mkAVPacket (Some [t]) 4 t t 3600 (if key then 1 else 0) 0.
Definition ex_record (dirs : bool) : record_answers :=
  mkRecordAnswers "20240102_030405" dirs (ex_mux true).
Definition ex_specs : list RtspStreamSpec := [ex_spec 4 Video; ex_spec 2 Audio].

Abbreviation ex_rec_run := (rec_run ex_rescale_q ex_rescale_ts (fun _ => true) (fun _ => true) (fun _ _ => true)).

Definition ex_recorder : Recorder :=
  (rc_configure (fun _ _ => true) "cam/1" "/rec" ex_specs Recorder_new (mkRecWorld 0 0 [] [])).1.2.

(** Two pictures groups; the alarm comes in the second, 10 s pass. *)
Definition ex_ops : list rec_op :=
  [RecAppend 0 (ex_rec_pkt 0 true); RecAppend 40 (ex_rec_pkt 3600 false); RecAppend 80 (ex_rec_pkt 7200 true);
   RecAppend 120 (ex_rec_pkt 10800 false); RecRequest (ex_record true) 1 130; RecAppend 160 (ex_rec_pkt 14400 false);
   RecAppend 10130 (ex_rec_pkt 18000 false)].

Lemma ex_rec_inv : rec_inv (normalized_spec <$> ex_specs) [] ex_recorder (mkRecWorld 0 0 [] []).
Proof.
  by apply (rec_inv_configured (fun _ _ => true) "cam/1" "/rec" ex_specs (mkRecWorld 0 0 [] []) true).
Qed.

Lemma ex_ops_ok : Forall (op_ok (normalized_spec <$> ex_specs)) ex_ops.
Proof.
  repeat constructor; cbn; by left.
Qed.

(** The file starts at the second keyframe and ends before the deadline. *)
Lemma recording_contiguous_witness :
  exists r w, ex_rec_run ex_ops ex_recorder (mkRecWorld 0 0 [] []) = Some (r, w) /\
    (fun f => (f.1, pkt_pts <$> sources f.2)) <$> rw_files w =
      [("/rec/20240102/cam_1/cam_1_20240102_030405.flv"%string, [7200; 10800; 14400])] /\
    Forall (fun f => exists before after, appended ex_ops = before ++ sources f.2 ++ after) (rw_files w).
Proof.
  eexists _, _. split; [vm_compute; reflexivity|]. split; [vm_compute; reflexivity|].
  refine (proj1 (proj2 (recording_contiguous ex_rescale_q ex_rescale_ts (fun _ => true) (fun _ => true) (fun _ _ => true)
            (normalized_spec <$> ex_specs) ex_ops ex_recorder _ (mkRecWorld 0 0 [] []) _ _ ex_ops_ok ex_rec_inv _)));
    [by split | vm_compute; reflexivity].
Defined.

(** The state after the first [n] operations. *)
Definition ex_at (n : nat) : Recorder * RecWorld :=
  default (ex_recorder, mkRecWorld 0 0 [] []) (ex_rec_run (take n ex_ops) ex_recorder (mkRecWorld 0 0 [] [])).

Lemma ex_at_inv n :
  is_Some (ex_rec_run (take n ex_ops) ex_recorder (mkRecWorld 0 0 [] [])) ->
  rec_inv (normalized_spec <$> ex_specs) (appended (take n ex_ops)) (ex_at n).1 (ex_at n).2.
Proof.
  unfold ex_at. intros [[r w] Hr]. rewrite Hr. cbn.
  refine (proj1 (rec_inv_run ex_rescale_q ex_rescale_ts (fun _ => true) (fun _ => true) (fun _ _ => true)
    (normalized_spec <$> ex_specs) (take n ex_ops) [] ex_recorder (mkRecWorld 0 0 [] []) r w _ _ ex_rec_inv Hr)).
  - by split.
  - apply Forall_take, ex_ops_ok.
Qed.

(** The alarm comes after four packets: the file holds the last two. *)
Lemma requestRecording_spec_witness :
  match requestRecording ex_rescale_q ex_rescale_ts (fun _ => true) (fun _ => true) (fun _ _ => true)
          (ex_record true) 1 130 (ex_at 4).1 (ex_at 4).2 with
  | Some (ok, r', w') => rc_deadline_ms r' = 10130 /\ (ok = true -> pkt_pts <$> sources (rw_open w') = [7200; 10800])
  | None => False
  end.
Proof.
  pose proof (requestRecording_spec ex_rescale_q ex_rescale_ts (fun _ => true) (fun _ => true) (fun _ _ => true)
    (normalized_spec <$> ex_specs) (appended (take 4 ex_ops)) (ex_record true) 1 130 (ex_at 4).1 (ex_at 4).2
    ltac:(by split) (ex_at_inv 4 ltac:(vm_compute; by eexists)) ltac:(by vm_compute)) as Hs.
  destruct (requestRecording _ _ _ _ _ _ _ _ _ _) as [[[ok r'] w']|]; [|by destruct Hs].
  destruct Hs as (Hd & _ & _ & Ha & _). split.
  - rewrite Hd. by vm_compute.
  - intros Hok. destruct (Ha ltac:(by vm_compute) Hok) as [_ Hopen]. rewrite Hopen. by vm_compute.
Defined.

(** The packet at the deadline finishes the file. *)
Lemma recording_window_witness :
  let '(ok, r', w') := appendPacket ex_rescale_q ex_rescale_ts (fun _ => true) (fun _ => true) (fun _ _ => true)
    10130 (ex_rec_pkt 18000 false) (ex_at 5).1 (ex_at 5).2 in
  ok = true /\ rc_isActive r' = false /\ length (rw_files w') = 1%nat.
Proof.
  pose proof (recording_window ex_rescale_q ex_rescale_ts (fun _ => true) (fun _ => true) (fun _ _ => true)
    (normalized_spec <$> ex_specs) (appended (take 5 ex_ops)) 10130 (ex_rec_pkt 18000 false) (ex_at 5).1 (ex_at 5).2
    ltac:(by split) (ex_at_inv 5 ltac:(vm_compute; by eexists)) ltac:(split; [by vm_compute | by left])
    ltac:(by vm_compute) ltac:(by vm_compute)) as Hs.
  destruct (appendPacket _ _ _ _ _ _ _ _ _) as [[ok r'] w'].
  replace (10130 <? rc_deadline_ms (ex_at 5).1) with false in Hs by (by vm_compute).
  destruct Hs as (-> & -> & ->). split; [done|]. split; [done|]. by vm_compute.
Defined.

(** A packet without timestamps, or any packet while the first timestamps are
    negative, is rescaled by [av_packet_rescale_ts], which converts its duration, and then
    has its duration converted a second time: 3600 ticks of 1/90000 s become 0 ms instead
    of 40. *)
Theorem untimed_duration_rescaled_twice :
  let rescale_ts (p : AVPacket) (a b : AVRational) :=
    mkAVPacket (pkt_data p) (pkt_stream_index p) (pkt_pts p) (pkt_dts p) (ex_rescale_q (pkt_duration p) a b)
      (pkt_flags p) (pkt_pos p) in
  let s := mkOutStream 0 4 (mkAVRational 1 1000) (mkAVRational 25 1) AVMEDIA_TYPE_VIDEO AV_CODEC_ID_H264 0 0 64 48 0 0 None in
  pkt_duration (recorded_packet ex_rescale_q rescale_ts (ex_rec_pkt (-900) true) (-10000) (ex_spec 4 Video) s) = 0 /\
  pkt_duration (recorded_packet ex_rescale_q rescale_ts (ex_rec_pkt 900 true) 10000 (ex_spec 4 Video) s) = 40.
Proof. by vm_compute. Qed.
