(* ===== verification/Snapshot.v ===== *)
(** * Snapshotter (src/src/stream/Snapshotter.h, Snapshotter.cpp)

    The alarm snapshots of a stream: the decoded NV12 picture is copied, the boxes of the
    alarm's objects are drawn into the copy, and a JPEG file is written under a hidden
    name and renamed.  FFmpeg's encoder and scaler, the file system and the clocks are
    arguments; [None] stands for an undefined conversion of a float or for the exception
    [std::filesystem::create_directories] throws. *)
From S2P Require Import Prelude Float32 Messages Common Recorder.

Definition kBoxLuma : Z := 76.
Definition kBoxU : Z := 85.
Definition kBoxV : Z := 255.

(** ** Drawing *)

(** An NV12 [AVFrame]: [nv_luma] and [nv_chroma] give the byte at an offset of
    [data[0]] and [data[1]]. *)
Record AVFrame := mkAVFrame {
  nv_width : Z; nv_height : Z;
  nv_linesize0 : Z; nv_linesize1 : Z;
  nv_luma : Z -> Z; nv_chroma : Z -> Z;
}.

Definition set_byte (plane : Z -> Z) (offset v : Z) : Z -> Z := fun i => if i =? offset then v else plane i.

Definition clampCoord (value lower upper : Z) : Z := Z.max lower (Z.min value upper).

Definition paintPixelNv12 (x y : Z) (f : AVFrame) : AVFrame :=
  if (x <? 0) || (y <? 0) || (nv_width f <=? x) || (nv_height f <=? y) then f
  else
    let uv_x := x / 2 * 2 in
    let uv_row := y / 2 * nv_linesize1 f in
    mkAVFrame (nv_width f) (nv_height f) (nv_linesize0 f) (nv_linesize1 f)
      (set_byte (nv_luma f) (y * nv_linesize0 f + x) kBoxLuma)
      (set_byte (set_byte (nv_chroma f) (uv_row + uv_x) kBoxU) (uv_row + uv_x + 1) kBoxV).

(** [for (v = from; v <= to; ++v)] and [for (offset = 0; offset < n; ++offset)]. *)
Definition for_range (from to : Z) (body : Z -> AVFrame -> AVFrame) (f : AVFrame) : AVFrame :=
  foldl (fun f v => body v f) f (seqZ from (to - from + 1)).

Definition drawHorizontalLine (x0 x1 y thickness : Z) (f : AVFrame) : AVFrame :=
  for_range 0 (thickness - 1) (fun offset f => for_range x0 x1 (fun x f => paintPixelNv12 x (y + offset) f) f) f.

Definition drawVerticalLine (x y0 y1 thickness : Z) (f : AVFrame) : AVFrame :=
  for_range 0 (thickness - 1) (fun offset f => for_range y0 y1 (fun y f => paintPixelNv12 (x + offset) y f) f) f.

(** [static_cast<int>(v * extent)]. *)
Definition scale_coord (v : float32) (extent : Z) : option Z := f32_to_int (f32_mul v (f32_of_Z extent)).

Definition f32_half : float32 := f32_div f32_one (f32_of_Z 2).

(** The corners of a box, clamped to the frame: left, top, right, bottom. *)
Definition box_corners (box : Box) (width height : Z) : option (Z * Z * Z * Z) :=
  let half_width := f32_mul (box_width box) f32_half in
  let half_height := f32_mul (box_height box) f32_half in
  match scale_coord (f32_sub (box_cx box) half_width) width, scale_coord (f32_sub (box_cy box) half_height) height,
        scale_coord (f32_add (box_cx box) half_width) width, scale_coord (f32_add (box_cy box) half_height) height with
  | Some l, Some t, Some r, Some b =>
      Some (clampCoord l 0 (width - 1), clampCoord t 0 (height - 1),
            clampCoord r 0 (width - 1), clampCoord b 0 (height - 1))
  | _, _, _, _ => None
  end.

Definition box_thickness (width height : Z) : Z := Z.max 2 (Z.quot (Z.min width height) 180).

Definition draw_box (corners : Z * Z * Z * Z) (thickness : Z) (f : AVFrame) : AVFrame :=
  let '(l, t, r, b) := corners in
  if (r <=? l) || (b <=? t) then f
  else
    let f := drawHorizontalLine l r t thickness f in
    let f := drawHorizontalLine l r (Z.max t (b - thickness + 1)) thickness f in
    let f := drawVerticalLine l t b thickness f in
    drawVerticalLine (Z.max l (r - thickness + 1)) t b thickness f.

Fixpoint drawBoxes (objects : list DetectionObject) (f : AVFrame) : option AVFrame :=
  match objects with
  | [] => Some f
  | object :: objects =>
      match box_corners (do_bbox object) (nv_width f) (nv_height f) with
      | None => None
      | Some corners => drawBoxes objects (draw_box corners (box_thickness (nv_width f) (nv_height f)) f)
      end
  end.

(** ** Copying the picture *)

(** [memcpy] of [n] bytes. *)
Definition copy_bytes (dst : Z -> Z) (dst_at : Z) (src : Z -> Z) (src_at n : Z) : Z -> Z :=
  fun i => if (dst_at <=? i) && (i <? dst_at + n) then src (src_at + (i - dst_at)) else dst i.

Definition copy_rows (dst : Z -> Z) (dst_linesize : Z) (src : Z -> Z) (src_at src_stride width rows : Z) : Z -> Z :=
  foldl (fun dst y => copy_bytes dst (y * dst_linesize) src (src_at + y * src_stride) width) dst (seqZ 0 rows).

(** [src] gives the byte at an offset of [image.virt_addr]. *)
Definition copyInputFrame (image : DmaImage) (src : Z -> Z) (f : AVFrame) : AVFrame :=
  let y_plane_size := img_width_stride image * img_height_stride image in
  mkAVFrame (nv_width f) (nv_height f) (nv_linesize0 f) (nv_linesize1 f)
    (copy_rows (nv_luma f) (nv_linesize0 f) src 0 (img_width_stride image) (img_width image) (img_height image))
    (copy_rows (nv_chroma f) (nv_linesize1 f) src y_plane_size (img_width_stride image) (img_width image)
       (Z.quot (img_height image) 2)).

(** ** The snapshotter *)

(** [sn_encoder] is set when the codec context, both frames and the scaler exist, with
    the input frame. *)
Record Snapshotter := mkSnapshotter {
  sn_stream_id : string;
  sn_base_dir : string;
  sn_snapshot_file_name : string;
  sn_encoder : option AVFrame;
  sn_frame_width : Z;
  sn_frame_height : Z;
}.
Definition Snapshotter_new : Snapshotter := mkSnapshotter "" "" "" None 0 0.

(** The answers during one [saveJpeg]: whether the encoder can be set up and with which
    frame, whether the input frame is writable, how many rows the scaler converted ([None]:
    the output frame is not writable), the encoded bytes, and the file operations. *)
Record snap_answers := mkSnapAnswers {
  sa_encoder : Z -> Z -> option AVFrame;
  sa_writable : bool;
  sa_convert : option Z;
  sa_encode : AVFrame -> option (list Z);
  sa_dirs : bool;
  sa_open : bool;
  sa_write : bool;
  sa_rename : bool;
  sa_timestamp : string;
  sa_now_ms : Z;
  sa_source : Z -> Z;
}.

(** The files written: their path and content, oldest first. *)
Definition SnapWorld : Type := list (string * list Z).

Fixpoint dec_digits (fuel : nat) (n : Z) : string :=
  match fuel with
  | O => ""
  | S fuel =>
      String.append (if n <? 10 then "" else dec_digits fuel (n / 10))
        (String (Ascii.ascii_of_nat (Z.to_nat (48 + n mod 10))) EmptyString)
  end.
(** [std::to_string] on a non-negative number below 10^20. *)
Definition to_string (n : Z) : string := dec_digits 20 n.

Definition buildSnapshotFileName (timestamp stream_id : string) (now_ms : Z) : string :=
  let date_dir := String.substring 0 8 timestamp in
  let millisecond_suffix := to_string (now_ms mod 1000) in
  let stream_dir := sanitizeFileComponent stream_id in
  let file_name := String.append stream_dir (String.append "_" (String.append timestamp
                     (String.append "_" (String.append millisecond_suffix ".jpg")))) in
  String.append date_dir (String.append "/" (String.append stream_dir (String.append "/" file_name))).

Definition makeHiddenSnapshotName (visible_name : string) : string := hidden_name visible_name.

Definition sn_isConfigured (s : Snapshotter) : bool :=
  negb (str_empty (sn_stream_id s)) && negb (str_empty (sn_base_dir s)).

Definition sn_close (s : Snapshotter) : Snapshotter :=
  mkSnapshotter (sn_stream_id s) (sn_base_dir s) "" None 0 0.

Definition sn_configure (stream_id base_dir : string) (s : Snapshotter) : bool * Snapshotter :=
  if str_empty stream_id || str_empty base_dir then (false, s)
  else
    let s := if negb (str_eqb (sn_stream_id s) stream_id) || negb (str_eqb (sn_base_dir s) base_dir)
             then sn_close s else s in
    (true, mkSnapshotter stream_id base_dir (sn_snapshot_file_name s) (sn_encoder s) (sn_frame_width s)
             (sn_frame_height s)).

Definition ensureEncoder (an : snap_answers) (width height : Z) (s : Snapshotter) : bool * Snapshotter :=
  let ready := match sn_encoder s with
               | Some _ => (width =? sn_frame_width s) && (height =? sn_frame_height s)
               | None => false
               end in
  if ready then (true, s)
  else
    let s := sn_close s in
    match sa_encoder an width height with
    | None => (false, s)
    | Some frame =>
        let input := mkAVFrame width height (nv_linesize0 frame) (nv_linesize1 frame) (nv_luma frame) (nv_chroma frame) in
        (true, mkSnapshotter (sn_stream_id s) (sn_base_dir s) (sn_snapshot_file_name s) (Some input) width height)
    end.

Definition convertInputFrame (an : snap_answers) (input : AVFrame) : bool :=
  match sa_convert an with None => false | Some scaled_height => scaled_height =? nv_height input end.

Definition writeSnapshotFile (an : snap_answers) (relative_file_name : string) (frame : AVFrame) (s : Snapshotter)
    (w : SnapWorld) : option (bool * Snapshotter * SnapWorld) :=
  if negb (convertInputFrame an frame) then Some (false, s, w)
  else match sa_encode an frame with
  | None => Some (false, s, w)
  | Some jpeg =>
      let tmp_path := path_join (sn_base_dir s) (makeHiddenSnapshotName relative_file_name) in
      let final_path := path_join (sn_base_dir s) relative_file_name in
      if negb (sa_dirs an) then None
      else if negb (sa_open an) then Some (false, s, w)
      else if negb (sa_write an) then Some (false, s, w ++ [(tmp_path, [])])
      else if negb (sa_rename an) then Some (false, s, w ++ [(tmp_path, jpeg)])
      else Some (true,
                 mkSnapshotter (sn_stream_id s) (sn_base_dir s) relative_file_name (sn_encoder s)
                   (sn_frame_width s) (sn_frame_height s), w ++ [(final_path, jpeg)])
  end.

Definition saveJpeg (an : snap_answers) (frame : FrameBundle) (objects : list DetectionObject) (s : Snapshotter)
    (w : SnapWorld) : option (bool * Snapshotter * SnapWorld) :=
  match fb_decoded_image frame with
  | Some image =>
      if negb (sn_isConfigured s) || bool_decide (objects = []) then Some (false, s, w)
      else if bool_decide (img_virt_addr image = None) || (img_width image <=? 0) || (img_height image <=? 0) ||
              (img_width_stride image <? img_width image) || (img_height_stride image <? img_height image)
      then Some (false, s, w)
      else
        let '(ok, s) := ensureEncoder an (img_width image) (img_height image) s in
        match sn_encoder s with
        | Some input =>
            if negb ok || negb (sa_writable an) then Some (false, s, w)
            else
              match drawBoxes objects (copyInputFrame image (sa_source an) input) with
              | None => None
              | Some drawn =>
                  let s := mkSnapshotter (sn_stream_id s) (sn_base_dir s) (sn_snapshot_file_name s) (Some drawn)
                             (sn_frame_width s) (sn_frame_height s) in
                  writeSnapshotFile an (buildSnapshotFileName (sa_timestamp an) (sn_stream_id s) (sa_now_ms an))
                    drawn s w
              end
        | None => Some (false, s, w)
        end
  | None => Some (false, s, w)
  end.

(** ** What drawing does *)

(** The planes can hold the frame: a luma row its width, a chroma row its pairs. *)
Definition frame_ok (f : AVFrame) : Prop :=
  0 < nv_width f <= nv_linesize0 f /\ 0 < nv_height f /\ 2 * ((nv_width f + 1) / 2) <= nv_linesize1 f.

Definition in_frame (f : AVFrame) (x y : Z) : Prop := 0 <= x < nv_width f /\ 0 <= y < nv_height f.
Definition luma_at (f : AVFrame) (x y : Z) : Z := nv_luma f (y * nv_linesize0 f + x).

Definition same_shape (f g : AVFrame) : Prop :=
  nv_width g = nv_width f /\ nv_height g = nv_height f /\ nv_linesize0 g = nv_linesize0 f /\
  nv_linesize1 g = nv_linesize1 f.

(** [g] is [f] with the luma of exactly the pixels of [S] painted; no byte outside the
    two planes is touched. *)
Record paints (S : Z -> Z -> bool) (f g : AVFrame) : Prop := {
  pt_shape : same_shape f g;
  pt_luma x y : in_frame f x y -> luma_at g x y = if S x y then kBoxLuma else luma_at f x y;
  pt_luma_out i : i < 0 \/ nv_height f * nv_linesize0 f <= i -> nv_luma g i = nv_luma f i;
  pt_chroma_out i : i < 0 \/ (nv_height f + 1) / 2 * nv_linesize1 f <= i -> nv_chroma g i = nv_chroma f i;
}.

Lemma frame_ok_shape f g : same_shape f g -> frame_ok f -> frame_ok g.
Proof. unfold same_shape, frame_ok. intros (-> & -> & -> & ->). done. Qed.

Lemma paints_ext S S' f g : (forall x y, in_frame f x y -> S x y = S' x y) -> paints S f g -> paints S' f g.
Proof. intros HS [? Hl ? ?]. split; try done. intros x y Hin. rewrite <- HS by done. by apply Hl. Qed.

Lemma paints_id f : paints (fun _ _ => false) f f.
Proof. by split. Qed.

Lemma paints_trans S T f g h : paints S f g -> paints T g h -> paints (fun x y => T x y || S x y) f h.
Proof.
  intros [Hs Hl Ho Hc] [Hs' Hl' Ho' Hc'].
  destruct Hs as (E1 & E2 & E3 & E4). destruct Hs' as (D1 & D2 & D3 & D4).
  unfold in_frame, luma_at in *. rewrite E1, E2, E3, ?E4 in *.
  split.
  - unfold same_shape. by rewrite D1, D2, D3, D4.
  - intros x y Hin. unfold luma_at. rewrite Hl' by done. destruct (T x y); [done|]. cbn. by apply Hl.
  - intros i Hi. rewrite Ho' by done. by apply Ho.
  - intros i Hi. rewrite Hc' by done. by apply Hc.
Qed.

(** Distinct pixels have distinct offsets. *)
Lemma offset_inj ls x y x' y' : 0 <= x < ls -> 0 <= x' < ls -> y * ls + x = y' * ls + x' -> x = x' /\ y = y'.
Proof. intros. assert (y = y') by nia. split; [nia|done]. Qed.

Lemma paintPixel_paints x y f : frame_ok f -> paints (fun x' y' => (x' =? x) && (y' =? y)) f (paintPixelNv12 x y f).
Proof.
  intros (Hw & Hh & Hu). unfold paintPixelNv12.
  destruct ((x <? 0) || (y <? 0) || (nv_width f <=? x) || (nv_height f <=? y)) eqn:E.
  - apply (paints_ext (fun _ _ => false)); [|apply paints_id]. intros x' y' [Hx Hy]. symmetry.
    apply andb_false_iff. rewrite !Z.eqb_neq. bool_crush. destruct (decide (x' = x)) as [->|]; [|by left].
    right. intros ->. apply orb_true_iff in E as [E|E%Z.leb_le]; [|lia].
    apply orb_true_iff in E as [E|E%Z.leb_le]; [|lia]. apply orb_true_iff in E as [E%Z.ltb_lt|E%Z.ltb_lt]; lia.
  - bool_crush. split; cbn; [done| | |].
    + intros x' y' [Hx Hy]. unfold luma_at, set_byte. cbn.
      destruct (Z.eqb_spec (y' * nv_linesize0 f + x') (y * nv_linesize0 f + x)) as [Eq|Ne].
      * apply offset_inj in Eq as [-> ->]; [|lia..]. by rewrite !Z.eqb_refl.
      * destruct (Z.eqb_spec x' x) as [->|]; [|done]. destruct (Z.eqb_spec y' y) as [->|]; done.
    + intros i Hi. unfold set_byte. destruct (Z.eqb_spec i (y * nv_linesize0 f + x)) as [->|]; [|done]. nia.
    + intros i Hi.
      assert (0 <= x / 2 * 2 /\ x / 2 * 2 + 1 < nv_linesize1 f).
      { pose proof (Z.div_mod x 2 ltac:(lia)). pose proof (Z.mod_pos_bound x 2 ltac:(lia)).
        pose proof (Z.div_mod (nv_width f + 1) 2 ltac:(lia)). pose proof (Z.mod_pos_bound (nv_width f + 1) 2 ltac:(lia)). lia. }
      assert (0 <= y / 2 < (nv_height f + 1) / 2).
      { pose proof (Z.div_mod y 2 ltac:(lia)). pose proof (Z.mod_pos_bound y 2 ltac:(lia)).
        pose proof (Z.div_mod (nv_height f + 1) 2 ltac:(lia)). pose proof (Z.mod_pos_bound (nv_height f + 1) 2 ltac:(lia)). lia. }
      unfold set_byte.
      destruct (Z.eqb_spec i (y / 2 * nv_linesize1 f + x / 2 * 2 + 1)); [nia|].
      destruct (Z.eqb_spec i (y / 2 * nv_linesize1 f + x / 2 * 2)); [nia|done].
Qed.

(** A loop paints what its turns paint. *)
Lemma fold_paints (body : Z -> AVFrame -> AVFrame) (S : Z -> Z -> Z -> bool) l : forall f,
  frame_ok f -> (forall v f, frame_ok f -> paints (S v) f (body v f)) ->
  paints (fun x y => existsb (fun v => S v x y) l) f (foldl (fun f v => body v f) f l).
Proof.
  induction l as [|v l IH]; intros f Hf Hb; cbn; [apply paints_id|].
  pose proof (Hb v f Hf) as Hv.
  eapply paints_ext; [|eapply paints_trans; [exact Hv|apply IH]].
  - intros x y _. cbn. apply orb_comm.
  - by eapply frame_ok_shape, Hf; destruct Hv.
  - done.
Qed.

Lemma existsb_seqZ (p : Z -> bool) from n :
  existsb p (seqZ from n) = true <-> exists v, from <= v < from + n /\ p v = true.
Proof.
  rewrite existsb_exists. split; intros (v & Hv & Hp); exists v; (split; [|done]).
  - apply list_elem_of_In, elem_of_seqZ in Hv. done.
  - apply list_elem_of_In, elem_of_seqZ. done.
Qed.

Definition between (lo hi v : Z) : bool := (lo <=? v) && (v <=? hi).

Lemma between_spec lo hi v : between lo hi v = true <-> lo <= v <= hi.
Proof. unfold between. rewrite andb_true_iff, !Z.leb_le. done. Qed.

Lemma horizontal_paints x0 x1 y t f :
  frame_ok f ->
  paints (fun x' y' => between x0 x1 x' && between y (y + t - 1) y') f (drawHorizontalLine x0 x1 y t f).
Proof.
  intros Hf. unfold drawHorizontalLine, for_range.
  eapply paints_ext; [|apply (fold_paints _ (fun o x' y' => existsb (fun x => (x' =? x) && (y' =? y + o)) (seqZ x0 (x1 - x0 + 1)))); [done|]].
  - intros x' y' _. apply eq_true_iff_eq. rewrite existsb_seqZ, andb_true_iff, !between_spec.
    split.
    + intros (o & Ho & (x & Hx & Hxy)%existsb_seqZ). bool_crush. lia.
    + intros [Hx Hy]. exists (y' - y). split; [lia|]. apply existsb_seqZ. exists x'. split; [lia|].
      apply andb_true_iff. rewrite !Z.eqb_eq. lia.
  - intros o g Hg. apply (fold_paints (fun x f => paintPixelNv12 x (y + o) f)
                            (fun x x' y' => (x' =? x) && (y' =? y + o))); [done|].
    intros x h Hh. by apply paintPixel_paints.
Qed.

Lemma vertical_paints x y0 y1 t f :
  frame_ok f ->
  paints (fun x' y' => between x (x + t - 1) x' && between y0 y1 y') f (drawVerticalLine x y0 y1 t f).
Proof.
  intros Hf. unfold drawVerticalLine, for_range.
  eapply paints_ext; [|apply (fold_paints _ (fun o x' y' => existsb (fun y => (x' =? x + o) && (y' =? y)) (seqZ y0 (y1 - y0 + 1)))); [done|]].
  - intros x' y' _. apply eq_true_iff_eq. rewrite existsb_seqZ, andb_true_iff, !between_spec.
    split.
    + intros (o & Ho & (y & Hy & Hxy)%existsb_seqZ). bool_crush. lia.
    + intros [Hx Hy]. exists (x' - x). split; [lia|]. apply existsb_seqZ. exists y'. split; [lia|].
      apply andb_true_iff. rewrite !Z.eqb_eq. lia.
  - intros o g Hg. apply (fold_paints (fun y f => paintPixelNv12 (x + o) y f)
                            (fun y x' y' => (x' =? x + o) && (y' =? y))); [done|].
    intros y h Hh. by apply paintPixel_paints.
Qed.

(** The outline of a box, [t] pixels thick, drawn to the right and downwards. *)
Definition outline (corners : Z * Z * Z * Z) (t x y : Z) : bool :=
  let '(l, u, r, b) := corners in
  negb ((r <=? l) || (b <=? u)) &&
  (between l r x && (between u (u + t - 1) y || between (Z.max u (b - t + 1)) (Z.max u (b - t + 1) + t - 1) y) ||
   between u b y && (between l (l + t - 1) x || between (Z.max l (r - t + 1)) (Z.max l (r - t + 1) + t - 1) x)).

Lemma draw_box_paints corners t f : frame_ok f -> paints (outline corners t) f (draw_box corners t f).
Proof.
  intros Hf. destruct corners as [[[l u] r] b]. unfold draw_box, outline.
  destruct ((r <=? l) || (b <=? u)); cbn; [apply paints_id|].
  pose proof (horizontal_paints l r u t f Hf) as H1.
  pose proof (frame_ok_shape _ _ (pt_shape _ _ _ H1) Hf) as F1.
  pose proof (horizontal_paints l r (Z.max u (b - t + 1)) t _ F1) as H2.
  pose proof (frame_ok_shape _ _ (pt_shape _ _ _ H2) F1) as F2.
  pose proof (vertical_paints l u b t _ F2) as H3.
  pose proof (frame_ok_shape _ _ (pt_shape _ _ _ H3) F2) as F3.
  pose proof (vertical_paints (Z.max l (r - t + 1)) u b t _ F3) as H4.
  eapply paints_ext; [|exact (paints_trans _ _ _ _ _ (paints_trans _ _ _ _ _ (paints_trans _ _ _ _ _ H1 H2) H3) H4)].
  intros x y _. cbn beta.
  destruct (between l r x), (between u b y), (between u (u + t - 1) y),
    (between (Z.max u (b - t + 1)) _ y), (between l (l + t - 1) x), (between (Z.max l (r - t + 1)) _ x); done.
Qed.

(** C40: Drawing the boxes of objects with representable corners paints exactly the
    outlines of the non-empty boxes, clamped to the picture, [max 2 (min(w,h)/180)]
    pixels thick; every other pixel keeps its luma, and no byte outside the two planes is
    written, whatever the boxes are. *)
Theorem drawBoxes_spec (objects : list DetectionObject) (f g : AVFrame)
    (Hf : frame_ok f) (Hd : drawBoxes objects f = Some g) :
  exists corners,
    mapM (fun o => box_corners (do_bbox o) (nv_width f) (nv_height f)) objects = Some corners /\
    paints (fun x y => existsb (fun c => outline c (box_thickness (nv_width f) (nv_height f)) x y) corners) f g.
Proof.
  revert f Hf Hd. induction objects as [|o objects IH]; intros f Hf; cbn.
  { intros [= <-]. exists []. split; [done|]. apply paints_id. }
  destruct (box_corners _ _ _) as [c|]; [|done]. intros Hd.
  pose proof (draw_box_paints c (box_thickness (nv_width f) (nv_height f)) f Hf) as Hc.
  destruct (IH _ (frame_ok_shape _ _ (pt_shape _ _ _ Hc) Hf) Hd) as (cs & Hm & Hp).
  destruct (pt_shape _ _ _ Hc) as (E1 & E2 & _). rewrite E1, E2 in Hm, Hp.
  exists (c :: cs). split; [cbn; by rewrite Hm|].
  eapply paints_ext; [|exact (paints_trans _ _ _ _ _ Hc Hp)]. intros x y _. cbn. apply orb_comm.
Qed.

(** ** What is copied and saved *)

Lemma copy_rows_at ls src src_at stride width l x y : forall dst,
  0 <= x < width -> width <= ls ->
  foldl (fun dst y => copy_bytes dst (y * ls) src (src_at + y * stride) width) dst l (y * ls + x) =
  if existsb (Z.eqb y) l then src (src_at + y * stride + x) else dst (y * ls + x).
Proof.
  induction l as [|r l IH]; intros dst Hx Hw; cbn; [done|]. rewrite IH by done.
  destruct (existsb (Z.eqb y) l); [by rewrite orb_true_r|]. rewrite orb_false_r. unfold copy_bytes.
  destruct (Z.eqb_spec y r) as [<-|Hne].
  - rewrite (proj2 (Z.leb_le _ _)), (proj2 (Z.ltb_lt _ _)) by lia. cbn. f_equal. lia.
  - destruct (Z.leb_spec (r * ls) (y * ls + x)); [|done]. destruct (Z.ltb_spec (y * ls + x) (r * ls + width)); [|done].
    cbn. exfalso. nia.
Qed.

(** Copying a decoded picture into a frame that can hold it takes each luma pixel from
    its stride row and each chroma byte of the first [height / 2] rows from the plane
    after [width_stride * height_stride] bytes; all these offsets are below
    [(height_stride + height / 2) * width_stride], and nothing else is read. *)
Theorem copyInputFrame_spec (image : DmaImage) (src : Z -> Z) (f : AVFrame) (x y : Z)
    (Hf : frame_ok f) (Hsize : nv_width f = img_width image /\ nv_height f = img_height image)
    (Hls : img_width image <= nv_linesize1 f)
    (Hstride : img_width image <= img_width_stride image /\ img_height image <= img_height_stride image)
    (Hin : in_frame f x y) :
  let g := copyInputFrame image src f in
  let luma_at_src := y * img_width_stride image + x in
  luma_at g x y = src luma_at_src /\ 0 <= luma_at_src < img_height_stride image * img_width_stride image /\
  (y < img_height image / 2 ->
   let chroma_at_src := img_width_stride image * img_height_stride image + y * img_width_stride image + x in
   nv_chroma g (y * nv_linesize1 f + x) = src chroma_at_src /\
   chroma_at_src < (img_height_stride image + img_height image / 2) * img_width_stride image).
Proof.
  destruct Hf as (Hw & Hh & _), Hsize as [E1 E2], Hin as [Hx Hy]. rewrite E1, E2 in *.
  cbn. unfold luma_at, copy_rows. cbn. split; [|split].
  - rewrite copy_rows_at by lia. rewrite (proj2 (existsb_seqZ _ _ _)); [f_equal; lia|].
    exists y. split; [lia|apply Z.eqb_refl].
  - nia.
  - intros Hc. rewrite copy_rows_at by lia. rewrite Z.quot_div_nonneg by lia.
    rewrite (proj2 (existsb_seqZ _ _ _)); [|exists y; split; [lia|apply Z.eqb_refl]].
    split; [done|]. nia.
Qed.

Lemma same_shape_trans f g h : same_shape f g -> same_shape g h -> same_shape f h.
Proof. unfold same_shape. intros (-> & -> & -> & ->) (-> & -> & -> & ->). done. Qed.

Lemma paintPixel_shape x y f : same_shape f (paintPixelNv12 x y f).
Proof. unfold paintPixelNv12. by destruct (_ || _). Qed.

Lemma fold_shape (body : Z -> AVFrame -> AVFrame) l : forall f,
  (forall v f, same_shape f (body v f)) -> same_shape f (foldl (fun f v => body v f) f l).
Proof.
  induction l as [|v l IH]; intros f Hb; cbn; [done|].
  eapply same_shape_trans; [apply (Hb v)|]. by apply IH.
Qed.

Lemma horizontal_shape x0 x1 y t f : same_shape f (drawHorizontalLine x0 x1 y t f).
Proof.
  unfold drawHorizontalLine, for_range.
  apply (fold_shape (fun offset f => foldl (fun f x => paintPixelNv12 x (y + offset) f) f (seqZ x0 (x1 - x0 + 1)))).
  intros o g. apply (fold_shape (fun x f => paintPixelNv12 x (y + o) f)). intros. apply paintPixel_shape.
Qed.

Lemma vertical_shape x y0 y1 t f : same_shape f (drawVerticalLine x y0 y1 t f).
Proof.
  unfold drawVerticalLine, for_range.
  apply (fold_shape (fun offset f => foldl (fun f y => paintPixelNv12 (x + offset) y f) f (seqZ y0 (y1 - y0 + 1)))).
  intros o g. apply (fold_shape (fun y f => paintPixelNv12 (x + o) y f)). intros. apply paintPixel_shape.
Qed.

Lemma draw_box_shape c t f : same_shape f (draw_box c t f).
Proof.
  destruct c as [[[l u] r] b]. unfold draw_box. destruct (_ || _); [done|].
  eauto using same_shape_trans, horizontal_shape, vertical_shape.
Qed.

(** Drawing is undefined only when a corner is. *)
Lemma drawBoxes_undefined objects : forall f,
  drawBoxes objects f = None ->
  mapM (fun o => box_corners (do_bbox o) (nv_width f) (nv_height f)) objects = None.
Proof.
  induction objects as [|o objects IH]; intros f; cbn; [done|].
  destruct (box_corners _ _ _) as [c|] eqn:Ec; [|done]. intros Hd. apply IH in Hd.
  destruct (draw_box_shape c (box_thickness (nv_width f) (nv_height f)) f) as (E1 & E2 & _).
  rewrite E1, E2 in Hd. cbn. by rewrite Hd.
Qed.

(** The outcomes of a snapshot. *)
Lemma saveJpeg_cases (an : snap_answers) (frame : FrameBundle) (objects : list DetectionObject)
    (s : Snapshotter) (w : SnapWorld) :
  let name := buildSnapshotFileName (sa_timestamp an) (sn_stream_id s) (sa_now_ms an) in
  match saveJpeg an frame objects s w with
  | None =>
      sa_dirs an = false \/
      exists width height, mapM (fun o => box_corners (do_bbox o) width height) objects = None
  | Some (true, s', w') =>
      sn_snapshot_file_name s' = name /\
      exists drawn jpeg, sa_encode an drawn = Some jpeg /\ w' = w ++ [(path_join (sn_base_dir s) name, jpeg)]
  | Some (false, s', w') =>
      (sn_snapshot_file_name s' = sn_snapshot_file_name s \/ sn_snapshot_file_name s' = EmptyString) /\
      (w' = w \/ exists content, w' = w ++ [(path_join (sn_base_dir s) (makeHiddenSnapshotName name), content)])
  end.
Proof.
  cbn. unfold saveJpeg. destruct (fb_decoded_image frame) as [image|]; [|by split; [left|left]].
  destruct (negb (sn_isConfigured s) || _); [by split; [left|left]|].
  destruct (_ || _ || _ || _ || _); [by split; [left|left]|].
  destruct (ensureEncoder an _ _ s) as [ok s1] eqn:He.
  assert (Hs1 : sn_stream_id s1 = sn_stream_id s /\ sn_base_dir s1 = sn_base_dir s /\
            (sn_snapshot_file_name s1 = sn_snapshot_file_name s \/ sn_snapshot_file_name s1 = EmptyString)).
  { unfold ensureEncoder in He. destruct (match sn_encoder s with Some _ => _ | None => _ end);
      [injection He as <- <-; auto|]. destruct (sa_encoder an _ _); injection He as <- <-; cbn; auto. }
  destruct Hs1 as (Es & Eb & En). destruct (sn_encoder s1) as [input|]; [|by split; [|left]].
  destruct (negb ok || negb (sa_writable an)); [by split; [|left]|].
  destruct (drawBoxes _ _) as [drawn|] eqn:Hd; [|right; by eexists _, _; apply drawBoxes_undefined].
  unfold writeSnapshotFile. cbn. rewrite Es, Eb.
  destruct (convertInputFrame an _); cbn; [|by split; [|left]].
  destruct (sa_encode an drawn) as [jpeg|] eqn:Hj; [|by split; [|left]].
  destruct (sa_dirs an); cbn; [|by left]. destruct (sa_open an); cbn; [|by split; [|left]].
  destruct (sa_write an); cbn; [|by split; [|right; eexists]].
  destruct (sa_rename an); cbn; [|by split; [|right; eexists]].
  split; [done|]. by exists drawn, jpeg.
Qed.

(** *** When it is defined *)

(** The input frame has the size the encoder was set up for. *)
Definition encoder_sized (s : Snapshotter) : Prop :=
  match sn_encoder s with
  | Some input => nv_width input = sn_frame_width s /\ nv_height input = sn_frame_height s
  | None => True
  end.

(** The boxes convert to pixels of the image. *)
Definition drawable (image : DmaImage) (objects : list DetectionObject) : Prop :=
  is_Some (mapM (fun o => box_corners (do_bbox o) (img_width image) (img_height image)) objects).

Lemma ensureEncoder_sized an width height s ok s' :
  encoder_sized s -> ensureEncoder an width height s = (ok, s') ->
  encoder_sized s' /\ (ok = true -> exists input, sn_encoder s' = Some input /\ nv_width input = width /\ nv_height input = height).
Proof.
  unfold ensureEncoder, encoder_sized. intros Hs. destruct (sn_encoder s) as [input|] eqn:E.
  - destruct (_ && _) eqn:Eq.
    + intros [= <- <-]. rewrite E. split; [done|]. intros _. exists input. apply andb_true_iff in Eq as [?%Z.eqb_eq ?%Z.eqb_eq].
      destruct Hs. split_and!; congruence.
    + destruct (sa_encoder an width height); intros [= <- <-]; (split; [done|]); [intros _; by eexists|done].
  - destruct (sa_encoder an width height); intros [= <- <-]; (split; [done|]); [intros _; by eexists|done].
Qed.

Lemma writeSnapshotFile_sized an name frame s w ok s' w' :
  encoder_sized s -> writeSnapshotFile an name frame s w = Some (ok, s', w') -> encoder_sized s'.
Proof. intros Hs. unfold writeSnapshotFile. repeat case_match; by intros [= <- <- <-]. Qed.

Lemma drawBoxes_defined objects f g :
  nv_width g = nv_width f -> nv_height g = nv_height f ->
  is_Some (mapM (fun o => box_corners (do_bbox o) (nv_width f) (nv_height f)) objects) ->
  exists h, drawBoxes objects g = Some h /\ same_shape g h.
Proof.
  intros Hw Hh [cs Hcs]. revert cs g Hw Hh Hcs. induction objects as [|o objects IH]; intros cs g Hw Hh Hcs; cbn; [by exists g|].
  cbn in Hcs. rewrite Hw, Hh. destruct (box_corners _ _ _) as [c|]; [|done]. cbn in Hcs.
  destruct (mapM _ objects) as [cs'|] eqn:Em; [|done].
  pose proof (draw_box_shape c (box_thickness (nv_width f) (nv_height f)) g) as Hs.
  destruct (IH cs' (draw_box c (box_thickness (nv_width f) (nv_height f)) g)) as (h & -> & Hh'); [| |done|].
  - by rewrite (proj1 Hs).
  - by rewrite (proj1 (proj2 Hs)).
  - exists h. split; [done|]. by eapply same_shape_trans.
Qed.

(** A snapshot returns when its directory can be created and the boxes convert at the size of
    the picture; the encoder keeps its size. *)
Lemma saveJpeg_defined an frame objects s w :
  sa_dirs an = true -> encoder_sized s -> (forall image, fb_decoded_image frame = Some image -> drawable image objects) ->
  exists ok s' w', saveJpeg an frame objects s w = Some (ok, s', w') /\ encoder_sized s'.
Proof.
  intros Hdirs Hs Hdraw. unfold saveJpeg. destruct (fb_decoded_image frame) as [image|]; [|by eexists _, _, _].
  specialize (Hdraw image eq_refl). destruct (_ || bool_decide _); [by eexists _, _, _|].
  destruct (_ || _); [by eexists _, _, _|]. destruct (ensureEncoder _ _ _ s) as [ok s1] eqn:He.
  apply ensureEncoder_sized in He as [Hs1 Hok]; [|done]. destruct (sn_encoder s1) as [input|] eqn:Ei; [|by eexists _, _, _].
  destruct ok; cbn [negb orb]; [|by eexists _, _, _]. destruct (negb (sa_writable an)); [by eexists _, _, _|].
  destruct (Hok eq_refl) as (input' & [= <-] & Hw & Hh). set (copied := copyInputFrame image (sa_source an) input).
  unfold drawable in Hdraw. rewrite <- Hw, <- Hh in Hdraw.
  destruct (drawBoxes_defined objects input copied eq_refl eq_refl Hdraw) as (drawn & -> & (E1 & E2 & _)).
  set (s2 := mkSnapshotter _ _ _ _ _ _).
  assert (Hs2 : encoder_sized s2).
  { unfold encoder_sized in *. rewrite Ei in Hs1. cbn. rewrite E1, E2. exact Hs1. }
  destruct (writeSnapshotFile an _ drawn s2 w) as [[[ok s3] w3]|] eqn:Hwr.
  - exists ok, s3, w3. split; [done|]. by eapply writeSnapshotFile_sized.
  - exfalso. revert Hwr. unfold writeSnapshotFile. rewrite Hdirs. cbn [negb]. repeat case_match; done.
Qed.

(** Boxes whose corners lie in the unit square, or less than its width outside, convert. *)
Definition unit_box (box : Box) : Prop :=
  let half_width := f32_mul (box_width box) f32_half in
  let half_height := f32_mul (box_height box) f32_half in
  Forall (fun v => exists s, f32_within s 1 v)
    [f32_sub (box_cx box) half_width; f32_sub (box_cy box) half_height;
     f32_add (box_cx box) half_width; f32_add (box_cy box) half_height].

Lemma scale_coord_defined v extent : 0 < extent < 2 ^ 24 -> (exists s, f32_within s 1 v) -> is_Some (scale_coord v extent).
Proof.
  intros He [s Hv]. apply (within_to_int s extent); [lia|]. apply f32_mul_bounded; [done|done|].
  pose proof (normalize_within extent extent 0 false He ltac:(lia) ltac:(lia)) as H.
  by rewrite (proj2 (Z.ltb_ge extent 0)) in H by lia.
Qed.

Lemma unit_boxes_drawable image objects :
  0 < img_width image < 2 ^ 24 -> 0 < img_height image < 2 ^ 24 -> Forall (fun o => unit_box (do_bbox o)) objects ->
  drawable image objects.
Proof.
  intros Hw Hh Hobj. unfold drawable. induction Hobj as [|o objects Ho _ IH]; cbn; [by eexists|].
  apply Forall_cons in Ho as [H1 Ho]. apply Forall_cons in Ho as [H2 Ho]. apply Forall_cons in Ho as [H3 Ho].
  apply Forall_cons in Ho as [H4 _].
  assert (is_Some (box_corners (do_bbox o) (img_width image) (img_height image))) as [c ->].
  { unfold box_corners.
    destruct (scale_coord_defined _ _ Hw H1) as [? ->], (scale_coord_defined _ _ Hh H2) as [? ->],
      (scale_coord_defined _ _ Hw H3) as [? ->], (scale_coord_defined _ _ Hh H4) as [? ->]. by eexists. }
  destruct IH as [cs Hcs]. cbn. rewrite Hcs. by eexists.
Qed.

(** A snapshot that succeeds adds exactly one file, under its visible name, holding the
    encoded picture, and that name becomes the current file name; one that fails adds at
    most one file, under its hidden name, and leaves the current file name or clears it;
    undefined conversions and an uncreatable directory are the only ways not to return. *)
Theorem saveJpeg_spec (an : snap_answers) (frame : FrameBundle) (objects : list DetectionObject)
    (s : Snapshotter) (w : SnapWorld) :
  let name := buildSnapshotFileName (sa_timestamp an) (sn_stream_id s) (sa_now_ms an) in
  match saveJpeg an frame objects s w with
  | None =>
      sa_dirs an = false \/
      exists width height, mapM (fun o => box_corners (do_bbox o) width height) objects = None
  | Some (true, s', w') =>
      sn_snapshot_file_name s' = name /\
      exists drawn jpeg, sa_encode an drawn = Some jpeg /\ w' = w ++ [(path_join (sn_base_dir s) name, jpeg)]
  | Some (false, s', w') =>
      (sn_snapshot_file_name s' = sn_snapshot_file_name s \/ sn_snapshot_file_name s' = EmptyString) /\
      (w' = w \/ exists content, w' = w ++ [(path_join (sn_base_dir s) (makeHiddenSnapshotName name), content)])
  end.
Proof. exact (saveJpeg_cases an frame objects s w). Qed.

(** *** Concrete pictures *)

Definition ex_picture : AVFrame := mkAVFrame 8 6 8 8 (fun _ => 16) (fun _ => 128).
Definition ex_boxed : DetectionObject :=
  mkDetectionObject 1 2 "c" f32_one
    (Some (mkBox f32_half f32_half f32_half f32_half f32_zero)).

Lemma ex_picture_ok : frame_ok ex_picture.
Proof. unfold frame_ok. vm_compute. split_and!; congruence. Qed.
Lemma ex_picture_corner : in_frame ex_picture 0 0.
Proof. unfold in_frame. vm_compute. split_and!; congruence. Qed.
Lemma ex_boxed_corners :
  mapM (fun o => box_corners (do_bbox o) (nv_width ex_picture) (nv_height ex_picture)) [ex_boxed] = Some [(2, 1, 6, 4)].
Proof. by vm_compute. Qed.

(** The box covers columns 2 to 6 and rows 1 to 4. *)
Lemma drawBoxes_spec_witness :
  (g ← drawBoxes [ex_boxed] ex_picture; Some ((fun y => (fun x => luma_at g x y) <$> seqZ 0 8) <$> seqZ 0 6)) =
    Some [[16; 16; 16; 16; 16; 16; 16; 16]; [16; 16; 76; 76; 76; 76; 76; 16]; [16; 16; 76; 76; 76; 76; 76; 16];
          [16; 16; 76; 76; 76; 76; 76; 16]; [16; 16; 76; 76; 76; 76; 76; 16]; [16; 16; 16; 16; 16; 16; 16; 16]] /\
  exists g, drawBoxes [ex_boxed] ex_picture = Some g /\ luma_at g 0 0 = luma_at ex_picture 0 0.
Proof.
  split; [by vm_compute|].
  assert (is_Some (drawBoxes [ex_boxed] ex_picture)) as [g Hd] by (vm_compute; by eexists).
  exists g. split; [exact Hd|].
  destruct (drawBoxes_spec [ex_boxed] ex_picture g ex_picture_ok Hd) as (cs & Hc & Hp). clear Hd.
  rewrite (pt_luma _ _ _ Hp 0 0 ex_picture_corner).
  rewrite ex_boxed_corners in Hc. injection Hc as <-. clear Hp. by vm_compute.
Defined.

Definition ex_dma : DmaImage := mkDmaImage 3 (Some 1) 96 8 6 8 8 4.

Lemma copyInputFrame_spec_witness :
  luma_at (copyInputFrame ex_dma (fun i => i) ex_picture) 3 2 = 19.
Proof.
  pose proof (copyInputFrame_spec ex_dma (fun i => i) ex_picture 3 2) as Hs.
  apply (Hs ex_picture_ok); [by split | by vm_compute | by vm_compute | by vm_compute].
Defined.
