(* ===== verification/Pipeline.v ===== *)
(** * Pipeline: configuration and lifecycle (src/src/pipeline/Pipeline.h, Pipeline.cpp)

    The streams the agent runs and how configurations, failures and shutdown change
    them.  A [shared_ptr<StreamContext>] is an index into [pl_contexts], so that contexts
    that are no longer in [streams_] are still there to be seen.  A context holds the
    modelled components of its stream, each with the outside it acts on.  The main loop
    is the only thread that builds and stops streams; what the puller threads do in
    between (ask for their own stream to be stopped) is an argument. *)
From S2P Require Import Prelude StdMap Float32 Messages StreamBuffer Scheduler Common Config Sei Stats.
From S2P Require Import Detector Decoder Puller Mux Recorder Snapshot.

Definition kMinVideoWatermark : Z := 1.
Definition kAlarmSnapshotMinIntervalMs : Z := 5000.

Record DetectorRuntimeEntry := mkDetectorRuntimeEntry {
  de_config : StreamConfig;
  de_detector : option AlgoDetector;
}.

(** The members of the context; [sx_publish_thread]: the thread is joinable.
    [sx_pull], [sx_mux], [sx_rec], [sx_snaps]: what the components act on. *)
Record StreamContext := mkStreamContext {
  sx_stream_id : string;
  sx_transport_config : StreamConfig;
  sx_runtime_config : StreamConfig;
  sx_buffer : buffer_ptr;
  sx_detector_runtime : DetectorRuntimeEntry;
  sx_video_nal_length_size : Z;
  sx_recorder : Recorder;
  sx_snapshotter : Snapshotter;
  sx_last_snapshot_trigger_mono_ms : Z;
  sx_puller : RTSPPuller;
  sx_publisher : RtspPublisher;
  sx_publish_thread : bool;
  sx_stop_flag : bool;
  sx_pull : PullWorld; sx_mux : MuxWorld; sx_rec : RecWorld; sx_snaps : SnapWorld;
}.

(** A non-null [shared_ptr<StreamContext>]. *)
Abbreviation ctx_ptr := positive.

Record Pipeline := mkPipeline {
  pl_app : AppConfig;
  pl_configs : list (Z * AgentConfig);             (* configs_ *)
  pl_has_pending_config : bool;
  pl_pending_stop_streams : list ctx_ptr;
  pl_streams : list (string * ctx_ptr);            (* streams_ *)
  pl_scheduler : RoundRobinInferScheduler;
  pl_statistics : Statistics;
  pl_contexts : gmap ctx_ptr StreamContext;
  pl_buffers : gmap buffer_ptr StreamBuffer;
}.

Definition Pipeline_new (app : AppConfig) : Pipeline :=
  mkPipeline app [] false [] [] createRoundRobinInferScheduler Statistics_new ∅ ∅.

Definition pp_with_streams (m : list (string * ctx_ptr)) (p : Pipeline) : Pipeline :=
  mkPipeline (pl_app p) (pl_configs p) (pl_has_pending_config p) (pl_pending_stop_streams p) m (pl_scheduler p)
    (pl_statistics p) (pl_contexts p) (pl_buffers p).
Definition pp_with_contexts (m : gmap ctx_ptr StreamContext) (p : Pipeline) : Pipeline :=
  mkPipeline (pl_app p) (pl_configs p) (pl_has_pending_config p) (pl_pending_stop_streams p) (pl_streams p)
    (pl_scheduler p) (pl_statistics p) m (pl_buffers p).
Definition pp_with_scheduler (s : RoundRobinInferScheduler) (p : Pipeline) : Pipeline :=
  mkPipeline (pl_app p) (pl_configs p) (pl_has_pending_config p) (pl_pending_stop_streams p) (pl_streams p)
    s (pl_statistics p) (pl_contexts p) (pl_buffers p).
Definition pp_with_statistics (s : Statistics) (p : Pipeline) : Pipeline :=
  mkPipeline (pl_app p) (pl_configs p) (pl_has_pending_config p) (pl_pending_stop_streams p) (pl_streams p)
    (pl_scheduler p) s (pl_contexts p) (pl_buffers p).
Definition pp_with_buffers (m : gmap buffer_ptr StreamBuffer) (p : Pipeline) : Pipeline :=
  mkPipeline (pl_app p) (pl_configs p) (pl_has_pending_config p) (pl_pending_stop_streams p) (pl_streams p)
    (pl_scheduler p) (pl_statistics p) (pl_contexts p) m.
Definition pp_with_pending (configs : list (Z * AgentConfig)) (has_pending : bool) (stops : list ctx_ptr)
    (p : Pipeline) : Pipeline :=
  mkPipeline (pl_app p) configs has_pending stops (pl_streams p) (pl_scheduler p) (pl_statistics p)
    (pl_contexts p) (pl_buffers p).

(** ** Receiving a configuration *)

Definition handleSocketConfig (cfg : AgentConfig) (p : Pipeline) : Pipeline :=
  if negb (str_empty (agc_agent_id cfg)) && negb (str_eqb (agc_agent_id cfg) (skc_agent_id (app_socket (pl_app p))))
  then p
  else pp_with_pending (std_insert (agc_config_id cfg) cfg (pl_configs p)) true (pl_pending_stop_streams p) p.

Definition findStream (stream_id : string) (p : Pipeline) : option ctx_ptr := std_find stream_id (pl_streams p).

(** ** Stopping a stream *)

Definition sx_set_stop (c : StreamContext) : StreamContext :=
  mkStreamContext (sx_stream_id c) (sx_transport_config c) (sx_runtime_config c) (sx_buffer c)
    (sx_detector_runtime c) (sx_video_nal_length_size c) (sx_recorder c) (sx_snapshotter c)
    (sx_last_snapshot_trigger_mono_ms c) (sx_puller c) (sx_publisher c) (sx_publish_thread c) true
    (sx_pull c) (sx_mux c) (sx_rec c) (sx_snaps c).

Definition sx_with_runtime (cfg : StreamConfig) (e : DetectorRuntimeEntry) (c : StreamContext) : StreamContext :=
  mkStreamContext (sx_stream_id c) (sx_transport_config c) cfg (sx_buffer c) e (sx_video_nal_length_size c)
    (sx_recorder c) (sx_snapshotter c) (sx_last_snapshot_trigger_mono_ms c) (sx_puller c) (sx_publisher c)
    (sx_publish_thread c) (sx_stop_flag c) (sx_pull c) (sx_mux c) (sx_rec c) (sx_snaps c).

Section Lifecycle.
(** Whether a recorded file can be renamed, and the inference engine. *)
Context `{MessageDifferencer} (rename_ok : string -> string -> bool) (edge : EdgeInferApi).

(** [stopStream] on the context itself: the puller and the publishing thread are joined
    and every component is closed. *)
Definition stop_context (c : StreamContext) : StreamContext :=
  let '(puller, pull) := puller_stop (sx_puller c) (sx_pull c) in
  let '(publisher, mux) := rp_close (sx_publisher c) (sx_mux c) in
  let '(recorder, rec) := rc_close rename_ok (sx_recorder c) (sx_rec c) in
  mkStreamContext (sx_stream_id c) (sx_transport_config c) (sx_runtime_config c) (sx_buffer c)
    (mkDetectorRuntimeEntry (de_config (sx_detector_runtime c)) None) (sx_video_nal_length_size c)
    recorder (sn_close (sx_snapshotter c)) (sx_last_snapshot_trigger_mono_ms c) puller publisher false true
    pull mux rec (sx_snaps c).

Definition stopStream (ptr : ctx_ptr) (p : Pipeline) : Pipeline :=
  match pl_contexts p !! ptr with
  | None => p
  | Some c =>
      let p := pp_with_scheduler (removeStream (sx_stream_id c) (pl_scheduler p)) p in
      let p := pp_with_buffers (alter sb_stop (sx_buffer c) (pl_buffers p)) p in
      let p := pp_with_contexts (<[ptr := stop_context c]> (pl_contexts p)) p in
      pp_with_statistics (unregisterStream (sx_stream_id c) (pl_statistics p)) p
  end.

(** A puller thread asking for its stream to be stopped. *)
Definition requestAsyncStopStream (ptr : ctx_ptr) (p : Pipeline) : Pipeline :=
  match pl_contexts p !! ptr with
  | None => p
  | Some c =>
      if sx_stop_flag c then p
      else
        let p := pp_with_contexts (<[ptr := sx_set_stop c]> (pl_contexts p)) p in
        let p := match std_find (sx_stream_id c) (pl_streams p) with
                 | Some q => if bool_decide (q = ptr)
                             then pp_with_streams (std_erase (sx_stream_id c) (pl_streams p)) p else p
                 | None => p
                 end in
        pp_with_pending (pl_configs p) (pl_has_pending_config p) (pl_pending_stop_streams p ++ [ptr]) p
  end.

(** ** Building and updating a stream *)

(** [DetectorFactory::create] and [init]; a detector that cannot be initialised is dropped. *)
Definition create_detector (config : StreamConfig) : option AlgoDetector :=
  match sc_algorithms config with
  | [] => None
  | _ =>
      match ad_init edge (AlgoDetector_new config) with
      | (true, d) => Some d
      | (false, _) => None
      end
  end.

(** [ptr] and [buffer] are the fresh context and stream buffer.  The puller's [start]
    always succeeds, so the path that undoes the start is never taken. *)
Definition new_context (config : StreamConfig) (buffer : buffer_ptr) : StreamContext :=
  let transport := makeTransportStreamConfig config in
  let snapshotter :=
    if negb (str_empty (sc_alarm_snapshot_dir transport))
    then (sn_configure (sc_stream_id config) (sc_alarm_snapshot_dir transport) Snapshotter_new).2
    else Snapshotter_new in
  mkStreamContext (sc_stream_id config) transport config buffer
    (mkDetectorRuntimeEntry config (create_detector config)) 0 Recorder_new snapshotter 0
    (puller_start (RTSPPuller_new transport)).2 RtspPublisher_new true false
    (mkPullWorld [] Statistics_new (mkMppWorld 0 0) [] []) (mkMuxWorld 0 0 0 []) (mkRecWorld 0 0 [] []) [].

Definition buildStreamContext (config : StreamConfig) (p : Pipeline) : ctx_ptr * Pipeline :=
  let ptr := fresh (dom (pl_contexts p)) in
  let buffer := fresh (dom (pl_buffers p)) in
  let p := pp_with_statistics (registerStream (sc_stream_id config) (pl_statistics p)) p in
  let p := pp_with_buffers (<[buffer := createStreamBuffer (sc_stream_id config)]> (pl_buffers p)) p in
  let p := pp_with_contexts (<[ptr := new_context config buffer]> (pl_contexts p)) p in
  (ptr, pp_with_scheduler (upsertStream (sc_stream_id config) config (Some buffer) (pl_scheduler p)) p).

Definition update_runtime_entry (runtime_config : StreamConfig) (e : DetectorRuntimeEntry) : DetectorRuntimeEntry :=
  if hasDetectorConfigChanged (de_config e) runtime_config
  then mkDetectorRuntimeEntry runtime_config (create_detector runtime_config)
  else mkDetectorRuntimeEntry runtime_config (de_detector e).

Definition updateStreamRuntime (ptr : ctx_ptr) (runtime_config : StreamConfig) (p : Pipeline) : Pipeline :=
  match pl_contexts p !! ptr with
  | None => p
  | Some c =>
      let c := sx_with_runtime (sx_runtime_config c) (update_runtime_entry runtime_config (sx_detector_runtime c)) c in
      let p := pp_with_contexts (<[ptr := c]> (pl_contexts p)) p in
      pp_with_scheduler (upsertStream (sx_stream_id c) runtime_config (Some (sx_buffer c)) (pl_scheduler p)) p
  end.

(** ** Applying a configuration batch *)

(** What the scan of [streams_] under the lock leaves. *)
Record scan := mkScan {
  sn_streams : list (string * ctx_ptr);
  sn_contexts : gmap ctx_ptr StreamContext;
  sn_to_stop : list ctx_ptr;
  sn_to_start : list StreamConfig;
  sn_updates : list (ctx_ptr * StreamConfig);
}.

Definition scan_stream (desired : list (string * StreamConfig)) (s : scan) (entry : string * ctx_ptr) : scan :=
  let '(id, ptr) := entry in
  match std_find id desired, sn_contexts s !! ptr with
  | None, _ | _, None =>
      mkScan (std_erase id (sn_streams s)) (sn_contexts s) (sn_to_stop s ++ [ptr]) (sn_to_start s) (sn_updates s)
  | Some config, Some c =>
      if negb (isSameTransportStreamConfig (sx_transport_config c) config) then
        mkScan (std_erase id (sn_streams s)) (sn_contexts s) (sn_to_stop s ++ [ptr]) (sn_to_start s ++ [config])
          (sn_updates s)
      else if negb (isSameRuntimeStreamConfig (sx_runtime_config c) config) then
        mkScan (sn_streams s) (<[ptr := sx_with_runtime config (sx_detector_runtime c) c]> (sn_contexts s))
          (sn_to_stop s) (sn_to_start s) (sn_updates s ++ [(ptr, config)])
      else s
  end.

Definition scan_streams (desired : list (string * StreamConfig)) (p : Pipeline) : scan :=
  let s := foldl (scan_stream desired) (mkScan (pl_streams p) (pl_contexts p) [] [] []) (pl_streams p) in
  mkScan (sn_streams s) (sn_contexts s) (sn_to_stop s)
    (sn_to_start s ++
     omap (fun e => match std_find e.1 (sn_streams s) with None => Some e.2 | Some _ => None end) desired)
    (sn_updates s).

(** Starting one stream.  [early] and [late] tell whether the new stream's puller asks for
    it to be stopped before the stop flag is read, or between that and the insertion. *)
Definition start_stream (early late : ctx_ptr -> bool) (p : Pipeline) (config : StreamConfig) : Pipeline :=
  let '(ptr, p) := buildStreamContext config p in
  let p := if early ptr then requestAsyncStopStream ptr p else p in
  match pl_contexts p !! ptr with
  | None => p
  | Some c =>
      if sx_stop_flag c then stopStream ptr p
      else
        let p := if late ptr then requestAsyncStopStream ptr p else p in
        pp_with_streams (std_insert (sx_stream_id c) ptr (pl_streams p)) p
  end.

Definition applyConfigBatch (early late : ctx_ptr -> bool) (configs : list (Z * AgentConfig)) (p : Pipeline) : Pipeline :=
  let desired := buildMergedStreams configs in
  let s := scan_streams desired p in
  let p := pp_with_contexts (sn_contexts s) (pp_with_streams (sn_streams s) p) in
  let p := foldl (fun p ptr => stopStream ptr p) p (sn_to_stop s) in
  let p := foldl (fun p u => updateStreamRuntime u.1 u.2 p) p (sn_updates s) in
  foldl (start_stream early late) p (sn_to_start s).

(** One turn of [mainLoop] that finds something to do. *)
Definition mainLoop_turn (early late : ctx_ptr -> bool) (p : Pipeline) : Pipeline :=
  let has_config_update := pl_has_pending_config p in
  let configs := pl_configs p in
  let stops := pl_pending_stop_streams p in
  let p := pp_with_pending configs false [] p in
  let p := foldl (fun p ptr => stopStream ptr p) p stops in
  if has_config_update then applyConfigBatch early late configs p else p.

(** [stop], once the other threads have seen the stop flag. *)
Definition pipeline_stop (p : Pipeline) : Pipeline :=
  let streams := pl_streams p in
  let pending := pl_pending_stop_streams p in
  let p := pp_with_scheduler (rr_stop (pl_scheduler p)) (pp_with_streams [] p) in
  let p := foldl (fun p e => stopStream e.2 p) p streams in
  let p := foldl (fun p ptr => stopStream ptr p) p pending in
  pp_with_statistics (st_stop (pl_statistics p)) (pp_with_pending [] false [] p).

(** *** Which threads run *)

(** The context's threads have not been joined. *)
Definition sx_running (c : StreamContext) : bool := sx_publish_thread c || pl_running (sx_puller c).

Definition running_contexts (p : Pipeline) : list ctx_ptr :=
  (base.filter (fun e => sx_running e.2 = true) (map_to_list (pl_contexts p))).*1.
End Lifecycle.

(** ** What applying a batch does *)

(** Each running stream is under its id, with a context whose threads run. *)
Definition stream_ok (p : Pipeline) (id : string) (ptr : ctx_ptr) : Prop :=
  exists c, pl_contexts p !! ptr = Some c /\ sx_stream_id c = id /\ sx_stop_flag c = false /\ sx_running c = true.

Record pipe_wf (p : Pipeline) : Prop := {
  pw_map : std_wf (pl_streams p);
  pw_streams id ptr : (id, ptr) ∈ pl_streams p -> stream_ok p id ptr;
}.

(** No puller asks for a stop meanwhile. *)
Abbreviation never := (fun _ : ctx_ptr => false).

Section Apply.
Context `{MessageDifferencer} (rename_ok : string -> string -> bool) (edge : EdgeInferApi).

(** The stream is wanted as it is, up to its runtime configuration. *)
Definition keeps_stream (desired : list (string * StreamConfig)) (contexts : gmap ctx_ptr StreamContext)
    (e : string * ctx_ptr) : bool :=
  match std_find e.1 desired, contexts !! e.2 with
  | Some config, Some c => isSameTransportStreamConfig (sx_transport_config c) config
  | _, _ => false
  end.

(** The runtime configuration a kept stream's context gets. *)
Definition kept_context (desired : list (string * StreamConfig)) (id : string) (c : StreamContext) : StreamContext :=
  match std_find id desired with
  | Some config =>
      if isSameRuntimeStreamConfig (sx_runtime_config c) config then c
      else sx_with_runtime config (sx_detector_runtime c) c
  | None => c
  end.

(** One stream of the scan. *)
Lemma scan_drop desired s e :
  keeps_stream desired (sn_contexts s) e = false ->
  scan_stream desired s e =
    mkScan (std_erase e.1 (sn_streams s)) (sn_contexts s) (sn_to_stop s ++ [e.2])
      (sn_to_start s ++ match sn_contexts s !! e.2, std_find e.1 desired with
                        | Some _, Some config => [config] | _, _ => [] end)
      (sn_updates s).
Proof.
  destruct e as [id ptr]. unfold keeps_stream, scan_stream. cbn.
  destruct (std_find id desired), (sn_contexts s !! ptr); rewrite ?app_nil_r; try done. by intros ->.
Qed.

Lemma scan_keep desired s e :
  keeps_stream desired (sn_contexts s) e = true ->
  let s' := scan_stream desired s e in
  sn_streams s' = sn_streams s /\ sn_contexts s' = alter (kept_context desired e.1) e.2 (sn_contexts s) /\
  sn_to_stop s' = sn_to_stop s /\ sn_to_start s' = sn_to_start s /\
  (forall u, u ∈ sn_updates s' -> u ∈ sn_updates s \/ u.1 = e.2).
Proof.
  destruct e as [id ptr]. unfold keeps_stream, scan_stream. cbn.
  destruct (std_find id desired) as [config|] eqn:Ed; [|done].
  destruct (sn_contexts s !! ptr) as [c|] eqn:Ec; [|done]. intros ->. cbn [negb].
  unfold kept_context. rewrite Ed.
  destruct (isSameRuntimeStreamConfig _ config) eqn:Er; cbn; split_and!; try done.
  - rewrite alter_id; [done|]. intros c' Hc'. simplify_eq. by rewrite Er.
  - by left.
  - apply map_eq. intros q. destruct (decide (q = ptr)) as [->|];
      [rewrite lookup_insert_eq, lookup_alter_eq, Ec; cbn; by rewrite Er | by rewrite lookup_insert_ne, lookup_alter_ne].
  - intros u [?| ->%list_elem_of_singleton]%elem_of_app; [by left|by right].
Qed.

(** The scan over the streams [l], from [s] with the contexts' entries of [l] unchanged. *)
Record scanned (desired : list (string * StreamConfig)) (contexts : gmap ctx_ptr StreamContext)
    (l : list (string * ctx_ptr)) (s s' : scan) : Prop := {
  sd_wf : std_wf (sn_streams s');
  sd_dropped id ptr : (id, ptr) ∈ l -> keeps_stream desired contexts (id, ptr) = false ->
    std_find id (sn_streams s') = None;
  sd_kept id : (forall ptr, (id, ptr) ∈ l -> keeps_stream desired contexts (id, ptr) = true) ->
    std_find id (sn_streams s') = std_find id (sn_streams s);
  sd_contexts id ptr : (id, ptr) ∈ l -> keeps_stream desired contexts (id, ptr) = true ->
    sn_contexts s' !! ptr = kept_context desired id <$> contexts !! ptr;
  sd_others q : (forall id, (id, q) ∈ l -> keeps_stream desired contexts (id, q) = false) ->
    sn_contexts s' !! q = sn_contexts s !! q;
  sd_stop q : q ∈ sn_to_stop s' ->
    q ∈ sn_to_stop s \/ exists id, (id, q) ∈ l /\ keeps_stream desired contexts (id, q) = false;
  sd_start c : c ∈ sn_to_start s' ->
    c ∈ sn_to_start s \/ exists id ptr, (id, ptr) ∈ l /\ keeps_stream desired contexts (id, ptr) = false /\
      std_find id desired = Some c;
  sd_updates u : u ∈ sn_updates s' ->
    u ∈ sn_updates s \/ exists id, (id, u.1) ∈ l /\ keeps_stream desired contexts (id, u.1) = true;
}.

Lemma keeps_stream_contexts desired m m' e : m !! e.2 = m' !! e.2 -> keeps_stream desired m e = keeps_stream desired m' e.
Proof. unfold keeps_stream. by intros ->. Qed.

Lemma scan_fold desired contexts l : forall s,
  NoDup l.*1 -> NoDup l.*2 -> std_wf (sn_streams s) ->
  (forall e, e ∈ l -> sn_contexts s !! e.2 = contexts !! e.2) ->
  scanned desired contexts l s (foldl (scan_stream desired) s l).
Proof.
  induction l as [|e l IH]; intros s Hn1 Hn2 Hwf Hc; cbn [foldl].
  { split; try done; try (by intros ?? ?%elem_of_nil); by left. }
  cbn in Hn1, Hn2. apply NoDup_cons in Hn1 as [Hid Hn1]. apply NoDup_cons in Hn2 as [Hptr Hn2].
  assert (Hl1 : forall ptr, (e.1, ptr) ∉ l) by (intros ptr Hin; apply Hid; by apply (list_elem_of_fmap_2 fst) in Hin).
  assert (Hl2 : forall id, (id, e.2) ∉ l) by (intros id Hin; apply Hptr; by apply (list_elem_of_fmap_2 snd) in Hin).
  pose proof (Hc e ltac:(left)) as Hce. pose proof (keeps_stream_contexts desired _ _ e Hce) as Hke.
  assert (Hin : forall x : string * ctx_ptr, x ∈ e :: l -> x = e \/ x ∈ l) by (intros x Hx; by apply elem_of_cons in Hx).
  destruct e as [i q]. cbn [fst snd] in *. destruct (keeps_stream desired contexts (i, q)) eqn:Ek.
  - destruct (scan_keep desired s (i, q) Hke) as (E1 & E2 & E3 & E4 & E5).
    set (s1 := scan_stream desired s (i, q)) in *. cbn [fst snd] in *.
    destruct (IH s1 Hn1 Hn2 ltac:(by rewrite E1)) as [Iwf Idrop Ikept Ictx Ioth Istop Istart Iupd].
    { intros [j x] Hx. rewrite E2, lookup_alter_ne; [apply Hc; by right|]. intros ->. by apply (Hl2 j). }
    split; [done| | | | | | |].
    + intros j x [[= -> ->]|Hx]%Hin Hk; [congruence|]. by apply (Idrop j x).
    + intros j Hj. rewrite Ikept, E1; [done|]. intros x Hx. apply Hj. by right.
    + intros j x [[= -> ->]|Hx]%Hin Hk; [|by apply Ictx].
      rewrite Ioth by (intros j Hj; by apply Hl2 in Hj). by rewrite E2, lookup_alter_eq, Hce.
    + intros x Hx. destruct (decide (x = q)) as [->|Hne]; [by specialize (Hx i ltac:(left)); congruence|].
      rewrite Ioth by (intros j Hj; apply Hx; by right). by rewrite E2, lookup_alter_ne.
    + intros x [Hx|(j & Hx & ?)]%Istop; [left; by rewrite <- E3 | right; exists j; split; [by right|done]].
    + intros c [Hx|(j & x & Hx & ?)]%Istart; [left; by rewrite <- E4 | right; exists j, x; split; [by right|done]].
    + intros u [Hx|(j & Hx & ?)]%Iupd; [|right; exists j; split; [by right|done]].
      destruct (E5 u Hx) as [?| ->]; [by left|]. right. exists i. split; [left|done].
  - rewrite (scan_drop desired s (i, q) Hke). cbn [fst snd]. set (s1 := mkScan _ _ _ _ _).
    destruct (IH s1 Hn1 Hn2 ltac:(by apply std_erase_wf)) as [Iwf Idrop Ikept Ictx Ioth Istop Istart Iupd].
    { intros x Hx. apply Hc. by right. }
    split; [done| | | | | | |].
    + intros j x [[= -> ->]|Hx]%Hin Hk; [|by apply (Idrop j x)].
      rewrite Ikept by (intros x Hx; by apply Hl1 in Hx). by apply std_find_erase_eq.
    + intros j Hj. destruct (decide (j = i)) as [->|Hne]; [by specialize (Hj q ltac:(left)); congruence|].
      rewrite Ikept by (intros x Hx; apply Hj; by right). by apply std_find_erase_ne.
    + intros j x [[= -> ->]|Hx]%Hin Hk; [congruence|by apply Ictx].
    + intros x Hx. rewrite Ioth; [done|]. intros j Hj. apply Hx. by right.
    + intros x [Hx|(j & Hx & ?)]%Istop; [|right; exists j; split; [by right|done]].
      apply elem_of_app in Hx as [?| ->%list_elem_of_singleton]; [by left|]. right. exists i. split; [left|done].
    + intros c [Hx|(j & x & Hx & ?)]%Istart; [|right; exists j, x; split; [by right|done]].
      apply elem_of_app in Hx as [?|Hx]; [by left|]. right. exists i, q.
      destruct (sn_contexts s !! q), (std_find i desired); try (by apply elem_of_nil in Hx).
      apply list_elem_of_singleton in Hx as ->. by split_and!; [left| |].
    + intros u [Hx|(j & Hx & ?)]%Iupd; [by left|]. right. exists j. split; [by right|done].
Qed.

(** *** Stopping, updating and starting several streams *)

Lemma stopStream_effect ptr p :
  pl_streams (stopStream rename_ok ptr p) = pl_streams p /\
  pl_contexts (stopStream rename_ok ptr p) = alter (stop_context rename_ok) ptr (pl_contexts p).
Proof.
  unfold stopStream. destruct (pl_contexts p !! ptr) as [c|] eqn:E; cbn; (split; [done|]); apply map_eq; intros q;
    (destruct (decide (q = ptr)) as [->|]; [rewrite ?lookup_insert_eq, lookup_alter_eq, E; done|
      by rewrite ?lookup_insert_ne, lookup_alter_ne by done]).
Qed.

Lemma stop_all_effect l : forall p,
  let p' := foldl (fun p ptr => stopStream rename_ok ptr p) p l in
  pl_streams p' = pl_streams p /\
  (forall q, q ∉ l -> pl_contexts p' !! q = pl_contexts p !! q).
Proof.
  induction l as [|x l IH]; intros p; cbn; [done|].
  destruct (stopStream_effect x p) as [E1 E2], (IH (stopStream rename_ok x p)) as [I1 I2].
  split; [congruence|]. intros q [Hq ?]%not_elem_of_cons. rewrite I2 by done.
  by rewrite E2, lookup_alter_ne.
Qed.

(** Same stream, same configurations, same threads. *)
Definition same_context (c c' : StreamContext) : Prop :=
  sx_stream_id c' = sx_stream_id c /\ sx_transport_config c' = sx_transport_config c /\
  sx_runtime_config c' = sx_runtime_config c /\ sx_stop_flag c' = sx_stop_flag c /\ sx_running c' = sx_running c.

Lemma update_all_effect l : forall p,
  let p' := foldl (fun p u => updateStreamRuntime edge u.1 u.2 p) p l in
  pl_streams p' = pl_streams p /\
  (forall q c, pl_contexts p !! q = Some c -> exists c', pl_contexts p' !! q = Some c' /\ same_context c c') /\
  (forall q, q ∉ l.*1 -> pl_contexts p' !! q = pl_contexts p !! q).
Proof.
  induction l as [|[x cfg] l IH]; intros p; cbn.
  { split; [done|]. split; [|done]. intros q c Hq. by exists c. }
  destruct (IH (updateStreamRuntime edge x cfg p)) as (I1 & I2 & I3).
  assert (E : pl_streams (updateStreamRuntime edge x cfg p) = pl_streams p /\
            pl_contexts (updateStreamRuntime edge x cfg p) =
              alter (fun c => sx_with_runtime (sx_runtime_config c)
                                (update_runtime_entry edge cfg (sx_detector_runtime c)) c) x (pl_contexts p)).
  { unfold updateStreamRuntime. destruct (pl_contexts p !! x) as [c|] eqn:Ex; cbn; (split; [done|]); apply map_eq;
      intros q; (destruct (decide (q = x)) as [->|]; [rewrite ?lookup_insert_eq, lookup_alter_eq, Ex; done|
      by rewrite ?lookup_insert_ne, lookup_alter_ne by done]). }
  destruct E as [E1 E2]. split; [congruence|]. split.
  - intros q c Hq. destruct (decide (q = x)) as [->|].
    + destruct (I2 x (sx_with_runtime (sx_runtime_config c) (update_runtime_entry edge cfg (sx_detector_runtime c)) c))
        as (c' & ? & ?); [by rewrite E2, lookup_alter_eq, Hq|]. by exists c'.
    + apply I2. by rewrite E2, lookup_alter_ne.
  - intros q [? ?]%not_elem_of_cons. rewrite I3 by done. by rewrite E2, lookup_alter_ne.
Qed.

(** The scheduler's mark of a stream: a task of it is in a thread's hands. *)
Definition in_flight (id : string) (p : Pipeline) : bool := default false (en_inflight <$> rr_entries (pl_scheduler p) !! id).

Lemma upsert_entries id config b (s : RoundRobinInferScheduler) :
  rr_entries (upsertStream id config b s) = <[id := mkEntry config b (default false (en_inflight <$> rr_entries s !! id))]> (rr_entries s).
Proof. unfold upsertStream. cbn. by destruct (rr_entries s !! id). Qed.

Lemma start_stream_effect p config :
  exists ptr buffer, pl_contexts p !! ptr = None /\ pl_buffers p !! buffer = None /\
    let p' := start_stream rename_ok edge never never p config in
    pl_streams p' = std_insert (sc_stream_id config) ptr (pl_streams p) /\
    pl_contexts p' = <[ptr := new_context edge config buffer]> (pl_contexts p) /\
    pl_buffers p' = <[buffer := createStreamBuffer (sc_stream_id config)]> (pl_buffers p) /\
    rr_entries (pl_scheduler p') =
      <[sc_stream_id config := mkEntry config (Some buffer) (in_flight (sc_stream_id config) p)]> (rr_entries (pl_scheduler p)).
Proof.
  unfold start_stream, buildStreamContext. cbn -[upsertStream].
  set (ptr := fresh (dom (pl_contexts p))). set (buffer := fresh (dom (pl_buffers p))).
  assert (Hf : pl_contexts p !! ptr = None) by apply not_elem_of_dom, is_fresh.
  assert (Hb : pl_buffers p !! buffer = None) by apply not_elem_of_dom, is_fresh.
  rewrite lookup_insert_eq. cbn -[upsertStream]. exists ptr, buffer. split_and!; try done. apply upsert_entries.
Qed.

(** The streams [l] were started, one after the other. *)
Record all_started (l : list StreamConfig) (p p' : Pipeline) : Prop := {
  as_wf : std_wf (pl_streams p');
  as_contexts q c : pl_contexts p !! q = Some c -> pl_contexts p' !! q = Some c;
  as_buffers b x : pl_buffers p !! b = Some x -> pl_buffers p' !! b = Some x;
  as_others id : id ∉ sc_stream_id <$> l ->
    std_find id (pl_streams p') = std_find id (pl_streams p) /\
    rr_entries (pl_scheduler p') !! id = rr_entries (pl_scheduler p) !! id;
  as_new id : id ∈ sc_stream_id <$> l -> exists config ptr buffer, config ∈ l /\ sc_stream_id config = id /\
    std_find id (pl_streams p') = Some ptr /\ pl_contexts p' !! ptr = Some (new_context edge config buffer) /\
    pl_contexts p !! ptr = None /\ pl_buffers p !! buffer = None /\ pl_buffers p' !! buffer = Some (createStreamBuffer id) /\
    rr_entries (pl_scheduler p') !! id = Some (mkEntry config (Some buffer) (in_flight id p));
  as_only q c : pl_contexts p !! q = None -> pl_contexts p' !! q = Some c ->
    exists config buffer, config ∈ l /\ c = new_context edge config buffer;
}.

Lemma start_all_effect l : forall p,
  std_wf (pl_streams p) -> all_started l p (foldl (start_stream rename_ok edge never never) p l).
Proof.
  induction l as [|config l IH]; intros p Hwf; cbn [foldl].
  { split; try done; [by intros ? ?%elem_of_nil|]. intros q c Hq Hc. congruence. }
  destruct (start_stream_effect p config) as (ptr & buffer & Hf & Hb & E1 & E2 & E3 & E4). cbn zeta in *.
  set (p1 := start_stream rename_ok edge never never p config) in *.
  destruct (IH p1 ltac:(rewrite E1; by apply std_insert_wf)) as [I1 I2 I3 I4 I5 I6].
  assert (Hold : forall b x, pl_buffers p !! b = Some x -> b <> buffer) by (intros b x Hx ->; congruence).
  split; [done|..].
  - intros q c Hq. apply I2. rewrite E2, lookup_insert_ne; [done|]. intros ->. congruence.
  - intros b x Hx. apply I3. rewrite E3, lookup_insert_ne; [done|]. intros ->. congruence.
  - intros id [? ?]%not_elem_of_cons. destruct (I4 id ltac:(done)) as [-> ->]. rewrite E1, E4, lookup_insert_ne by done.
    by rewrite std_find_insert_ne.
  - intros id Hid. destruct (decide (id ∈ sc_stream_id <$> l)) as [Hin|Hout].
    + destruct (I5 id Hin) as (c & q & b & Hc & Hcid & Hq & Hctx & Hnew & Hnb & Hbuf & He). exists c, q, b. split; [by right|].
      rewrite E2 in Hnew. apply lookup_insert_None in Hnew as [??]. rewrite E3 in Hnb. apply lookup_insert_None in Hnb as [??].
      split_and!; try done. rewrite He. unfold in_flight. rewrite E4. destruct (decide (sc_stream_id config = id)) as [->|];
        [by rewrite lookup_insert_eq|by rewrite lookup_insert_ne].
    + apply elem_of_cons in Hid as [->|?]; [|done]. exists config, ptr, buffer. destruct (I4 _ Hout) as [J1 J2].
      split; [left|]. split; [done|]. split; [rewrite J1, E1; apply std_find_insert_eq|].
      split_and!; [apply I2; by rewrite E2, lookup_insert_eq|done|done|apply I3; by rewrite E3, lookup_insert_eq|].
      by rewrite J2, E4, lookup_insert_eq.
  - intros q c Hq Hc. destruct (decide (q = ptr)) as [->|Hne].
    + exists config, buffer. split; [left|]. rewrite (I2 ptr (new_context edge config buffer)) in Hc; [congruence|].
      by rewrite E2, lookup_insert_eq.
    + destruct (I6 q c) as (config' & b & ? & ?); [by rewrite E2, lookup_insert_ne|done|]. exists config', b. by split; [right|].
Qed.

(** *** The whole batch *)

Lemma new_context_ok config buffer :
  sx_stream_id (new_context edge config buffer) = sc_stream_id config /\
  sx_stop_flag (new_context edge config buffer) = false /\ sx_running (new_context edge config buffer) = true /\
  isSameTransportStreamConfig (sx_transport_config (new_context edge config buffer)) config = true /\
  sx_runtime_config (new_context edge config buffer) = config.
Proof. split_and!; try done. cbn. by apply isSameTransport_iff. Qed.

(** Scanning the pipeline's own streams. *)
Lemma scan_streams_scanned desired p :
  pipe_wf p ->
  scanned desired (pl_contexts p) (pl_streams p) (mkScan (pl_streams p) (pl_contexts p) [] [] [])
    (foldl (scan_stream desired) (mkScan (pl_streams p) (pl_contexts p) [] [] []) (pl_streams p)).
Proof.
  intros [Hm Hs]. apply scan_fold; cbn; [by apply std_wf_NoDup | | done | done].
  apply NoDup_fmap_2_strong; [|by eapply NoDup_fmap_1, std_wf_NoDup].
  intros [i q] [j q'] Hi Hj. cbn. intros <-.
  destruct (Hs i q Hi) as (c & Hc & <- & _), (Hs j q Hj) as (c' & Hc' & <- & _). congruence.
Qed.

(** A stream that is wanted and not kept is started. *)
Lemma scan_streams_starts desired p id config :
  std_wf desired -> std_find id desired = Some config -> std_find id (sn_streams (scan_streams desired p)) = None ->
  config ∈ sn_to_start (scan_streams desired p).
Proof.
  intros Hwf Hd Hn. unfold scan_streams in *. cbn in *. apply elem_of_app. right.
  apply list_elem_of_omap. exists (id, config). split; [by apply std_find_Some|]. cbn. by rewrite Hn.
Qed.

(** The streams left by the scan are the kept ones. *)
Lemma scan_found desired p id q :
  pipe_wf p ->
  std_find id (sn_streams (scan_streams desired p)) = Some q ->
  (id, q) ∈ pl_streams p /\ std_find id (pl_streams p) = Some q /\
  keeps_stream desired (pl_contexts p) (id, q) = true.
Proof.
  intros Hwf. pose proof (scan_streams_scanned desired p Hwf) as [_ Hdrop Hkept _ _ _ _ _]. cbn in *.
  intros Hq. destruct Hwf as [Hm _].
  assert (Huniq : forall x y, (id, x) ∈ pl_streams p -> (id, y) ∈ pl_streams p -> x = y).
  { intros x y Hx%std_find_Some Hy%std_find_Some; try done. congruence. }
  destruct (std_find id (pl_streams p)) as [q0|] eqn:E0.
  - apply std_find_Some in E0 as Hin0; [|done].
    destruct (keeps_stream desired (pl_contexts p) (id, q0)) eqn:Ek.
    + rewrite (Hkept id), E0 in Hq by (intros x Hx; by rewrite <- (Huniq q0 x)). by simplify_eq.
    + by rewrite (Hdrop id q0) in Hq.
  - rewrite (Hkept id), E0 in Hq; [done|]. intros x Hx%std_find_Some; [congruence|done].
Qed.

(** A kept stream's context after the scan, the stops and the updates. *)
Lemma kept_after desired p id q c :
  pipe_wf p ->
  let s := scan_streams desired p in
  let p1 := pp_with_contexts (sn_contexts s) (pp_with_streams (sn_streams s) p) in
  let p2 := foldl (fun p ptr => stopStream rename_ok ptr p) p1 (sn_to_stop s) in
  let p3 := foldl (fun p u => updateStreamRuntime edge u.1 u.2 p) p2 (sn_updates s) in
  (id, q) ∈ pl_streams p -> keeps_stream desired (pl_contexts p) (id, q) = true -> pl_contexts p !! q = Some c ->
  exists c', pl_contexts p3 !! q = Some c' /\ same_context (kept_context desired id c) c'.
Proof.
  intros Hwf s p1 p2 p3 Hin Hk Hc.
  pose proof (scan_streams_scanned desired p Hwf) as [_ _ _ Hctx _ Hstop _ _]. cbn in *.
  destruct (update_all_effect (sn_updates s) p2) as (_ & Hu & _).
  apply (Hu q (kept_context desired id c)).
  destruct (stop_all_effect (sn_to_stop s) p1) as [_ Hs]. unfold p2. rewrite Hs.
  - change (sn_contexts s !! q = Some (kept_context desired id c)). etrans; [exact (Hctx id q Hin Hk)|]. by rewrite Hc.
  - intros [?%elem_of_nil|(j & Hj & Hkj)]%Hstop; [done|]. destruct Hwf as [_ Hs'].
    destruct (Hs' id q Hin) as (c1 & E1 & <- & _), (Hs' j q Hj) as (c2 & E2 & <- & _). simplify_eq. congruence.
Qed.

(** A stream as a configuration wants it, its threads running. *)
Record stream_as_wanted (config : StreamConfig) (c : StreamContext) : Prop := {
  sw_id : sx_stream_id c = sc_stream_id config;
  sw_stop : sx_stop_flag c = false;
  sw_running : sx_running c = true;
  sw_transport : isSameTransportStreamConfig (sx_transport_config c) config = true;
  sw_runtime : sx_runtime_config c = config \/ isSameRuntimeStreamConfig (sx_runtime_config c) config = true;
}.

Lemma kept_as_wanted desired p id q config c c' :
  stream_ok p id q -> std_find id desired = Some config -> sc_stream_id config = id ->
  keeps_stream desired (pl_contexts p) (id, q) = true -> pl_contexts p !! q = Some c ->
  same_context (kept_context desired id c) c' -> stream_as_wanted config c'.
Proof.
  intros (c0 & Hc0 & Hid & Hst & Hr) Hd Hcid Hk Hc (E1 & E2 & E3 & E4 & E5).
  rewrite Hc in Hc0. injection Hc0 as <-.
  unfold keeps_stream in Hk. cbn in Hk. rewrite Hd, Hc in Hk. unfold kept_context in *. rewrite Hd in *.
  destruct (isSameRuntimeStreamConfig (sx_runtime_config c) config) eqn:Er; cbn in *;
    (split; [congruence|congruence|by rewrite E5|by rewrite E2|rewrite E3]); [by right|by left].
Qed.

(** What is started is wanted and was not kept. *)
Lemma scan_starts_wanted configs p config :
  let desired := buildMergedStreams configs in
  pipe_wf p -> config ∈ sn_to_start (scan_streams desired p) ->
  std_find (sc_stream_id config) desired = Some config /\
  std_find (sc_stream_id config) (sn_streams (scan_streams desired p)) = None.
Proof.
  intros desired Hwf. pose proof (scan_streams_scanned desired p Hwf) as Hscan.
  destruct (merged_find configs EmptyString) as [_ Hdwf]. fold desired in Hdwf.
  unfold scan_streams. cbn. intros [Hc|Hc]%elem_of_app.
  - apply (sd_start _ _ _ _ _ Hscan) in Hc as [?%elem_of_nil|(id & q & Hin & Hk & Hd)]; [done|].
    rewrite (merged_stream_id _ _ _ Hd). split; [done|]. by eapply (sd_dropped _ _ _ _ _ Hscan).
  - apply list_elem_of_omap in Hc as ([id c'] & Hin & Hc). cbn in Hc.
    destruct (std_find id _) eqn:E; [done|]. injection Hc as ->. apply std_find_Some in Hin; [|done].
    by rewrite (merged_stream_id _ _ _ Hin).
Qed.

(** The streams after the stops and updates, before the starts. *)
Lemma before_starts desired p :
  let s := scan_streams desired p in
  let p1 := pp_with_contexts (sn_contexts s) (pp_with_streams (sn_streams s) p) in
  let p2 := foldl (fun p ptr => stopStream rename_ok ptr p) p1 (sn_to_stop s) in
  let p3 := foldl (fun p u => updateStreamRuntime edge u.1 u.2 p) p2 (sn_updates s) in
  pl_streams p3 = sn_streams s.
Proof.
  intros s p1 p2 p3. unfold p3. destruct (update_all_effect (sn_updates s) p2) as [-> _]. unfold p2.
  by destruct (stop_all_effect (sn_to_stop s) p1) as [-> _].
Qed.

(** *** What happens to each context, buffer and registration *)

(** The runtime update the scan notes for a stream. *)
Definition runtime_update (desired : list (string * StreamConfig)) (contexts : gmap ctx_ptr StreamContext)
    (e : string * ctx_ptr) : option (ctx_ptr * StreamConfig) :=
  match std_find e.1 desired, contexts !! e.2 with
  | Some config, Some c =>
      if isSameTransportStreamConfig (sx_transport_config c) config &&
         negb (isSameRuntimeStreamConfig (sx_runtime_config c) config)
      then Some (e.2, config) else None
  | _, _ => None
  end.

Lemma scan_lists desired contexts l : forall s,
  NoDup l.*2 -> (forall e, e ∈ l -> sn_contexts s !! e.2 = contexts !! e.2) ->
  let s' := foldl (scan_stream desired) s l in
  sn_to_stop s' = sn_to_stop s ++ (base.filter (fun e => keeps_stream desired contexts e = false) l).*2 /\
  sn_updates s' = sn_updates s ++ omap (runtime_update desired contexts) l.
Proof.
  induction l as [|e l IH]; intros s Hnd Hc; cbn [foldl]; [by rewrite !app_nil_r|].
  cbn in Hnd. apply NoDup_cons in Hnd as [Hni Hnd].
  assert (H1 : sn_to_stop (scan_stream desired s e) = sn_to_stop s ++ (if keeps_stream desired contexts e then [] else [e.2]) /\
            sn_updates (scan_stream desired s e) = sn_updates s ++ option_list (runtime_update desired contexts e) /\
            forall q, q <> e.2 -> sn_contexts (scan_stream desired s e) !! q = sn_contexts s !! q).
  { pose proof (Hc e ltac:(left)) as He. destruct e as [id ptr]. cbn in He.
    unfold scan_stream, keeps_stream, runtime_update. cbn. rewrite He.
    destruct (std_find id desired) as [config|], (contexts !! ptr) as [c|]; cbn; rewrite ?app_nil_r; try done.
    destruct (isSameTransportStreamConfig _ config); cbn; rewrite ?app_nil_r; [|done].
    destruct (isSameRuntimeStreamConfig _ config); cbn; rewrite ?app_nil_r; [done|]. split_and!; [done|done|].
    intros q Hq. by rewrite lookup_insert_ne. }
  destruct H1 as (E1 & E2 & E3). destruct (IH (scan_stream desired s e) Hnd) as [-> ->].
  { intros x Hx. rewrite E3; [apply Hc; by right|]. intros E. apply Hni. rewrite <- E. by apply list_elem_of_fmap_2. }
  rewrite E1, E2, <- !app_assoc, filter_cons. split.
  - destruct (keeps_stream desired contexts e); [by rewrite decide_False|by rewrite decide_True].
  - cbn. by destruct (runtime_update desired contexts e).
Qed.

(** Some context of [l] satisfies [f]. *)
Definition hits (f : StreamContext -> bool) (contexts : gmap ctx_ptr StreamContext) (l : list ctx_ptr) : bool :=
  existsb (fun q => match contexts !! q with Some c => f c | None => false end) l.

Lemma hits_true f contexts l : hits f contexts l = true <-> exists q c, q ∈ l /\ contexts !! q = Some c /\ f c = true.
Proof.
  unfold hits. rewrite existsb_exists. split.
  - intros (q & Hq%list_elem_of_In & Hf). destruct (contexts !! q) as [c|] eqn:E; [|done]. by exists q, c.
  - intros (q & c & Hq & Hc & Hf). exists q. rewrite Hc. split; [by apply list_elem_of_In|done].
Qed.

Lemma hits_ext f m m' l : (forall q, q ∈ l -> m !! q = m' !! q) -> hits f m l = hits f m' l.
Proof.
  induction l as [|q l IH]; intros Hl; cbn; [done|]. rewrite (Hl q) by left. f_equal. apply IH. intros x Hx. apply Hl. by right.
Qed.

Lemma stop_all_exact l : forall p, NoDup l ->
  let p' := foldl (fun p ptr => stopStream rename_ok ptr p) p l in
  (forall q, pl_contexts p' !! q = if decide (q ∈ l) then stop_context rename_ok <$> pl_contexts p !! q else pl_contexts p !! q) /\
  (forall id, rr_entries (pl_scheduler p') !! id =
     if hits (fun c => bool_decide (sx_stream_id c = id)) (pl_contexts p) l then None else rr_entries (pl_scheduler p) !! id) /\
  (forall b, pl_buffers p' !! b =
     if hits (fun c => bool_decide (sx_buffer c = b)) (pl_contexts p) l then sb_stop <$> pl_buffers p !! b else pl_buffers p !! b).
Proof.
  induction l as [|x l IH]; intros p Hnd; cbn [foldl].
  { split_and!; [|done|done]. intros q. rewrite decide_False; [done|apply not_elem_of_nil]. }
  apply NoDup_cons in Hnd as [Hx Hnd]. destruct (stopStream_effect x p) as [_ Ectx].
  set (p1 := stopStream rename_ok x p) in *. destruct (IH p1 Hnd) as (I1 & I2 & I3).
  assert (Hh : forall f, hits f (pl_contexts p1) l = hits f (pl_contexts p) l).
  { intros f. apply hits_ext. intros q Hq. rewrite Ectx, lookup_alter_ne; [done|]. by intros ->. }
  assert (E : rr_entries (pl_scheduler p1) = (match pl_contexts p !! x with Some c => delete (sx_stream_id c) | None => id end)
                (rr_entries (pl_scheduler p)) /\
              pl_buffers p1 = (match pl_contexts p !! x with Some c => alter sb_stop (sx_buffer c) | None => id end) (pl_buffers p)).
  { unfold p1, stopStream. by destruct (pl_contexts p !! x). }
  destruct E as [Ee Eb]. split_and!.
  - intros q. rewrite I1, Ectx. destruct (decide (q = x)) as [->|Hne].
    + rewrite decide_False, decide_True by (done || left). by rewrite lookup_alter_eq.
    + rewrite lookup_alter_ne by done. destruct (decide (q ∈ l)); [rewrite decide_True by by right|rewrite decide_False]; [done|done|].
      by rewrite not_elem_of_cons.
  - intros i. rewrite I2, Hh, Ee. cbn [hits existsb]. fold (hits (fun c => bool_decide (sx_stream_id c = i)) (pl_contexts p) l).
    destruct (pl_contexts p !! x) as [c|]; cbn; [|done]. case_bool_decide as Hi; cbn; [|by rewrite lookup_delete_ne].
    rewrite <- Hi, lookup_delete_eq. by destruct (hits _ _ _).
  - intros b. rewrite I3, Hh, Eb. cbn [hits existsb]. fold (hits (fun c => bool_decide (sx_buffer c = b)) (pl_contexts p) l).
    destruct (pl_contexts p !! x) as [c|]; cbn; [|done]. case_bool_decide as Hb; cbn; [|by rewrite lookup_alter_ne].
    rewrite <- Hb, lookup_alter_eq. destruct (hits _ _ _); [|done]. by destruct (pl_buffers p !! sx_buffer c).
Qed.

(** The context of an updated stream. *)
Definition updated_context (cfg : StreamConfig) (c : StreamContext) : StreamContext :=
  sx_with_runtime (sx_runtime_config c) (update_runtime_entry edge cfg (sx_detector_runtime c)) c.

Lemma update_stream_exact x cfg p c :
  pl_contexts p !! x = Some c ->
  let p' := updateStreamRuntime edge x cfg p in
  pl_contexts p' = <[x := updated_context cfg c]> (pl_contexts p) /\ pl_buffers p' = pl_buffers p /\
  rr_entries (pl_scheduler p') =
    <[sx_stream_id c := mkEntry cfg (Some (sx_buffer c)) (in_flight (sx_stream_id c) p)]> (rr_entries (pl_scheduler p)).
Proof. intros Hx. unfold updateStreamRuntime. rewrite Hx. split_and!; [done|done|]. apply upsert_entries. Qed.

(** The streams [l] are updated, each with a context of its own id. *)
Lemma update_all_exact (name : ctx_ptr -> string) l : forall p,
  NoDup l.*1 -> (forall u, u ∈ l -> exists c, pl_contexts p !! u.1 = Some c /\ sx_stream_id c = name u.1) ->
  (forall u v, u ∈ l -> v ∈ l -> name u.1 = name v.1 -> u = v) ->
  let p' := foldl (fun p u => updateStreamRuntime edge u.1 u.2 p) p l in
  pl_buffers p' = pl_buffers p /\
  (forall q cfg c, (q, cfg) ∈ l -> pl_contexts p !! q = Some c ->
     pl_contexts p' !! q = Some (updated_context cfg c) /\
     rr_entries (pl_scheduler p') !! name q = Some (mkEntry cfg (Some (sx_buffer c)) (in_flight (name q) p))) /\
  (forall id, (forall u, u ∈ l -> name u.1 <> id) -> rr_entries (pl_scheduler p') !! id = rr_entries (pl_scheduler p) !! id).
Proof.
  induction l as [|[x cfg] l IH]; intros p Hnd Hname Hinj; cbn [foldl].
  { split_and!; [done| |done]. by intros ??? ?%elem_of_nil. }
  cbn in Hnd. apply NoDup_cons in Hnd as [Hx Hnd]. destruct (Hname (x, cfg) ltac:(left)) as (c & Hc & Hid). cbn in Hc, Hid.
  destruct (update_stream_exact x cfg p c Hc) as (E1 & E2 & E3). cbn [fst snd]. set (p1 := updateStreamRuntime edge x cfg p) in *.
  assert (Hne : forall u, u ∈ l -> x <> u.1) by (intros u Hu ->; apply Hx; by apply list_elem_of_fmap_2).
  assert (Hnm : forall u, u ∈ l -> name u.1 <> name x).
  { intros u Hu E. apply (Hne u Hu). by rewrite (Hinj u (x, cfg)) by first [done|by left|by right]. }
  destruct (IH p1 Hnd) as (I1 & I2 & I3).
  { intros u Hu. rewrite E1, lookup_insert_ne by (by apply Hne). apply Hname. by right. }
  { intros u v Hu Hv. apply Hinj; by right. }
  split_and!; [congruence| |].
  - intros q cfg' c' [[= -> ->]|Hin]%elem_of_cons Hq.
    + assert (c' = c) as -> by congruence. destruct (update_all_effect l p1) as (_ & _ & Hout).
      rewrite Hout, E1, lookup_insert_eq by done. split; [done|]. by rewrite (I3 (name x) Hnm), E3, Hid, lookup_insert_eq.
    + pose proof (Hne _ Hin) as Hqx. pose proof (Hnm _ Hin) as Hn. cbn in Hqx, Hn.
      destruct (I2 q cfg' c' Hin) as [-> ->]; [by rewrite E1, lookup_insert_ne|]. split; [done|].
      unfold in_flight. rewrite E3, lookup_insert_ne; [done|]. rewrite Hid. congruence.
  - intros id Hall. rewrite I3 by (intros u Hu; apply Hall; by right). rewrite E3, lookup_insert_ne; [done|].
    rewrite Hid. apply (Hall (x, cfg)). left.
Qed.

Lemma pipe_wf_unique p id id' q q' :
  pipe_wf p -> (id, q) ∈ pl_streams p -> (id', q') ∈ pl_streams p -> id = id' \/ q = q' -> (id, q) = (id', q').
Proof.
  intros [Hm Hs] H1 H2 [<-|<-].
  - apply std_find_Some in H1, H2; [|done..]. congruence.
  - destruct (Hs id q H1) as (c & Hc & <- & _), (Hs id' q H2) as (c' & Hc' & <- & _). congruence.
Qed.

(** The pipeline when the stops and updates are done. *)
Definition before_start (desired : list (string * StreamConfig)) (p : Pipeline) : Pipeline :=
  let s := scan_streams desired p in
  let p1 := pp_with_contexts (sn_contexts s) (pp_with_streams (sn_streams s) p) in
  let p2 := foldl (fun p ptr => stopStream rename_ok ptr p) p1 (sn_to_stop s) in
  foldl (fun p u => updateStreamRuntime edge u.1 u.2 p) p2 (sn_updates s).

(** The context is that of a stream the batch stops. *)
Definition stopped_by (desired : list (string * StreamConfig)) (p : Pipeline) (q : ctx_ptr) (c : StreamContext) : Prop :=
  pl_contexts p !! q = Some c /\ (sx_stream_id c, q) ∈ pl_streams p /\
  keeps_stream desired (pl_contexts p) (sx_stream_id c, q) = false.

Section BeforeStart.
Context (desired : list (string * StreamConfig)) (p : Pipeline) (Hwf : pipe_wf p).

Let contexts := pl_contexts p.
Let s := scan_streams desired p.
Let p1 := pp_with_contexts (sn_contexts s) (pp_with_streams (sn_streams s) p).
Let p2 := foldl (fun p ptr => stopStream rename_ok ptr p) p1 (sn_to_stop s).

Lemma stream_context id q : (id, q) ∈ pl_streams p -> exists c, contexts !! q = Some c /\ sx_stream_id c = id.
Proof. intros Hin. destruct (pw_streams p Hwf id q Hin) as (c & ? & ? & _). by exists c. Qed.

Lemma streams_distinct : NoDup (pl_streams p).*2.
Proof.
  apply NoDup_fmap_2_strong; [|eapply NoDup_fmap_1, std_wf_NoDup, Hwf].
  intros [i x] [j y] Hi Hj Hq. apply (pipe_wf_unique p); [done..|]. by right.
Qed.

Lemma to_stop_exact : sn_to_stop s = (base.filter (fun e => keeps_stream desired contexts e = false) (pl_streams p)).*2.
Proof. apply (scan_lists desired contexts (pl_streams p) (mkScan (pl_streams p) (pl_contexts p) [] [] [])); [apply streams_distinct|done]. Qed.

Lemma updates_exact : sn_updates s = omap (runtime_update desired contexts) (pl_streams p).
Proof. apply (scan_lists desired contexts (pl_streams p) (mkScan (pl_streams p) (pl_contexts p) [] [] [])); [apply streams_distinct|done]. Qed.

Lemma in_to_stop q : q ∈ sn_to_stop s <-> exists c, stopped_by desired p q c.
Proof.
  rewrite to_stop_exact. split.
  - intros ([id x] & -> & [Hk Hin]%list_elem_of_filter)%list_elem_of_fmap. destruct (stream_context id x Hin) as (c & Hc & <-).
    by exists c.
  - intros (c & Hc & Hin & Hk). apply list_elem_of_fmap. exists (sx_stream_id c, q). split; [done|]. by apply list_elem_of_filter.
Qed.

Lemma in_updates q cfg : (q, cfg) ∈ sn_updates s <-> exists id, (id, q) ∈ pl_streams p /\ runtime_update desired contexts (id, q) = Some (q, cfg).
Proof.
  rewrite updates_exact, list_elem_of_omap. split.
  - intros ([id x] & Hin & Hu). assert (x = q) as <-; [|by exists id].
    unfold runtime_update in Hu. cbn in Hu. repeat case_match; by simplify_eq.
  - intros (id & Hin & Hu). by exists (id, q).
Qed.

Lemma update_kept id q cfg : runtime_update desired contexts (id, q) = Some (q, cfg) -> keeps_stream desired contexts (id, q) = true.
Proof.
  unfold runtime_update, keeps_stream. cbn. destruct (std_find id desired), (contexts !! q); try done.
  by destruct (isSameTransportStreamConfig _ _).
Qed.

(** The contexts after the scan: only those of updated streams differ. *)
Lemma scanned_context q c :
  contexts !! q = Some c ->
  sn_contexts s !! q = Some c \/
  exists cfg, (q, cfg) ∈ sn_updates s /\ sn_contexts s !! q = Some (sx_with_runtime cfg (sx_detector_runtime c) c).
Proof.
  intros Hc. pose proof (scan_streams_scanned desired p Hwf) as Hs.
  destruct (decide (Exists (fun e => e.2 = q /\ keeps_stream desired contexts e = true) (pl_streams p))) as [He|Hno].
  - apply Exists_exists in He as ([id x] & Hin & Hx & Hk). cbn in Hx. subst x.
    pose proof (sd_contexts _ _ _ _ _ Hs id q Hin Hk) as Hq. fold contexts in Hq. rewrite Hc in Hq.
    change (sn_contexts s !! q = Some (kept_context desired id c)) in Hq. rewrite Hq.
    unfold kept_context. unfold keeps_stream in Hk. cbn in Hk. rewrite Hc in Hk.
    destruct (std_find id desired) as [config|] eqn:Ed; [|done].
    destruct (isSameRuntimeStreamConfig (sx_runtime_config c) config) eqn:Er; [by left|]. right. exists config. split; [|done].
    apply in_updates. exists id. split; [done|]. unfold runtime_update. cbn. by rewrite Ed, Hc, Hk, Er.
  - left. rewrite <- Hc. apply (sd_others _ _ _ _ _ Hs q). intros id Hin. apply not_true_iff_false. intros Hk.
    apply Hno, Exists_exists. by exists (id, q).
Qed.

Lemma stopped_scanned q c : stopped_by desired p q c -> sn_contexts s !! q = Some c.
Proof.
  intros (Hc & Hin & Hk). destruct (scanned_context q c Hc) as [?|(cfg & Hu & _)]; [done|]. exfalso.
  apply in_updates in Hu as (id & Hin' & Hu). apply update_kept in Hu. unfold contexts in Hu.
  destruct (stream_context id q Hin') as (c' & Hc' & Hid). unfold contexts in Hc'. congruence.
Qed.

Lemma to_stop_distinct : NoDup (sn_to_stop s).
Proof.
  rewrite to_stop_exact. pose proof streams_distinct as Hnd. revert Hnd. generalize (pl_streams p) as l.
  induction l as [|e l IH]; [constructor|]. rewrite fmap_cons. intros [Hni Hnd]%NoDup_cons. rewrite filter_cons. case_decide; [|by apply IH].
  rewrite fmap_cons. apply NoDup_cons. split; [|by apply IH]. intros (x & Hx & [_ Hin]%list_elem_of_filter)%list_elem_of_fmap.
  apply Hni. rewrite Hx. by apply list_elem_of_fmap_2.
Qed.

Lemma hits_stopped f : hits f (pl_contexts p1) (sn_to_stop s) = true <-> exists q c, stopped_by desired p q c /\ f c = true.
Proof.
  rewrite hits_true. split.
  - intros (q & c & Hq & Hc & Hf). apply in_to_stop in Hq as (c' & Hc'). change (sn_contexts s !! q = Some c) in Hc.
    rewrite (stopped_scanned q c' Hc') in Hc. injection Hc as ->. by exists q, c.
  - intros (q & c & Hc & Hf). exists q, c. split_and!; [apply in_to_stop; by exists c|by apply stopped_scanned|done].
Qed.

(** After the stops. *)
Lemma stops_exact :
  (forall q c, stopped_by desired p q c -> pl_contexts p2 !! q = Some (stop_context rename_ok c)) /\
  (forall q, (forall c, ~ stopped_by desired p q c) -> pl_contexts p2 !! q = sn_contexts s !! q) /\
  (forall q c, stopped_by desired p q c -> rr_entries (pl_scheduler p2) !! sx_stream_id c = None) /\
  (forall id, (forall q c, stopped_by desired p q c -> sx_stream_id c <> id) ->
     rr_entries (pl_scheduler p2) !! id = rr_entries (pl_scheduler p) !! id) /\
  (forall q c, stopped_by desired p q c -> pl_buffers p2 !! sx_buffer c = sb_stop <$> pl_buffers p !! sx_buffer c) /\
  (forall b, (forall q c, stopped_by desired p q c -> sx_buffer c <> b) -> pl_buffers p2 !! b = pl_buffers p !! b).
Proof.
  destruct (stop_all_exact (sn_to_stop s) p1 to_stop_distinct) as (I1 & I2 & I3). fold p2 in I1, I2, I3. split_and!.
  - intros q c Hq. rewrite I1, decide_True by (apply in_to_stop; by exists c).
    change (pl_contexts p1) with (sn_contexts s). by rewrite (stopped_scanned q c Hq).
  - intros q Hq. rewrite I1, decide_False; [done|]. intros (c & Hc)%in_to_stop. by apply (Hq c).
  - intros q c Hq. rewrite I2. rewrite (proj2 (hits_stopped _)); [done|]. exists q, c. split; [done|]. by apply bool_decide_eq_true.
  - intros id Hid. rewrite I2. destruct (hits _ _ _) eqn:E; [|done]. apply hits_stopped in E as (q & c & Hq & E%bool_decide_eq_true).
    by destruct (Hid q c Hq).
  - intros q c Hq. rewrite I3. rewrite (proj2 (hits_stopped _)); [done|]. exists q, c. split; [done|]. by apply bool_decide_eq_true.
  - intros b Hb. rewrite I3. destruct (hits _ _ _) eqn:E; [|done]. apply hits_stopped in E as (q & c & Hq & E%bool_decide_eq_true).
    by destruct (Hb q c Hq).
Qed.

Lemma updated_not_stopped q cfg c : (q, cfg) ∈ sn_updates s -> ~ stopped_by desired p q c.
Proof.
  intros (id & Hin & Hu%update_kept)%in_updates (Hc & Hin' & Hk).
  pose proof (pipe_wf_unique p _ _ _ _ Hwf Hin Hin' ltac:(by right)) as E. injection E as E. unfold contexts in Hu. congruence.
Qed.

(** After the updates. *)
Lemma updates_effect :
  let p3 := before_start desired p in
  pl_buffers p3 = pl_buffers p2 /\
  (forall q, (forall cfg, (q, cfg) ∉ sn_updates s) -> pl_contexts p3 !! q = pl_contexts p2 !! q) /\
  (forall q cfg c, (q, cfg) ∈ sn_updates s -> contexts !! q = Some c ->
     pl_contexts p3 !! q = Some (sx_with_runtime cfg (update_runtime_entry edge cfg (sx_detector_runtime c)) c) /\
     rr_entries (pl_scheduler p3) !! sx_stream_id c = Some (mkEntry cfg (Some (sx_buffer c)) (in_flight (sx_stream_id c) p))) /\
  (forall id, (forall q cfg c, (q, cfg) ∈ sn_updates s -> contexts !! q = Some c -> sx_stream_id c <> id) ->
     rr_entries (pl_scheduler p3) !! id = rr_entries (pl_scheduler p2) !! id).
Proof.
  intros p3. destruct stops_exact as (_ & Hctx & _ & Hent & _ & _).
  set (name := fun q => match contexts !! q with Some c => sx_stream_id c | None => EmptyString end).
  assert (Hup : forall q cfg, (q, cfg) ∈ sn_updates s ->
            exists c, contexts !! q = Some c /\ (name q, q) ∈ pl_streams p /\ sx_stream_id c = name q /\
              pl_contexts p2 !! q = Some (sx_with_runtime cfg (sx_detector_runtime c) c)).
  { intros q cfg Hu. pose proof Hu as (id & Hin & E)%in_updates. destruct (stream_context id q Hin) as (c & Hc & Hid).
    exists c. split; [done|]. unfold name. rewrite Hc, Hid. split_and!; [done|done|].
    rewrite Hctx by (intros c'; by eapply updated_not_stopped).
    destruct (scanned_context q c Hc) as [Hsame|(cfg' & Hu' & ->)].
    - pose proof (update_kept _ _ _ E) as Hk. pose proof (scan_streams_scanned desired p Hwf) as Hs.
      pose proof (sd_contexts _ _ _ _ _ Hs id q Hin Hk) as Hq. fold contexts in Hq. rewrite Hc in Hq.
      change (sn_contexts s !! q = Some (kept_context desired id c)) in Hq. rewrite Hq. f_equal.
      unfold kept_context. unfold runtime_update in E. cbn in E. rewrite Hc in E.
      destruct (std_find id desired); [|done]. destruct (isSameTransportStreamConfig _ _), (isSameRuntimeStreamConfig _ _); try done.
      by injection E as ->.
    - pose proof Hu' as (id' & Hin' & E')%in_updates.
      pose proof (pipe_wf_unique p _ _ _ _ Hwf Hin Hin' ltac:(by right)) as Ei. injection Ei as <-. rewrite E in E'. by injection E' as ->. }
  destruct (update_all_exact name (sn_updates s) p2) as (I1 & I2 & I3).
  - rewrite updates_exact. pose proof streams_distinct as Hnd. revert Hnd. generalize (pl_streams p) as l.
    induction l as [|e l IH]; [constructor|]. cbn. intros [Hni Hnd]%NoDup_cons.
    destruct (runtime_update desired contexts e) as [u|] eqn:Eu; [|by apply IH]. cbn. apply NoDup_cons. split; [|by apply IH].
    assert (Hfst : forall e u, runtime_update desired contexts e = Some u -> u.1 = e.2).
    { intros e' u' E. unfold runtime_update in E. repeat case_match; by simplify_eq. }
    intros (v & Hv & (e' & He' & Ev)%list_elem_of_omap)%list_elem_of_fmap. apply Hni.
    rewrite <- (Hfst e u Eu), Hv, (Hfst e' v Ev). by apply list_elem_of_fmap_2.
  - intros [q cfg] Hu. destruct (Hup q cfg Hu) as (c & _ & _ & Hn & Hq). eexists. split; [exact Hq|exact Hn].
  - intros [q cfg] [q' cfg'] Hu Hv Hn. cbn in Hn.
    destruct (Hup q cfg Hu) as (c & _ & Hin & _), (Hup q' cfg' Hv) as (c' & _ & Hin' & _). rewrite <- Hn in Hin'.
    pose proof (pipe_wf_unique p _ _ _ _ Hwf Hin Hin' ltac:(by left)) as Eq. injection Eq as <-. f_equal.
    apply in_updates in Hu as (id & Hi & E), Hv as (id' & Hi' & E').
    pose proof (pipe_wf_unique p _ _ _ _ Hwf Hi Hi' ltac:(by right)) as Ei. injection Ei as <-. rewrite E in E'. by injection E'.
  - split_and!; [exact I1| | |].
    + intros q Hq. destruct (update_all_effect (sn_updates s) p2) as (_ & _ & Hout). apply Hout.
      intros ([x cfg] & -> & Hin)%list_elem_of_fmap. by apply (Hq cfg).
    + intros q cfg c Hu Hc. destruct (Hup q cfg Hu) as (c' & Hc' & Hin & Hn & Hq). assert (c' = c) as -> by congruence.
      destruct (I2 q cfg _ Hu Hq) as [H1 H2]. split; [exact H1|]. rewrite <- Hn in H2. etrans; [exact H2|]. do 2 f_equal.
      unfold in_flight. rewrite Hent; [done|]. intros q' c' Hst Hid. pose proof Hst as (_ & Hin1 & _). rewrite Hid, Hn in Hin1.
      pose proof (pipe_wf_unique p _ _ _ _ Hwf Hin Hin1 ltac:(by left)) as Eq. injection Eq as <-.
      exact (updated_not_stopped q cfg c' Hu Hst).
    + intros id Hid. apply I3. intros [q cfg] Hu. destruct (Hup q cfg Hu) as (c & Hc & _ & Hn & _). cbn. rewrite <- Hn.
      by apply (Hid q cfg c).
Qed.
End BeforeStart.

(** One stream id through the batch. *)
Definition stream_result (configs : list (Z * AgentConfig)) (p : Pipeline) (id : string) : Prop :=
  let desired := buildMergedStreams configs in
  let p' := applyConfigBatch rename_ok edge never never configs p in
  match std_find id desired with
  | None => std_find id (pl_streams p') = None
  | Some config =>
      exists ptr c, std_find id (pl_streams p') = Some ptr /\ pl_contexts p' !! ptr = Some c /\
        stream_as_wanted config c /\
        (forall q, std_find id (pl_streams p) = Some q ->
           keeps_stream desired (pl_contexts p) (id, q) = true -> ptr = q)
  end.

Lemma batch_stream configs p id :
  pipe_wf p ->
  stream_result configs p id /\ std_wf (pl_streams (applyConfigBatch rename_ok edge never never configs p)).
Proof.
  intros Hwf. unfold stream_result. set (desired := buildMergedStreams configs).
  set (p' := applyConfigBatch rename_ok edge never never configs p).
  destruct (merged_find configs EmptyString) as [_ Hdwf]. fold desired in Hdwf.
  pose proof (scan_streams_scanned desired p Hwf) as Hscan.
  pose proof (before_starts desired p) as E3. set (s := scan_streams desired p) in *.
  assert (Hstart : forall c, c ∈ sn_to_start s -> std_find (sc_stream_id c) desired = Some c /\
            std_find (sc_stream_id c) (sn_streams s) = None) by (intros c Hc; by apply scan_starts_wanted).
  assert (Hold : forall i, i ∈ sc_stream_id <$> sn_to_start s -> is_Some (std_find i desired) /\
            std_find i (sn_streams s) = None).
  { intros i (c & -> & Hc)%list_elem_of_fmap. destruct (Hstart c Hc). split; [by exists c|done]. }
  cbn zeta in E3. set (p3 := foldl (fun p u => updateStreamRuntime edge u.1 u.2 p) _ (sn_updates s)) in E3.
  destruct (start_all_effect (sn_to_start s) p3 ltac:(rewrite E3; apply (sd_wf _ _ _ _ _ Hscan)))
    as [Iwf Ictx _ Iold Inew _].
  change (foldl _ p3 (sn_to_start s)) with p' in Iwf, Ictx, Iold, Inew. rewrite E3 in Iold.
  split; [|done]. destruct (std_find id (sn_streams s)) as [q|] eqn:Eq.
  - destruct (scan_found desired p id q Hwf Eq) as (Hin & Hfind & Hk).
    pose proof Hk as Hk'. unfold keeps_stream in Hk'. cbn in Hk'.
    destruct (std_find id desired) as [config|] eqn:Ed; [|done].
    destruct (pl_contexts p !! q) as [c|] eqn:Ec; [|done].
    destruct (kept_after desired p id q c Hwf Hin Hk Ec) as (c' & Hc' & Hsame).
    exists q, c'. split; [|split; [by apply Ictx|split]].
    + rewrite (proj1 (Iold id ltac:(by intros [_ Hn]%Hold; congruence))). done.
    + eapply kept_as_wanted; try done; [by apply Hwf|by apply (merged_stream_id configs)].
    + intros x Hx _. congruence.
  - destruct (std_find id desired) as [config|] eqn:Ed; [|by rewrite (proj1 (Iold id ltac:(by intros [[? ?] _]%Hold; congruence)))].
    pose proof (merged_stream_id _ _ _ Ed) as Hcid.
    destruct (Inew id) as (c & ptr & b & Hc & Hcid' & Hf & Hctx & _).
    { rewrite <- Hcid. by apply list_elem_of_fmap_2, (scan_streams_starts desired p id). }
    assert (c = config) as -> by (destruct (Hstart c Hc) as [Hd _]; rewrite Hcid' in Hd; congruence).
    exists ptr, (new_context edge config b). split; [done|]. split; [done|]. split.
    + destruct (new_context_ok config b) as (? & ? & ? & ? & ?). split; auto.
    + intros q Hq Hk. pose proof (sd_kept _ _ _ _ _ Hscan id) as Hkept. cbn in Hkept.
      change (sn_streams (foldl _ _ _)) with (sn_streams s) in Hkept.
      rewrite Hkept, Hq in Eq; [done|]. intros x Hx%std_find_Some; [congruence|apply Hwf].
Qed.

(** The stream does not run, or not as it is wanted. *)
Definition not_kept (desired : list (string * StreamConfig)) (p : Pipeline) (id : string) : Prop :=
  forall q, std_find id (pl_streams p) = Some q -> keeps_stream desired (pl_contexts p) (id, q) = false.

Lemma scan_gone desired p id :
  pipe_wf p -> std_find id (sn_streams (scan_streams desired p)) = None <-> not_kept desired p id.
Proof.
  intros Hwf. pose proof (scan_streams_scanned desired p Hwf) as Hs. split.
  - intros Hn q Hq. apply not_true_iff_false. intros Hk. pose proof (sd_kept _ _ _ _ _ Hs id) as Hkept.
    cbn in Hkept. change (sn_streams (foldl _ _ _)) with (sn_streams (scan_streams desired p)) in Hkept.
    rewrite Hkept, Hq in Hn; [done|]. intros x Hx%std_find_Some; [congruence|apply Hwf].
  - intros Hn. destruct (std_find id (sn_streams (scan_streams desired p))) as [q|] eqn:E; [|done].
    destruct (scan_found desired p id q Hwf E) as (_ & Hq & Hk). rewrite (Hn q Hq) in Hk. done.
Qed.

(** What the batch does to the streams, their contexts and buffers and their registrations
    with the scheduler. *)
Record batch_result (configs : list (Z * AgentConfig)) (p : Pipeline) : Prop := {
  br_wanted id : stream_result configs p id;
  (** not wanted, or with another transport configuration: stopped *)
  br_stopped q c : let desired := buildMergedStreams configs in
    let p' := applyConfigBatch rename_ok edge never never configs p in
    stopped_by desired p q c ->
    pl_contexts p' !! q = Some (stop_context rename_ok c) /\
    (forall x, pl_buffers p !! sx_buffer c = Some x -> pl_buffers p' !! sx_buffer c = Some (sb_stop x)) /\
    (std_find (sx_stream_id c) desired = None -> rr_entries (pl_scheduler p') !! sx_stream_id c = None);
  (** kept: left alone, or its detector, configuration and registration are brought up to date *)
  br_kept id q c config : let desired := buildMergedStreams configs in
    let p' := applyConfigBatch rename_ok edge never never configs p in
    std_find id (pl_streams p) = Some q -> pl_contexts p !! q = Some c -> std_find id desired = Some config ->
    isSameTransportStreamConfig (sx_transport_config c) config = true ->
    if isSameRuntimeStreamConfig (sx_runtime_config c) config
    then pl_contexts p' !! q = Some c /\ rr_entries (pl_scheduler p') !! id = rr_entries (pl_scheduler p) !! id
    else pl_contexts p' !! q = Some (sx_with_runtime config (update_runtime_entry edge config (sx_detector_runtime c)) c) /\
         rr_entries (pl_scheduler p') !! id = Some (mkEntry config (Some (sx_buffer c)) (in_flight id p));
  (** wanted and not kept: a new context with a new buffer, registered *)
  br_started id config : let desired := buildMergedStreams configs in
    let p' := applyConfigBatch rename_ok edge never never configs p in
    std_find id desired = Some config -> not_kept desired p id ->
    exists ptr buffer, std_find id (pl_streams p') = Some ptr /\ pl_contexts p !! ptr = None /\ pl_buffers p !! buffer = None /\
      pl_contexts p' !! ptr = Some (new_context edge config buffer) /\ pl_buffers p' !! buffer = Some (createStreamBuffer id) /\
      rr_entries (pl_scheduler p') !! id =
        Some (mkEntry config (Some buffer) (match std_find id (pl_streams p) with Some _ => false | None => in_flight id p end));
  (** nothing else changes *)
  br_contexts q c : pl_contexts p !! q = Some c -> q ∉ (pl_streams p).*2 ->
    pl_contexts (applyConfigBatch rename_ok edge never never configs p) !! q = Some c;
  br_new q c : let desired := buildMergedStreams configs in
    pl_contexts p !! q = None -> pl_contexts (applyConfigBatch rename_ok edge never never configs p) !! q = Some c ->
    exists id config buffer, std_find id desired = Some config /\ not_kept desired p id /\ c = new_context edge config buffer;
  br_buffers b x : pl_buffers p !! b = Some x ->
    (forall q c, stopped_by (buildMergedStreams configs) p q c -> sx_buffer c <> b) ->
    pl_buffers (applyConfigBatch rename_ok edge never never configs p) !! b = Some x;
  br_entries id : std_find id (pl_streams p) = None -> std_find id (buildMergedStreams configs) = None ->
    rr_entries (pl_scheduler (applyConfigBatch rename_ok edge never never configs p)) !! id = rr_entries (pl_scheduler p) !! id;
}.

(** Before the starts every context and buffer is still there. *)
Lemma before_start_context desired p :
  pipe_wf p -> forall q c, pl_contexts p !! q = Some c -> is_Some (pl_contexts (before_start desired p) !! q).
Proof.
  intros Hwf q c Hc. destruct (updates_effect desired p Hwf) as (_ & Uc & Uu & _).
  destruct (stops_exact desired p Hwf) as (Sc & So & _).
  destruct (scanned_context desired p Hwf q c Hc) as [Hs|(cfg & Hu & _)]; [|by rewrite (proj1 (Uu q cfg c Hu Hc))].
  destruct (decide (q ∈ (sn_updates (scan_streams desired p)).*1)) as [([x cfg] & -> & Hu)%list_elem_of_fmap|Hno].
  - cbn [fst] in *. by rewrite (proj1 (Uu x cfg c Hu Hc)).
  - rewrite Uc by (intros cfg Hu; apply Hno; by apply (list_elem_of_fmap_2 fst) in Hu).
    destruct (decide (q ∈ sn_to_stop (scan_streams desired p))) as [(c' & Hq)%in_to_stop|Hns]; [by rewrite (Sc q c' Hq)|done|].
    rewrite So, Hs; [done|]. intros c' Hq. apply Hns, in_to_stop; [done|]. by exists c'.
Qed.

Lemma before_start_buffer desired p :
  pipe_wf p -> forall b x, pl_buffers p !! b = Some x -> is_Some (pl_buffers (before_start desired p) !! b).
Proof.
  intros Hwf b x Hx. destruct (updates_effect desired p Hwf) as (-> & _).
  destruct (stop_all_exact (sn_to_stop (scan_streams desired p))
    (pp_with_contexts (sn_contexts (scan_streams desired p)) (pp_with_streams (sn_streams (scan_streams desired p)) p))
    (to_stop_distinct desired p Hwf)) as (_ & _ & ->). cbn. rewrite Hx. by case_match.
Qed.

(** The starts, after the rest. *)
Lemma batch_started configs p :
  let desired := buildMergedStreams configs in
  pipe_wf p ->
  all_started (sn_to_start (scan_streams desired p)) (before_start desired p) (applyConfigBatch rename_ok edge never never configs p) /\
  forall id, id ∈ sc_stream_id <$> sn_to_start (scan_streams desired p) <-> is_Some (std_find id desired) /\ not_kept desired p id.
Proof.
  intros desired Hwf. destruct (merged_find configs EmptyString) as [_ Hdwf]. fold desired in Hdwf.
  pose proof (before_starts desired p) as E3. cbn zeta in E3.
  pose proof (sd_wf _ _ _ _ _ (scan_streams_scanned desired p Hwf)) as Hm. split.
  - apply start_all_effect. unfold before_start. cbn zeta. by rewrite E3.
  - intros id. rewrite <- (scan_gone desired p id Hwf). split.
    + intros (config & -> & Hc)%list_elem_of_fmap. destruct (scan_starts_wanted configs p config Hwf Hc) as [? ?].
      split; [by exists config|done].
    + intros [[config Hd] Hn]. rewrite <- (merged_stream_id _ _ _ Hd).
      by apply list_elem_of_fmap_2, (scan_streams_starts desired p id).
Qed.

(** A context that exists keeps its place from before the starts; so does a registration of a
    stream that is not started. *)
Lemma batch_old configs p :
  let desired := buildMergedStreams configs in
  let p' := applyConfigBatch rename_ok edge never never configs p in
  pipe_wf p ->
  (forall q c, pl_contexts (before_start desired p) !! q = Some c -> pl_contexts p' !! q = Some c) /\
  (forall b x, pl_buffers (before_start desired p) !! b = Some x -> pl_buffers p' !! b = Some x) /\
  (forall id, std_find id desired = None \/ ~ not_kept desired p id ->
     rr_entries (pl_scheduler p') !! id = rr_entries (pl_scheduler (before_start desired p)) !! id).
Proof.
  intros desired p' Hwf. destruct (batch_started configs p Hwf) as [[_ H1 H2 H3 _ _] Hids]. split_and!; [exact H1|exact H2|].
  intros id Hid. apply H3. intros [[config Hd] ?]%Hids. destruct Hid; [unfold desired in *; congruence|done].
Qed.

(** The registration of a stream before the starts, when it is not updated. *)
Lemma entry_before_start desired p id :
  pipe_wf p ->
  (forall q cfg, runtime_update desired (pl_contexts p) (id, q) = Some (q, cfg) -> (id, q) ∉ pl_streams p) ->
  (forall q, std_find id (pl_streams p) = Some q -> keeps_stream desired (pl_contexts p) (id, q) = false ->
     rr_entries (pl_scheduler (before_start desired p)) !! id = None) /\
  ((forall q, std_find id (pl_streams p) = Some q -> keeps_stream desired (pl_contexts p) (id, q) = true) ->
     rr_entries (pl_scheduler (before_start desired p)) !! id = rr_entries (pl_scheduler p) !! id).
Proof.
  intros Hwf Hno. destruct (updates_effect desired p Hwf) as (_ & _ & _ & Hup).
  destruct (stops_exact desired p Hwf) as (_ & _ & Hgone & Hsame & _).
  rewrite Hup.
  - split.
    + intros q Hq Hk. apply std_find_Some in Hq; [|apply Hwf]. destruct (stream_context p Hwf id q Hq) as (c & Hc & <-).
      by apply (Hgone q c).
    + intros Hk. apply Hsame. intros q c (Hc & Hin & Hf) <-. apply std_find_Some in Hin; [|apply Hwf].
      rewrite (Hk q Hin) in Hf. done.
  - intros q cfg c Hu Hc Hid. apply in_updates in Hu as (id' & Hin & Hu); [|done].
    destruct (stream_context p Hwf id' q Hin) as (c' & Hc' & Hid'). assert (id' = id) as -> by congruence. by apply (Hno q cfg).
Qed.

Lemma not_updated desired p id : std_find id desired = None -> forall q cfg, runtime_update desired (pl_contexts p) (id, q) <> Some (q, cfg).
Proof. intros Hd q cfg. unfold runtime_update. cbn. by rewrite Hd. Qed.

Lemma batch_stopped configs p q c :
  let desired := buildMergedStreams configs in
  let p' := applyConfigBatch rename_ok edge never never configs p in
  pipe_wf p -> stopped_by desired p q c ->
  pl_contexts p' !! q = Some (stop_context rename_ok c) /\
  (forall x, pl_buffers p !! sx_buffer c = Some x -> pl_buffers p' !! sx_buffer c = Some (sb_stop x)) /\
  (std_find (sx_stream_id c) desired = None -> rr_entries (pl_scheduler p') !! sx_stream_id c = None).
Proof.
  intros desired p' Hwf Hq. pose proof Hq as (Hc & Hin & Hk). destruct (batch_old configs p Hwf) as (H1 & H2 & H3).
  fold desired p' in H1, H2, H3.
  destruct (stops_exact desired p Hwf) as (Hctx & _ & _ & _ & Hbuf & _).
  destruct (updates_effect desired p Hwf) as (Ub & Uc & _ & _). split_and!.
  - apply H1. rewrite Uc; [by apply Hctx|]. intros cfg Hu. by apply (updated_not_stopped desired p Hwf q cfg c).
  - intros x Hx. apply H2. rewrite Ub, (Hbuf q c Hq), Hx. done.
  - intros Hd. rewrite (H3 _ (or_introl Hd)). destruct (entry_before_start desired p (sx_stream_id c) Hwf) as [He _].
    { intros x cfg Hu. by destruct (not_updated desired p _ Hd x cfg). }
    apply (He q); [|done]. apply std_find_Some; [apply Hwf|done].
Qed.

Lemma batch_kept configs p id q c config :
  let desired := buildMergedStreams configs in
  let p' := applyConfigBatch rename_ok edge never never configs p in
  pipe_wf p ->
  std_find id (pl_streams p) = Some q -> pl_contexts p !! q = Some c -> std_find id desired = Some config ->
  isSameTransportStreamConfig (sx_transport_config c) config = true ->
  if isSameRuntimeStreamConfig (sx_runtime_config c) config
  then pl_contexts p' !! q = Some c /\ rr_entries (pl_scheduler p') !! id = rr_entries (pl_scheduler p) !! id
  else pl_contexts p' !! q = Some (sx_with_runtime config (update_runtime_entry edge config (sx_detector_runtime c)) c) /\
       rr_entries (pl_scheduler p') !! id = Some (mkEntry config (Some (sx_buffer c)) (in_flight id p)).
Proof.
  intros desired p' Hwf Hq Hc Hd Ht. destruct (batch_old configs p Hwf) as (H1 & _ & H3).
  fold desired p' in H1, H3.
  assert (Hin : (id, q) ∈ pl_streams p) by (apply std_find_Some; [apply Hwf|done]).
  assert (Hid : sx_stream_id c = id) by (destruct (stream_context p Hwf id q Hin) as (c' & Hc' & <-); congruence).
  assert (Hk : keeps_stream desired (pl_contexts p) (id, q) = true) by (unfold keeps_stream; cbn; by rewrite Hd, Hc).
  rewrite (H3 id) by (right; intros Hn; rewrite (Hn q Hq) in Hk; done).
  assert (Hu : runtime_update desired (pl_contexts p) (id, q) =
            if isSameRuntimeStreamConfig (sx_runtime_config c) config then None else Some (q, config))
    by (unfold runtime_update; cbn; rewrite Hd, Hc, Ht; by destruct (isSameRuntimeStreamConfig _ _)).
  destruct (updates_effect desired p Hwf) as (_ & Uc & Uu & _).
  destruct (isSameRuntimeStreamConfig (sx_runtime_config c) config) eqn:Er.
  - assert (Hnot : forall cfg, (q, cfg) ∉ sn_updates (scan_streams desired p)).
    { intros cfg (id' & Hin' & Hu')%in_updates; [|done].
      pose proof (pipe_wf_unique p _ _ _ _ Hwf Hin Hin' ltac:(by right)) as E. injection E as <-. congruence. }
    assert (Hns : forall c', ~ stopped_by desired p q c').
    { intros c' (Hc' & _ & Hk'). assert (c' = c) as -> by congruence. rewrite Hid, Hk in Hk'. done. }
    destruct (stops_exact desired p Hwf) as (_ & Sc & _). split.
    + apply H1. rewrite (Uc q Hnot), (Sc q Hns). destruct (scanned_context desired p Hwf q c Hc) as [?|(cfg & Hcfg & _)]; [done|].
      by destruct (Hnot cfg).
    + destruct (entry_before_start desired p id Hwf) as [_ He]; [|apply He; intros x Hx; congruence].
      intros x cfg Hx Hinx. pose proof (pipe_wf_unique p _ _ _ _ Hwf Hin Hinx ltac:(by left)) as E. injection E as <-. congruence.
  - destruct (Uu q config c) as [E1 E2]; [apply in_updates; [done|by exists id]|done|]. rewrite Hid in E2. split; [by apply H1|done].
Qed.

Lemma batch_new_stream configs p id config :
  let desired := buildMergedStreams configs in
  let p' := applyConfigBatch rename_ok edge never never configs p in
  pipe_wf p -> std_find id desired = Some config -> not_kept desired p id ->
  exists ptr buffer, std_find id (pl_streams p') = Some ptr /\ pl_contexts p !! ptr = None /\ pl_buffers p !! buffer = None /\
    pl_contexts p' !! ptr = Some (new_context edge config buffer) /\ pl_buffers p' !! buffer = Some (createStreamBuffer id) /\
    rr_entries (pl_scheduler p') !! id =
      Some (mkEntry config (Some buffer) (match std_find id (pl_streams p) with Some _ => false | None => in_flight id p end)).
Proof.
  intros desired p' Hwf Hd Hn. destruct (batch_started configs p Hwf) as [[_ _ _ _ Hnew _] Hids].
  destruct (Hnew id) as (config' & ptr & b & Hin & Hid & Hf & Hctx & Hfresh & Hfb & Hbuf & He).
  { apply Hids. split; [by exists config|done]. }
  assert (config' = config) as ->.
  { destruct (scan_starts_wanted configs p config' Hwf Hin) as [Hd' _]. rewrite Hid in Hd'. unfold desired in Hd. congruence. }
  exists ptr, b. split_and!; [done|..|done|done|].
  - destruct (pl_contexts p !! ptr) as [c|] eqn:E; [|done]. exfalso. revert Hfresh.
    destruct (before_start_context desired p Hwf ptr c E) as [c' Hc']. fold desired. by rewrite Hc'.
  - destruct (pl_buffers p !! b) as [x|] eqn:E; [|done]. exfalso. revert Hfb.
    destruct (before_start_buffer desired p Hwf b x E) as [x' Hx']. fold desired. by rewrite Hx'.
  - etrans; [exact He|]. do 2 f_equal. fold desired. unfold in_flight. destruct (entry_before_start desired p id Hwf) as [E1 E2].
    { intros q cfg Hu Hq. apply std_find_Some in Hq; [|apply Hwf]. apply update_kept in Hu. by rewrite (Hn q Hq) in Hu. }
    destruct (std_find id (pl_streams p)) as [q|] eqn:Eq; [by rewrite (E1 q eq_refl (Hn q Eq))|].
    by rewrite E2.
Qed.

Lemma applyConfigBatch_wf configs p :
  pipe_wf p -> pipe_wf (applyConfigBatch rename_ok edge never never configs p).
Proof.
  intros Hwf. set (p' := applyConfigBatch rename_ok edge never never configs p).
  assert (Hid : forall id, stream_result configs p id) by (intros; by apply batch_stream).
  destruct (batch_stream configs p EmptyString Hwf) as [_ Hm].
  split; [done|]. intros id ptr Hin%std_find_Some; [|done].
  specialize (Hid id). unfold stream_result in Hid. destruct (std_find id _) as [config|] eqn:Ed.
  - destruct Hid as (q & c & Hq & Hc & [] & _). apply merged_stream_id in Ed.
    unfold p' in *. rewrite Hq in Hin. injection Hin as <-. exists c. by rewrite <- Ed.
  - unfold p' in Hin. congruence.
Qed.

Lemma batch_done configs p : pipe_wf p -> batch_result configs p.
Proof.
  intros Hwf. set (desired := buildMergedStreams configs). set (p' := applyConfigBatch rename_ok edge never never configs p).
  destruct (batch_old configs p Hwf) as (H1 & H2 & H3). fold desired p' in H1, H2, H3.
  destruct (updates_effect desired p Hwf) as (Ub & Uc & _ & _). destruct (stops_exact desired p Hwf) as (_ & So & _ & _ & _ & Sb).
  assert (Hout : forall q, q ∉ (pl_streams p).*2 -> pl_contexts (before_start desired p) !! q = pl_contexts p !! q).
  { intros q Hq. assert (Hno : forall id, (id, q) ∉ pl_streams p) by (intros id Hin; apply Hq; by apply (list_elem_of_fmap_2 snd) in Hin).
    rewrite Uc by (intros cfg (id & Hin & _)%in_updates; [by apply (Hno id)|done]).
    rewrite So by (intros c (_ & Hin & _); by apply Hno in Hin).
    apply (sd_others _ _ _ _ _ (scan_streams_scanned desired p Hwf) q). intros id Hin. by apply Hno in Hin. }
  split.
  - intros id. by apply batch_stream.
  - intros q c. cbv zeta. by apply batch_stopped.
  - intros id q c config. cbv zeta. by apply batch_kept.
  - intros id config. cbv zeta. by apply batch_new_stream.
  - intros q c Hc Hq. apply H1. by rewrite Hout.
  - intros q c. cbv zeta. intros Hq Hc. destruct (batch_started configs p Hwf) as [[_ _ _ _ _ Honly] Hids].
    destruct (Honly q c) as (config & b & Hin & ->); [|done|].
    { fold desired. rewrite Hout; [done|]. intros ([id x] & -> & Hin)%list_elem_of_fmap.
      destruct (stream_context p Hwf id x Hin) as (c' & Hc' & _). cbn in Hq. congruence. }
    destruct (scan_starts_wanted configs p config Hwf Hin) as [Hd Hn]. exists (sc_stream_id config), config, b.
    split_and!; [done| |done]. by apply scan_gone.
  - intros b x Hx Hb. apply H2. by rewrite Ub, Sb.
  - intros id Hs Hd. fold desired in Hd. etrans; [apply H3; by left|].
    apply (entry_before_start desired p id Hwf); [intros q cfg Hu; by destruct (not_updated desired p id Hd q cfg)|congruence].
Qed.

(** C18: Applying a batch of configurations, with no stream asking to be stopped meanwhile,
    leaves exactly the wanted streams in [streams_], running, each with the wanted transport
    and runtime configuration (or one that compares equal to it).  A stream that is not
    wanted, or not with its transport configuration, has its context and buffer stopped and
    loses its registration; a stream whose transport configuration did not change keeps its
    context, and is left alone or, if its runtime configuration changed, gets the new
    configuration, detector and registration; a wanted stream that does not run gets a new
    context with a new buffer and is registered with it.  No other context, buffer or
    registration changes. *)
Theorem applyConfigBatch_spec (configs : list (Z * AgentConfig)) (p : Pipeline) (Hwf : pipe_wf p) :
  let p' := applyConfigBatch rename_ok edge never never configs p in
  pipe_wf p' /\ batch_result configs p.
Proof. split; [by apply applyConfigBatch_wf|by apply batch_done]. Qed.

(** *** Applying the same batch again *)

Lemma scan_same desired s e c config :
  sn_contexts s !! e.2 = Some c -> std_find e.1 desired = Some config ->
  isSameTransportStreamConfig (sx_transport_config c) config = true ->
  isSameRuntimeStreamConfig (sx_runtime_config c) config = true -> scan_stream desired s e = s.
Proof. destruct e as [id ptr]. unfold scan_stream. cbn. by intros -> -> -> ->. Qed.

Lemma pp_same p : pp_with_contexts (pl_contexts p) (pp_with_streams (pl_streams p) p) = p.
Proof. by destruct p. Qed.

Lemma omap_none {A B} (f : A -> option B) (l : list A) : (forall x, x ∈ l -> f x = None) -> omap f l = [].
Proof.
  induction l as [|x l IH]; intros Hl; cbn; [done|]. rewrite (Hl x ltac:(left)). apply IH.
  intros y Hy. apply Hl. by right.
Qed.

(** Streams that all compare equal to what is wanted are left alone. *)
Lemma scan_all_same desired q :
  (forall e, e ∈ pl_streams q -> exists c config, pl_contexts q !! e.2 = Some c /\
     std_find e.1 desired = Some config /\
     isSameTransportStreamConfig (sx_transport_config c) config = true /\
     isSameRuntimeStreamConfig (sx_runtime_config c) config = true) ->
  (forall e, e ∈ desired -> is_Some (std_find e.1 (pl_streams q))) ->
  scan_streams desired q = mkScan (pl_streams q) (pl_contexts q) [] [] [].
Proof.
  intros Hkeep Hall. unfold scan_streams.
  assert (Hscan : foldl (scan_stream desired) (mkScan (pl_streams q) (pl_contexts q) [] [] []) (pl_streams q) =
            mkScan (pl_streams q) (pl_contexts q) [] [] []).
  { revert Hkeep. generalize (pl_streams q) at 1 3. intros l Hkeep. induction l as [|e l IH]; cbn; [done|].
    destruct (Hkeep e ltac:(left)) as (c & config & ? & ? & ? & ?).
    rewrite (scan_same desired _ e c config) by done. apply IH. intros x Hx. apply Hkeep. by right. }
  rewrite Hscan. cbn. rewrite omap_none; [done|]. intros e He. by destruct (Hall e He) as [x ->].
Qed.

(** Receiving the same batch again changes nothing: no stream is stopped, started or
    updated.  (A configuration that holds a NaN never compares equal to itself and is
    applied anew each time.) *)
Theorem reapplying_is_noop (configs : list (Z * AgentConfig)) (p : Pipeline) (Hwf : pipe_wf p)
    (Hnan : forall id config, std_find id (buildMergedStreams configs) = Some config -> config_nan_free config) :
  let p' := applyConfigBatch rename_ok edge never never configs p in
  forall early late, applyConfigBatch rename_ok edge early late configs p' = p'.
Proof.
  intros p' early late. assert (Hid : forall id, stream_result configs p id) by (intros; by apply batch_stream).
  destruct (batch_stream configs p EmptyString Hwf) as [_ Hm]. fold p' in Hm.
  set (desired := buildMergedStreams configs).
  assert (Hkeep : forall e, e ∈ pl_streams p' -> exists c config, pl_contexts p' !! e.2 = Some c /\
            std_find e.1 desired = Some config /\
            isSameTransportStreamConfig (sx_transport_config c) config = true /\
            isSameRuntimeStreamConfig (sx_runtime_config c) config = true).
  { intros [id q] Hin%std_find_Some; [|done]. cbn. specialize (Hid id). unfold stream_result in Hid.
    fold p' desired in Hid. destruct (std_find id desired) as [config|] eqn:Ed; [|congruence].
    destruct Hid as (x & c & Hx & Hc & [_ _ _ Ht Hr] & _). rewrite Hx in Hin. injection Hin as <-.
    exists c, config. split_and!; try done. destruct Hr as [->|?]; [|done].
    destruct (isSameRuntime_laws config config config) as (_ & _ & Hrefl & _). by apply Hrefl, (Hnan id). }
  assert (Hall : forall e, e ∈ desired -> is_Some (std_find e.1 (pl_streams p'))).
  { intros [id config] Hin%std_find_Some; [|apply (merged_find configs EmptyString)].
    specialize (Hid id). unfold stream_result in Hid. fold p' desired in Hid. rewrite Hin in Hid.
    destruct Hid as (q & c & Hq & _). by exists q. }
  clearbody p'. unfold applyConfigBatch. fold desired. rewrite (scan_all_same desired p' Hkeep Hall).
  cbn. apply pp_same.
Qed.

Lemma foldl_keeps {A B C} (f : A -> B -> A) (g : A -> C) (l : list B) :
  (forall a x, g (f a x) = g a) -> forall a, g (foldl f a l) = g a.
Proof. intros Hf. induction l as [|x l IH]; intros a; cbn; [done|]. by rewrite IH. Qed.

(** Applying a batch leaves the stored configurations alone. *)
Lemma applyConfigBatch_pending configs p :
  pl_configs (applyConfigBatch rename_ok edge never never configs p) = pl_configs p /\
  pl_has_pending_config (applyConfigBatch rename_ok edge never never configs p) = pl_has_pending_config p /\
  pl_pending_stop_streams (applyConfigBatch rename_ok edge never never configs p) = pl_pending_stop_streams p.
Proof.
  unfold applyConfigBatch.
  split_and!; (rewrite !foldl_keeps; [done|..];
    [ intros q x; unfold stopStream; by destruct (pl_contexts q !! x)
    | intros q x; unfold updateStreamRuntime; by destruct (pl_contexts q !! x.1)
    | intros q x; unfold start_stream, buildStreamContext; cbn; by rewrite lookup_insert_eq ]).
Qed.

(** *** Configuration messages *)

(** A configuration message for this agent (or for any agent) is stored under its
    config id and, at the main loop's next turn, takes effect together with the stored
    ones: exactly the streams their merge wants run, as it wants them.  One for another
    agent changes nothing. *)
Theorem config_message_takes_effect (cfg : AgentConfig) (p : Pipeline) (Hwf : pipe_wf p)
    (Hstops : pl_pending_stop_streams p = []) :
  let mine := str_empty (agc_agent_id cfg) || str_eqb (agc_agent_id cfg) (skc_agent_id (app_socket (pl_app p))) in
  let p1 := handleSocketConfig cfg p in
  if mine
  then let configs := std_insert (agc_config_id cfg) cfg (pl_configs p) in
       let p2 := mainLoop_turn rename_ok edge never never p1 in
       pl_configs p1 = configs /\ pl_configs p2 = configs /\ pl_has_pending_config p2 = false /\ pipe_wf p2 /\
       p2 = applyConfigBatch rename_ok edge never never configs (pp_with_pending configs false [] p) /\
       batch_result configs (pp_with_pending configs false [] p)
  else p1 = p.
Proof.
  intros mine p1.
  assert (Hp1 : p1 = if mine then pp_with_pending (std_insert (agc_config_id cfg) cfg (pl_configs p)) true
                                   (pl_pending_stop_streams p) p else p).
  { unfold p1, handleSocketConfig, mine. rewrite <- negb_orb. by destruct (str_empty _ || _). }
  clearbody mine. destruct mine; [|done]. intros configs p2.
  set (p3 := pp_with_pending configs false [] p).
  assert (E : p2 = applyConfigBatch rename_ok edge never never configs p3).
  { unfold p2, mainLoop_turn. rewrite Hp1. cbn -[applyConfigBatch]. by rewrite Hstops. }
  assert (Hwf3 : pipe_wf p3) by (destruct Hwf as [A B]; constructor; [exact A|exact B]).
  destruct (applyConfigBatch_pending configs p3) as (E1 & E2 & _).
  rewrite E. split_and!; [by rewrite Hp1 | done | done | by apply applyConfigBatch_wf | done | by apply batch_done].
Qed.

(** *** Stopping *)

Lemma stop_context_stopped c : sx_running (stop_context rename_ok c) = false /\ sx_stop_flag (stop_context rename_ok c) = true.
Proof.
  unfold stop_context. destruct (puller_stop _ _) as [puller pull] eqn:Ep.
  destruct (rp_close _ _). destruct (rc_close _ _ _). split; [|done]. unfold sx_running. cbn.
  unfold puller_stop in Ep. destruct (closeStream _ _). by injection Ep as <- <-.
Qed.

Lemma stop_all_stopped l : forall p q c,
  pl_contexts (foldl (fun p ptr => stopStream rename_ok ptr p) p l) !! q = Some c -> q ∈ l -> sx_running c = false.
Proof.
  induction l as [|x l IH] using rev_ind; intros p q c; [by intros _ ?%elem_of_nil|].
  rewrite foldl_app. cbn. destruct (stopStream_effect x (foldl (fun p ptr => stopStream rename_ok ptr p) p l)) as [_ ->].
  intros Hc Hin. destruct (decide (q = x)) as [->|Hne].
  - rewrite lookup_alter_eq in Hc. apply fmap_Some in Hc as (c0 & _ & ->). apply stop_context_stopped.
  - rewrite lookup_alter_ne in Hc by done. apply elem_of_app in Hin as [?|?%list_elem_of_singleton]; [|done]. by eapply IH.
Qed.

(** What shutting down does to the contexts. *)
Lemma pipeline_stop_effect p :
  exists p0, pl_contexts p0 = pl_contexts p /\
    pl_contexts (pipeline_stop rename_ok p) =
      pl_contexts (foldl (fun p ptr => stopStream rename_ok ptr p) p0 ((pl_streams p).*2 ++ pl_pending_stop_streams p)) /\
    pl_streams (pipeline_stop rename_ok p) = [] /\ pl_pending_stop_streams (pipeline_stop rename_ok p) = [].
Proof.
  unfold pipeline_stop. cbn. set (p0 := pp_with_scheduler _ _). exists p0. split; [done|].
  assert (Hfold : foldl (fun p e => stopStream rename_ok e.2 p) p0 (pl_streams p) =
            foldl (fun p ptr => stopStream rename_ok ptr p) p0 (pl_streams p).*2).
  { clear. generalize p0 (pl_streams p). intros q l. revert q. induction l as [|e l IH]; intros q; [done|]. apply IH. }
  rewrite Hfold, <- foldl_app. split; [done|]. split; [|done].
  by destruct (stop_all_effect ((pl_streams p).*2 ++ pl_pending_stop_streams p) p0) as [-> _].
Qed.

(** Shutting down joins the threads of every context in the stream table or waiting to
    be stopped; so if no other context runs, none is left running. *)
Theorem pipeline_stop_joins (p : Pipeline)
    (Hall : forall q c, pl_contexts p !! q = Some c -> sx_running c = true ->
              q ∈ (pl_streams p).*2 \/ q ∈ pl_pending_stop_streams p) :
  let p' := pipeline_stop rename_ok p in
  pl_streams p' = [] /\ pl_pending_stop_streams p' = [] /\
  forall q c, pl_contexts p' !! q = Some c -> sx_running c = false.
Proof.
  cbv zeta. destruct (pipeline_stop_effect p) as (p0 & E0 & -> & -> & ->).
  split; [done|]. split; [done|]. intros q c Hc.
  destruct (decide (q ∈ (pl_streams p).*2 ++ pl_pending_stop_streams p)) as [Hin|Hout]; [by eapply stop_all_stopped|].
  destruct (stop_all_effect ((pl_streams p).*2 ++ pl_pending_stop_streams p) p0) as [_ E2].
  rewrite E2, E0 in Hc by done. apply not_true_iff_false. intros Hr. apply Hout, elem_of_app. by apply (Hall q c).
Qed.
(** *** A changed transport configuration *)

Lemma scan_stream_mono desired s e config : config ∈ sn_to_start s -> config ∈ sn_to_start (scan_stream desired s e).
Proof.
  intros Hin. destruct e as [id ptr]. unfold scan_stream. destruct (std_find id desired), (sn_contexts s !! ptr); try done.
  destruct (negb _); [cbn; apply elem_of_app; by left|]. by destruct (negb _).
Qed.

(** The scan never touches a transport configuration. *)
Lemma scan_stream_transport desired s e ptr t :
  (exists c, sn_contexts s !! ptr = Some c /\ sx_transport_config c = t) ->
  exists c, sn_contexts (scan_stream desired s e) !! ptr = Some c /\ sx_transport_config c = t.
Proof.
  intros (c & Hc & <-). destruct (keeps_stream desired (sn_contexts s) e) eqn:Ek; [|rewrite (scan_drop _ _ _ Ek); by exists c].
  destruct (scan_keep desired s e Ek) as (_ & -> & _). destruct (decide (ptr = e.2)) as [->|].
  - rewrite lookup_alter_eq, Hc. eexists. split; [done|]. unfold kept_context.
    destruct (std_find _ _); [by destruct (isSameRuntimeStreamConfig _ _)|done].
  - rewrite lookup_alter_ne by done. by exists c.
Qed.

Lemma scan_restarts desired l : forall s id ptr c config,
  (id, ptr) ∈ l -> sn_contexts s !! ptr = Some c -> std_find id desired = Some config ->
  isSameTransportStreamConfig (sx_transport_config c) config = false ->
  config ∈ sn_to_start (foldl (scan_stream desired) s l).
Proof.
  induction l as [|e l IH]; intros s id ptr c config Hin Hc Hd Ht; [by apply elem_of_nil in Hin|].
  cbn. apply elem_of_cons in Hin as [<-|Hin].
  - assert (Hnow : config ∈ sn_to_start (scan_stream desired s (id, ptr))).
    { unfold scan_stream. rewrite Hd, Hc, Ht. cbn. apply elem_of_app. right. by apply list_elem_of_singleton. }
    revert Hnow. generalize (scan_stream desired s (id, ptr)). clear.
    induction l as [|e l IH]; intros s Hs; [done|]. by apply IH, scan_stream_mono.
  - destruct (scan_stream_transport desired s e ptr (sx_transport_config c)) as (c' & Hc' & Ht'); [by exists c|].
    apply (IH _ id ptr c'); try done. by rewrite Ht'.
Qed.

(** A configuration that is started twice: the first context is lost, running. *)
Lemma start_twice l1 config l2 p :
  std_wf (pl_streams p) -> sc_stream_id config ∈ sc_stream_id <$> l2 ->
  let p' := foldl (start_stream rename_ok edge never never) p (l1 ++ config :: l2) in
  exists x c, pl_contexts p' !! x = Some c /\ sx_running c = true /\ sx_stream_id c = sc_stream_id config /\
    std_find (sc_stream_id config) (pl_streams p') <> Some x.
Proof.
  intros Hwf Hin p'. unfold p'. rewrite foldl_app. cbn [foldl].
  set (p1 := foldl _ p l1). pose proof (as_wf _ _ _ (start_all_effect l1 p Hwf)) as Hwf1. fold p1 in Hwf1.
  destruct (start_stream_effect p1 config) as (x & buffer & Hf & _ & E1 & E2 & _). cbn zeta in E1, E2.
  set (p2 := start_stream rename_ok edge never never p1 config) in *.
  destruct (start_all_effect l2 p2 ltac:(rewrite E1; by apply std_insert_wf)) as [_ Hold _ _ Hnew _].
  destruct (new_context_ok config buffer) as (Hid & _ & Hrun & _).
  exists x, (new_context edge config buffer). split_and!; try done.
  - apply Hold. by rewrite E2, lookup_insert_eq.
  - destruct (Hnew _ Hin) as (? & y & ? & _ & _ & -> & _ & Hy & _). rewrite E2 in Hy. intros [= ->].
    by rewrite lookup_insert_eq in Hy.
Qed.

(** C19: A wanted stream whose transport configuration changed is listed to be started
    twice, once by the scan of the running streams and once by the scan of the wanted
    ones: two contexts are built for it, and the first one's threads run although
    [streams_] no longer names it; not even shutting down joins them. *)
Theorem transport_change_leaks_context (configs : list (Z * AgentConfig)) (p : Pipeline) (id : string) (q : ctx_ptr)
    (c : StreamContext) (config : StreamConfig) (Hwf : pipe_wf p) (Hstops : pl_pending_stop_streams p = [])
    (Hq : std_find id (pl_streams p) = Some q) (Hc : pl_contexts p !! q = Some c)
    (Hd : std_find id (buildMergedStreams configs) = Some config)
    (Hdiff : isSameTransportStreamConfig (sx_transport_config c) config = false) :
  let p' := applyConfigBatch rename_ok edge never never configs p in
  exists x leaked, pl_contexts p' !! x = Some leaked /\ sx_running leaked = true /\ sx_stream_id leaked = id /\
    (x ∉ (pl_streams p').*2) /\ pl_contexts (pipeline_stop rename_ok p') !! x = Some leaked.
Proof.
  intros p'. set (desired := buildMergedStreams configs) in *.
  pose proof (applyConfigBatch_wf configs p Hwf) as Hwf'. fold p' in Hwf'.
  pose proof (before_starts desired p) as E3. cbn zeta in E3.
  set (p3 := foldl (fun p u => updateStreamRuntime edge u.1 u.2 p) _ (sn_updates (scan_streams desired p))) in E3.
  pose proof (scan_streams_scanned desired p Hwf) as Hscan. pose proof (merged_stream_id _ _ _ Hd) as Hid.
  assert (Hin : (id, q) ∈ pl_streams p) by (apply std_find_Some; [apply Hwf|done]).
  assert (Hstart : config ∈ sn_to_start (foldl (scan_stream desired) (mkScan (pl_streams p) (pl_contexts p) [] [] [])
                                         (pl_streams p))) by (by apply (scan_restarts desired _ _ id q c)).
  assert (Hgone : std_find id (sn_streams (scan_streams desired p)) = None).
  { apply (sd_dropped _ _ _ _ _ Hscan id q Hin). unfold keeps_stream. cbn. by rewrite Hd, Hc. }
  apply list_elem_of_split in Hstart as (l1 & l2 & Hl).
  assert (Hto : exists l3, sn_to_start (scan_streams desired p) = l1 ++ config :: l3 /\ config ∈ l3).
  { unfold scan_streams in *. cbn in *. rewrite Hl, <- app_assoc. cbn. eexists. split; [done|].
    apply elem_of_app. right. apply list_elem_of_omap. exists (id, config). split; [|cbn; by rewrite Hgone].
    apply std_find_Some; [apply (merged_find configs EmptyString)|done]. }
  destruct Hto as (l3 & Hto & Hin3).
  destruct (start_twice l1 config l3 p3) as (x & leaked & Hx & Hrun & Hlid & Hnot).
  { rewrite E3. apply (sd_wf _ _ _ _ _ Hscan). }
  { by apply list_elem_of_fmap_2. }
  rewrite <- Hto in Hx, Hnot. change (foldl _ p3 _) with p' in Hx, Hnot. rewrite Hid in *.
  assert (Hout : x ∉ (pl_streams p').*2).
  { intros ([id' x'] & [= ->] & Hx')%list_elem_of_fmap. destruct (pw_streams _ Hwf' _ _ Hx') as (c' & Hc' & Hid' & _).
    apply Hnot. apply std_find_Some; [apply Hwf'|]. congruence. }
  exists x, leaked. split_and!; try done. destruct (pipeline_stop_effect p') as (p0 & E0 & -> & _).
  destruct (stop_all_effect ((pl_streams p').*2 ++ pl_pending_stop_streams p') p0) as [_ Hk].
  rewrite Hk, E0; [done|].
  destruct (applyConfigBatch_pending configs p) as (_ & _ & Epend). fold p' in Epend.
  by rewrite Epend, Hstops, app_nil_r.
Qed.
(** *** A stop that is asked for too late *)

Lemma stop_all_keeps l : forall p q c,
  pl_contexts p !! q = Some c -> q ∈ l ->
  exists c', pl_contexts (foldl (fun p ptr => stopStream rename_ok ptr p) p l) !! q = Some c' /\
    sx_running c' = false /\ sx_stop_flag c' = true /\ sx_transport_config c' = sx_transport_config c.
Proof.
  induction l as [|x l IH] using rev_ind; intros p q c Hc; [by intros ?%elem_of_nil|].
  rewrite foldl_app. cbn [foldl].
  destruct (stopStream_effect x (foldl (fun p ptr => stopStream rename_ok ptr p) p l)) as [_ ->].
  destruct (stop_all_effect l p) as [_ Hout]. intros Hin.
  assert (Hnow : exists c0, pl_contexts (foldl (fun p ptr => stopStream rename_ok ptr p) p l) !! q = Some c0 /\
            sx_transport_config c0 = sx_transport_config c /\ (q ∈ l -> sx_running c0 = false /\ sx_stop_flag c0 = true)).
  { destruct (decide (q ∈ l)) as [Hl|Hl].
    - destruct (IH p q c Hc Hl) as (c0 & ? & ? & ? & ?). by exists c0.
    - exists c. by rewrite Hout. }
  destruct Hnow as (c0 & Hc0 & Ht & Hl). destruct (decide (q = x)) as [->|Hne].
  - rewrite lookup_alter_eq, Hc0. eexists. split; [done|]. destruct (stop_context_stopped c0). split_and!; try done.
    rewrite <- Ht. unfold stop_context. by destruct (puller_stop _ _), (rp_close _ _), (rc_close _ _ _).
  - rewrite lookup_alter_ne by done. apply elem_of_app in Hin as [Hin|?%list_elem_of_singleton]; [|done].
    destruct (Hl Hin). by exists c0.
Qed.

Lemma requestAsyncStopStream_effect ptr p c :
  pl_contexts p !! ptr = Some c -> sx_stop_flag c = false ->
  let p' := requestAsyncStopStream ptr p in
  pl_contexts p' = <[ptr := sx_set_stop c]> (pl_contexts p) /\
  pl_pending_stop_streams p' = pl_pending_stop_streams p ++ [ptr] /\ pl_has_pending_config p' = pl_has_pending_config p.
Proof.
  intros Hc Hs. unfold requestAsyncStopStream. rewrite Hc, Hs. cbn.
  destruct (std_find _ _) as [q|]; [by destruct (bool_decide (q = ptr))|done].
Qed.

(** When the new stream's puller asks for it to be stopped after the stop flag was
    read and before the stream is inserted, the request finds nothing to erase: the main
    loop then stops the stream and leaves it in [streams_], where it looks wanted as it is;
    no later batch that asks for the same transport configuration restarts it. *)
Theorem late_async_stop_leaves_zombie (p : Pipeline) (config : StreamConfig) (early late : ctx_ptr -> bool)
    (Hidle : pl_has_pending_config p = false) (Hfirst : pl_pending_stop_streams p = []) :
  let ptr := fresh (dom (pl_contexts p)) in
  early ptr = false -> late ptr = true ->
  let p1 := start_stream rename_ok edge early late p config in
  let p2 := mainLoop_turn rename_ok edge early late p1 in
  pl_pending_stop_streams p1 = [ptr] /\ pl_pending_stop_streams p2 = [] /\
  std_find (sc_stream_id config) (pl_streams p2) = Some ptr /\
  exists c, pl_contexts p2 !! ptr = Some c /\ sx_running c = false /\ sx_stop_flag c = true /\
    forall desired, (exists wanted, std_find (sc_stream_id config) desired = Some wanted /\
        isSameTransportStreamConfig config wanted = true) ->
      keeps_stream desired (pl_contexts p2) (sc_stream_id config, ptr) = true.
Proof.
  intros ptr He Hl p1 p2. set (buffer := fresh (dom (pl_buffers p))).
  destruct (new_context_ok config buffer) as (Hid & Hflag & _ & Ht & _).
  assert (H1 : pl_contexts p1 !! ptr = Some (sx_set_stop (new_context edge config buffer)) /\
            pl_pending_stop_streams p1 = [ptr] /\ pl_has_pending_config p1 = false /\
            std_find (sc_stream_id config) (pl_streams p1) = Some ptr).
  { unfold p1, start_stream, buildStreamContext. fold ptr buffer. cbn -[new_context]. rewrite He. cbn -[new_context].
    rewrite lookup_insert_eq, Hflag, Hl. set (p0 := pp_with_scheduler _ _).
    destruct (requestAsyncStopStream_effect ptr p0 (new_context edge config buffer)) as (E1 & E2 & E3);
      [apply lookup_insert_eq|done|].
    cbn -[new_context requestAsyncStopStream]. rewrite E1, E2, E3, Hid, lookup_insert_eq.
    split_and!; [done | cbn; by rewrite Hfirst | done | apply std_find_insert_eq]. }
  destruct H1 as (Hc & Hp & Hn & Hf). clearbody p1. split; [done|].
  unfold p2, mainLoop_turn. rewrite Hn, Hp. cbn -[stopStream].
  destruct (stop_all_effect [ptr] (pp_with_pending (pl_configs p1) false [] p1)) as [E _]. cbn -[stopStream] in E.
  destruct (stop_all_keeps [ptr] (pp_with_pending (pl_configs p1) false [] p1) ptr _ Hc ltac:(left)) as (c & Hc' & Hr & Hs & Htr).
  cbn -[stopStream] in Hc'. split; [|split; [by rewrite E|]].
  - unfold stopStream. by destruct (pl_contexts _ !! ptr).
  - exists c. split_and!; try done. intros desired (wanted & Hw & Hsame). unfold keeps_stream. cbn [fst snd].
    rewrite Hw, Hc', Htr. cbn -[new_context isSameTransportStreamConfig].
    apply isSameTransport_iff. apply isSameTransport_iff in Ht, Hsame. congruence.
Qed.
End Apply.

(** ** Concrete runs *)

Definition ex_rename (_ _ : string) : bool := true.
Definition ex_edge_ok : EdgeInferApi := mkEdgeInferApi (fun _ => true) (fun _ _ => Some []).
Definition ex_batch (url : string) (algorithms : list AlgorithmConfig) : list (Z * AgentConfig) :=
  [(1, mkAgentConfig "agent" 1 [ex_stream url algorithms None])].
Definition ex_apply (url : string) : Pipeline -> Pipeline :=
  applyConfigBatch ex_rename ex_edge_ok never never (ex_batch url [Config.ex_algorithm "fire" "m"]).
Definition ex_p0 : Pipeline := Pipeline_new AppConfig_default.

Lemma Pipeline_new_wf app : pipe_wf (Pipeline_new app).
Proof. split; [by constructor|]. by intros ? ? ?%elem_of_nil. Qed.

Lemma ex_apply_wf url p : pipe_wf p -> pipe_wf (ex_apply url p).
Proof. exact (applyConfigBatch_wf ex_rename ex_edge_ok (ex_batch url [Config.ex_algorithm "fire" "m"]) p). Qed.

(** The one wanted stream runs; then a batch without it stops it. *)
Theorem applyConfigBatch_spec_witness :
  let p := ex_apply "rtsp://a" ex_p0 in
  running_contexts p = [1%positive] /\ pipe_wf p /\
  exists c, pl_contexts p !! 1%positive = Some c /\
    pl_contexts (applyConfigBatch ex_rename ex_edge_ok never never [] p) !! 1%positive = Some (stop_context ex_rename c).
Proof.
  intros p. destruct (applyConfigBatch_spec ex_rename ex_edge_ok (ex_batch "rtsp://a" [Config.ex_algorithm "fire" "m"]) ex_p0
              (Pipeline_new_wf _)) as [Hwf _].
  split; [by vm_compute|]. split; [exact Hwf|].
  assert (exists c, pl_contexts p !! 1%positive = Some c /\ (sx_stream_id c = "cam"%string /\ std_find "cam" (pl_streams p) = Some 1%positive))
    as (c & Hc & Hid & Hq) by (apply some_ex; by vm_compute).
  exists c. split; [exact Hc|].
  apply (applyConfigBatch_spec ex_rename ex_edge_ok [] p Hwf).
  split; [exact Hc|]. rewrite Hid. split; [|reflexivity]. apply std_find_Some; [apply Hwf|exact Hq].
Defined.

Theorem reapplying_is_noop_witness :
  let p' := ex_apply "rtsp://a" ex_p0 in ex_apply "rtsp://a" p' = p'.
Proof.
  assert (Hnan : forall id config,
            std_find id (buildMergedStreams (ex_batch "rtsp://a" [Config.ex_algorithm "fire" "m"])) = Some config ->
            config_nan_free config).
  { intros id config _. split; [|done]. by apply Forall_forall. }
  exact (reapplying_is_noop ex_rename ex_edge_ok (ex_batch "rtsp://a" [Config.ex_algorithm "fire" "m"]) ex_p0
           (Pipeline_new_wf _) Hnan never never).
Defined.

(** A configuration for this agent, and one for another. *)
Theorem config_message_takes_effect_witness :
  let app := mkAppConfig LogConfig_default (mkSocketConfig "/tmp/s" 100 10 "agent") PipelineConfig_default in
  let cfg agent := mkAgentConfig agent 7 [ex_stream "rtsp://a" [] None] in
  handleSocketConfig (cfg "other") (Pipeline_new app) = Pipeline_new app /\
  pipe_wf (mainLoop_turn ex_rename ex_edge_ok never never (handleSocketConfig (cfg "agent") (Pipeline_new app))).
Proof.
  intros app cfg. split.
  - exact (config_message_takes_effect ex_rename ex_edge_ok (cfg "other"%string) (Pipeline_new app) (Pipeline_new_wf _) eq_refl).
  - pose proof (config_message_takes_effect ex_rename ex_edge_ok (cfg "agent"%string) (Pipeline_new app) (Pipeline_new_wf _) eq_refl)
      as (_ & _ & _ & Hwf & _). exact Hwf.
Defined.

(** Shutting down joins the stream's threads. *)
Theorem pipeline_stop_joins_witness :
  running_contexts (pipeline_stop ex_rename (ex_apply "rtsp://a" ex_p0)) = [] /\
  pl_streams (pipeline_stop ex_rename (ex_apply "rtsp://a" ex_p0)) = [].
Proof.
  split; [by vm_compute|].
  apply (pipeline_stop_joins ex_rename (ex_apply "rtsp://a" ex_p0)).
  intros q c Hc _. left. apply elem_of_dom_2 in Hc. revert q Hc.
  assert (E : dom (pl_contexts (ex_apply "rtsp://a" ex_p0)) = {[1%positive]}) by (vm_compute; reflexivity).
  rewrite E. intros q ->%elem_of_singleton. vm_compute. left.
Defined.

(** The stream's URL changes: two contexts run for one stream, and shutting down stops
    only the second. *)
Theorem transport_change_leaks_context_witness :
  let p := ex_apply "rtsp://b" (ex_apply "rtsp://a" ex_p0) in
  (pl_streams p).*2 = [3%positive] /\ running_contexts (pipeline_stop ex_rename p) = [2%positive] /\
  exists x leaked, pl_contexts p !! x = Some leaked /\ sx_running leaked = true /\ sx_stream_id leaked = "cam"%string /\
    (x ∉ (pl_streams p).*2) /\ pl_contexts (pipeline_stop ex_rename p) !! x = Some leaked.
Proof.
  split; [by vm_compute|]. split; [by vm_compute|].
  destruct (pl_contexts (ex_apply "rtsp://a" ex_p0) !! 1%positive) as [c|] eqn:Hc; [|by vm_compute in Hc].
  assert (Hstops : pl_pending_stop_streams (ex_apply "rtsp://a" ex_p0) = []) by (vm_compute; reflexivity).
  assert (Hq : std_find "cam" (pl_streams (ex_apply "rtsp://a" ex_p0)) = Some 1%positive) by (vm_compute; reflexivity).
  assert (Hd : std_find "cam" (buildMergedStreams (ex_batch "rtsp://b" [Config.ex_algorithm "fire" "m"])) =
            Some (ex_stream "rtsp://b" [Config.ex_algorithm "fire" "m"] None)) by (vm_compute; reflexivity).
  assert (Hdiff : isSameTransportStreamConfig (sx_transport_config c)
            (ex_stream "rtsp://b" [Config.ex_algorithm "fire" "m"] None) = false).
  { vm_compute in Hc. injection Hc as <-. vm_compute. reflexivity. }
  exact (transport_change_leaks_context ex_rename ex_edge_ok (ex_batch "rtsp://b" [Config.ex_algorithm "fire" "m"])
           (ex_apply "rtsp://a" ex_p0) "cam" 1%positive c _ (ex_apply_wf _ _ (Pipeline_new_wf _)) Hstops Hq Hc Hd Hdiff).
Defined.

Theorem late_async_stop_leaves_zombie_witness :
  let late q := bool_decide (q = 1%positive) in
  let p1 := start_stream ex_rename ex_edge_ok never late ex_p0 (ex_stream "rtsp://a" [] None) in
  let p2 := mainLoop_turn ex_rename ex_edge_ok never late p1 in
  std_find "cam" (pl_streams p2) = Some 1%positive /\ running_contexts p2 = [].
Proof.
  intros late p1 p2.
  destruct (late_async_stop_leaves_zombie ex_rename ex_edge_ok ex_p0 (ex_stream "rtsp://a" [] None) never late
              eq_refl eq_refl eq_refl ltac:(by vm_compute)) as (_ & _ & Hfind & _).
  split; [exact Hfind|by vm_compute].
Defined.
