(* ===== verification/Publish.v ===== *)
(** * Publishing loop (src/src/pipeline/Pipeline.cpp, publishLoop)

    The publishing thread of one stream: it takes the packets out of the stream buffer
    in order once they may go out, puts an SEI unit in front of the video ones, hands
    each to the publisher and to the recorder and frees its frame.

    The puller and the inference threads act on the buffer between any two of the
    thread's own calls: their calls in each such gap are an argument of the turn. *)
From S2P Require Import Prelude StdMap Float32 Messages StreamBuffer BufferSpec Sei Stats Puller Mux Recorder Pipeline.

(** What one turn works on; [ps_nal] is [video_nal_length_size]. *)
Record publish_state := mkPublishState {
  ps_stream_id : string;
  ps_buffer : StreamBuffer;
  ps_nal : Z;
  ps_publisher : RtspPublisher; ps_mux : MuxWorld;
  ps_recorder : Recorder; ps_rec : RecWorld;
  ps_statistics : Statistics;
}.

(** The clocks and answers one turn meets, and the calls other threads make on the
    buffer: until the wait is over, before the cached result is taken, before the packet
    is popped and before its frame is released. *)
Record publish_answers := mkPublishAnswers {
  pa_cache_ms : Z;
  pa_time_text : string;
  pa_mux : mux_answers;
  pa_append_ms : Z;
  pa_before : list sb_call; pa_peeked : list sb_call; pa_injected : list sb_call; pa_popped : list sb_call;
}.

(** What went out in a turn: the packet and [final_packet]. *)
Definition publication : Type := EncodedPacket * option AVPacket.

Section Publish.
(** FFmpeg: time-base conversions, whether the publisher's and the recorder's [n]-th
    write is accepted, whether a packet can be referenced or cloned, packet allocation;
    whether a file can be renamed; the traversal order of the cached results. *)
Context (av_rescale_q : Z -> AVRational -> AVRational -> Z)
        (av_packet_rescale_ts : AVPacket -> AVRational -> AVRational -> AVPacket)
        (pub_write_ok rec_write_ok : nat -> bool) (ref_ok clone_ok : AVPacket -> bool)
        (rename_ok : string -> string -> bool) (lib : PacketLibrary)
        (iter : gmap Z FrameInferenceResult -> list (Z * FrameInferenceResult)).

(** The SEI context of a video packet, from the cached result that was taken. *)
Definition publish_context (an : publish_answers) (stream_id : string) (packet : EncodedPacket)
    (cached : option FrameInferenceResult) : SeiMessageContext :=
  let '(algorithm_id, bbox_items, expire_at_mono_ms) :=
    match cached with
    | Some r => (fr_algorithm_id r, fr_objects r, fr_expire_at_mono_ms r)
    | None => (""%string, [], 0)
    end in
  buildSeiMessageContext (pa_time_text an) stream_id (ep_frame_id packet) (ep_pts packet) algorithm_id
    bbox_items false expire_at_mono_ms.

(** The video branch: [packet_override] and the buffer; [None]: undefined behaviour. *)
Definition inject_video (an : publish_answers) (stream_id : string) (nal : Z) (packet : EncodedPacket)
    (b : StreamBuffer) : option (option AVPacket * StreamBuffer) :=
  let codec_type := seiCodecTypeFromFrame (findFrame (ep_frame_id packet) b) in
  let b := sb_run (pa_peeked an) b in
  let '(cached, b) := takeCachedInferenceResult iter (ep_frame_id packet) (ep_pts packet) (pa_cache_ms an) b in
  '(_, packet_override) ← inject lib packet codec_type nal (publish_context an stream_id packet cached);
  Some (packet_override, b).

(** The publisher and the recorder are each offered [final_packet]. *)
Definition offer_publisher (an : publish_answers) (final_packet : option AVPacket)
    (s : RtspPublisher * MuxWorld) : RtspPublisher * MuxWorld :=
  match final_packet with
  | None => s
  | Some packet =>
      let '(_, p, w) := rp_writePacket av_packet_rescale_ts pub_write_ok ref_ok (pa_mux an) packet s.1 s.2 in (p, w)
  end.

Definition offer_recorder (an : publish_answers) (final_packet : option AVPacket)
    (s : Recorder * RecWorld) : Recorder * RecWorld :=
  match final_packet with
  | None => s
  | Some packet =>
      let '(_, r, w) := appendPacket av_rescale_q av_packet_rescale_ts rec_write_ok clone_ok rename_ok
                          (pa_append_ms an) packet s.1 s.2 in (r, w)
  end.

Definition ps_with_buffer (b : StreamBuffer) (s : publish_state) : publish_state :=
  mkPublishState (ps_stream_id s) b (ps_nal s) (ps_publisher s) (ps_mux s) (ps_recorder s) (ps_rec s) (ps_statistics s).

(** One turn of [publishLoop]. *)
Definition publish_turn (an : publish_answers) (s : publish_state) : option (option publication * publish_state) :=
  let b := sb_run (pa_before an) (ps_buffer s) in
  if negb (waitForPublishable kMinVideoWatermark b) then Some (None, ps_with_buffer b s)
  else match peekPacket b with
  | None => Some (None, ps_with_buffer b s)
  | Some packet =>
      let video := bool_decide (ep_media_type packet = Video) in
      '(packet_override, b) ←
        (if video then inject_video an (ps_stream_id s) (ps_nal s) packet b else Some (None, sb_run (pa_peeked an) b));
      let statistics := if video then incPublishFrame (ps_stream_id s) 1 (ps_statistics s) else ps_statistics s in
      let final_packet := match packet_override with Some p => Some p | None => ep_packet packet end in
      let '(publisher, mux) := offer_publisher an final_packet (ps_publisher s, ps_mux s) in
      let '(recorder, rec) := offer_recorder an final_packet (ps_recorder s, ps_rec s) in
      let b := popPacket (sb_run (pa_injected an) b) in
      let b := sb_run (pa_popped an) b in
      let b := if video && (0 <=? ep_frame_id packet) then releaseFrame (ep_frame_id packet) b else b in
      Some (Some (packet, final_packet),
            mkPublishState (ps_stream_id s) b (ps_nal s) publisher mux recorder rec statistics)
  end.

(** The loop, turn after turn, with what each turn published. *)
Fixpoint publish_run (ans : list publish_answers) (s : publish_state)
  : option (list (publish_answers * option publication) * publish_state) :=
  match ans with
  | [] => Some ([], s)
  | an :: ans =>
      '(out, s) ← publish_turn an s;
      '(outs, s) ← publish_run ans s;
      Some ((an, out) :: outs, s)
  end.

(** ** Order and content of what is published *)

(** The other threads' calls: they neither pop, nor release, nor take a result. *)
Definition foreign_to_publisher (c : sb_call) : Prop :=
  match c with CallPopPacket | CallReleaseFrame _ | CallTakeCached _ _ _ _ => False | _ => True end.

Definition answers_foreign (an : publish_answers) : Prop :=
  Forall foreign_to_publisher (pa_before an ++ pa_peeked an ++ pa_injected an ++ pa_popped an).

(** The calls of the other threads that were made in a turn with this outcome. *)
Definition performed (o : publish_answers * option publication) : list sb_call :=
  match o.2 with
  | None => pa_before o.1
  | Some _ => pa_before o.1 ++ pa_peeked o.1 ++ pa_injected o.1 ++ pa_popped o.1
  end.

Definition arrivals : list sb_call -> list EncodedPacket :=
  omap (fun c => match c with CallEnqueuePacket (Some p) => Some p | _ => None end).

Definition published (outs : list (publish_answers * option publication)) : list (publish_answers * publication) :=
  omap (fun o => (fun x => (o.1, x)) <$> o.2) outs.

(** [b'] holds the packets of [b] followed by those that arrived in [cs], all of them
    unless the buffer was stopped; once stopped it stays so. *)
Record appended_to (b : StreamBuffer) (cs : list sb_call) (b' : StreamBuffer) (l : list EncodedPacket) : Prop := {
  ap_packets : sb_packets b' = sb_packets b ++ (Some <$> l);
  ap_sub : sublist l (arrivals cs);
  ap_all : sb_stopped b' = false -> l = arrivals cs /\ sb_stopped b = false;
}.

Lemma appended_refl b b' :
  sb_packets b' = sb_packets b -> sb_stopped b' = sb_stopped b -> appended_to b [] b' [].
Proof. intros Hp Hs. split; [by rewrite Hp, app_nil_r | done | by rewrite Hs]. Qed.

Lemma arrivals_app a b : arrivals (a ++ b) = arrivals a ++ arrivals b.
Proof. apply omap_app. Qed.

Lemma appended_trans b1 b2 b3 cs ds l k :
  appended_to b1 cs b2 l -> appended_to b2 ds b3 k -> appended_to b1 (cs ++ ds) b3 (l ++ k).
Proof.
  intros [P1 S1 A1] [P2 S2 A2]. split; [|rewrite arrivals_app; by apply sublist_app|].
  - by rewrite P2, P1, fmap_app, <- app_assoc.
  - intros Hs. destruct (A2 Hs) as [-> Hs2], (A1 Hs2) as [-> ?]. by rewrite arrivals_app.
Qed.

Lemma foreign_apply c b : foreign_to_publisher c -> exists l, appended_to b [c] (sb_apply c b) l.
Proof.
  assert (Hsame : forall b', arrivals [c] = [] -> sb_packets b' = sb_packets b -> (sb_stopped b' = false -> sb_stopped b = false) ->
            appended_to b [c] b' []).
  { intros b' E Hp Hs. split; [by rewrite Hp, app_nil_r | rewrite E; done | intros Hs'; rewrite E; auto]. }
  destruct c; intros Hc; try done; cbn [sb_apply].
  - destruct p as [p|]; cbn; [|exists []; by apply Hsame]. destruct (sb_stopped b) eqn:Hs; cbn.
    + exists []. split; [by rewrite app_nil_r | apply sublist_nil_l | congruence].
    + exists [p]. by split.
  - exists []. destruct f as [f|]; cbn; [|by apply Hsame].
    destruct (sb_stopped b) eqn:Hs; apply Hsame; cbn; try done; congruence.
  - exists []. unfold selectFrameForInference. destruct (latest_idle _ _) as [q|]; [|by apply Hsame]. cbn.
    destruct (mark_others_done_with_store q (sb_frame_order b) (sb_set_state q Selected b)) as [st ->]. by apply Hsame.
  - exists []. unfold markInferenceRunning, clearInferenceSelection. destruct (sb_frame_at b id) as [[??]|]; by apply Hsame.
  - exists []. unfold markInferenceDone, clearInferenceSelection. destruct (sb_frame_at b _) as [[??]|]; by apply Hsame.
  - exists []. unfold clearInferenceSelection. destruct (sb_frame_at b _) as [[??]|]; by apply Hsame.
  - exists []. unfold updateCachedInferenceResult. destruct (_ <? _); by apply Hsame.
  - exists []. by apply Hsame.
Qed.

Lemma foreign_run cs : forall b, Forall foreign_to_publisher cs -> exists l, appended_to b cs (sb_run cs b) l.
Proof.
  induction cs as [|c cs IH]; intros b Hcs; [exists []; by apply appended_refl|].
  apply Forall_cons in Hcs as [Hc Hcs]. destruct (foreign_apply c b Hc) as [l Hl].
  destruct (IH (sb_apply c b) Hcs) as [k Hk]. exists (l ++ k). exact (appended_trans _ _ _ [c] cs _ _ Hl Hk).
Qed.

Lemma takeCached_packets id pts now b :
  let b' := (takeCachedInferenceResult iter id pts now b).2 in
  sb_packets b' = sb_packets b /\ sb_stopped b' = sb_stopped b /\ sb_frames b' = sb_frames b /\
  sb_store b' = sb_store b /\ sb_stream_id b' = sb_stream_id b.
Proof. unfold takeCachedInferenceResult. by repeat case_match. Qed.

(** What [inject] hands back. *)
Lemma inject_out source codec n c ok out :
  inject lib source codec n c = Some (ok, out) ->
  out = ep_packet source \/
  exists q data payload, ep_packet source = Some q /\ pkt_data q = Some data /\
    buildMspV1UserDataPayload c = Some payload /\
    out = Some (pkt_with_data (framed data n (built_sei codec payload) ++ data) q).
Proof.
  unfold inject. destruct (ep_packet source) as [q|] eqn:Eq; [|intros [= _ <-]; by left].
  destruct (pkt_data q) as [data|] eqn:Ed; [|intros [= _ <-]; by left].
  destruct (_ <=? 0); [intros [= _ <-]; by left|]. destruct (negb (hasItems c)); [intros [= _ <-]; by left|].
  destruct (buildMspV1UserDataPayload c) as [payload|] eqn:Ep; cbn [mbind option_bind]; [|done].
  destruct payload as [|x payload]; [intros [= _ <-]; by left|].
  fold (built_sei codec (x :: payload)).
  change (if isAnnexB (Some data) then _ else _) with (framed data n (built_sei codec (x :: payload))).
  destruct (framed data n _) as [|f fs] eqn:Ef; [intros [= _ <-]; by left|].
  destruct (negb _); [intros [= _ <-]; by left|]. destruct (negb _); [intros [= _ <-]; by left|].
  intros [= _ <-]. right. exists q, data, (x :: payload). by rewrite Ef.
Qed.

(** The final packet of a publication made in a turn [an] of the stream. *)
Definition sent_as (stream_id : string) (nal : Z) (an : publish_answers) (x : publication) : Prop :=
  let '(packet, final) := x in
  final = ep_packet packet \/
  (ep_media_type packet = Video /\
   exists q data codec cached payload, ep_packet packet = Some q /\ pkt_data q = Some data /\
     buildMspV1UserDataPayload (publish_context an stream_id packet cached) = Some payload /\
     final = Some (pkt_with_data (framed data nal (built_sei codec payload) ++ data) q)).

(** One turn: nothing goes out and only the waiting calls were made, or the front packet
    goes out. *)
Record turn_effect (an : publish_answers) (s : publish_state) (out : option publication) (s' : publish_state) : Prop := {
  te_id : ps_stream_id s' = ps_stream_id s;
  te_nal : ps_nal s' = ps_nal s;
  te_packets : exists l, sb_packets (ps_buffer s) ++ (Some <$> l) =
      (match out with Some x => [Some x.1] | None => [] end) ++ sb_packets (ps_buffer s') /\
    sublist l (arrivals (performed (an, out))) /\
    (sb_stopped (ps_buffer s') = false -> l = arrivals (performed (an, out)) /\ sb_stopped (ps_buffer s) = false);
  te_sent x : out = Some x -> sent_as (ps_stream_id s) (ps_nal s) an x;
  te_publisher : (ps_publisher s', ps_mux s') =
    match out with Some x => offer_publisher an x.2 (ps_publisher s, ps_mux s) | None => (ps_publisher s, ps_mux s) end;
  te_recorder : (ps_recorder s', ps_rec s') =
    match out with Some x => offer_recorder an x.2 (ps_recorder s, ps_rec s) | None => (ps_recorder s, ps_rec s) end;
}.

Lemma foreign_parts an :
  answers_foreign an -> Forall foreign_to_publisher (pa_before an) /\ Forall foreign_to_publisher (pa_peeked an) /\
    Forall foreign_to_publisher (pa_injected an) /\ Forall foreign_to_publisher (pa_popped an).
Proof. unfold answers_foreign. by rewrite !Forall_app. Qed.

Lemma inject_video_effect an id nal packet b override b' :
  ep_media_type packet = Video -> inject_video an id nal packet b = Some (override, b') ->
  sent_as id nal an (packet, match override with Some p => Some p | None => ep_packet packet end) /\
  exists c now, b' = (takeCachedInferenceResult iter c now (pa_cache_ms an) (sb_run (pa_peeked an) b)).2.
Proof.
  intros Hv. unfold inject_video.
  destruct (takeCachedInferenceResult _ _ _ _ _) as [cached b1] eqn:Et.
  destruct (inject _ _ _ _ _) as [[ok out]|] eqn:Ei; cbn; [|done]. intros [= <- <-]. split.
  - apply inject_out in Ei as [->|(q & data & payload & Hq & Hd & Hp & ->)]; [by left; destruct (ep_packet packet)|].
    right. split; [done|]. by eexists q, data, _, cached, payload.
  - exists (ep_frame_id packet), (ep_pts packet). by rewrite Et.
Qed.

(** What the middle of a publishing turn does to the queue. *)
Lemma appended_take cs b b1 l id pts now :
  appended_to b cs b1 l -> appended_to b cs (takeCachedInferenceResult iter id pts now b1).2 l.
Proof.
  intros [P S A]. destruct (takeCached_packets id pts now b1) as (E1 & E2 & _). split; [by rewrite E1|done|by rewrite E2].
Qed.

Lemma sb_run_app cs ds b : sb_run (cs ++ ds) b = sb_run ds (sb_run cs b).
Proof. apply foldl_app. Qed.

Lemma popPacket_front b p rest : sb_packets b = p :: rest ->
  sb_packets (popPacket b) = rest /\ sb_stopped (popPacket b) = sb_stopped b /\
  sb_frames (popPacket b) = sb_frames b /\ sb_store (popPacket b) = sb_store b.
Proof. unfold popPacket. by intros ->. Qed.

(** The two ways a turn ends. *)
Inductive turn_shape (an : publish_answers) (s : publish_state) : option publication -> publish_state -> Prop :=
| turn_idle : turn_shape an s None (ps_with_buffer (sb_run (pa_before an) (ps_buffer s)) s)
| turn_publish packet rest final b2 publisher mux recorder rec statistics :
    let b1 := sb_run (pa_before an) (ps_buffer s) in
    waitForPublishable kMinVideoWatermark b1 = true -> sb_packets b1 = Some packet :: rest ->
    (b2 = sb_run (pa_peeked an) b1 \/
     exists id pts, b2 = (takeCachedInferenceResult iter id pts (pa_cache_ms an) (sb_run (pa_peeked an) b1)).2) ->
    sent_as (ps_stream_id s) (ps_nal s) an (packet, final) ->
    offer_publisher an final (ps_publisher s, ps_mux s) = (publisher, mux) ->
    offer_recorder an final (ps_recorder s, ps_rec s) = (recorder, rec) ->
    let b4 := sb_run (pa_popped an) (popPacket (sb_run (pa_injected an) b2)) in
    turn_shape an s (Some (packet, final))
      (mkPublishState (ps_stream_id s)
         (if bool_decide (ep_media_type packet = Video) && (0 <=? ep_frame_id packet)
          then releaseFrame (ep_frame_id packet) b4 else b4)
         (ps_nal s) publisher mux recorder rec statistics).

Lemma publish_turn_shape an s out s' : publish_turn an s = Some (out, s') -> turn_shape an s out s'.
Proof.
  unfold publish_turn. set (b1 := sb_run (pa_before an) (ps_buffer s)).
  destruct (waitForPublishable _ b1) eqn:Hw; cbn [negb]; [|intros [= <- <-]; constructor].
  unfold peekPacket. destruct (sb_packets b1) as [|[packet|] rest] eqn:Epk;
    [by intros [= <- <-]; constructor | | by intros [= <- <-]; constructor].
  cbv zeta. set (r := if bool_decide _ then inject_video _ _ _ _ _ else _).
  destruct r as [[override b2]|] eqn:Er; cbn [mbind option_bind]; [|done].
  destruct (offer_publisher _ _ _) as [publisher mux] eqn:Eo. destruct (offer_recorder _ _ _) as [recorder rec] eqn:Ec.
  intros [= <- <-]. set (final := match override with Some p => _ | None => _ end) in *.
  assert (Hmid : sent_as (ps_stream_id s) (ps_nal s) an (packet, final) /\
            (b2 = sb_run (pa_peeked an) b1 \/
             exists id pts, b2 = (takeCachedInferenceResult iter id pts (pa_cache_ms an) (sb_run (pa_peeked an) b1)).2)).
  { unfold r in Er. case_bool_decide as Hv.
    - apply inject_video_effect in Er as [Hs Hb]; [|done]. split; [exact Hs|by right].
    - injection Er as <- <-. split; by left. }
  destruct Hmid as [Hsent Hb2]. by eapply turn_publish.
Qed.

Lemma publish_turn_effect an s out s' :
  answers_foreign an -> publish_turn an s = Some (out, s') -> turn_effect an s out s'.
Proof.
  intros (Hf1 & Hf2 & Hf3 & Hf4)%foreign_parts Hturn%publish_turn_shape.
  destruct (foreign_run (pa_before an) (ps_buffer s) Hf1) as [l1 A1].
  destruct Hturn as [|packet rest final b2 publisher mux recorder rec statistics b1 _ Epk Hb2 Hsent Eo Ec b4].
  { destruct A1. split; cbn; try done. by exists l1. }
  assert (exists l2, appended_to b1 (pa_peeked an) b2 l2) as [l2 A2].
  { destruct (foreign_run (pa_peeked an) b1 Hf2) as [l2 A2]. exists l2.
    destruct Hb2 as [->|(id & pts & ->)]; [done|by apply appended_take]. }
  destruct (foreign_run (pa_injected an) b2 Hf3) as [l3 A3]. set (b3 := sb_run (pa_injected an) b2) in *.
  pose proof (appended_trans _ _ _ _ _ _ _ A2 A3) as A23. pose proof (ap_packets _ _ _ _ A23) as P3.
  rewrite Epk in P3. cbn in P3. destruct (popPacket_front b3 _ _ P3) as (Q1 & Q2 & _).
  pose proof (appended_trans _ _ _ _ _ _ _ A1 A23) as [P S A].
  destruct (foreign_run (pa_popped an) (popPacket b3) Hf4) as [l4 [P4 S4 A4]]. fold b4 in P4, A4.
  set (b5 := if _ && _ then releaseFrame _ b4 else b4).
  assert (sb_packets b5 = sb_packets b4 /\ sb_stopped b5 = sb_stopped b4) as [E5 E5'] by (unfold b5; by destruct (_ && _)).
  split; cbn; try done; [|by intros x [= <-]].
  exists ((l1 ++ l2 ++ l3) ++ l4). fold b5. unfold performed. cbn. rewrite E5, E5', P4, Q1. split; [|split].
  - rewrite fmap_app, app_assoc, <- P, P3. done.
  - rewrite !arrivals_app in *. rewrite !app_assoc. rewrite !app_assoc in S. by apply sublist_app.
  - intros Hs. destruct (A4 Hs) as [-> Hs4]. rewrite Q2 in Hs4. destruct (A Hs4) as [-> ?].
    by rewrite !arrivals_app, <- !app_assoc.
Qed.

(** *** Runs *)

Definition run_calls (outs : list (publish_answers * option publication)) : list sb_call := outs ≫= performed.

Lemma publish_run_cons an ans s outs s' :
  publish_run (an :: ans) s = Some (outs, s') ->
  exists out s1 rest, publish_turn an s = Some (out, s1) /\ publish_run ans s1 = Some (rest, s') /\ outs = (an, out) :: rest.
Proof.
  cbn [publish_run]. destruct (publish_turn an s) as [[out s1]|]; cbn [mbind option_bind]; [|done].
  destruct (publish_run ans s1) as [[rest s2]|] eqn:E; cbn [mbind option_bind]; [|done].
  intros [= <- <-]. by exists out, s1, rest.
Qed.

Lemma published_cons an out outs :
  published ((an, out) :: outs) = match out with Some x => (an, x) :: published outs | None => published outs end.
Proof. by destruct out. Qed.

(** C14: The publishing loop sends the stream's packets in the order they were queued, each
    once and none skipped: what was queued and what arrived is what was published followed
    by what is queued now.  Audio packets go out as they are; a video packet goes out as it
    is or with one framed SEI unit in front of its data, every other property unchanged.
    Each packet is offered once to the publisher and once to the recorder, in that order. *)
Theorem published_in_order (ans : list publish_answers) (s s' : publish_state)
    (outs : list (publish_answers * option publication))
    (Hforeign : Forall answers_foreign ans) (Hrun : publish_run ans s = Some (outs, s')) :
  (exists l, sb_packets (ps_buffer s) ++ (Some <$> l) =
     ((fun o => Some o.2.1) <$> published outs) ++ sb_packets (ps_buffer s') /\
     sublist l (arrivals (run_calls outs)) /\
     (sb_stopped (ps_buffer s') = false -> l = arrivals (run_calls outs))) /\
  Forall (fun o => sent_as (ps_stream_id s) (ps_nal s) o.1 o.2) (published outs) /\
  (ps_publisher s', ps_mux s') =
    foldl (fun w o => offer_publisher o.1 o.2.2 w) (ps_publisher s, ps_mux s) (published outs) /\
  (ps_recorder s', ps_rec s') =
    foldl (fun w o => offer_recorder o.1 o.2.2 w) (ps_recorder s, ps_rec s) (published outs).
Proof.
  cut (exists l, sb_packets (ps_buffer s) ++ (Some <$> l) =
     ((fun o => Some o.2.1) <$> published outs) ++ sb_packets (ps_buffer s') /\
     sublist l (arrivals (run_calls outs)) /\
     (sb_stopped (ps_buffer s') = false -> l = arrivals (run_calls outs) /\ sb_stopped (ps_buffer s) = false) /\
  Forall (fun o => sent_as (ps_stream_id s) (ps_nal s) o.1 o.2) (published outs) /\
  (ps_publisher s', ps_mux s') =
    foldl (fun w o => offer_publisher o.1 o.2.2 w) (ps_publisher s, ps_mux s) (published outs) /\
  (ps_recorder s', ps_rec s') =
    foldl (fun w o => offer_recorder o.1 o.2.2 w) (ps_recorder s, ps_rec s) (published outs)).
  { intros (l & ? & ? & Hl & ?). split; [|done]. exists l. split_and!; try done. intros. by apply Hl. }
  revert s outs Hrun. induction ans as [|an ans IH]; intros s outs Hrun.
  { injection Hrun as <- <-. exists []. cbn. by rewrite app_nil_r. }
  apply Forall_cons in Hforeign as [Han Hans].
  apply publish_run_cons in Hrun as (out & s1 & rest & Hturn & Hrun & ->).
  destruct (publish_turn_effect an s out s1 Han Hturn) as [Hid Hnal (l1 & P1 & S1 & A1) Hsent Hpub Hrec].
  destruct (IH Hans s1 rest Hrun) as (l2 & P2 & S2 & A2 & Hs2 & Hpub2 & Hrec2).
  rewrite Hid, Hnal in Hs2. rewrite published_cons. exists (l1 ++ l2). unfold run_calls in *. cbn [mbind list_bind].
  rewrite fmap_app, app_assoc, P1, <- app_assoc, P2, arrivals_app. split_and!.
  - by destruct out.
  - by apply sublist_app.
  - intros Hs. destruct (A2 Hs) as [-> Hs1], (A1 Hs1) as [-> ?]. done.
  - destruct out as [x|]; [constructor; [by apply Hsent|done]|done].
  - rewrite Hpub2, Hpub. by destruct out.
  - rewrite Hrec2, Hrec. by destruct out.
Qed.

(** ** Frames are freed with their packets *)

(** The ids of the queued video packets, front first. *)
Definition video_ids : list (option EncodedPacket) -> list Z :=
  omap (fun p => match p with
                 | Some e => if bool_decide (ep_media_type e = Video) then Some (ep_frame_id e) else None
                 | None => None end).

(** Every frame belongs to a queued packet, but for the frame [ex] of a packet just popped. *)
Record frames_queued (ex : option Z) (seen : ids_seen) (b : StreamBuffer) : Prop := {
  fq_ids id : id ∈ video_ids (sb_packets b) -> id ∈ seen.1;
  fq_nodup : NoDup (video_ids (sb_packets b));
  fq_nonneg id : id ∈ seen.1 -> 0 <= id;
  fq_frames id : is_Some (sb_frames b !! id) -> (id ∈ video_ids (sb_packets b) \/ ex = Some id) /\ id ∈ seen.2;
  fq_published id : id ∈ seen.1 -> id ∈ video_ids (sb_packets b) \/ id ∈ seen.2 \/ sb_stopped b = true;
}.

Lemma video_ids_app l k : video_ids (l ++ k) = video_ids l ++ video_ids k.
Proof. apply omap_app. Qed.

Lemma frames_queued_same ex seen b b' :
  sb_packets b' = sb_packets b -> sb_frames b' = sb_frames b -> (sb_stopped b = true -> sb_stopped b' = true) ->
  frames_queued ex seen b -> frames_queued ex seen b'.
Proof.
  intros Ep Ef Es [H1 H2 H3 H4 H5]. split; rewrite ?Ep, ?Ef; try done.
  intros id Hid. destruct (H5 id Hid) as [?|[?|?]]; auto.
Qed.

Lemma video_ids_one e : video_ids [Some e] = if bool_decide (ep_media_type e = Video) then [ep_frame_id e] else [].
Proof. cbn. by case_bool_decide. Qed.

Lemma frames_queued_packet ex seen e b :
  ep_media_type e = Video -> 0 <= ep_frame_id e -> ep_frame_id e ∉ seen.1 ->
  frames_queued ex seen b ->
  frames_queued ex (ep_frame_id e :: seen.1, seen.2) (enqueuePacket (Some e) b).2.
Proof.
  intros Hv H0 Hnew [H1 H2 H3 H4 H5]. unfold enqueuePacket. destruct (sb_stopped b) eqn:Hs; cbn; split; cbn.
  - intros id Hid. right. by apply H1.
  - done.
  - intros id [->|?]%elem_of_cons; auto.
  - done.
  - rewrite Hs. auto.
  - intros id. rewrite video_ids_app, video_ids_one, bool_decide_true by done.
    intros [?| ->%list_elem_of_singleton]%elem_of_app; [right; by apply H1|left].
  - rewrite video_ids_app, video_ids_one, bool_decide_true by done. apply NoDup_app. split; [done|].
    split; [|apply NoDup_singleton]. intros id Hid ->%list_elem_of_singleton. by apply Hnew, H1.
  - intros id [->|?]%elem_of_cons; auto.
  - intros id [[Hid|Hid] ?]%H4; (split; [|done]); [left|by right]. rewrite video_ids_app. apply elem_of_app. by left.
  - intros id. rewrite video_ids_app, video_ids_one, bool_decide_true by done. rewrite elem_of_app, list_elem_of_singleton.
    intros [->|Hid]%elem_of_cons; [auto|]. destruct (H5 id Hid) as [?|[?|?]]; [auto|auto|congruence].
Qed.

Lemma frames_queued_frame ex seen f b :
  fb_frame_id f ∈ seen.1 -> fb_frame_id f ∉ seen.2 ->
  frames_queued ex seen b -> frames_queued ex (seen.1, fb_frame_id f :: seen.2) (enqueueFrame (Some f) b).2.
Proof.
  intros Hin Hnew [H1 H2 H3 H4 H5]. unfold enqueueFrame. destruct (sb_stopped b) eqn:Hs; cbn; split; cbn; try done.
  - intros id [? ?]%H4. split; [done|by right].
  - intros id [?|[?|?]]%H5; [by left | right; left; by right | right; by right].
  - intros id [<-|Hid]%lookup_insert_is_Some'.
    + split; [|left]. destruct (H5 _ Hin) as [?|[?|?]]; [by left|done|congruence].
    + destruct (H4 id Hid). split; [done|by right].
  - intros id [?|[?|?]]%H5; [by left | right; left; by right | right; by right].
Qed.

Lemma frames_queued_apply ex seen c b :
  foreign_to_publisher c -> allowed seen c -> frames_queued ex seen b -> frames_queued ex (note seen c) (sb_apply c b).
Proof.
  intros Hc Ha Hq. destruct c; try done; cbn [sb_apply note allowed] in *.
  - destruct p as [e|]; [|done]. case_bool_decide as Hv.
    + destruct (Ha Hv) as [H0 Hlt]. apply frames_queued_packet; try done. intros Hin. specialize (Hlt _ Hin). lia.
    + cbn. destruct (sb_stopped b) eqn:Hs; [done|]. destruct Hq as [H1 H2 H3 H4 H5]. rewrite Hs in H5.
      assert (E : video_ids (sb_packets b ++ [Some e]) = video_ids (sb_packets b))
        by (by rewrite video_ids_app, video_ids_one, bool_decide_false, app_nil_r).
      split; cbn; rewrite ?E; done.
  - destruct f as [f|]; [|done]. destruct Ha as (H0 & Hlt & _). apply frames_queued_frame; try done. intros Hin.
    specialize (Hlt _ Hin). lia.
  - unfold selectFrameForInference. destruct (latest_idle _ _) as [q|]; [|done]. cbn.
    destruct (mark_others_done_with_store q (sb_frame_order b) (sb_set_state q Selected b)) as [st ->].
    by apply (frames_queued_same ex seen b).
  - unfold markInferenceRunning, clearInferenceSelection. destruct (sb_frame_at b id) as [[??]|]; by apply (frames_queued_same ex seen b).
  - unfold markInferenceDone, clearInferenceSelection. destruct (sb_frame_at b _) as [[??]|]; by apply (frames_queued_same ex seen b).
  - unfold clearInferenceSelection. destruct (sb_frame_at b _) as [[??]|]; by apply (frames_queued_same ex seen b).
  - unfold updateCachedInferenceResult. destruct (_ <? _); by apply (frames_queued_same ex seen b).
  - by apply (frames_queued_same ex seen b).
Qed.

Lemma frames_queued_run ex cs : forall seen b,
  Forall foreign_to_publisher cs -> frames_follow seen cs -> frames_queued ex seen b ->
  frames_queued ex (foldl note seen cs) (sb_run cs b).
Proof.
  induction cs as [|c cs IH]; intros seen b Hcs Hf Hq; [done|]. apply Forall_cons in Hcs as [Hc Hcs]. destruct Hf as [Ha Hf].
  apply (IH (note seen c) (sb_apply c b)); [done|done|]. by apply frames_queued_apply.
Qed.

Lemma frames_queued_take ex seen b id pts now :
  frames_queued ex seen b -> frames_queued ex seen (takeCachedInferenceResult iter id pts now b).2.
Proof.
  destruct (takeCached_packets id pts now b) as (E1 & E2 & E3 & _). apply frames_queued_same; [done|done|by rewrite E2].
Qed.

(** Popping the front packet: its frame, if it is a video packet, is the exception. *)
Lemma frames_queued_pop seen b packet rest :
  sb_packets b = Some packet :: rest ->
  (ep_media_type packet = Video -> ep_frame_id packet ∈ seen.2) ->
  frames_queued None seen b ->
  frames_queued (if bool_decide (ep_media_type packet = Video) then Some (ep_frame_id packet) else None) seen (popPacket b).
Proof.
  intros Ep Hin [H1 H2 H3 H4 H5]. destruct (popPacket_front b _ _ Ep) as (E1 & E2 & E3 & _).
  rewrite Ep in *. cbn in H1, H2, H4, H5. split; rewrite ?E1, ?E2, ?E3; try done; case_bool_decide as Hv; try done.
  - intros id Hid. apply H1. by right.
  - by apply NoDup_cons in H2 as [_ ?].
  - intros id [[[->|?]%elem_of_cons|?] ?]%H4; (split; [|done]); [by right|by left|done].
  - intros id [[->|?]%elem_of_cons|?]%H5; [right; left; by apply Hin|by left|by right].
Qed.

Lemma frames_queued_release seen b id :
  frames_queued (Some id) seen b -> frames_queued None seen (releaseFrame id b).
Proof.
  intros [H1 H2 H3 H4 H5]. split; cbn; try done. intros i [Hne Hi]%lookup_delete_is_Some.
  destruct (H4 i Hi) as [[?|[= ->]] ?]; [by split; [left|]|done].
Qed.

Lemma note_frames_mono cs : forall seen id, id ∈ seen.2 -> id ∈ (foldl note seen cs).2.
Proof.
  induction cs as [|c cs IH]; intros seen id Hid; [done|]. apply IH. destruct c; cbn; try done.
  - destruct p as [e|]; [|done]. by case_bool_decide.
  - destruct f as [f|]; [|done]. by right.
Qed.

(** The frame of a video packet that passed the gates was enqueued. *)
Lemma published_frame_seen ex seen b packet rest :
  sb_wf b -> frames_queued ex seen b -> sb_packets b = Some packet :: rest -> ep_media_type packet = Video ->
  waitForPublishable kMinVideoWatermark b = true -> 0 <= ep_frame_id packet /\ ep_frame_id packet ∈ seen.2.
Proof.
  intros Hwf [H1 _ H3 H4 _] Ep Hv Hw.
  assert (Hin : ep_frame_id packet ∈ video_ids (sb_packets b)).
  { rewrite Ep. cbn. rewrite bool_decide_true by done. left. }
  pose proof (H3 _ (H1 _ Hin)) as H0. split; [done|].
  assert (Hc : canPublishLocked kMinVideoWatermark b = true).
  { revert Hw. unfold waitForPublishable, publish_ready. by destruct (sb_stopped b), (canPublishLocked _ b). }
  apply (canPublish_video_iff kMinVideoWatermark b packet rest) in Hc as [_ Hf _]; try done.
  destruct (Hf H0) as (f & (p & [Hp _]%sb_frame_at_Some)%findFrame_Some & _). apply H4. by exists p.
Qed.

Lemma publish_turn_wf an s out s' : sb_wf (ps_buffer s) -> publish_turn an s = Some (out, s') -> sb_wf (ps_buffer s').
Proof.
  intros Hwf Hturn%publish_turn_shape. pose proof (sb_run_wf (pa_before an) _ Hwf) as Hwf1.
  destruct Hturn as [|packet rest final b2 publisher mux recorder rec statistics b1 _ _ Hb2 _ _ _ b4]; [done|].
  assert (sb_wf b2) as Hwf2 by (destruct Hb2 as [->|(id & pts & ->)]; auto using sb_run_wf with media).
  assert (sb_wf b4) as Hwf4 by (apply sb_run_wf, popPacket_wf, sb_run_wf, Hwf2).
  cbn. destruct (_ && _); auto with media.
Qed.

Lemma frames_queued_turn an s out s' seen :
  sb_wf (ps_buffer s) -> answers_foreign an -> publish_turn an s = Some (out, s') ->
  frames_follow seen (performed (an, out)) -> frames_queued None seen (ps_buffer s) ->
  frames_queued None (foldl note seen (performed (an, out))) (ps_buffer s').
Proof.
  intros Hwf (Hf1 & Hf2 & Hf3 & Hf4)%foreign_parts Hturn%publish_turn_shape Hff Hq.
  destruct Hturn as [|packet rest final b2 publisher mux recorder rec statistics b1 Hw Epk Hb2 _ _ _ b4];
    unfold performed in *; cbn in *; [by apply frames_queued_run|].
  rewrite !foldl_app. rewrite !frames_follow_app in Hff. destruct Hff as (F1 & F2 & F3 & F4).
  pose proof (frames_queued_run None _ _ _ Hf1 F1 Hq) as Q1. fold b1 in Q1.
  pose proof (sb_run_wf (pa_before an) _ Hwf) as Hwf1. fold b1 in Hwf1.
  set (seen1 := foldl note seen (pa_before an)) in *. set (seen2 := foldl note seen1 (pa_peeked an)) in *.
  assert (Q2 : frames_queued None seen2 b2).
  { pose proof (frames_queued_run None _ _ _ Hf2 F2 Q1). destruct Hb2 as [->|(id & pts & ->)]; [done|by apply frames_queued_take]. }
  pose proof (frames_queued_run None _ _ _ Hf3 F3 Q2) as Q3. set (seen3 := foldl note seen2 (pa_injected an)) in *.
  assert (exists rest', sb_packets (sb_run (pa_injected an) b2) = Some packet :: rest') as [rest' Ep3].
  { destruct (foreign_run (pa_peeked an) b1 Hf2) as [l2 [E2 _ _]], (foreign_run (pa_injected an) b2 Hf3) as [l3 [E3 _ _]].
    rewrite E3. assert (sb_packets b2 = sb_packets (sb_run (pa_peeked an) b1)) as ->.
    { destruct Hb2 as [->|(id & pts & ->)]; [done|apply takeCached_packets]. }
    rewrite E2, Epk. eexists. reflexivity. }
  pose proof (frames_queued_pop seen3 _ packet rest' Ep3) as Q4. case_bool_decide as Hv.
  - destruct (published_frame_seen None seen1 b1 packet rest Hwf1 Q1 Epk Hv Hw) as [H0 Hs].
    rewrite (proj2 (Z.leb_le _ _)) by done. cbn. apply frames_queued_release, frames_queued_run; [done|done|].
    apply Q4; [|done]. intros _. by apply note_frames_mono, note_frames_mono.
  - cbn. apply frames_queued_run; [done|done|]. by apply Q4.
Qed.

Lemma frames_queued_publish_run ans : forall s outs s' seen,
  sb_wf (ps_buffer s) -> Forall answers_foreign ans -> publish_run ans s = Some (outs, s') ->
  frames_follow seen (run_calls outs) -> frames_queued None seen (ps_buffer s) ->
  sb_wf (ps_buffer s') /\ frames_queued None (foldl note seen (run_calls outs)) (ps_buffer s').
Proof.
  induction ans as [|an ans IH]; intros s outs s' seen Hwf Hans Hrun Hff Hq.
  { by injection Hrun as <- <-. }
  apply Forall_cons in Hans as [Han Hans].
  apply publish_run_cons in Hrun as (out & s1 & rest & Hturn & Hrun & ->).
  unfold run_calls in *. cbn [mbind list_bind] in *. apply frames_follow_app in Hff as [F1 F2]. rewrite foldl_app.
  apply (IH s1); try done; [by eapply publish_turn_wf|by eapply frames_queued_turn].
Qed.

Lemma video_ids_count l : length (video_ids l) = Z.to_nat (count_video l).
Proof.
  induction l as [|[e|] l IH]; [done| |]; rewrite count_video_cons; pose proof (count_video_nonneg l); cbn; [|done].
  destruct (bool_decide _); cbn; lia.
Qed.

(** Frames do not pile up: as long as the puller enqueues each frame at most once and
    after its packet, then between two turns of the publishing loop every frame in the
    buffer belongs to a video packet that is still queued, whatever the other threads do
    in between; so there are never more frames than queued video packets. *)
Theorem frames_freed_with_packets (stream_id : string) (ans : list publish_answers) (s s' : publish_state)
    (outs : list (publish_answers * option publication))
    (Hnew : ps_buffer s = createStreamBuffer stream_id) (Hforeign : Forall answers_foreign ans)
    (Hrun : publish_run ans s = Some (outs, s')) (Hpuller : frames_follow ([], []) (run_calls outs)) :
  (forall id, is_Some (sb_frames (ps_buffer s') !! id) -> id ∈ video_ids (sb_packets (ps_buffer s'))) /\
  frameCount (ps_buffer s') <= sb_video_packet_count (ps_buffer s').
Proof.
  assert (Hq : frames_queued None ([], []) (ps_buffer s)).
  { rewrite Hnew. split; cbn; [by intros ? ?%elem_of_nil | constructor | by intros ? ?%elem_of_nil
      | by intros ? [? ?] | by intros ? ?%elem_of_nil]. }
  assert (Hwf : sb_wf (ps_buffer s)) by (rewrite Hnew; apply sb_wf_new).
  destruct (frames_queued_publish_run ans s outs s' ([], []) Hwf Hforeign Hrun Hpuller Hq) as [Hwf' [_ Hnd _ Hfr _]].
  assert (Hin : forall id, is_Some (sb_frames (ps_buffer s') !! id) -> id ∈ video_ids (sb_packets (ps_buffer s'))).
  { intros id Hid. by destruct (Hfr id Hid) as [[?|?] _]. }
  split; [done|]. rewrite (wf_count _ Hwf'). unfold frameCount. rewrite <- size_dom.
  pose proof (count_video_nonneg (sb_packets (ps_buffer s'))).
  enough (size (dom (sb_frames (ps_buffer s'))) <= length (video_ids (sb_packets (ps_buffer s'))))%nat
    by (rewrite video_ids_count in *; lia).
  rewrite <- (size_list_to_set (C := gset Z) (video_ids (sb_packets (ps_buffer s')))) by done.
  apply subseteq_size. intros id Hid%elem_of_dom. apply elem_of_list_to_set. by apply Hin.
Qed.

(** ** The loop is defined *)

Definition results_ok (b : StreamBuffer) : Prop :=
  forall id r, sb_cached b !! id = Some r -> Forall bbox_ok (fr_objects r).
Definition call_ok (c : sb_call) : Prop :=
  match c with CallUpdateCached r => Forall bbox_ok (fr_objects r) | _ => True end.
Definition answers_ok (an : publish_answers) : Prop :=
  Forall call_ok (pa_before an ++ pa_peeked an ++ pa_injected an ++ pa_popped an).

Lemma publish_context_ok an id packet cached :
  (forall r, cached = Some r -> Forall bbox_ok (fr_objects r)) -> ctx_ok (publish_context an id packet cached).
Proof.
  intros Hr. unfold publish_context. destruct cached as [r|]; (split; [cbn; by try apply Hr|]);
    cbn; repeat constructor; cbn; try done; try apply bytes_of_string_ok; unfold byte_ok, in_unsigned; lia.
Qed.

Lemma inject_defined source codec n c : ctx_ok c -> exists ok out, inject lib source codec n c = Some (ok, out).
Proof.
  intros Hc. destruct (buildMsp_some c Hc) as (payload & Hp & _). unfold inject.
  destruct (ep_packet source) as [q|]; [|by eauto]. destruct (pkt_data q); [|by eauto].
  destruct (_ <=? 0); [by eauto|]. destruct (negb _); [by eauto|]. rewrite Hp. cbn.
  destruct payload; [by eauto|]. by repeat case_match; eauto.
Qed.

Lemma purge_results now b : results_ok b -> results_ok (purgeExpiredCachedInferenceResultsLocked now b).
Proof. intros Hb id r [Hr _]%map_lookup_filter_Some. by apply (Hb id). Qed.

Lemma takeCached_results it id pts now b :
  results_ok b ->
  (forall r, (takeCachedInferenceResult it id pts now b).1 = Some r -> Forall bbox_ok (fr_objects r)) /\
  results_ok (takeCachedInferenceResult it id pts now b).2.
Proof.
  intros Hb%(purge_results now). unfold takeCachedInferenceResult.
  set (b1 := purgeExpiredCachedInferenceResultsLocked now b) in *. clearbody b1.
  destruct (match (if 0 <=? pts then _ else None) with Some id => Some id | None => _ end) as [k|]; [|done].
  destruct (sb_cached b1 !! k) as [r|] eqn:Er; [|done]. cbn. split.
  - intros r' [= <-]. by apply (Hb k).
  - intros i r' Hi. cbn in Hi. apply lookup_delete_Some in Hi as [_ Hi]. by apply (Hb i).
Qed.

Lemma results_ok_run cs : forall b, Forall call_ok cs -> results_ok b -> results_ok (sb_run cs b).
Proof.
  induction cs as [|c cs IH]; intros b Hcs Hb; [done|]. apply Forall_cons in Hcs as [Hc Hcs].
  apply (IH (sb_apply c b)); [done|].
  destruct c; cbn [sb_apply]; unfold markInferenceRunning, markInferenceDone, clearInferenceSelection; try done.
  - unfold enqueuePacket. destruct p; [|done]. by destruct (sb_stopped b).
  - unfold enqueueFrame. destruct f; [|done]. by destruct (sb_stopped b).
  - unfold selectFrameForInference. destruct (latest_idle _ _) as [q|]; [|done]. cbn.
    by destruct (mark_others_done_with_store q (sb_frame_order b) (sb_set_state q Selected b)) as [st ->].
  - by destruct (sb_frame_at b _) as [[??]|].
  - by destruct (sb_frame_at b _) as [[??]|].
  - by destruct (sb_frame_at b _) as [[??]|].
  - unfold popPacket. by destruct (sb_packets b).
  - intros i r Hi. cbn in Hi. apply lookup_delete_Some in Hi as [_ Hi]. by apply (Hb i).
  - unfold updateCachedInferenceResult. destruct (_ <? _); [done|].
    intros i r' Hi. cbn in Hi. apply lookup_insert_Some in Hi as [[_ <-]|[_ Hi]]; [done|by apply (Hb i)].
  - by apply takeCached_results.
Qed.

Lemma publish_turn_defined an s :
  answers_ok an -> results_ok (ps_buffer s) ->
  exists out s', publish_turn an s = Some (out, s') /\ results_ok (ps_buffer s').
Proof.
  unfold answers_ok. rewrite !Forall_app. intros (H1 & H2 & H3 & H4) Hb.
  pose proof (results_ok_run _ _ H1 Hb) as Hb1. unfold publish_turn.
  set (b1 := sb_run (pa_before an) (ps_buffer s)) in *.
  destruct (negb _); [by eexists _, _|]. destruct (peekPacket b1) as [packet|]; [|by eexists _, _].
  cbv zeta. set (r := if bool_decide _ then inject_video _ _ _ _ _ else _).
  assert (exists override b2, r = Some (override, b2) /\ results_ok b2) as (override & b2 & -> & Hb2).
  { unfold r. pose proof (results_ok_run _ _ H2 Hb1) as Hp. case_bool_decide; [|by eexists _, _].
    unfold inject_video. destruct (takeCached_results iter (ep_frame_id packet) (ep_pts packet) (pa_cache_ms an) _ Hp) as [Hr Hres].
    destruct (takeCachedInferenceResult _ _ _ _ _) as [cached b2]. cbn in Hr, Hres.
    destruct (inject_defined packet (seiCodecTypeFromFrame (findFrame (ep_frame_id packet) b1)) (ps_nal s)
                (publish_context an (ps_stream_id s) packet cached)) as (ok & out & ->); [by apply publish_context_ok|].
    by eexists _, _. }
  cbn [mbind option_bind]. destruct (offer_publisher _ _ _), (offer_recorder _ _ _). eexists _, _. split; [done|]. cbn.
  assert (results_ok (sb_run (pa_popped an) (popPacket (sb_run (pa_injected an) b2)))) as Hb4.
  { apply results_ok_run; [done|]. apply (results_ok_run [CallPopPacket]); [by repeat constructor|]. by apply results_ok_run. }
  destruct (_ && _); [|done]. intros i r' Hi. cbn in Hi. apply lookup_delete_Some in Hi as [_ Hi]. by apply (Hb4 i).
Qed.

(** As long as the detections the inference threads report are real numbers, the
    publishing loop never meets undefined behaviour: every turn, whatever is queued and
    whatever the other threads do, comes to its end. *)
Theorem publishing_defined (ans : list publish_answers) (s : publish_state)
    (Hok : Forall answers_ok ans) (Hb : results_ok (ps_buffer s)) :
  exists outs s', publish_run ans s = Some (outs, s').
Proof.
  revert s Hb. induction Hok as [|an ans Han _ IH]; intros s Hb; cbn [publish_run]; [by eexists _, _|].
  destruct (publish_turn_defined an s Han Hb) as (out & s1 & -> & Hb1). cbn [mbind option_bind].
  destruct (IH s1 Hb1) as (outs & s2 & ->). by eexists _, _.
Qed.

(** ** The loop sees no more of the buffer than its specification *)

(** Equal states but for the buffer, of which only the view counts. *)
Definition publish_equiv (s s' : publish_state) : Prop :=
  exists b, s' = ps_with_buffer b s /\ sb_equiv (ps_buffer s) b.

Lemma takeCached_equiv id pts now b b' :
  sb_equiv b b' ->
  (takeCachedInferenceResult iter id pts now b).1 = (takeCachedInferenceResult iter id pts now b').1 /\
  sb_equiv (takeCachedInferenceResult iter id pts now b).2 (takeCachedInferenceResult iter id pts now b').2.
Proof.
  intros Hb. pose proof (sb_answer_proper (CallTakeCached iter id pts now) _ eq_refl b b' Hb) as Ha.
  pose proof (sb_apply_proper (CallTakeCached iter id pts now) _ eq_refl b b' Hb) as H. by injection Ha.
Qed.

Lemma inject_video_equiv an id nal packet b b' :
  sb_equiv b b' ->
  match inject_video an id nal packet b, inject_video an id nal packet b' with
  | Some (o, b1), Some (o', b1') => o = o' /\ sb_equiv b1 b1'
  | None, None => True
  | _, _ => False
  end.
Proof.
  intros Hb. unfold inject_video. rewrite (findFrame_proper (ep_frame_id packet) _ eq_refl b b' Hb).
  pose proof (sb_run_proper (pa_peeked an) _ eq_refl b b' Hb) as Hrun.
  destruct (takeCached_equiv (ep_frame_id packet) (ep_pts packet) (pa_cache_ms an) _ _ Hrun) as [Hr Heq].
  destruct (takeCachedInferenceResult iter _ _ _ (sb_run _ b)) as [r b1], (takeCachedInferenceResult iter _ _ _ (sb_run _ b')) as [r' b1'].
  cbn in Hr, Heq. subst r'. by destruct (inject _ _ _ _ _) as [[? ?]|].
Qed.

Theorem publish_turn_equiv (an : publish_answers) (s s' : publish_state) (Hs : publish_equiv s s') :
  match publish_turn an s, publish_turn an s' with
  | Some (out, t), Some (out', t') => out = out' /\ publish_equiv t t'
  | None, None => True
  | _, _ => False
  end.
Proof.
  destruct Hs as (b & -> & Hb). unfold publish_turn. cbn [ps_buffer ps_with_buffer ps_stream_id ps_nal ps_statistics ps_publisher ps_mux ps_recorder ps_rec].
  pose proof (sb_run_proper (pa_before an) _ eq_refl _ _ Hb) as H1.
  set (b1 := sb_run (pa_before an) (ps_buffer s)) in *. set (b1' := sb_run (pa_before an) b) in *.
  rewrite <- (waitForPublishable_proper kMinVideoWatermark _ eq_refl _ _ H1), <- (peekPacket_proper _ _ H1).
  assert (Hidle : publish_equiv (ps_with_buffer b1 s) (ps_with_buffer b1' (ps_with_buffer b s))) by by exists b1'.
  destruct (negb _); [done|]. destruct (peekPacket b1) as [packet|]; [|done]. cbv zeta.
  assert (Hmid : match (if bool_decide (ep_media_type packet = Video) then inject_video an (ps_stream_id s) (ps_nal s) packet b1
                        else Some (None, sb_run (pa_peeked an) b1)),
                       (if bool_decide (ep_media_type packet = Video) then inject_video an (ps_stream_id s) (ps_nal s) packet b1'
                        else Some (None, sb_run (pa_peeked an) b1')) with
                 | Some (o, b2), Some (o', b2') => o = o' /\ sb_equiv b2 b2'
                 | None, None => True
                 | _, _ => False
                 end).
  { case_bool_decide; [by apply inject_video_equiv|]. split; [done|]. by apply sb_run_proper. }
  destruct (if bool_decide _ then inject_video _ _ _ _ b1 else _) as [[o b2]|],
    (if bool_decide _ then inject_video _ _ _ _ b1' else _) as [[o' b2']|]; try done.
  destruct Hmid as [<- H2]. cbn [mbind option_bind].
  destruct (offer_publisher _ _ _) as [publisher mux]. destruct (offer_recorder _ _ _) as [recorder rec].
  split; [done|]. eexists. split; [reflexivity|]. cbn [ps_buffer].
  assert (H3 : sb_equiv (sb_run (pa_popped an) (popPacket (sb_run (pa_injected an) b2)))
                 (sb_run (pa_popped an) (popPacket (sb_run (pa_injected an) b2')))).
  { apply sb_run_proper; [done|]. apply (sb_apply_proper CallPopPacket CallPopPacket eq_refl). by apply sb_run_proper. }
  destruct (_ && _); [|exact H3]. by apply (sb_apply_proper (CallReleaseFrame (ep_frame_id packet)) _ eq_refl).
Qed.
End Publish.

(** ** Concrete runs *)

Definition ex_video_packet (id : Z) : EncodedPacket :=
  mkEncodedPacket Video (Some (mkAVPacket (Some [0; 0; 1; 101]) 4 (id * 3600) (id * 3600) 3600 0 (-1)))
    4 (id * 3600) (id * 3600) 3600 (id * 40) (id =? 0) id 0.
Definition ex_arrives (id : Z) : list sb_call :=
  [CallEnqueuePacket (Some (ex_video_packet id)); CallEnqueueFrame (Some (StreamBuffer.ex_frame id true))].
Definition ex_turn (before popped : list sb_call) : publish_answers :=
  mkPublishAnswers 10 "12:00" (ex_mux true) 10 before [] [] popped.
Definition ex_publish_state : publish_state :=
  mkPublishState "s" (createStreamBuffer "s") 0 ex_pub ex_pub_world Recorder_new (mkRecWorld 0 0 [] []) Statistics_new.
Definition ex_run : list publish_answers -> publish_state -> option (list (publish_answers * option publication) * publish_state) :=
  publish_run ex_rescale_q ex_rescale_ts (fun _ => true) (fun _ => true) (fun _ => true) (fun _ => true)
    (fun _ _ => true) ex_library map_to_list.
(** The first turn waits for a second packet, the others publish one packet each. *)
Definition ex_answers : list publish_answers :=
  [ex_turn (ex_arrives 0) []; ex_turn (ex_arrives 1) (ex_arrives 2); ex_turn [] []].

Lemma ex_answers_foreign : Forall answers_foreign ex_answers.
Proof. by repeat constructor. Qed.

(** Packet 0 goes out once packet 1 is there, packet 1 once packet 2 is; one packet and one
    frame are left. *)
Lemma ex_run_result :
  exists outs s', ex_run ex_answers ex_publish_state = Some (outs, s') /\
    ((fun o => ep_frame_id o.2.1) <$> published outs = [0; 1] /\
     frames_follow ([], []) (run_calls outs) /\ frameCount (ps_buffer s') = 1).
Proof.
  apply some_pair. vm_compute. split; [done|]. split; [|done].
  split_and!; try done; intros; try (split; [done|]); set_solver.
Qed.

Lemma published_in_order_witness :
  exists outs s', ex_run ex_answers ex_publish_state = Some (outs, s') /\
    (fun o => ep_frame_id o.2.1) <$> published outs = [0; 1] /\
    Forall (fun o => sent_as "s" 0 o.1 o.2) (published outs) /\
    exists l, Some <$> l = ((fun o => Some o.2.1) <$> published outs) ++ sb_packets (ps_buffer s').
Proof.
  destruct ex_run_result as (outs & s' & Hrun & Hids & _). exists outs, s'. split; [exact Hrun|]. split; [exact Hids|].
  destruct (published_in_order ex_rescale_q ex_rescale_ts (fun _ => true) (fun _ => true) (fun _ => true) (fun _ => true)
              (fun _ _ => true) ex_library map_to_list ex_answers ex_publish_state s' outs ex_answers_foreign Hrun)
    as ((l & Hl & _) & Hsent & _). split; [exact Hsent|by exists l].
Defined.

Lemma frames_freed_with_packets_witness :
  exists outs s', ex_run ex_answers ex_publish_state = Some (outs, s') /\ frameCount (ps_buffer s') = 1 /\
    frameCount (ps_buffer s') <= sb_video_packet_count (ps_buffer s').
Proof.
  destruct ex_run_result as (outs & s' & Hrun & _ & Hff & Hcount). exists outs, s'. split; [exact Hrun|]. split; [exact Hcount|].
  apply (frames_freed_with_packets ex_rescale_q ex_rescale_ts (fun _ => true) (fun _ => true) (fun _ => true)
           (fun _ => true) (fun _ _ => true) ex_library map_to_list "s" ex_answers ex_publish_state s' outs eq_refl
           ex_answers_foreign Hrun Hff).
Defined.

Lemma publishing_defined_witness :
  exists outs s', ex_run (ex_turn [CallUpdateCached (FrameInferenceResult_default)] [] :: ex_answers) ex_publish_state = Some (outs, s').
Proof.
  apply (publishing_defined ex_rescale_q ex_rescale_ts (fun _ => true) (fun _ => true) (fun _ => true) (fun _ => true)
           (fun _ _ => true) ex_library map_to_list).
  - repeat constructor.
  - intros id r Hr. cbn in Hr. by rewrite lookup_empty in Hr.
Defined.

(** Two buffers with the same packets and frames; in one of them a frame was filed and
    released before, so its objects lie elsewhere. *)
Definition ex_twin_calls : list sb_call :=
  CallEnqueueFrame (Some (StreamBuffer.ex_frame 9 true)) :: CallReleaseFrame 9 :: ex_arrives 0 ++ ex_arrives 1.
Definition ex_twin (cs : list sb_call) : publish_state :=
  ps_with_buffer (sb_run cs (createStreamBuffer "s")) ex_publish_state.

Lemma ex_twins : publish_equiv (ex_twin (ex_arrives 0 ++ ex_arrives 1)) (ex_twin ex_twin_calls).
Proof.
  exists (sb_run ex_twin_calls (createStreamBuffer "s")). split; [done|].
  split; [apply sb_run_wf, sb_wf_new..|by vm_compute].
Qed.

Abbreviation ex_twin_turn cs :=
  (publish_turn ex_rescale_q ex_rescale_ts (fun _ => true) (fun _ => true) (fun _ => true) (fun _ => true)
     (fun _ _ => true) ex_library map_to_list (ex_turn [] []) (ex_twin cs)).

Lemma publish_turn_equiv_witness :
  sb_store (ps_buffer (ex_twin (ex_arrives 0 ++ ex_arrives 1))) <> sb_store (ps_buffer (ex_twin ex_twin_calls)) /\
  exists out t t', ex_twin_turn (ex_arrives 0 ++ ex_arrives 1) = Some (out, t) /\ ex_twin_turn ex_twin_calls = Some (out, t') /\
    publish_equiv t t'.
Proof.
  split; [by vm_compute|].
  assert (exists out t, ex_twin_turn (ex_arrives 0 ++ ex_arrives 1) = Some (out, t) /\ True) as (out & t & H1 & _)
    by (apply some_pair; vm_compute; done).
  assert (exists out t, ex_twin_turn ex_twin_calls = Some (out, t) /\ True) as (out' & t' & H2 & _)
    by (apply some_pair; vm_compute; done).
  pose proof (publish_turn_equiv ex_rescale_q ex_rescale_ts (fun _ => true) (fun _ => true) (fun _ => true) (fun _ => true)
           (fun _ _ => true) ex_library map_to_list (ex_turn [] []) _ _ ex_twins) as H.
  rewrite H1, H2 in H. destruct H as [<- H]. exists out, t, t'. split; [exact H1|]. split; [exact H2|exact H].
Defined.
