(* ===== verification/Infer.v ===== *)
(** * Inference loop and alarms (src/src/pipeline/Pipeline.cpp: inferLoop, triggerAlarmRecording,
    triggerAlarmSnapshot, configureStreamRecorder, the stream-ready callback, heartbeatLoop)

    An inference thread takes a task from the scheduler, runs the stream's detector on its
    frame, files the result with the stream's buffer, and turns alarms into a recording, a
    snapshot and one message per object class; then it gives the task back.  The other
    threads act between its steps: what they do to the pipeline is an argument. *)
From S2P Require Import Prelude StdMap Float32 Messages SafeQueue StreamBuffer Scheduler Common Config Sei Socket.
From S2P Require Import Ipc Stats Detector Decoder Puller Mux Recorder Snapshot Pipeline.

(** What the threads share; [iw_tracker]: the native tracking library. *)
Record InferWorld := mkInferWorld {
  iw_pipe : Pipeline;
  iw_ipc : option IpcClient;
  iw_tracker : TrackerWorld;
}.

(** The clocks and answers of one task: [ia_alarm] are the identifier and the time of the
    [i]-th alarm message; [ia_meanwhile] and [ia_during] are what the other threads do
    before the stream is looked up and while the detector runs, [ia_contended] what they do
    to the stream's context while this one waits for its [snapshot_mutex]. *)
Record infer_answers := mkInferAnswers {
  ia_clock : detect_clock;
  ia_mono_ms : Z;
  ia_record : record_answers;
  ia_snap : snap_answers;
  ia_alarm : nat -> string * Z;
  ia_contended : StreamContext -> StreamContext;
  ia_meanwhile : Pipeline -> Pipeline;
  ia_during : Pipeline -> Pipeline;
}.

(** ** Setters *)

Definition sx_with_detector (d : option AlgoDetector) (c : StreamContext) : StreamContext :=
  sx_with_runtime (sx_runtime_config c) (mkDetectorRuntimeEntry (de_config (sx_detector_runtime c)) d) c.
Definition sx_with_recorder (r : Recorder) (w : RecWorld) (c : StreamContext) : StreamContext :=
  mkStreamContext (sx_stream_id c) (sx_transport_config c) (sx_runtime_config c) (sx_buffer c)
    (sx_detector_runtime c) (sx_video_nal_length_size c) r (sx_snapshotter c)
    (sx_last_snapshot_trigger_mono_ms c) (sx_puller c) (sx_publisher c) (sx_publish_thread c) (sx_stop_flag c)
    (sx_pull c) (sx_mux c) w (sx_snaps c).
Definition sx_with_snapshotter (s : Snapshotter) (w : SnapWorld) (last_ms : Z) (c : StreamContext) : StreamContext :=
  mkStreamContext (sx_stream_id c) (sx_transport_config c) (sx_runtime_config c) (sx_buffer c)
    (sx_detector_runtime c) (sx_video_nal_length_size c) (sx_recorder c) s
    last_ms (sx_puller c) (sx_publisher c) (sx_publish_thread c) (sx_stop_flag c)
    (sx_pull c) (sx_mux c) (sx_rec c) w.
Definition sx_with_publisher (nal : Z) (p : RtspPublisher) (w : MuxWorld) (c : StreamContext) : StreamContext :=
  mkStreamContext (sx_stream_id c) (sx_transport_config c) (sx_runtime_config c) (sx_buffer c)
    (sx_detector_runtime c) nal (sx_recorder c) (sx_snapshotter c)
    (sx_last_snapshot_trigger_mono_ms c) (sx_puller c) p (sx_publish_thread c) (sx_stop_flag c)
    (sx_pull c) w (sx_rec c) (sx_snaps c).

(** A call on a buffer, on a context or on the scheduler. *)
Definition on_buffer (b : buffer_ptr) (f : StreamBuffer -> StreamBuffer) (p : Pipeline) : Pipeline :=
  pp_with_buffers (alter f b (pl_buffers p)) p.
Definition on_context (ptr : ctx_ptr) (f : StreamContext -> StreamContext) (p : Pipeline) : Pipeline :=
  pp_with_contexts (alter f ptr (pl_contexts p)) p.
Definition on_scheduler (f : RoundRobinInferScheduler -> RoundRobinInferScheduler) (p : Pipeline) : Pipeline :=
  pp_with_scheduler (f (pl_scheduler p)) p.

(** ** Alarms of one result *)

(** [grouped_alarm_objects]. *)
Definition group_step (m : list (Z * list DetectionObject)) (target : DetectionObject) : list (Z * list DetectionObject) :=
  std_insert (do_class_id target) (default [] (std_find (do_class_id target) m) ++ [target]) m.
Definition group_alarms (targets : list DetectionObject) : list (Z * list DetectionObject) := foldl group_step [] targets.

Definition alarm_messages (alarm : nat -> string * Z) (stream_id : string) (cfg : AlgorithmConfig)
    (targets : list DetectionObject) (snapshot_name record_name : string) : list AlarmInfo :=
  imap (fun i g => buildAlarmInfo (alarm i).1 (alarm i).2 stream_id cfg g.2 snapshot_name record_name)
    (group_alarms targets).

Section Infer.
(** FFmpeg, the file system, the native tracker, the inference engine and protobuf. *)
Context `{MessageDifferencer} `{EnvelopeCodec} (api : TrackerApi) (edge : EdgeInferApi)
        (av_rescale_q : Z -> AVRational -> AVRational -> Z)
        (av_packet_rescale_ts : AVPacket -> AVRational -> AVRational -> AVPacket)
        (rec_write_ok : nat -> bool) (clone_ok : AVPacket -> bool) (rename_ok : string -> string -> bool).

Fixpoint push_alarms (alarms : list AlarmInfo) (c : IpcClient) : option IpcClient :=
  match alarms with
  | [] => Some c
  | alarm :: alarms =>
      '(_, c) ← pushAlarm alarm c;
      push_alarms alarms c
  end.

(** ** Recording and snapshot *)

(** [None]: an exception. *)
Definition triggerAlarmRecording (an : infer_answers) (now_ms : Z) (c : StreamContext) : option (string * StreamContext) :=
  if str_empty (sc_alarm_record_dir (sx_transport_config c)) then Some (""%string, c)
  else
    let duration_s := sc_alarm_record_duration_s (sx_transport_config c) in
    if duration_s <=? 0 then Some (""%string, c)
    else
      '(ok, r, w) ← requestRecording av_rescale_q av_packet_rescale_ts rec_write_ok clone_ok rename_ok (ia_record an)
                      duration_s now_ms (sx_recorder c) (sx_rec c);
      Some ((if ok : bool then rc_record_file_name r else ""%string), sx_with_recorder r w c).

(** Another trigger lies less than the minimal interval back. *)
Definition snapshot_throttled (now_mono_ms : Z) (c : StreamContext) : bool :=
  (0 <? sx_last_snapshot_trigger_mono_ms c) &&
  (now_mono_ms - sx_last_snapshot_trigger_mono_ms c <? kAlarmSnapshotMinIntervalMs).

(** The part under [snapshot_mutex], which reads the trigger time again. *)
Definition snapshot_locked (an : infer_answers) (now_mono_ms : Z) (frame : FrameBundle)
    (objects : list DetectionObject) (c : StreamContext) : option (string * StreamContext) :=
  if snapshot_throttled now_mono_ms c then Some (sn_snapshot_file_name (sx_snapshotter c), c)
  else
    '(ok, s, w) ← saveJpeg (ia_snap an) frame objects (sx_snapshotter c) (sx_snaps c);
    if ok : bool
    then Some (sn_snapshot_file_name s, sx_with_snapshotter s w now_mono_ms c)
    else Some (""%string, sx_with_snapshotter s w (sx_last_snapshot_trigger_mono_ms c) c).

Definition triggerAlarmSnapshot (an : infer_answers) (now_mono_ms : Z) (frame : FrameBundle)
    (objects : list DetectionObject) (c : StreamContext) : option (string * StreamContext) :=
  if str_empty (sc_alarm_snapshot_dir (sx_transport_config c)) || negb (has_image frame) || bool_decide (objects = [])
  then Some (""%string, c)
  else if snapshot_throttled now_mono_ms c then Some (sn_snapshot_file_name (sx_snapshotter c), c)
  else snapshot_locked an now_mono_ms frame objects (ia_contended an c).

(** Both, for a result with alarms, on the stream's context. *)
Definition alarm_media (an : infer_answers) (frame : FrameBundle) (objects : list DetectionObject) (ptr : ctx_ptr)
    (p : Pipeline) : option (string * string * Pipeline) :=
  match pl_contexts p !! ptr, objects with
  | None, _ | _, [] => Some (""%string, ""%string, p)
  | Some c, _ =>
      '(record_name, c) ← triggerAlarmRecording an (ia_mono_ms an) c;
      '(snapshot_name, c) ← triggerAlarmSnapshot an (ia_mono_ms an) frame objects c;
      Some (record_name, snapshot_name, on_context ptr (fun _ => c) p)
  end.

(** ** One task *)

(** [findStream] and the checks on what it finds. *)
Definition live_stream (stream_id : string) (p : Pipeline) : option (ctx_ptr * StreamContext) :=
  ptr ← findStream stream_id p;
  c ← pl_contexts p !! ptr;
  if sx_stop_flag c then None else Some (ptr, c).

(** The frame goes back to the buffer as [Dropped] and the task is cancelled. *)
Definition drop_task (b : buffer_ptr) (stream_id : string) (frame_id : Z) (p : Pipeline) : Pipeline :=
  on_scheduler (cancelTask stream_id frame_id) (on_buffer b (clearInferenceSelection frame_id Dropped) p).

(** Filing a result. *)
Definition file_result (b : buffer_ptr) (stream_id : string) (r : FrameInferenceResult) (p : Pipeline) : Pipeline :=
  let p := on_buffer b (markInferenceDone r) p in
  let p := on_buffer b (updateCachedInferenceResult r) p in
  let p := pp_with_statistics (incInferFrame stream_id 1 (pl_statistics p)) p in
  pp_with_statistics
    (setRemainFrameSize stream_id (match pl_buffers p !! b with Some b => frameCount b | None => 0 end) (pl_statistics p)) p.

(** The frame a task points at. *)
Definition task_frame (task : InferTask frame_ptr) (p : Pipeline) : option FrameBundle :=
  b ← it_buffer task; f ← it_frame task; b ← pl_buffers p !! b; sb_store b !! f.

(** The body of [inferLoop] on the task it acquired; [None]: an exception or undefined
    behaviour. *)
Definition infer_task (an : infer_answers) (task : InferTask frame_ptr) (w : InferWorld) : option InferWorld :=
  let stream_id := it_stream_id task in
  match it_buffer task, task_frame task (iw_pipe w) with
  | Some b, Some frame =>
      let frame_id := fb_frame_id frame in
      let p := on_buffer b (markInferenceRunning frame_id) (iw_pipe w) in
      let p := ia_meanwhile an p in
      match (if has_image frame then live_stream stream_id p else None) with
      | None => Some (mkInferWorld (drop_task b stream_id frame_id p) (iw_ipc w) (iw_tracker w))
      | Some (ptr, c) =>
          let e := sx_detector_runtime c in
          match de_detector e with
          | None => Some (mkInferWorld (drop_task b stream_id frame_id p) (iw_ipc w) (iw_tracker w))
          | Some d =>
              let '(r, d, tracker) := detect api edge (ia_clock an) frame (de_config e) d (iw_tracker w) in
              let p := ia_during an (on_context ptr (sx_with_detector (Some d)) p) in
              let alarm_config := selectAlarmConfig (de_config e) (fr_algorithm_id r) in
              let p := file_result b stream_id r p in
              '(record_name, snapshot_name, p) ← alarm_media an frame (fr_alarm_objects r) ptr p;
              ipc ← match iw_ipc w with
                    | None => Some None
                    | Some c =>
                        c ← push_alarms (alarm_messages (ia_alarm an) (fb_stream_id frame) alarm_config
                                           (fr_alarm_objects r) snapshot_name record_name) c;
                        Some (Some c)
                    end;
              Some (mkInferWorld (on_scheduler (completeTask stream_id frame_id) p) ipc tracker)
          end
      end
  | _, _ => Some (mkInferWorld (on_scheduler (cancelTask stream_id (-1)) (iw_pipe w)) (iw_ipc w) (iw_tracker w))
  end.

(** One turn of [inferLoop]: acquire a task within 200 ms, with the other threads acting on
    the scheduler and the buffers while it waits, and process it. *)
Definition infer_turn (an : infer_answers)
    (env : list (RoundRobinInferScheduler * gmap buffer_ptr StreamBuffer ->
                 RoundRobinInferScheduler * gmap buffer_ptr StreamBuffer))
    (w : InferWorld) : option InferWorld :=
  let p := iw_pipe w in
  match acquireTask 200 env InferTask_default (pl_scheduler p) (pl_buffers p) with
  | (acquired, task, s, buffers) =>
      let w := mkInferWorld (pp_with_buffers buffers (pp_with_scheduler s p)) (iw_ipc w) (iw_tracker w) in
      match acquired with
      | Some true => infer_task an task w
      | _ => Some w
      end
  end.

(** ** The stream-ready callback and the heartbeat *)

Definition configureStreamRecorder (specs : list RtspStreamSpec) (c : StreamContext) : StreamContext :=
  if str_empty (sc_alarm_record_dir (sx_transport_config c)) then c
  else
    let '(_, r, w) := rc_configure rename_ok (sx_stream_id c) (sc_alarm_record_dir (sx_transport_config c)) specs
                        (sx_recorder c) (sx_rec c) in
    sx_with_recorder r w c.

(** Called by the puller's thread when a connection's tracks are known. *)
Definition stream_ready (an : mux_answers) (specs : list RtspStreamSpec) (ptr : ctx_ptr) (p : Pipeline) : Pipeline :=
  match pl_contexts p !! ptr with
  | None => p
  | Some c =>
      let nal := videoNalLengthSizeFromSpecs specs in
      if str_empty (sc_new_rtsp_url (sx_transport_config c))
      then on_context ptr (fun _ => configureStreamRecorder specs (sx_with_publisher nal (sx_publisher c) (sx_mux c) c)) p
      else
        let '(ok, publisher, mux) := rp_configure an (sx_stream_id c) (sc_new_rtsp_url (sx_transport_config c)) specs
                                       (sx_publisher c) (sx_mux c) in
        let c := sx_with_publisher nal publisher mux c in
        if ok then on_context ptr (fun _ => configureStreamRecorder specs c) p
        else requestAsyncStopStream ptr (on_context ptr (fun _ => c) p)
  end.

(** One turn of [heartbeatLoop]; [None]: the queue's undefined behaviour. *)
Definition heartbeat_turn (system_now_ms : Z) (p : Pipeline) (ipc : option IpcClient) : option (option IpcClient) :=
  let active_streams := Z.of_nat (length (pl_streams p)) in
  match ipc with
  | None => Some None
  | Some c =>
      '(_, c) ← pushHeartbeat (buildHeartbeat (skc_agent_id (app_socket (pl_app p))) active_streams
                                 (Z.quot system_now_ms 1000)) c;
      Some (Some c)
  end.
End Infer.

(** ** Grouping *)

Section Groups.
Implicit Types (o : DetectionObject) (targets : list DetectionObject).

(** The objects of one class. *)
Definition of_class (class_id : Z) (targets : list DetectionObject) : list DetectionObject :=
  base.filter (fun o => do_class_id o = class_id) targets.

Lemma of_class_snoc z targets o :
  of_class z (targets ++ [o]) = of_class z targets ++ (if bool_decide (do_class_id o = z) then [o] else []).
Proof. unfold of_class. rewrite filter_app, filter_cons, filter_nil. case_bool_decide; by case_decide. Qed.

(** The map holds, under each class met, the objects of that class in order. *)
Lemma group_alarms_find targets :
  std_wf (group_alarms targets) /\
  forall z, std_find z (group_alarms targets) =
    match of_class z targets with [] => None | group => Some group end.
Proof.
  induction targets as [|o targets IH] using rev_ind; [by split; [constructor|]|].
  unfold group_alarms in *. rewrite foldl_snoc. cbn [group_step] in *.
  set (m := foldl group_step [] targets) in *. destruct IH as [Hwf Hf].
  split; [by apply std_insert_wf|]. intros z. rewrite of_class_snoc. unfold group_step.
  case_bool_decide as Hz.
  - subst z. rewrite std_find_insert_eq, Hf.
    destruct (of_class _ targets) as [|o1 l]; done.
  - rewrite std_find_insert_ne by done. rewrite Hf, app_nil_r. done.
Qed.

(** One group per class, classes ascending, each holding exactly its objects. *)
Lemma group_alarms_spec targets :
  std_wf (group_alarms targets) /\
  (forall z, z ∈ (group_alarms targets).*1 <-> exists o, o ∈ targets /\ do_class_id o = z) /\
  (group_alarms targets).*2 = (fun z => of_class z targets) <$> (group_alarms targets).*1.
Proof.
  destruct (group_alarms_find targets) as [Hwf Hf].
  assert (Hin : forall z g, (z, g) ∈ group_alarms targets -> g = of_class z targets /\ g <> []).
  { intros z g Hg. apply std_find_Some in Hg; [|done]. rewrite Hf in Hg.
    destruct (of_class z targets); by simplify_eq. }
  split; [done|]. split.
  - intros z. rewrite list_elem_of_fmap. split.
    + intros ([z' g] & -> & Hg). destruct (Hin _ _ Hg) as [-> Hne]. cbn.
      destruct (of_class z' targets) as [|o l] eqn:E; [done|].
      assert (o ∈ of_class z' targets) as Ho by (rewrite E; by left).
      apply list_elem_of_filter in Ho as [? ?]. by exists o.
    + intros (o & Ho & Hz). exists (z, of_class z targets). split; [done|].
      apply std_find_Some; [done|]. rewrite Hf.
      assert (o ∈ of_class z targets) as Hoc by by apply list_elem_of_filter.
      destruct (of_class z targets); [by apply elem_of_nil in Hoc|done].
  - rewrite <- list_fmap_compose. apply list_fmap_ext. intros i [z g] Hi.
    apply list_elem_of_lookup_2 in Hi. by destruct (Hin _ _ Hi) as [-> _].
Qed.
End Groups.

(** ** Sending the alarms of a result *)

Section SendAlarms.
Context `{EnvelopeCodec}.

(** The payloads of the alarms, under consecutive sequence numbers. *)
Definition alarm_payloads (seq : Z) (alarms : list AlarmInfo) : list bytes :=
  imap (fun i alarm => buildEnvelopePayload (BodyAlarm alarm) (u32 (seq + Z.of_nat i))) alarms.

Lemma alarm_payloads_cons seq alarm alarms :
  in_unsigned 32 seq ->
  alarm_payloads seq (alarm :: alarms) =
    buildEnvelopePayload (BodyAlarm alarm) seq :: alarm_payloads (u32 (seq + 1)) alarms.
Proof.
  intros Hs. unfold alarm_payloads. rewrite imap_cons, Z.add_0_r, wrap_small by done. f_equal.
  apply imap_ext. intros i a _. cbn. rewrite wrap_add_l. do 2 f_equal. lia.
Qed.

Lemma push_alarms_spec alarms : forall c s,
  ic_sender c = Some s -> tsq_inv (ss_queue s) -> in_unsigned 32 (ic_seq c) ->
  exists c' s', push_alarms alarms c = Some c' /\ ic_sender c' = Some s' /\ tsq_inv (ss_queue s') /\
    ic_seq c' = u32 (ic_seq c + Z.of_nat (length alarms)) /\
    tsq_items (ss_queue s') =
      if tsq_stopped (ss_queue s) then tsq_items (ss_queue s)
      else newest (tsq_max_size (ss_queue s)) (tsq_items (ss_queue s) ++ alarm_payloads (ic_seq c) alarms).
Proof.
  induction alarms as [|alarm alarms IH]; intros c s Hs Hq Hseq; cbn [push_alarms].
  - exists c, s. split_and!; try done; [by rewrite Z.add_0_r, wrap_small|].
    rewrite app_nil_r, newest_all by apply Hq. by destruct (tsq_stopped _).
  - destruct (ic_send_spec (BodyAlarm alarm) c) as (s0 & q & Hs0 & Hq1 & Hsend & Hst & Hmax & Hitems); [by exists s|].
    simplify_eq. unfold pushAlarm. rewrite Hsend. cbn [mbind option_bind].
    match type of Hsend with _ = Some (_, ?c1) =>
      destruct (IH c1 _ eq_refl) as (c' & s' & Hp & Hs' & Hq' & Hseq' & Hi'); [exact Hq1|by apply wrap_range|]
    end.
    exists c', s'. cbn [ic_seq ss_queue] in *. split_and!; try done.
    { rewrite Hseq', wrap_add_l. f_equal. cbn [length]. lia. }
    rewrite Hi', Hst, Hmax. destruct (tsq_stopped (ss_queue s)); [by subst|].
    rewrite Hitems, tsq_push_newest, newest_app, alarm_payloads_cons by done. by rewrite <- app_assoc.
Qed.

(** C26: A result's alarm objects are sent as one message per object class: classes in
    ascending order, each message carrying exactly the objects of its class in the
    result's order, every object in one of them, all under the stream's id and the same
    recording and snapshot names; a running queue then holds the newest of what it held
    followed by these messages under consecutive sequence numbers, a stopped one is
    unchanged. *)
Theorem alarms_by_class (alarm : nat -> string * Z) (stream_id : string) (cfg : AlgorithmConfig)
    (targets : list DetectionObject) (snapshot_name record_name : string) (c : IpcClient) (s : SocketSender)
    (Hs : ic_sender c = Some s) (Hq : tsq_inv (ss_queue s)) (Hseq : in_unsigned 32 (ic_seq c)) :
  let alarms := alarm_messages alarm stream_id cfg targets snapshot_name record_name in
  exists classes c' s',
    StronglySorted Z.lt classes /\ (forall z, z ∈ classes <-> exists o, o ∈ targets /\ do_class_id o = z) /\
    ai_target <$> alarms = (fun z => of_class z targets) <$> classes /\
    Forall (fun a => ai_stream_id a = stream_id /\ ai_snapshot_name a = snapshot_name /\
                     ai_record_name a = record_name) alarms /\
    push_alarms alarms c = Some c' /\ ic_sender c' = Some s' /\
    ic_seq c' = u32 (ic_seq c + Z.of_nat (length classes)) /\
    tsq_items (ss_queue s') =
      if tsq_stopped (ss_queue s) then tsq_items (ss_queue s)
      else newest (tsq_max_size (ss_queue s)) (tsq_items (ss_queue s) ++ alarm_payloads (ic_seq c) alarms).
Proof.
  intros alarms. destruct (group_alarms_spec targets) as (Hwf & Hin & Hgroups).
  destruct (push_alarms_spec alarms c s Hs Hq Hseq) as (c' & s' & Hp & Hs' & _ & Hseq' & Hitems).
  exists (group_alarms targets).*1, c', s'. split_and!; try done.
  - rewrite <- Hgroups. apply list_eq. intros i. unfold alarms, alarm_messages.
    rewrite !list_lookup_fmap, list_lookup_imap. by destruct (group_alarms targets !! i).
  - apply Forall_lookup. intros i a Hi. unfold alarms, alarm_messages in Hi.
    rewrite list_lookup_imap in Hi. destruct (group_alarms targets !! i); by simplify_eq/=.
  - rewrite Hseq'. unfold alarms, alarm_messages. by rewrite length_imap, length_fmap.
Qed.
End SendAlarms.

(** ** Giving tasks back *)

(** The stream's task is handed back: its entry is no longer in flight, nothing else changes. *)
Definition given_back (stream_id : string) (s : RoundRobinInferScheduler) : RoundRobinInferScheduler :=
  mkScheduler (alter (set_inflight false) stream_id (rr_entries s)) (rr_order s) (rr_cursor s) (rr_stopped s).

Lemma cancelTask_given_back id frame_id s : cancelTask id frame_id s = given_back id s.
Proof.
  unfold cancelTask, given_back. destruct (rr_entries s !! id) as [e|] eqn:E.
  - f_equal. apply map_eq. intros i. destruct (decide (i = id)) as [->|Hne].
    + by rewrite lookup_insert_eq, lookup_alter_eq, E.
    + by rewrite lookup_insert_ne, lookup_alter_ne.
  - rewrite alter_id by (intros; congruence). by destruct s.
Qed.

Lemma completeTask_given_back id frame_id s : completeTask id frame_id s = given_back id s.
Proof. exact (cancelTask_given_back id frame_id s). Qed.

Lemma given_back_free id s e : rr_entries (given_back id s) !! id = Some e -> en_inflight e = false.
Proof. cbn. rewrite lookup_alter_eq. intros (e' & _ & ->)%fmap_Some. done. Qed.

Section Tasks.
Context `{MessageDifferencer} `{EnvelopeCodec} (api : TrackerApi) (edge : EdgeInferApi)
        (av_rescale_q : Z -> AVRational -> AVRational -> Z)
        (av_packet_rescale_ts : AVPacket -> AVRational -> AVRational -> AVPacket)
        (rec_write_ok : nat -> bool) (clone_ok : AVPacket -> bool) (rename_ok : string -> string -> bool).

Abbreviation infer_task := (infer_task api edge av_rescale_q av_packet_rescale_ts rec_write_ok clone_ok rename_ok).
Abbreviation infer_turn := (infer_turn api edge av_rescale_q av_packet_rescale_ts rec_write_ok clone_ok rename_ok).
Abbreviation alarm_media := (alarm_media av_rescale_q av_packet_rescale_ts rec_write_ok clone_ok rename_ok).

(** Recordings and snapshots touch the stream's context only. *)
Lemma alarm_media_contexts an frame objects ptr p record_name snapshot_name p' :
  alarm_media an frame objects ptr p = Some (record_name, snapshot_name, p') ->
  exists f, p' = on_context ptr f p \/ p' = p.
Proof.
  unfold Infer.alarm_media. destruct (pl_contexts p !! ptr) as [c|]; [|intros; simplify_eq; exists id; by right].
  destruct objects; [intros; simplify_eq; exists id; by right|].
  destruct (triggerAlarmRecording _ _ _ _ _ _ _ _) as [[rn c1]|]; [|done]. cbn [mbind option_bind].
  destruct (triggerAlarmSnapshot _ _ _ _ _) as [[sn c2]|]; [|done]. cbn [mbind option_bind].
  intros; simplify_eq. exists (fun _ => c2). by left.
Qed.

Lemma alarm_media_scheduler an frame objects ptr p record_name snapshot_name p' :
  alarm_media an frame objects ptr p = Some (record_name, snapshot_name, p') ->
  pl_scheduler p' = pl_scheduler p /\ pl_buffers p' = pl_buffers p.
Proof. intros (f & [-> | ->])%alarm_media_contexts; done. Qed.

(** What ran by the time a task is handed back: the scheduler is the one the other
    threads left, but for this stream's mark. *)
Inductive task_scheduler (an : infer_answers) (p : Pipeline) : RoundRobinInferScheduler -> Prop :=
| ts_refused : task_scheduler an p (pl_scheduler p)
| ts_dropped q : pl_scheduler q = pl_scheduler p -> task_scheduler an p (pl_scheduler (ia_meanwhile an q))
| ts_detected q q' : pl_scheduler q = pl_scheduler p ->
    pl_scheduler q' = pl_scheduler (ia_meanwhile an q) ->
    task_scheduler an p (pl_scheduler (ia_during an q')).

Lemma infer_task_scheduler an task w w' :
  infer_task an task w = Some w' ->
  exists s, task_scheduler an (iw_pipe w) s /\ pl_scheduler (iw_pipe w') = given_back (it_stream_id task) s.
Proof.
  unfold Infer.infer_task.
  assert (Hno : forall b id (p : Pipeline) ipc tr, pl_scheduler p = pl_scheduler p ->
            pl_scheduler (iw_pipe (mkInferWorld (drop_task b (it_stream_id task) id p) ipc tr)) =
            given_back (it_stream_id task) (pl_scheduler p)) by (intros; apply cancelTask_given_back).
  destruct (it_buffer task) as [b|];
    [|intros; simplify_eq; eexists; split; [apply ts_refused|apply cancelTask_given_back]].
  destruct (task_frame task (iw_pipe w)) as [frame|];
    [|intros; simplify_eq; eexists; split; [apply ts_refused|apply cancelTask_given_back]].
  set (p1 := on_buffer b (markInferenceRunning (fb_frame_id frame)) (iw_pipe w)).
  assert (Hp1 : pl_scheduler p1 = pl_scheduler (iw_pipe w)) by done. clearbody p1.
  destruct (if has_image frame then _ else _) as [[ptr c]|];
    [|intros; simplify_eq; eexists; split; [by apply (ts_dropped an _ p1)|by apply Hno]].
  destruct (de_detector (sx_detector_runtime c)) as [d|];
    [|intros; simplify_eq; eexists; split; [by apply (ts_dropped an _ p1)|by apply Hno]].
  destruct (detect _ _ _ _ _ _ _) as [[r d'] tracker].
  set (p2 := on_context ptr _ (ia_meanwhile an p1)).
  assert (Hp2 : pl_scheduler p2 = pl_scheduler (ia_meanwhile an p1)) by done. clearbody p2.
  set (p3 := file_result b (it_stream_id task) r (ia_during an p2)).
  assert (Hp3 : pl_scheduler p3 = pl_scheduler (ia_during an p2)) by done. clearbody p3.
  destruct (Infer.alarm_media _ _ _ _ _ _ _ _ _ _) as [[[rn sn] p4]|] eqn:Hm; [|done].
  apply alarm_media_scheduler in Hm as [Hp4 _]. cbn [mbind option_bind].
  destruct (iw_ipc w) as [ic|]; cbn [mbind option_bind].
  - destruct (push_alarms _ ic) as [ic'|]; [|done]. cbn [mbind option_bind]. intros; simplify_eq.
    exists (pl_scheduler (ia_during an p2)). split; [by apply (ts_detected an _ p1)|].
    cbn [iw_pipe]. unfold on_scheduler. cbn [pl_scheduler]. by rewrite completeTask_given_back, Hp4, Hp3.
  - intros; simplify_eq.
    exists (pl_scheduler (ia_during an p2)). split; [by apply (ts_detected an _ p1)|].
    cbn [iw_pipe]. unfold on_scheduler. cbn [pl_scheduler]. by rewrite completeTask_given_back, Hp4, Hp3.
Qed.

(** The other threads leave the scheduler alone. *)
Definition scheduler_quiet (an : infer_answers) : Prop :=
  forall p, pl_scheduler (ia_meanwhile an p) = pl_scheduler p /\ pl_scheduler (ia_during an p) = pl_scheduler p.

(** C17: A task is always given back: whatever the other threads do to the pipeline while
    it runs and whichever way it ends - no frame, no image, an unknown or stopped stream,
    no detector, a failed or a successful detection - once it is over the stream's entry
    is not in flight; and when the others leave the scheduler alone, that mark is all
    that changed in it. *)
Theorem task_given_back (an : infer_answers) (task : InferTask frame_ptr) (w w' : InferWorld)
    (Hrun : infer_task an task w = Some w') :
  (forall e, rr_entries (pl_scheduler (iw_pipe w')) !! it_stream_id task = Some e -> en_inflight e = false) /\
  (scheduler_quiet an ->
   pl_scheduler (iw_pipe w') = given_back (it_stream_id task) (pl_scheduler (iw_pipe w))).
Proof.
  destruct (infer_task_scheduler _ _ _ _ Hrun) as (s & Hs & ->). split; [intros e; apply given_back_free|].
  intros Hq. f_equal. destruct Hs as [|q E|q q' E E']; [done|..].
  - by rewrite (proj1 (Hq q)).
  - by rewrite (proj2 (Hq q')), E', (proj1 (Hq q)).
Qed.
End Tasks.

(** ** How often snapshots are taken *)

(** A stream's snapshots in the order in which they hold [snapshot_mutex]: for each its
    time, whether it stored a new trigger time, and the files it wrote. *)
Definition snapshot_request : Type := infer_answers * Z * FrameBundle * list DetectionObject.
Definition snapshot_entry : Type := Z * bool * SnapWorld.

Fixpoint snapshot_run (reqs : list snapshot_request) (c : StreamContext)
  : option (list snapshot_entry * StreamContext) :=
  match reqs with
  | [] => Some ([], c)
  | (an, now, frame, objects) :: reqs =>
      '(_, c1) ← snapshot_locked an now frame objects c;
      '(log, c2) ← snapshot_run reqs c1;
      Some ((now, bool_decide (sx_last_snapshot_trigger_mono_ms c1 <> sx_last_snapshot_trigger_mono_ms c),
             drop (length (sx_snaps c)) (sx_snaps c1)) :: log, c2)
  end.

(** The file a snapshot leaves when it succeeds, and what it can leave when it fails. *)
Definition visible_file (files : SnapWorld) : Prop :=
  exists dir text id ms content, files = [(path_join dir (buildSnapshotFileName text id ms), content)].
Definition hidden_file (files : SnapWorld) : Prop :=
  files = [] \/ exists dir name content, files = [(path_join dir (makeHiddenSnapshotName name), content)].

Definition snapshot_time (e : snapshot_entry) : Z := e.1.1.
Definition saved (log : list snapshot_entry) : list snapshot_entry := base.filter (fun e => e.1.2 = true) log.

Lemma snapshot_locked_cases an now frame objects c name c1 :
  snapshot_locked an now frame objects c = Some (name, c1) ->
  exists files, sx_snaps c1 = sx_snaps c ++ files /\
    ((snapshot_throttled now c = false /\ sx_last_snapshot_trigger_mono_ms c1 = now /\ visible_file files) \/
     (sx_last_snapshot_trigger_mono_ms c1 = sx_last_snapshot_trigger_mono_ms c /\ hidden_file files)).
Proof.
  unfold snapshot_locked. destruct (snapshot_throttled now c).
  { intros; simplify_eq. exists []. rewrite app_nil_r. split; [done|]. right. split; [done|by left]. }
  pose proof (saveJpeg_cases (ia_snap an) frame objects (sx_snapshotter c) (sx_snaps c)) as Hs. cbv zeta in Hs.
  destruct (saveJpeg _ _ _ _ _) as [[[[] s] w]|]; [..|done]; cbn [mbind option_bind]; intros; simplify_eq.
  - destruct Hs as (_ & drawn & jpeg & _ & ->). eexists. split; [done|]. left.
    split_and!; try done. by eexists _, _, _, _, _.
  - destruct Hs as [_ [-> | (content & ->)]].
    + exists []. rewrite app_nil_r. split; [done|]. right. split; [done|by left].
    + eexists. split; [done|]. right. split; [done|]. right. by eexists _, _, _.
Qed.

(** A stored time lies the minimal interval after the one it replaces. *)
Lemma snapshot_unthrottled now c :
  snapshot_throttled now c = false ->
  sx_last_snapshot_trigger_mono_ms c <= 0 \/
  sx_last_snapshot_trigger_mono_ms c + kAlarmSnapshotMinIntervalMs <= now.
Proof. unfold snapshot_throttled. intros [?|?]%andb_false_iff; bool_crush; [by left|right; lia]. Qed.

Lemma snapshot_run_saved reqs : forall c log c',
  Forall (fun r : snapshot_request => 0 < r.1.1.2) reqs -> snapshot_run reqs c = Some (log, c') ->
  sx_snaps c' = sx_snaps c ++ concat log.*2 /\
  Forall (fun e : snapshot_entry => if e.1.2 then visible_file e.2 else hidden_file e.2) log /\
  StronglySorted (fun a b => a + kAlarmSnapshotMinIntervalMs <= b) (snapshot_time <$> saved log) /\
  Forall (fun t => sx_last_snapshot_trigger_mono_ms c <= 0 \/
                   sx_last_snapshot_trigger_mono_ms c + kAlarmSnapshotMinIntervalMs <= t) (snapshot_time <$> saved log).
Proof.
  induction reqs as [|[[[an now] frame] objects] reqs IH]; intros c log c' Hpos Hrun; cbn in Hrun.
  { simplify_eq. rewrite app_nil_r. split_and!; try done; constructor. }
  apply Forall_cons in Hpos as [Hnow Hpos]. cbn in Hnow.
  destruct (snapshot_locked an now frame objects c) as [[name c1]|] eqn:Hl; [|done]. cbn in Hrun.
  destruct (snapshot_run reqs c1) as [[log1 c2]|] eqn:Hr; [|done]. cbn in Hrun. simplify_eq.
  destruct (IH _ _ _ Hpos Hr) as (Hfiles & Hall & Hsort & Hbound).
  destruct (snapshot_locked_cases _ _ _ _ _ _ _ Hl) as (files & Hf & Hcase).
  rewrite Hf, drop_app_length. split; [by rewrite Hfiles, Hf, <- app_assoc|].
  unfold saved. rewrite filter_cons. cbn.
  destruct Hcase as [(Hth & Hlast & Hvis)|[Hlast Hhid]]; rewrite Hlast in *.
  - apply snapshot_unthrottled in Hth. rewrite bool_decide_true by (unfold kAlarmSnapshotMinIntervalMs in *; lia).
    rewrite decide_True by done. rewrite fmap_cons. change (snapshot_time (now, true, files)) with now.
    assert (Hafter : Forall (fun t => now + kAlarmSnapshotMinIntervalMs <= t) (snapshot_time <$> saved log1)).
    { eapply Forall_impl; [exact Hbound|]. cbn. intros t [?|?]; lia. }
    split_and!; constructor; try done. eapply Forall_impl; [exact Hafter|]. cbn.
    unfold kAlarmSnapshotMinIntervalMs in *. intros t ?. destruct Hth; lia.
  - rewrite bool_decide_false by by intros []. rewrite decide_False by done. split_and!; try done. by constructor.
Qed.

(** C28: Snapshots of one stream are rate limited: under a positive clock, the times at
    which the trigger time is stored lie at least 5000 ms apart, in the order in which the
    requests hold the lock and whatever fails in between; each of them wrote exactly one
    visible file, every other request at most one hidden file, and nothing else is written. *)
Theorem snapshot_rate_limited (reqs : list snapshot_request) (c c' : StreamContext) (log : list snapshot_entry)
    (Hpos : Forall (fun r : snapshot_request => 0 < r.1.1.2) reqs)
    (Hrun : snapshot_run reqs c = Some (log, c')) :
  StronglySorted (fun a b => a + kAlarmSnapshotMinIntervalMs <= b) (snapshot_time <$> saved log) /\
  Forall (fun e : snapshot_entry => if e.1.2 then visible_file e.2 else hidden_file e.2) log /\
  sx_snaps c' = sx_snaps c ++ concat log.*2.
Proof. by destruct (snapshot_run_saved _ _ _ _ Hpos Hrun) as (? & ? & ? & _). Qed.

(** ** A frame that is not detected *)

Section Undetected.
Context `{MessageDifferencer} `{EnvelopeCodec} (api : TrackerApi) (edge : EdgeInferApi)
        (av_rescale_q : Z -> AVRational -> AVRational -> Z)
        (av_packet_rescale_ts : AVPacket -> AVRational -> AVRational -> AVPacket)
        (rec_write_ok : nat -> bool) (clone_ok : AVPacket -> bool) (rename_ok : string -> string -> bool).

Abbreviation infer_task := (infer_task api edge av_rescale_q av_packet_rescale_ts rec_write_ok clone_ok rename_ok).

(** What a detector is run on: the task's frame, on a live stream that has one. *)
Record detects (an : infer_answers) (task : InferTask frame_ptr) (w : InferWorld) (b : buffer_ptr)
    (frame : FrameBundle) (ptr : ctx_ptr) (c : StreamContext) (d : AlgoDetector) : Prop := {
  dt_buffer : it_buffer task = Some b;
  dt_frame : task_frame task (iw_pipe w) = Some frame;
  dt_image : has_image frame = true;
  dt_live : live_stream (it_stream_id task)
              (ia_meanwhile an (on_buffer b (markInferenceRunning (fb_frame_id frame)) (iw_pipe w))) = Some (ptr, c);
  dt_detector : de_detector (sx_detector_runtime c) = Some d;
}.

(** The pipeline the others leave while the detector runs. *)
Definition after_detect (an : infer_answers) (w : InferWorld) (b : buffer_ptr) (frame : FrameBundle) (ptr : ctx_ptr)
    (d' : AlgoDetector) : Pipeline :=
  ia_during an (on_context ptr (sx_with_detector (Some d'))
    (ia_meanwhile an (on_buffer b (markInferenceRunning (fb_frame_id frame)) (iw_pipe w)))).

Lemma infer_task_detected an task w b frame ptr c d w' :
  detects an task w b frame ptr c d -> infer_task an task w = Some w' ->
  let '(r, d', tracker) :=
    detect api edge (ia_clock an) frame (de_config (sx_detector_runtime c)) d (iw_tracker w) in
  pl_buffers (iw_pipe w') =
    alter (fun x => updateCachedInferenceResult r (markInferenceDone r x)) b
      (pl_buffers (after_detect an w b frame ptr d')).
Proof.
  intros [Hb Hf Hi Hl Hd]. unfold Infer.infer_task, after_detect. rewrite Hb, Hf, Hi, Hl, Hd.
  destruct (detect _ _ _ _ _ _ _) as [[r d'] tracker].
  set (p2 := ia_during an _). clearbody p2.
  set (p3 := file_result b (it_stream_id task) r p2).
  assert (Hp3 : pl_buffers p3 =
            alter (fun x => updateCachedInferenceResult r (markInferenceDone r x)) b (pl_buffers p2)).
  { unfold p3, file_result, on_buffer. cbn. apply map_eq. intros i. destruct (decide (b = i)) as [->|Hne].
    - rewrite !lookup_alter_eq. by destruct (pl_buffers p2 !! i).
    - by rewrite !lookup_alter_ne. }
  clearbody p3.
  destruct (alarm_media _ _ _ _ _ _ _ _ _ _) as [[[rn sn] p4]|] eqn:Hm; [|done].
  apply alarm_media_scheduler in Hm as [_ Hp4]. cbn [mbind option_bind].
  destruct (iw_ipc w) as [ic|]; cbn [mbind option_bind]; [destruct (push_alarms _ ic); [|done]; cbn [mbind option_bind]|];
    intros; simplify_eq; cbn; by rewrite Hp4.
Qed.

(** The detector has nothing to say: no algorithm is within its dates, or the engine fails. *)
Definition detector_silent (ck : detect_clock) (cfg : StreamConfig) : Prop :=
  List.filter (isAlgorithmActiveNow (ck_system ck)) (sc_algorithms cfg) = [] \/
  forall input threshold, edge_infer edge input threshold = None.

Lemma detect_silent ck frame cfg d w :
  detector_silent ck cfg -> fr_frame_id (detect api edge ck frame cfg d w).1.1 = -1.
Proof.
  intros Hs. unfold detect, runPreprocessSteps. rewrite active_algorithm_run_spec.
  destruct (ad_inited d), (ad_infer d); try done. destruct (fb_decoded_image frame) as [image|]; [|done].
  destruct (img_fd image <? 0); [done|]. destruct Hs as [-> | Hs]; [done|].
  destruct (List.filter _ _); [done|]. cbn. by rewrite Hs.
Qed.

(** C27: A detection that has nothing to report - no algorithm is within its dates, or the
    engine fails - is taken for a success although its result names no frame: the task is
    given back but its frame is left [Running], stays the frame under inference, and no
    packet at or behind it can be published. *)
Theorem undetected_frame_stays_running (an : infer_answers) (task : InferTask frame_ptr) (w w' : InferWorld)
    (b : buffer_ptr) (frame : FrameBundle) (ptr : ctx_ptr) (c : StreamContext) (d : AlgoDetector)
    (sb : StreamBuffer) (q : frame_ptr)
    (Hdet : detects an task w b frame ptr c d)
    (Hsilent : detector_silent (ia_clock an) (de_config (sx_detector_runtime c)))
    (Hquiet : forall p, ia_meanwhile an p = p /\ ia_during an p = p)
    (Hsb : pl_buffers (iw_pipe w) !! b = Some sb) (Hwf : sb_wf sb)
    (Hnone : findFrame (-1) sb = None) (Hat : sb_frame_at sb (fb_frame_id frame) = Some (q, frame))
    (Halone : forall i f, i <> fb_frame_id frame -> findFrame i sb = Some f -> has_image f = true ->
                isInferring (fb_infer_state f) = false)
    (Hrun : infer_task an task w = Some w') :
  (forall e, rr_entries (pl_scheduler (iw_pipe w')) !! it_stream_id task = Some e -> en_inflight e = false) /\
  exists sb', pl_buffers (iw_pipe w') !! b = Some sb' /\
    findFrame (fb_frame_id frame) sb' = Some (fb_set_infer_state Running frame) /\
    forall front rest, sb_packets sb' = Some front :: rest -> ep_media_type front = Video ->
      fb_frame_id frame <= ep_frame_id front -> waitForPublishable kMinVideoWatermark sb' = false.
Proof.
  split.
  { destruct (infer_task_scheduler _ _ _ _ _ _ _ _ _ _ _ Hrun) as (s & _ & ->). intros e. apply given_back_free. }
  pose proof (infer_task_detected _ _ _ _ _ _ _ _ _ Hdet Hrun) as Hbufs.
  pose proof (detect_silent (ia_clock an) frame _ d (iw_tracker w) Hsilent) as Hr.
  destruct (detect _ _ _ _ _ _ _) as [[r d'] tracker]. cbn in Hr.
  unfold after_detect in Hbufs. rewrite (proj1 (Hquiet _)), (proj2 (Hquiet _)) in Hbufs. cbn in Hbufs.
  set (id := fb_frame_id frame) in *. set (sb1 := markInferenceRunning id sb).
  assert (Hsb1 : sb_frame_at sb1 id = Some (q, fb_set_infer_state Running frame)).
  { unfold sb1, markInferenceRunning, clearInferenceSelection. rewrite Hat, sb_frame_at_set, Hat. cbn.
    by rewrite bool_decide_true. }
  assert (Hwf1 : sb_wf sb1) by by apply clearInferenceSelection_wf.
  assert (Hsame : forall i, sb_frame_at sb1 i =
            (fun '(p, f) => (p, if bool_decide (p = q) then fb_set_infer_state Running f else f)) <$> sb_frame_at sb i).
  { intros i. unfold sb1, markInferenceRunning, clearInferenceSelection. by rewrite Hat, sb_frame_at_set. }
  assert (Hskip : updateCachedInferenceResult r (markInferenceDone r sb1) = sb1).
  { unfold updateCachedInferenceResult, markInferenceDone, clearInferenceSelection. rewrite Hr, Hsame. cbn.
    unfold findFrame in Hnone. by destruct (sb_frame_at sb (-1)). }
  exists sb1. split; [|split].
  - rewrite Hbufs, lookup_alter_eq, lookup_alter_eq, Hsb. cbn. f_equal. exact Hskip.
  - apply findFrame_Some. by exists q.
  - intros front rest Hfront Hv Hle. apply not_true_iff_false. intros Hw.
    apply (waitForPublishable_video kMinVideoWatermark sb1 front rest Hwf1 eq_refl Hfront Hv) in Hw as [_ Hw].
    destruct (inferringFrameIdLocked sb1) as [i|] eqn:Hi.
    + pose proof (pv_before _ _ _ Hw i Hi). apply first_inferring_Some in Hi as (_ & _ & f & _ & Hf & Himg & Hst & _).
      destruct (decide (i = id)) as [->|Hne]; [lia|].
      apply findFrame_Some in Hf as (p & Hf). rewrite Hsame in Hf.
      destruct (sb_frame_at sb i) as [[p' f']|] eqn:E; [|done]. cbn in Hf. injection Hf as _ Hf.
      case_bool_decide as Hpq; [by subst; pose proof (sb_frame_at_inj _ _ _ _ _ _ Hwf E Hat)|].
      subst f'. rewrite (Halone i f Hne) in Hst; [done|by apply findFrame_Some; exists p'|done].
    + apply (first_inferring_None sb1 (sb_frame_order sb1)) in Hi. rewrite Forall_forall in Hi.
      assert (id ∈ sb_frame_order sb1) as Hin.
      { apply (wf_order _ Hwf1). apply sb_frame_at_Some in Hsb1 as [Hq _]. by exists q. }
      specialize (Hi id Hin (fb_set_infer_state Running frame)).
      rewrite findFrame_Some in Hi. by specialize (Hi (ex_intro _ q Hsb1) (dt_image _ _ _ _ _ _ _ _ Hdet)).
Qed.
End Undetected.

(** ** A stream's output *)

Section Ready.
Context `{MessageDifferencer} (edge : EdgeInferApi) (rename_ok : string -> string -> bool).

(** The output of the stream is set up, or there is none to set up. *)
Definition output_ready (an : mux_answers) (specs : list RtspStreamSpec) (c : StreamContext) : bool :=
  str_empty (sc_new_rtsp_url (sx_transport_config c)) ||
  (rp_configure an (sx_stream_id c) (sc_new_rtsp_url (sx_transport_config c)) specs (sx_publisher c) (sx_mux c)).1.1.

(** What the callback stores before it looks at the outcome. *)
Lemma stream_ready_cases an specs ptr p c :
  pl_contexts p !! ptr = Some c ->
  exists publisher mux,
    let c1 := sx_with_publisher (videoNalLengthSizeFromSpecs specs) publisher mux c in
    stream_ready rename_ok an specs ptr p =
      if output_ready an specs c
      then on_context ptr (fun _ => configureStreamRecorder rename_ok specs c1) p
      else requestAsyncStopStream ptr (on_context ptr (fun _ => c1) p).
Proof.
  intros Hc. unfold stream_ready, output_ready. rewrite Hc.
  destruct (str_empty _); [by exists (sx_publisher c), (sx_mux c)|].
  destruct (rp_configure _ _ _ _ _ _) as [[ok publisher] mux]. exists publisher, mux. cbn. by destruct ok.
Qed.

Lemma configureStreamRecorder_keeps specs c :
  let c' := configureStreamRecorder rename_ok specs c in
  sx_stop_flag c' = sx_stop_flag c /\ sx_running c' = sx_running c /\
  sx_video_nal_length_size c' = sx_video_nal_length_size c /\ sx_stream_id c' = sx_stream_id c.
Proof.
  unfold configureStreamRecorder. destruct (str_empty _); [done|]. by destruct (rc_configure _ _ _ _ _ _) as [[? ?] ?].
Qed.

(** When a connection's tracks are known and the stream's output can be configured,
    or there is none, the stream stays registered and running and takes over the length
    of its NAL prefixes; when the output cannot be configured, the callback only asks for
    the stream to be stopped, and the next turn of the main loop stops all its threads: it
    is no longer registered, no request is left over, and the other streams are still
    there. *)
Theorem stream_ready_outcome (an : mux_answers) (specs : list RtspStreamSpec) (early late : ctx_ptr -> bool)
    (ptr : ctx_ptr) (p : Pipeline) (c : StreamContext)
    (Hwf : std_wf (pl_streams p)) (Hc : pl_contexts p !! ptr = Some c) (Hlive : sx_stop_flag c = false)
    (Hreg : std_find (sx_stream_id c) (pl_streams p) = Some ptr)
    (Hidle : pl_has_pending_config p = false /\ pl_pending_stop_streams p = []) :
  let p1 := stream_ready rename_ok an specs ptr p in
  let p2 := mainLoop_turn rename_ok edge early late p1 in
  if output_ready an specs c
  then pl_streams p1 = pl_streams p /\ pl_pending_stop_streams p1 = [] /\
       exists c1, pl_contexts p1 !! ptr = Some c1 /\ sx_stop_flag c1 = false /\ sx_running c1 = sx_running c /\
         sx_video_nal_length_size c1 = videoNalLengthSizeFromSpecs specs
  else pl_pending_stop_streams p2 = [] /\
       (forall id, std_find id (pl_streams p2) =
          if bool_decide (id = sx_stream_id c) then None else std_find id (pl_streams p)) /\
       exists c2, pl_contexts p2 !! ptr = Some c2 /\ sx_stop_flag c2 = true /\ sx_running c2 = false.
Proof.
  intros p1 p2. destruct Hidle as [Hconf Hpend].
  destruct (stream_ready_cases an specs ptr p c Hc) as (publisher & mux & E). cbv zeta in E.
  set (c1 := sx_with_publisher _ publisher mux c) in E. unfold p2, p1. rewrite E.
  destruct (output_ready an specs c).
  - split; [done|]. split; [done|]. destruct (configureStreamRecorder_keeps specs c1) as (E1 & E2 & E3 & _).
    eexists. split; [by unfold on_context; cbn; rewrite lookup_alter_eq, Hc|]. cbv beta. by rewrite E1, E2, E3.
  - set (q := on_context ptr (fun _ => c1) p).
    assert (Hq : pl_contexts q !! ptr = Some c1) by (unfold q; cbn; by rewrite lookup_alter_eq, Hc).
    destruct (requestAsyncStopStream_effect ptr q c1 Hq Hlive) as (R1 & R2 & R3).
    assert (R4 : pl_streams (requestAsyncStopStream ptr q) = std_erase (sx_stream_id c) (pl_streams p)).
    { unfold requestAsyncStopStream. rewrite Hq. replace (sx_stop_flag c1) with false by done. cbn.
      rewrite Hreg. by rewrite bool_decide_true. }
    set (q1 := requestAsyncStopStream ptr q) in *. clearbody q1. cbn in R2, R3. rewrite Hpend in R2. cbn in R2.
    unfold mainLoop_turn. rewrite R3, Hconf, R2.
    destruct (stop_all_effect rename_ok [ptr] (pp_with_pending (pl_configs q1) false [] q1)) as [S1 _].
    destruct (stop_all_keeps rename_ok [ptr] (pp_with_pending (pl_configs q1) false [] q1) ptr (sx_set_stop c1))
      as (c2 & S2 & S3 & S4 & _); [by cbn; rewrite R1, lookup_insert_eq|by left|].
    split_and!.
    + cbn [foldl]. unfold stopStream. by case_match.
    + intros id. rewrite S1. cbn. rewrite R4. case_bool_decide as Hid.
      * subst id. by apply std_find_erase_eq.
      * by apply std_find_erase_ne.
    + by exists c2.
Qed.
End Ready.

(** ** Which tasks can fail *)

Section Defined.
Context `{MessageDifferencer} `{EnvelopeCodec} (api : TrackerApi) (edge : EdgeInferApi)
        (av_rescale_q : Z -> AVRational -> AVRational -> Z)
        (av_packet_rescale_ts : AVPacket -> AVRational -> AVRational -> AVPacket)
        (rec_write_ok : nat -> bool) (clone_ok : AVPacket -> bool) (rename_ok : string -> string -> bool).

(** Every stream's JPEG encoder has the size it was set up for, and the other threads leave it so. *)
Definition encoders_sized (p : Pipeline) : Prop :=
  map_Forall (fun _ c => encoder_sized (sx_snapshotter c)) (pl_contexts p).

Record keeps_encoders (an : infer_answers) : Prop := {
  ke_contended c : encoder_sized (sx_snapshotter c) -> encoder_sized (sx_snapshotter (ia_contended an c));
  ke_meanwhile p : encoders_sized p -> encoders_sized (ia_meanwhile an p);
  ke_during p : encoders_sized p -> encoders_sized (ia_during an p);
}.

Lemma encoders_on_context ptr f p :
  encoders_sized p ->
  (forall c, pl_contexts p !! ptr = Some c -> encoder_sized (sx_snapshotter c) -> encoder_sized (sx_snapshotter (f c))) ->
  encoders_sized (on_context ptr f p).
Proof.
  intros Hp Hf q c. unfold on_context. cbn. intros [[<- (c0 & Hc & ->)]|[Hne Hq]]%lookup_alter_Some; [|by eapply Hp].
  apply (Hf c0); [done|by eapply Hp].
Qed.

Lemma triggerAlarmSnapshot_defined an now frame objects c :
  sa_dirs (ia_snap an) = true -> keeps_encoders an -> encoder_sized (sx_snapshotter c) ->
  (forall image, fb_decoded_image frame = Some image -> drawable image objects) ->
  exists name c', triggerAlarmSnapshot an now frame objects c = Some (name, c') /\ encoder_sized (sx_snapshotter c').
Proof.
  intros Hdirs Hk Hc Hdraw. unfold triggerAlarmSnapshot, snapshot_locked.
  destruct (_ || _ || _); [by eexists _, _|]. destruct (snapshot_throttled now c); [by eexists _, _|].
  apply (ke_contended an Hk) in Hc. destruct (snapshot_throttled now (ia_contended an c)); [by eexists _, _|].
  destruct (saveJpeg_defined (ia_snap an) frame objects (sx_snapshotter (ia_contended an c)) (sx_snaps (ia_contended an c))
              Hdirs Hc Hdraw) as (ok & s & w & -> & Hs).
  destruct ok; by eexists _, _.
Qed.

Lemma triggerAlarmRecording_defined an now c :
  ra_dirs (ia_record an) = true ->
  exists name c', triggerAlarmRecording av_rescale_q av_packet_rescale_ts rec_write_ok clone_ok rename_ok an now c = Some (name, c') /\
    sx_snapshotter c' = sx_snapshotter c.
Proof.
  intros Hrec. unfold triggerAlarmRecording. destruct (str_empty _); [by eexists _, _|]. destruct (_ <=? 0); [by eexists _, _|].
  destruct (requestRecording _ _ _ _ _ _ _ _ _ _) as [[[ok r] rw]|] eqn:E; [by eexists _, _|].
  apply requestRecording_throws in E. congruence.
Qed.

Lemma alarm_media_defined an frame objects ptr p :
  ra_dirs (ia_record an) = true -> sa_dirs (ia_snap an) = true -> keeps_encoders an -> encoders_sized p ->
  (forall image, fb_decoded_image frame = Some image -> drawable image objects) ->
  exists rn sn p', alarm_media av_rescale_q av_packet_rescale_ts rec_write_ok clone_ok rename_ok an frame objects ptr p =
    Some (rn, sn, p') /\ encoders_sized p'.
Proof.
  intros Hrec Hsnap Hk Hp Hdraw. unfold alarm_media. destruct (pl_contexts p !! ptr) as [c|] eqn:Hc; [|by eexists _, _, _].
  destruct objects as [|o l]; [by eexists _, _, _|].
  destruct (triggerAlarmRecording_defined an (ia_mono_ms an) c Hrec) as (rn & c1 & -> & Hc1). cbn [mbind option_bind].
  assert (Hs1 : encoder_sized (sx_snapshotter c1)) by (rewrite Hc1; by eapply Hp).
  destruct (triggerAlarmSnapshot_defined an (ia_mono_ms an) frame (o :: l) c1 Hsnap Hk Hs1 Hdraw) as (sn & c2 & -> & Hs2).
  eexists _, _, _. split; [done|]. by apply encoders_on_context.
Qed.

(** C31: A task comes to an end, without an exception that would take the process down,
    whatever the engine, the network and the files answer, when the directories of the
    recordings and snapshots can be created, the boxes of the alarm objects convert to
    pixels of the task's picture - which those within it do ([unit_boxes_drawable]) - and the
    client, if there is one, is started; and the encoders keep the sizes they were set up for. *)
Theorem infer_task_defined (an : infer_answers) (task : InferTask frame_ptr) (w : InferWorld)
    (Hrec : ra_dirs (ia_record an) = true) (Hsnap : sa_dirs (ia_snap an) = true)
    (Hothers : keeps_encoders an) (Hsized : encoders_sized (iw_pipe w))
    (Hdraw : forall b frame ptr c d image, detects an task w b frame ptr c d -> fb_decoded_image frame = Some image ->
       drawable image (fr_alarm_objects
         (detect api edge (ia_clock an) frame (de_config (sx_detector_runtime c)) d (iw_tracker w)).1.1))
    (Hipc : forall c, iw_ipc w = Some c -> in_unsigned 32 (ic_seq c) /\ can_queue c) :
  exists w', infer_task api edge av_rescale_q av_packet_rescale_ts rec_write_ok clone_ok rename_ok an task w = Some w' /\
    encoders_sized (iw_pipe w').
Proof.
  unfold infer_task. destruct (it_buffer task) as [b|] eqn:Hb; [|by eexists].
  destruct (task_frame task (iw_pipe w)) as [frame|] eqn:Hf; [|by eexists].
  set (p1 := on_buffer b (markInferenceRunning (fb_frame_id frame)) (iw_pipe w)) in *.
  assert (H1 : encoders_sized (ia_meanwhile an p1)) by (by apply (ke_meanwhile an Hothers)).
  destruct (has_image frame) eqn:Hi; [|by eexists].
  destruct (live_stream _ _) as [[ptr c]|] eqn:Hl; [|by eexists].
  destruct (de_detector (sx_detector_runtime c)) as [d|] eqn:Hd; [|by eexists].
  pose proof (fun image => Hdraw b frame ptr c d image ltac:(by split)) as Hdr.
  destruct (detect _ _ _ _ _ _ _) as [[r d'] tracker]. cbn in Hdr.
  set (p2 := ia_during an _). assert (H2 : encoders_sized p2) by (by apply (ke_during an Hothers), encoders_on_context).
  set (p3 := file_result _ _ _ p2). assert (H3 : encoders_sized p3) by exact H2. clearbody p3.
  destruct (alarm_media_defined an frame (fr_alarm_objects r) ptr p3 Hrec Hsnap Hothers H3 Hdr) as (rn & sn & p4 & -> & H4).
  cbn [mbind option_bind]. destruct (iw_ipc w) as [ic|]; [|by eexists].
  destruct (Hipc ic eq_refl) as [Hseq (s & Hs & Hq)].
  destruct (push_alarms_spec (alarm_messages (ia_alarm an) (fb_stream_id frame)
    (selectAlarmConfig (de_config (sx_detector_runtime c)) (fr_algorithm_id r)) (fr_alarm_objects r) sn rn) ic s Hs Hq Hseq)
    as (ic' & _ & -> & _). by eexists.
Qed.
End Defined.

(** ** Concrete tasks *)

(** An engine that finds three objects of two classes, and one that fails. *)
Definition ex_infer_edge : EdgeInferApi :=
  mkEdgeInferApi (fun _ => true) (fun _ _ => Some [ex_raw 1 2; ex_raw 1 1; ex_raw 1 2]).
Definition ex_failing_edge : EdgeInferApi := mkEdgeInferApi (fun _ => true) (fun _ _ => None).

Definition ex_snap_answers : snap_answers :=
  mkSnapAnswers (fun w h => Some (mkAVFrame w h w w (fun _ => 16) (fun _ => 128))) true (Some 6) (fun _ => Some [1; 2])
    true true true true "20240102_030405" 7 (fun i => i).
Definition ex_infer_answers : infer_answers :=
  mkInferAnswers (mkDetectClock 5 10 20) 1000 (ex_record true) ex_snap_answers (fun _ => ("id"%string, 77))
    (fun c => c) (fun p => p) (fun p => p).

(** One stream with two packets and their frames; then its newest frame is acquired. *)
Definition ex_infer_pipe (edge : EdgeInferApi) : Pipeline :=
  on_buffer 1%positive
    (sb_run [CallEnqueuePacket (Some (ex_packet 0)); CallEnqueueFrame (Some (StreamBuffer.ex_frame 0 true));
             CallEnqueuePacket (Some (ex_packet 1)); CallEnqueueFrame (Some (StreamBuffer.ex_frame 1 true))])
    (applyConfigBatch ex_rename edge never never (ex_batch "rtsp://a" [Config.ex_algorithm "fire" "m"]) ex_p0).
Definition ex_acquired (edge : EdgeInferApi) : InferTask frame_ptr * InferWorld :=
  let p := ex_infer_pipe edge in
  let '(_, task, s, buffers) := acquireTask 200 [] InferTask_default (pl_scheduler p) (pl_buffers p) in
  (task, mkInferWorld (pp_with_buffers buffers (pp_with_scheduler s p)) (Some ex_client) []).
Abbreviation ex_infer_run edge :=
  (infer_task (H0 := ex_codec) ex_tracker_api edge ex_rescale_q ex_rescale_ts (fun _ => true) (fun _ => true) ex_rename
    ex_infer_answers (ex_acquired edge).1 (ex_acquired edge).2).

(** Two alarms were queued, and the stream's next frame could be acquired. *)
Lemma ex_infer_run_result :
  exists w', ex_infer_run ex_infer_edge = Some w' /\
    (exists c s, iw_ipc w' = Some c /\ ic_sender c = Some s /\ length (tsq_items (ss_queue s)) = 2%nat) /\
    en_inflight <$> rr_entries (pl_scheduler (iw_pipe w')) !! "cam"%string = Some false.
Proof. apply some_ex. vm_compute. split; [|done]. by eexists _, _. Qed.

Theorem task_given_back_witness :
  en_inflight <$> rr_entries (pl_scheduler (iw_pipe (ex_acquired ex_infer_edge).2)) !! "cam"%string = Some true /\
  exists w', ex_infer_run ex_infer_edge = Some w' /\
    pl_scheduler (iw_pipe w') =
      given_back (it_stream_id (ex_acquired ex_infer_edge).1) (pl_scheduler (iw_pipe (ex_acquired ex_infer_edge).2)).
Proof.
  split; [by vm_compute|]. destruct ex_infer_run_result as (w' & Hrun & _). exists w'. split; [exact Hrun|].
  apply (task_given_back (H0 := ex_codec) _ _ _ _ _ _ _ _ _ _ _ Hrun). intros p. split; reflexivity.
Defined.

(** The objects of classes 1 and 2 go out in two messages. *)
Theorem alarms_by_class_witness :
  let targets := buildDetectionObject <$> [ex_raw 1 2; ex_raw 1 1; ex_raw 1 2] in
  exists c' s',
    push_alarms (H0 := ex_codec) (alarm_messages (fun _ => ("id"%string, 77)) "cam" (Config.ex_algorithm "fire" "m") targets "s" "r")
      ex_client = Some c' /\ ic_sender c' = Some s' /\ ic_seq c' = 2.
Proof.
  intros targets.
  destruct (alarms_by_class (H := ex_codec) (fun _ => ("id"%string, 77)) "cam" (Config.ex_algorithm "fire" "m") targets
              "s" "r" ex_client (ss_start (SocketSender_new 10)) eq_refl
              ltac:(by apply tsq_new_inv) ltac:(by unfold in_unsigned))
    as (classes & c' & s' & Hsort & Hin & Htargets & _ & Hp & Hs & Hseq & _).
  exists c', s'. split; [exact Hp|]. split; [exact Hs|]. rewrite Hseq.
  apply (f_equal length) in Htargets. rewrite !length_fmap in Htargets. rewrite <- Htargets. by vm_compute.
Defined.

(** The frame of the acquired task, its stream's context and detector, its buffer. *)
Definition ex_task_frame : FrameBundle := fb_set_infer_state Selected (StreamBuffer.ex_frame 1 true).
Definition ex_context (edge : EdgeInferApi) : StreamContext := new_context edge (ex_stream "rtsp://a" [Config.ex_algorithm "fire" "m"] None) 1%positive.
Definition ex_task_detector (edge : EdgeInferApi) : AlgoDetector :=
  default (AlgoDetector_new StreamConfig_default) (create_detector edge (ex_stream "rtsp://a" [Config.ex_algorithm "fire" "m"] None)).
Definition ex_task_buffer (edge : EdgeInferApi) : StreamBuffer :=
  default (createStreamBuffer "") (pl_buffers (iw_pipe (ex_acquired edge).2) !! 1%positive).


Lemma ex_detects :
  detects ex_infer_answers (ex_acquired ex_failing_edge).1 (ex_acquired ex_failing_edge).2 1%positive ex_task_frame
    1%positive (ex_context ex_failing_edge) (ex_task_detector ex_failing_edge).
Proof. split; vm_compute; reflexivity. Qed.

(** The engine fails on frame 1: the stream's next task can be acquired, but packet 1 waits. *)
Theorem undetected_frame_stays_running_witness :
  exists w', ex_infer_run ex_failing_edge = Some w' /\
    (forall e, rr_entries (pl_scheduler (iw_pipe w')) !! it_stream_id (ex_acquired ex_failing_edge).1 = Some e ->
       en_inflight e = false) /\
    exists sb', pl_buffers (iw_pipe w') !! 1%positive = Some sb' /\
      findFrame 1 sb' = Some (fb_set_infer_state Running ex_task_frame).
Proof.
  assert (exists w', ex_infer_run ex_failing_edge = Some w' /\ True) as (w' & Hrun & _)
    by (apply some_ex; vm_compute; done).
  exists w'. split; [exact Hrun|].
  assert (Hsb : pl_buffers (iw_pipe (ex_acquired ex_failing_edge).2) !! 1%positive = Some (ex_task_buffer ex_failing_edge))
    by (vm_compute; reflexivity).
  assert (Hwf : sb_wf (ex_task_buffer ex_failing_edge)).
  { assert (E : ex_task_buffer ex_failing_edge =
      sb_run [CallEnqueuePacket (Some (ex_packet 0)); CallEnqueueFrame (Some (StreamBuffer.ex_frame 0 true));
              CallEnqueuePacket (Some (ex_packet 1)); CallEnqueueFrame (Some (StreamBuffer.ex_frame 1 true));
              CallSelect] (createStreamBuffer "cam")) by (vm_compute; reflexivity).
    rewrite E. apply sb_run_wf, sb_wf_new. }
  assert (Halone : forall i f, i <> 1 -> findFrame i (ex_task_buffer ex_failing_edge) = Some f -> has_image f = true ->
            isInferring (fb_infer_state f) = false).
  { intros i f Hi Hf _. apply findFrame_Some in Hf as (p & [Hp Hs]%sb_frame_at_Some).
    apply elem_of_map_to_list in Hp. vm_compute in Hp.
    repeat (apply elem_of_cons in Hp as [[= -> ->]|Hp]); [..|by apply elem_of_nil in Hp];
      vm_compute in Hs; simplify_eq; done. }
  destruct (undetected_frame_stays_running (H0 := ex_codec) ex_tracker_api ex_failing_edge ex_rescale_q ex_rescale_ts
    (fun _ => true) (fun _ => true) ex_rename ex_infer_answers (ex_acquired ex_failing_edge).1
    (ex_acquired ex_failing_edge).2 w' 1%positive ex_task_frame 1%positive (ex_context ex_failing_edge)
    (ex_task_detector ex_failing_edge) (ex_task_buffer ex_failing_edge) 2%positive ex_detects
    (or_intror (fun _ _ => eq_refl)) (fun p => conj eq_refl eq_refl) Hsb Hwf
    ltac:(vm_compute; reflexivity) ltac:(vm_compute; reflexivity) Halone Hrun) as [Hfree (sb' & Hb' & Hf' & _)].
  split; [exact Hfree|]. exists sb'. split; [exact Hb'|exact Hf'].
Defined.

(** A stream whose picture is in memory: three objects are found, drawn and saved. *)
Definition ex_drawn_frame : FrameBundle :=
  mkFrameBundle "cam" 0 0 0 3600 0 true 8 6 25 0 0 AV_CODEC_ID_H264 (Some ex_dma) Idle.
Definition ex_drawn_pipe : Pipeline :=
  on_buffer 1%positive (sb_run [CallEnqueuePacket (Some (ex_packet 0)); CallEnqueueFrame (Some ex_drawn_frame)])
    (applyConfigBatch ex_rename ex_infer_edge never never (ex_batch "rtsp://a" [Config.ex_algorithm "fire" "m"]) ex_p0).
Definition ex_drawn : InferTask frame_ptr * InferWorld :=
  let '(_, task, s, buffers) := acquireTask 200 [] InferTask_default (pl_scheduler ex_drawn_pipe) (pl_buffers ex_drawn_pipe) in
  (task, mkInferWorld (pp_with_buffers buffers (pp_with_scheduler s ex_drawn_pipe)) (Some ex_client) []).
Abbreviation ex_drawn_run :=
  (infer_task (H0 := ex_codec) ex_tracker_api ex_infer_edge ex_rescale_q ex_rescale_ts (fun _ => true) (fun _ => true) ex_rename
    ex_infer_answers ex_drawn.1 ex_drawn.2).

Lemma ex_drawn_sized : encoders_sized (iw_pipe ex_drawn.2).
Proof.
  intros ptr c Hc. assert (E : sn_encoder ∘ sx_snapshotter <$> pl_contexts (iw_pipe ex_drawn.2) = {[1%positive := None]})
    by by vm_compute.
  apply (f_equal (fun m => m !! ptr)) in E. rewrite lookup_fmap, Hc in E. cbn in E. symmetry in E.
  apply lookup_singleton_Some in E as [_ E]. unfold encoder_sized. by rewrite <- E.
Qed.

(** What is found, and where it is drawn. *)
Lemma ex_drawn_objects b frame ptr c d image :
  detects ex_infer_answers ex_drawn.1 ex_drawn.2 b frame ptr c d -> fb_decoded_image frame = Some image ->
  image = ex_dma /\ drawable image (fr_alarm_objects
    (detect ex_tracker_api ex_infer_edge (mkDetectClock 5 10 20) frame (de_config (sx_detector_runtime c)) d []).1.1).
Proof.
  intros [Hb Hf _ Hl Hd] Him.
  assert (Eb : it_buffer ex_drawn.1 = Some 1%positive) by (vm_compute; reflexivity). rewrite Eb in Hb. injection Hb as <-.
  assert (Ef : task_frame ex_drawn.1 (iw_pipe ex_drawn.2) = Some (fb_set_infer_state Selected ex_drawn_frame)) by (vm_compute; reflexivity).
  rewrite Ef in Hf. injection Hf as <-. injection Him as <-. split; [done|].
  assert (El : live_stream (it_stream_id ex_drawn.1)
            (ia_meanwhile ex_infer_answers (on_buffer 1%positive (markInferenceRunning 0) (iw_pipe ex_drawn.2))) =
            Some (1%positive, ex_context ex_infer_edge)) by (vm_compute; reflexivity).
  change (fb_frame_id (fb_set_infer_state Selected ex_drawn_frame)) with 0 in Hl. rewrite El in Hl. injection Hl as <- <-.
  assert (Ed : de_detector (sx_detector_runtime (ex_context ex_infer_edge)) = Some (ex_task_detector ex_infer_edge)) by (vm_compute; reflexivity).
  rewrite Ed in Hd. injection Hd as <-. vm_compute. by eexists.
Qed.

Theorem infer_task_defined_witness :
  (exists w', ex_drawn_run = Some w' /\
     length ∘ sx_snaps <$> pl_contexts (iw_pipe w') !! 1%positive = Some 1%nat) /\
  exists w', ex_drawn_run = Some w' /\ encoders_sized (iw_pipe w').
Proof.
  split; [apply some_ex; vm_compute; reflexivity|].
  apply (infer_task_defined (H0 := ex_codec) ex_tracker_api ex_infer_edge ex_rescale_q ex_rescale_ts (fun _ => true)
    (fun _ => true) ex_rename ex_infer_answers ex_drawn.1 ex_drawn.2).
  - reflexivity.
  - reflexivity.
  - by split.
  - exact ex_drawn_sized.
  - intros b frame ptr c d image Hd Him. exact (proj2 (ex_drawn_objects b frame ptr c d image Hd Him)).
  - intros c Hc. assert (c = ex_client) as -> by (vm_compute in Hc; by injection Hc as <-).
    split; [by unfold in_unsigned|]. eexists. split; [reflexivity|by apply tsq_new_inv].
Defined.

(** Of requests at 1000, 3000 and 6500 ms the second writes nothing. *)
Definition ex_snapshot_requests : list snapshot_request :=
  (fun now => (ex_infer_answers, now,
               mkFrameBundle "cam" 1 0 0 0 0 true 8 6 25 0 0 AV_CODEC_ID_H264 (Some ex_dma) Done, [ex_boxed]))
    <$> [1000; 3000; 6500].

Theorem snapshot_rate_limited_witness :
  exists log c', snapshot_run ex_snapshot_requests (ex_context ex_infer_edge) = Some (log, c') /\
    snapshot_time <$> saved log = [1000; 6500] /\
    StronglySorted (fun a b => a + kAlarmSnapshotMinIntervalMs <= b) (snapshot_time <$> saved log).
Proof.
  assert (exists log c', snapshot_run ex_snapshot_requests (ex_context ex_infer_edge) = Some (log, c') /\
            snapshot_time <$> saved log = [1000; 6500]) as (log & c' & Hrun & Htimes)
    by (apply some_pair; vm_compute; reflexivity).
  exists log, c'. split; [exact Hrun|]. split; [exact Htimes|].
  apply (snapshot_rate_limited ex_snapshot_requests (ex_context ex_infer_edge) c' log); [|exact Hrun].
  repeat constructor.
Defined.

(** A stream with an output: the muxer refuses its header. *)
Definition ex_ready_pipe : Pipeline :=
  applyConfigBatch ex_rename ex_edge_ok never never
    [(1, mkAgentConfig "agent" 1 [mkStreamConfig true "cam" "rtsp://a" "rtsp://out" 5 "/s" "/r" 10 30 [] None])] ex_p0.
Definition ex_ready_context : StreamContext :=
  new_context ex_edge_ok (mkStreamConfig true "cam" "rtsp://a" "rtsp://out" 5 "/s" "/r" 10 30 [] None) 1%positive.

Theorem stream_ready_outcome_witness :
  let p2 := mainLoop_turn ex_rename ex_edge_ok never never
              (stream_ready ex_rename (ex_mux false) [ex_spec 4 Video] 1%positive ex_ready_pipe) in
  pl_pending_stop_streams p2 = [] /\ std_find "cam" (pl_streams p2) = None /\
  exists c2, pl_contexts p2 !! 1%positive = Some c2 /\ sx_stop_flag c2 = true /\ sx_running c2 = false.
Proof.
  intros p2.
  assert (Hwf : std_wf (pl_streams ex_ready_pipe)) by (vm_compute; by repeat constructor).
  assert (Hc : pl_contexts ex_ready_pipe !! 1%positive = Some ex_ready_context) by (vm_compute; reflexivity).
  assert (Hreg : std_find (sx_stream_id ex_ready_context) (pl_streams ex_ready_pipe) = Some 1%positive)
    by (vm_compute; reflexivity).
  assert (Hidle : pl_has_pending_config ex_ready_pipe = false /\ pl_pending_stop_streams ex_ready_pipe = [])
    by (vm_compute; split; reflexivity).
  assert (Hready : output_ready (ex_mux false) [ex_spec 4 Video] ex_ready_context = false) by (vm_compute; reflexivity).
  pose proof (stream_ready_outcome ex_edge_ok ex_rename (ex_mux false) [ex_spec 4 Video] never never 1%positive
                ex_ready_pipe ex_ready_context Hwf Hc eq_refl Hreg Hidle) as Hs.
  cbv zeta in Hs. rewrite Hready in Hs. destruct Hs as (Hp & Hf & Hstop). split; [exact Hp|].
  split; [|exact Hstop]. exact (Hf "cam"%string).
Defined.
