(* ===== verification/EndToEnd.v ===== *)
(** * From the detector to the published packet

    What the inference thread files with a stream's buffer is what its publishing thread
    puts in front of the packet: the models of inferLoop and publishLoop (Pipeline.cpp)
    put together over the buffer they share. *)
From S2P Require Import Prelude StdMap Float32 Messages SafeQueue StreamBuffer Scheduler Common Config Sei Socket.
From S2P Require Import Ipc Stats Detector Decoder Puller Mux Recorder Snapshot Pipeline Publish Infer.

(** An unexpired result whose time is the packet's and no other result's is the one taken. *)
Lemma takeCached_exact iter frame_id now b r :
  (forall m, iter m ≡ₚ map_to_list m) ->
  sb_cached b !! fr_frame_id r = Some r -> now <= fr_expire_at_mono_ms r -> 0 <= fr_pts r ->
  (forall i s, sb_cached b !! i = Some s -> fr_pts s = fr_pts r -> i = fr_frame_id r) ->
  exists b', takeCachedInferenceResult iter frame_id (fr_pts r) now b = (Some r, b').
Proof.
  intros Hiter Hr Hlive Hpts Honly.
  assert (Hl : live_result b now (fr_frame_id r) r) by done.
  assert (Hc : pts_candidate (fr_pts r) r) by (split; [done|]; unfold pts_distance; rewrite Z.sub_diag; done).
  pose proof (takeCached_taken iter frame_id (fr_pts r) now b Hiter) as Ht.
  destruct (takeCachedInferenceResult _ _ _ _ _) as [out b'] eqn:E. cbn in Ht. exists b'. f_equal. clear E.
  inversion Ht as [id r' c Hl' _ Hc' Hmin Hcs|r' c Hno|c Hno]; subst.
  - pose proof (Hmin _ _ Hl Hc) as Hd. unfold pts_distance in Hd. rewrite Z.sub_diag in Hd.
    destruct Hl' as [Hl' _]. rewrite (Honly _ _ Hl') in Hl' by lia. congruence.
  - by destruct (Hno Hpts _ _ Hl Hc).
  - by destruct (Hno Hpts _ _ Hl Hc).
Qed.

(** Injection in front of Annex B data succeeds when packets can be made. *)
Lemma inject_annexb lib source codec n c packet data :
  ctx_ok c -> hasItems c = true -> ep_packet source = Some packet -> pkt_data packet = Some data ->
  isAnnexB (Some data) = true ->
  (forall size, av_new_packet_ok lib size = true) -> (forall p, av_packet_copy_props_ok lib p = true) ->
  exists payload, buildMspV1UserDataPayload c = Some payload /\
    inject lib source codec n c =
      Some (true, Some (pkt_with_data (toAnnexBNal (built_sei codec payload) ++ data) packet)).
Proof.
  intros Hc Hi Hp Hd Ha Hnew Hcopy. destruct (buildMsp_some c Hc) as (payload & Hpay & Hne).
  exists payload. split; [done|]. unfold inject. rewrite Hp, Hd, Hi, Hpay, Ha.
  destruct data as [|x data]; [done|]. rewrite (proj2 (Z.leb_gt _ _)) by (cbn [length]; lia).
  cbn [negb mbind option_bind]. destruct payload as [|y payload]; [done|].
  fold (built_sei codec (y :: payload)). set (sei := built_sei codec (y :: payload)). clearbody sei.
  unfold toAnnexBNal, kAnnexBStartCode. cbn [app]. unfold allocatePacket. by rewrite Hnew, Hcopy.
Qed.

Section EndToEnd.
Context `{MessageDifferencer} `{EnvelopeCodec} (api : TrackerApi) (edge : EdgeInferApi)
        (av_rescale_q : Z -> AVRational -> AVRational -> Z)
        (av_packet_rescale_ts : AVPacket -> AVRational -> AVRational -> AVPacket)
        (pub_write_ok rec_write_ok : nat -> bool) (ref_ok clone_ok : AVPacket -> bool)
        (rename_ok : string -> string -> bool) (lib : PacketLibrary)
        (iter : gmap Z FrameInferenceResult -> list (Z * FrameInferenceResult)).

(** The detected frame's packet: video, Annex B, with the frame's presentation time. *)
Record packet_of (frame : FrameBundle) (packet : EncodedPacket) (q : AVPacket) (data : list Z) : Prop := {
  po_video : ep_media_type packet = Video;
  po_pts : ep_pts packet = fb_pts frame;
  po_packet : ep_packet packet = Some q;
  po_data : pkt_data q = Some data;
  po_annexb : isAnnexB (Some data) = true;
}.

(** C15: What was detected on a frame is what its packet carries: once the inference thread
    is through with a frame, and as long as the cached results stay as it left them, the
    turn of the publishing thread that sends the packet with the frame's presentation time
    before the result expires puts in front of its data the SEI unit of a context that
    holds exactly the detected objects and their algorithm, provided packets can be
    allocated, the objects' boxes are real numbers and no other cached result has that
    presentation time. *)
Theorem detection_reaches_packet (an : infer_answers) (task : InferTask frame_ptr) (w w' : InferWorld)
    (b : buffer_ptr) (frame : FrameBundle) (ptr : ctx_ptr) (c : StreamContext) (d : AlgoDetector) (sb : StreamBuffer)
    (r : FrameInferenceResult) (pan : publish_answers) (s s' : publish_state) (packet : EncodedPacket)
    (final : option AVPacket) (q : AVPacket) (data : list Z)
    (Hiter : forall m, iter m ≡ₚ map_to_list m)
    (Hnew : forall size, av_new_packet_ok lib size = true) (Hcopy : forall p, av_packet_copy_props_ok lib p = true)
    (Hdet : detects an task w b frame ptr c d)
    (Hr : r = (detect api edge (ia_clock an) frame (de_config (sx_detector_runtime c)) d (iw_tracker w)).1.1)
    (Hid : 0 <= fr_frame_id r) (Hpts : fr_pts r = fb_pts frame /\ 0 <= fb_pts frame)
    (Hboxes : Forall bbox_ok (fr_objects r))
    (Hrun : infer_task api edge av_rescale_q av_packet_rescale_ts rec_write_ok clone_ok rename_ok an task w = Some w')
    (Hsb : pl_buffers (iw_pipe w') !! b = Some sb) (Hcached : sb_cached (ps_buffer s) = sb_cached sb)
    (Honly : forall i x, sb_cached sb !! i = Some x -> fr_pts x = fr_pts r -> i = fr_frame_id r)
    (Hquiet : pa_before pan = [] /\ pa_peeked pan = []) (Htime : pa_cache_ms pan <= fr_expire_at_mono_ms r)
    (Hpacket : packet_of frame packet q data)
    (Hpub : publish_turn av_rescale_q av_packet_rescale_ts pub_write_ok rec_write_ok ref_ok clone_ok rename_ok lib iter
              pan s = Some (Some (packet, final), s')) :
  exists codec payload,
    buildMspV1UserDataPayload
      (buildSeiMessageContext (pa_time_text pan) (ps_stream_id s) (ep_frame_id packet) (ep_pts packet)
         (fr_algorithm_id r) (fr_objects r) false (fr_expire_at_mono_ms r)) = Some payload /\
    final = Some (pkt_with_data (toAnnexBNal (built_sei codec payload) ++ data) q).
Proof.
  (* the result is filed *)
  assert (Hfiled : sb_cached (ps_buffer s) !! fr_frame_id r = Some r).
  { pose proof (infer_task_detected _ _ _ _ _ _ _ _ _ _ _ _ _ _ _ _ Hdet Hrun) as Hb.
    destruct (detect _ _ _ _ _ _ _) as [[r0 d'] tracker]. cbn in Hr. subst r0.
    rewrite Hb, lookup_alter_eq in Hsb. apply fmap_Some in Hsb as (sb0 & _ & ->).
    rewrite Hcached. unfold updateCachedInferenceResult. rewrite (proj2 (Z.ltb_ge _ _)) by done.
    apply lookup_insert_eq. }
  clear Hdet Hr Hrun Hsb. destruct Hpacket as [Hv Hp Hq Hd Ha], Hpts as [Hpr Hpos], Hquiet as [Hb0 Hb1].
  destruct (takeCached_exact iter (ep_frame_id packet) (pa_cache_ms pan) (ps_buffer s) r Hiter Hfiled Htime)
    as (b1 & Htake); [lia|by rewrite Hcached|].
  (* the turn *)
  unfold publish_turn in Hpub. rewrite Hb0 in Hpub. cbn [sb_run foldl] in Hpub.
  destruct (negb _); [done|]. destruct (peekPacket _) as [packet'|]; [|done].
  destruct (if bool_decide _ then inject_video _ _ _ _ _ _ _ else _) as [[override b2]|] eqn:Hinj; [|done].
  cbn [mbind option_bind] in Hpub.
  destruct (offer_publisher _ _ _ _ _ _) as [publisher mux], (offer_recorder _ _ _ _ _ _ _ _) as [recorder rec].
  injection Hpub as -> <- _. rewrite bool_decide_true in Hinj by done.
  unfold inject_video in Hinj. rewrite Hb1 in Hinj. cbn [sb_run foldl] in Hinj. rewrite Hp, <- Hpr, Htake in Hinj.
  set (ctx := publish_context _ _ _ _) in Hinj. set (codec := seiCodecTypeFromFrame _) in Hinj.
  destruct (inject_annexb lib packet codec (ps_nal s) ctx q data) as (payload & Hpay & E); try done.
  { apply publish_context_ok. by intros ? [= <-]. }
  { unfold ctx, publish_context, hasItems. cbn. by destruct (fr_objects r). }
  exists codec, payload. split; [exact Hpay|]. rewrite E in Hinj. cbn in Hinj. by injection Hinj as <- _.
Qed.
End EndToEnd.

(** *** A detection and its packet *)

Definition ex_seen_pipe : Pipeline :=
  on_buffer 1%positive (sb_run (ex_arrives 1))
    (applyConfigBatch ex_rename ex_infer_edge never never (ex_batch "rtsp://a" [Config.ex_algorithm "fire" "m"]) ex_p0).
Definition ex_seen : InferTask frame_ptr * InferWorld :=
  let '(_, task, s, buffers) :=
    acquireTask 200 [] InferTask_default (pl_scheduler ex_seen_pipe) (pl_buffers ex_seen_pipe) in
  (task, mkInferWorld (pp_with_buffers buffers (pp_with_scheduler s ex_seen_pipe)) (Some ex_client) []).
Definition ex_seen_result : FrameInferenceResult :=
  (detect ex_tracker_api ex_infer_edge (mkDetectClock 5 10 20) ex_task_frame
     (de_config (sx_detector_runtime (ex_context ex_infer_edge))) (ex_task_detector ex_infer_edge) []).1.1.

Abbreviation ex_seen_run :=
  (infer_task (H0 := ex_codec) ex_tracker_api ex_infer_edge ex_rescale_q ex_rescale_ts (fun _ => true) (fun _ => true)
     ex_rename ex_infer_answers ex_seen.1 ex_seen.2).
Definition ex_seen_buffer : StreamBuffer :=
  match ex_seen_run with
  | Some w => default (createStreamBuffer "") (pl_buffers (iw_pipe w) !! 1%positive)
  | None => createStreamBuffer ""
  end.
Definition ex_seen_state : publish_state :=
  mkPublishState "cam" (sb_run (ex_arrives 2) ex_seen_buffer) 0 ex_pub ex_pub_world Recorder_new (mkRecWorld 0 0 [] [])
    Statistics_new.
Definition ex_plenty : PacketLibrary := mkPacketLibrary (fun _ => true) (fun _ => true).
Abbreviation ex_seen_turn :=
  (publish_turn ex_rescale_q ex_rescale_ts (fun _ => true) (fun _ => true) (fun _ => true) (fun _ => true) ex_rename
     ex_plenty map_to_list (ex_turn [] []) ex_seen_state).

Lemma ex_seen_facts :
  (exists w', ex_seen_run = Some w' /\ pl_buffers (iw_pipe w') !! 1%positive = Some ex_seen_buffer) /\
  detects ex_infer_answers ex_seen.1 ex_seen.2 1%positive ex_task_frame 1%positive (ex_context ex_infer_edge)
    (ex_task_detector ex_infer_edge) /\
  map_to_list (sb_cached ex_seen_buffer) = [(1, ex_seen_result)] /\
  length (fr_objects ex_seen_result) = 3%nat /\ Forall bbox_ok (fr_objects ex_seen_result).
Proof.
  split; [apply some_ex; vm_compute; reflexivity|]. split; [split; vm_compute; reflexivity|].
  split; [vm_compute; reflexivity|]. split; [vm_compute; reflexivity|]. vm_compute. repeat constructor; try done; by intros ?.
Qed.

(** Frame 1 shows three objects: so does packet 1. *)
Theorem detection_reaches_packet_witness :
  exists final s' codec payload, ex_seen_turn = Some (Some (ex_video_packet 1, Some final), s') /\
    buildMspV1UserDataPayload
      (buildSeiMessageContext "12:00" "cam" 1 3600 (fr_algorithm_id ex_seen_result) (fr_objects ex_seen_result) false
         (fr_expire_at_mono_ms ex_seen_result)) = Some payload /\
    pkt_data final = Some (toAnnexBNal (built_sei codec payload) ++ [0; 0; 1; 101]).
Proof.
  destruct ex_seen_facts as ((w' & Hrun & Hsb) & Hdet & Hcached & _ & Hboxes).
  assert (exists out s', ex_seen_turn = Some (out, s') /\ option_map fst out = Some (ex_video_packet 1))
    as (out & s' & Hpub & Hout) by (apply some_pair; vm_compute; reflexivity).
  destruct out as [[packet final]|]; [|done]. cbn in Hout. injection Hout as ->.
  destruct (detection_reaches_packet (H0 := ex_codec) ex_tracker_api ex_infer_edge ex_rescale_q ex_rescale_ts (fun _ => true)
    (fun _ => true) (fun _ => true) (fun _ => true) ex_rename ex_plenty map_to_list ex_infer_answers ex_seen.1 ex_seen.2 w'
    1%positive ex_task_frame 1%positive (ex_context ex_infer_edge) (ex_task_detector ex_infer_edge) ex_seen_buffer
    ex_seen_result (ex_turn [] []) ex_seen_state s' (ex_video_packet 1) final
    (mkAVPacket (Some [0; 0; 1; 101]) 4 3600 3600 3600 0 (-1)) [0; 0; 1; 101]
    (fun m => Permutation_refl _) (fun _ => eq_refl) (fun _ => eq_refl) Hdet
    ltac:(vm_compute; reflexivity) ltac:(vm_compute; congruence)
    ltac:(split; [vm_compute; reflexivity|vm_compute; congruence]) Hboxes Hrun Hsb
    ltac:(vm_compute; reflexivity)
    ltac:(intros i x Hx _; apply elem_of_map_to_list in Hx; rewrite Hcached in Hx;
          apply list_elem_of_singleton in Hx; injection Hx as -> _; vm_compute; reflexivity)
    (conj eq_refl eq_refl) ltac:(vm_compute; congruence) ltac:(split; reflexivity) Hpub)
    as (codec & payload & Hpay & ->).
  eexists _, s', codec, payload. split; [exact Hpub|]. split; [exact Hpay|reflexivity].
Defined.
