(* ===== verification/Interleaving.v ===== *)
(** * The threads of one stream, interleaved

    The puller, the inference threads and the publishing thread of a stream share its
    buffer and run between each other's calls.  [stream_step] has one rule for every call
    they make on it, in the order in which each of them makes its own: the puller as
    [frames_follow] says (RTSPPuller.cpp), an inference thread select - run - finish or
    drop (InferScheduler.cpp, inferLoop), the publishing thread wait - take - pop - release
    (publishLoop).

    While it stays registered a stream has at most one task in flight
    ([one_inflight_per_stream]), so one frame at most is in the hands of an inference
    thread.  [publishing_interleaves] and [inference_interleaves] show that the loop bodies
    make these steps. *)
From S2P Require Import Prelude StdMap Float32 Messages SafeQueue StreamBuffer BufferSpec Scheduler Common Config Sei Socket.
From S2P Require Import Ipc Stats Detector Decoder Puller Mux Recorder Snapshot Pipeline Publish Infer.

(** Where the publishing thread is: waiting, with a packet that passed the wait, or with
    one that is out of the queue. *)
Inductive publish_phase :=
| Waiting
| Sending (packet : EncodedPacket)
| Sent (packet : EncodedPacket).

(** The buffer, the ids enqueued so far, the frame an inference thread works on. *)
Record shared := mkShared {
  sh_buffer : StreamBuffer;
  sh_seen : ids_seen;
  sh_held : option Z;
}.

(** When a thread other than the publishing one makes a call. *)
Definition enabled (c : sb_call) (s : shared) : Prop :=
  match c with
  | CallEnqueuePacket _ | CallEnqueueFrame _ => allowed (sh_seen s) c
  | CallSelect => sh_held s = None
  | CallMarkRunning id => sh_held s = Some id
  | CallMarkDone r => exists id, sh_held s = Some id /\ (fr_frame_id r = id \/ fr_frame_id r = -1)
  | CallClear id state => sh_held s = Some id /\ state = Dropped
  | CallUpdateCached _ | CallStop => True
  | CallPopPacket | CallReleaseFrame _ | CallTakeCached _ _ _ _ => False
  end.

(** The frame in an inference thread's hands after a call. *)
Definition held_after (c : sb_call) (s : shared) : option Z :=
  match c with
  | CallSelect =>
      let '(q, b) := selectFrameForInference (sh_buffer s) in
      q ← q; fb_frame_id <$> sb_store b !! q
  | CallMarkDone _ | CallClear _ _ => None
  | _ => sh_held s
  end.

Definition after (c : sb_call) (s : shared) : shared :=
  mkShared (sb_apply c (sh_buffer s)) (note (sh_seen s) c) (held_after c s).

Definition after_all (cs : list sb_call) (s : shared) : shared := foldl (fun s c => after c s) s cs.

Record stream_state := mkStreamState {
  sy_shared : shared;
  sy_phase : publish_phase;
}.
Abbreviation sy_buffer x := (sh_buffer (sy_shared x)).
Abbreviation sy_seen x := (sh_seen (sy_shared x)).
Abbreviation sy_held x := (sh_held (sy_shared x)).
Abbreviation streaming b seen held ph := (mkStreamState (mkShared b seen held) ph).

(** One call of any thread. *)
Inductive stream_step : stream_state -> stream_state -> Prop :=
| step_other c s ph : enabled c s -> stream_step (mkStreamState s ph) (mkStreamState (after c s) ph)
| step_gate s packet :
    waitForPublishable kMinVideoWatermark (sh_buffer s) = true -> peekPacket (sh_buffer s) = Some packet ->
    stream_step (mkStreamState s Waiting) (mkStreamState s (Sending packet))
| step_take iter id pts now s packet :
    stream_step (mkStreamState s (Sending packet)) (mkStreamState (after (CallTakeCached iter id pts now) s) (Sending packet))
| step_pop s packet :
    stream_step (mkStreamState s (Sending packet)) (mkStreamState (after CallPopPacket s) (Sent packet))
| step_release s packet :
    stream_step (mkStreamState s (Sent packet))
      (mkStreamState (if bool_decide (ep_media_type packet = Video) && (0 <=? ep_frame_id packet)
                      then after (CallReleaseFrame (ep_frame_id packet)) s else s) Waiting).

Definition stream_start (stream_id : string) : stream_state :=
  streaming (createStreamBuffer stream_id) ([], []) None Waiting.

(** ** What holds between any two calls *)

Definition decoded_at (b : StreamBuffer) (id : Z) : Prop :=
  exists f, findFrame id b = Some f /\ has_image f = true.
Definition inferring_at (b : StreamBuffer) (id : Z) : Prop :=
  exists f, findFrame id b = Some f /\ has_image f = true /\ isInferring (fb_infer_state f) = true.

(** The frame of the packet that was just popped. *)
Definition popped_frame (ph : publish_phase) : option Z :=
  match ph with
  | Sent packet => if bool_decide (ep_media_type packet = Video) then Some (ep_frame_id packet) else None
  | _ => None
  end.

Definition busy_with (ph : publish_phase) (packet : EncodedPacket) : Prop :=
  (ph = Sending packet \/ ph = Sent packet) /\ ep_media_type packet = Video.

(** The publishing thread has the video packet [packet]: every frame under inference lies
    behind it, and so does another decoded frame when its own is decoded. *)
Record sending_video (b : StreamBuffer) (seen : ids_seen) (packet : EncodedPacket) : Prop := {
  sv_seen : 0 <= ep_frame_id packet /\ ep_frame_id packet ∈ seen.1 /\ ep_frame_id packet ∈ seen.2;
  sv_queue i : i ∈ video_ids (sb_packets b) -> ep_frame_id packet <= i;
  sv_inferring i : inferring_at b i -> ep_frame_id packet < i;
  sv_other : decoded_at b (ep_frame_id packet) -> exists j, ep_frame_id packet < j /\ decoded_at b j;
}.

Definition phase_ok (b : StreamBuffer) (seen : ids_seen) (ph : publish_phase) : Prop :=
  match ph with
  | Waiting => True
  | Sending packet =>
      (exists rest, sb_packets b = Some packet :: rest) /\
      (ep_media_type packet = Video -> sending_video b seen packet)
  | Sent packet => ep_media_type packet = Video -> sending_video b seen packet
  end.

Record stream_inv (x : stream_state) : Prop := {
  si_wf : sb_wf (sy_buffer x);
  si_queued : frames_queued (popped_frame (sy_phase x)) (sy_seen x) (sy_buffer x);
  (** packets and frames are queued by ascending id *)
  si_ids : StronglySorted Z.lt (video_ids (sb_packets (sy_buffer x)));
  si_order : StronglySorted Z.lt (sb_frame_order (sy_buffer x));
  (** the decoded frames not yet looked at are the newest ones *)
  si_suffix i j : i < j -> decoded_at (sy_buffer x) j -> selectable (sy_buffer x) i = true ->
                  selectable (sy_buffer x) j = true;
  (** at most one frame is under inference, and the one a thread works on is *)
  si_one i j : inferring_at (sy_buffer x) i -> inferring_at (sy_buffer x) j -> i = j;
  si_held id : sy_held x = Some id -> inferring_at (sy_buffer x) id;
  si_phase : phase_ok (sy_buffer x) (sy_seen x) (sy_phase x);
}.

(** ** Calls that only change inference states *)

Lemma restated_find st b b' id f :
  restated st b b' -> findFrame id b' = Some f ->
  exists g, findFrame id b = Some g /\ has_image f = has_image g /\ fb_infer_state f = st id (fb_infer_state g).
Proof. intros Hr. rewrite (rs_find _ _ _ Hr). intros (g & Hg & ->)%fmap_Some. by exists g. Qed.

Lemma restated_decoded st b b' id : restated st b b' -> decoded_at b' id <-> decoded_at b id.
Proof.
  intros Hr. split.
  - intros (f & Hf & Hi). destruct (restated_find _ _ _ _ _ Hr Hf) as (g & Hg & E & _). exists g. by rewrite <- E.
  - intros (g & Hg & Hi). eexists. split; [by rewrite (rs_find _ _ _ Hr), Hg|done].
Qed.

Lemma restated_inferring st b b' id :
  restated st b b' -> inferring_at b' id <->
  exists g, findFrame id b = Some g /\ has_image g = true /\ isInferring (st id (fb_infer_state g)) = true.
Proof.
  intros Hr. split.
  - intros (f & Hf & Hi & Hs). destruct (restated_find _ _ _ _ _ Hr Hf) as (g & Hg & E1 & E2).
    exists g. by rewrite <- E1, <- E2.
  - intros (g & Hg & Hi & Hs). eexists. split; [by rewrite (rs_find _ _ _ Hr), Hg|done].
Qed.

(** The publishing thread's part survives when no frame at or before its packet's comes
    under inference. *)
Lemma sending_restated st b b' seen packet :
  restated st b b' -> (forall i, inferring_at b' i -> ep_frame_id packet < i) ->
  sending_video b seen packet -> sending_video b' seen packet.
Proof.
  intros Hr Hi [H1 H2 _ H4]. split; try done.
  - by rewrite (rs_packets _ _ _ Hr).
  - rewrite (restated_decoded _ _ _ _ Hr). intros (j & Hj & Hd)%H4. exists j.
    by rewrite (restated_decoded _ _ _ _ Hr).
Qed.

(** A change of states that makes no frame idle, and keeps either all idle frames or none. *)
Lemma inv_restated st b b' seen held held' ph :
  stream_inv (streaming b seen held ph) -> sb_wf b' -> restated st b b' ->
  (forall i, selectable b' i = selectable b i) \/ (forall i, selectable b' i = false) ->
  (forall i j, inferring_at b' i -> inferring_at b' j -> i = j) ->
  (forall id, held' = Some id -> inferring_at b' id) ->
  (forall i, inferring_at b' i -> inferring_at b i \/
     forall packet, busy_with ph packet -> sending_video b seen packet -> ep_frame_id packet < i) ->
  stream_inv (streaming b' seen held' ph).
Proof.
  intros [H1 H2 H3 H4 H5 _ _ H8] Hwf Hr Hidle Hone Hheld Hnew. cbn in *.
  assert (Hsend : forall packet, busy_with ph packet -> sending_video b seen packet -> sending_video b' seen packet).
  { intros packet Hbusy Hs. apply (sending_restated st b); [done| |done].
    intros i Hi. destruct (Hnew i Hi) as [?|Hn]; [by apply (sv_inferring _ _ _ Hs)|auto]. }
  split; cbn; try done.
  - apply (frames_queued_same _ _ b); try apply Hr; [|done]. by rewrite (rs_stopped _ _ _ Hr).
  - by rewrite (rs_packets _ _ _ Hr).
  - by rewrite (rs_order _ _ _ Hr).
  - intros i j Hij. rewrite (restated_decoded _ _ _ _ Hr). destruct Hidle as [Hidle|Hidle]; rewrite !Hidle; [|done].
    by apply H5.
  - destruct ph as [|packet|packet]; cbn in *; [done| |].
    + rewrite (rs_packets _ _ _ Hr). destruct H8 as [? H8]. split; [done|]. intros Hv. apply Hsend; [by split; [left|]|auto].
    + intros Hv. apply Hsend; [by split; [right|]|auto].
Qed.

(** The frame a thread works on gets the state [s]. *)
Lemma inv_clear b id s seen ph held' :
  stream_inv (streaming b seen (Some id) ph) -> s <> Idle ->
  (held' = None \/ held' = Some id /\ isInferring s = true) ->
  stream_inv (streaming (clearInferenceSelection id s b) seen held' ph).
Proof.
  intros Hinv Hs Hheld. pose proof (si_wf _ Hinv) as Hwf. pose proof (restated_clear id s b Hwf) as Hr.
  destruct (si_held _ Hinv id eq_refl) as (f & Hf & Himg & Hst). cbn in *.
  assert (Hsub : forall i, inferring_at (clearInferenceSelection id s b) i -> inferring_at b i).
  { intros i (g & Hg & Hi & Hg')%(restated_inferring _ _ _ _ Hr). case_bool_decide as Hid; [subst i|by exists g].
    by exists f. }
  refine (inv_restated _ _ _ _ _ _ _ Hinv (clearInferenceSelection_wf id s b Hwf) Hr _ _ _ _).
  - left. intros i. rewrite !selectable_find, (rs_find _ _ _ Hr). destruct (findFrame i b) as [g|] eqn:Hg; [|done].
    cbn. case_bool_decide as Hid; [|done]. subst i. simplify_eq. f_equal. by destruct s, (fb_infer_state f).
  - intros i j Hi%Hsub Hj%Hsub. by apply (si_one _ Hinv).
  - intros i Hi. destruct Hheld as [->|[-> Hsi]]; [done|]. injection Hi as <-.
    apply (restated_inferring _ _ _ _ Hr). exists f. by rewrite bool_decide_true.
  - intros i Hi. left. by apply Hsub.
Qed.

(** Every frame of the buffer belongs to the packet being sent or to a later one. *)
Lemma frames_behind b seen ph packet i :
  frames_queued (popped_frame ph) seen b -> busy_with ph packet -> sending_video b seen packet ->
  is_Some (sb_frames b !! i) -> ep_frame_id packet <= i.
Proof.
  intros Hq [Hph Hv] Hs Hi. destruct (fq_frames _ _ _ Hq i Hi) as [[Hin|Hpop] _].
  - by apply (sv_queue _ _ _ Hs).
  - destruct Hph as [-> | ->]; [done|]. cbn in Hpop. rewrite bool_decide_true in Hpop by done. injection Hpop. lia.
Qed.

Lemma decoded_in_frames b i : decoded_at b i -> is_Some (sb_frames b !! i).
Proof. intros (f & (p & [Hp _]%sb_frame_at_Some)%findFrame_Some & _). by exists p. Qed.

Lemma selection_newest b b' q l g seen ph packet :
  stream_inv (streaming b seen None ph) -> selection b b' q l g ->
  busy_with ph packet -> sending_video b seen packet -> ep_frame_id packet < l.
Proof.
  intros Hinv Hsel Hbusy Hs. pose proof (si_wf _ Hinv) as Hwf. cbn in Hwf.
  assert (Hl : findFrame l b = Some g) by (apply findFrame_Some; exists q; apply Hsel).
  assert (Hdl : decoded_at b l) by (exists g; split; [done|apply Hsel]).
  pose proof (frames_behind _ _ _ _ l (si_queued _ Hinv) Hbusy Hs (decoded_in_frames _ _ Hdl)) as Hle.
  destruct (decide (ep_frame_id packet = l)) as [Hk|]; [|lia]. exfalso.
  destruct (sv_other _ _ _ Hs) as (j & Hj & Hdj); [by rewrite Hk|].
  assert (Hsl : selectable b l = true) by (apply selectable_true; exists g; split; [done|split; apply Hsel]).
  pose proof (si_suffix _ Hinv l j ltac:(lia) Hdj Hsl) as Hsj. cbn in Hsj.
  destruct (sel_latest _ _ _ _ _ Hsel) as (l1 & l2 & Hord & Hno).
  pose proof (si_order _ Hinv) as Hsort. cbn in Hsort. rewrite Hord in Hsort.
  apply StronglySorted_app in Hsort as (Hbefore & _ & _).
  assert (j ∈ sb_frame_order b) as Hin by (by apply (wf_order b Hwf), decoded_in_frames).
  rewrite Hord, elem_of_app, elem_of_cons in Hin. destruct Hin as [Hin|[->|Hin]]; [|lia|].
  - specialize (Hbefore j l Hin ltac:(left)). lia.
  - rewrite Forall_forall in Hno. specialize (Hno j Hin). congruence.
Qed.

Lemma inv_select b b' q f seen ph :
  stream_inv (streaming b seen None ph) -> selectFrameForInference b = (Some q, b') -> sb_store b' !! q = Some f ->
  stream_inv (streaming b' seen (Some (fb_frame_id f)) ph).
Proof.
  intros Hinv Hsel Hq. pose proof (si_wf _ Hinv) as Hwf. cbn in Hwf.
  pose proof (selectFrame_cases b Hwf) as Hcase. pose proof (selectFrame_wf b Hwf) as Hwf'. rewrite Hsel in Hcase, Hwf'.
  destruct Hcase as (l & g & Hs). cbn in Hwf'. pose proof (restated_select _ _ _ _ _ Hwf Hs) as Hr.
  assert (Hid : fb_frame_id f = l).
  { apply (sb_frame_at_wf b' l q f Hwf'). apply sb_frame_at_Some. split; [|done].
    rewrite (rs_frames _ _ _ Hr). by destruct (proj1 (sb_frame_at_Some _ _ _ _) (sel_frame _ _ _ _ _ Hs)). }
  assert (Honly : forall i, inferring_at b' i -> i = l).
  { intros i (h & _ & _ & Hst)%(restated_inferring _ _ _ _ Hr). unfold select_states in Hst.
    case_bool_decide; [done|]. by destruct (fb_infer_state h). }
  refine (inv_restated _ _ _ _ _ _ _ Hinv Hwf' Hr _ _ _ _).
  - right. intros i. rewrite selectable_find, (rs_find _ _ _ Hr). destruct (findFrame i b) as [h|]; [|done]. cbn.
    unfold select_states. case_bool_decide; [by rewrite andb_false_r|]. by destruct (fb_infer_state h); cbn; rewrite andb_false_r.
  - intros i j Hi%Honly Hj%Honly. congruence.
  - intros i [= <-]. rewrite Hid. exists (fb_set_infer_state Selected g). split; [apply Hs|].
    split; [apply (sel_image _ _ _ _ _ Hs)|done].
  - intros i Hi%Honly. subst i. right. intros packet. by apply (selection_newest _ _ _ _ _ _ _ _ Hinv Hs).
Qed.

(** ** Calls that leave the frames alone *)

Record same_frames (b b' : StreamBuffer) : Prop := {
  sf_frames : sb_frames b' = sb_frames b;
  sf_store : sb_store b' = sb_store b;
  sf_order : sb_frame_order b' = sb_frame_order b;
}.

Lemma same_find b b' id : same_frames b b' -> findFrame id b' = findFrame id b.
Proof. intros [E1 E2 _]. unfold findFrame, sb_frame_at. by rewrite E1, E2. Qed.

Lemma same_selectable b b' id : same_frames b b' -> selectable b' id = selectable b id.
Proof. intros Hf. by rewrite !selectable_find, (same_find _ _ _ Hf). Qed.

Lemma same_decoded b b' id : same_frames b b' -> decoded_at b' id <-> decoded_at b id.
Proof. intros Hf. unfold decoded_at. by rewrite (same_find _ _ _ Hf). Qed.

Lemma same_inferring b b' id : same_frames b b' -> inferring_at b' id <-> inferring_at b id.
Proof. intros Hf. unfold inferring_at. by rewrite (same_find _ _ _ Hf). Qed.

Lemma inv_same_frames b b' seen seen' held ph ph' :
  stream_inv (streaming b seen held ph) -> sb_wf b' -> same_frames b b' ->
  frames_queued (popped_frame ph') seen' b' -> StronglySorted Z.lt (video_ids (sb_packets b')) ->
  phase_ok b' seen' ph' ->
  stream_inv (streaming b' seen' held ph').
Proof.
  intros [H1 H2 H3 H4 H5 H6 H7 H8] Hwf Hf Hq Hs Hph. split; cbn in *; try done.
  - by rewrite (sf_order _ _ Hf).
  - intros i j Hij. rewrite (same_decoded _ _ _ Hf), !(same_selectable _ _ _ Hf). by apply H5.
  - intros i j. rewrite !(same_inferring _ _ _ Hf). apply H6.
  - intros id Hid. rewrite (same_inferring _ _ _ Hf). by apply H7.
Qed.

(** More ids were seen and only later packets were queued. *)
Lemma sending_same_frames b b' seen seen' packet :
  same_frames b b' -> (forall i, i ∈ seen.1 -> i ∈ seen'.1) -> (forall i, i ∈ seen.2 -> i ∈ seen'.2) ->
  (forall i, i ∈ video_ids (sb_packets b') -> i ∈ video_ids (sb_packets b) \/ ep_frame_id packet <= i) ->
  sending_video b seen packet -> sending_video b' seen' packet.
Proof.
  intros Hf H1 H2 Hq [(A1 & A2 & A3) B C D]. split.
  - auto.
  - intros i [?|?]%Hq; auto.
  - intros i. rewrite (same_inferring _ _ _ Hf). apply C.
  - rewrite (same_decoded _ _ _ Hf). intros (j & ? & ?)%D. exists j. by rewrite (same_decoded _ _ _ Hf).
Qed.

(** A call that changes neither the packets nor the frames. *)
Lemma inv_same b b' seen held ph :
  stream_inv (streaming b seen held ph) -> sb_wf b' -> same_frames b b' ->
  sb_packets b' = sb_packets b -> (sb_stopped b = true -> sb_stopped b' = true) ->
  stream_inv (streaming b' seen held ph).
Proof.
  intros Hinv Hwf Hf Hp Hs. pose proof Hinv as [_ H2 H3 _ _ _ _ H8]. cbn in *.
  apply (inv_same_frames b b' seen seen held ph ph); [done|done|done| | |].
  - by apply (frames_queued_same _ _ b); [|apply Hf|..].
  - by rewrite Hp.
  - assert (Hv : forall packet, sending_video b seen packet -> sending_video b' seen packet).
    { intros packet. apply sending_same_frames; [done|done|done|]. rewrite Hp. by left. }
    destruct ph as [|packet|packet]; cbn in *; [done| |by auto]. rewrite Hp. destruct H8. split; auto.
Qed.

(** ** The puller *)

Lemma enqueuePacket_frames p b : same_frames b (enqueuePacket p b).2.
Proof. unfold enqueuePacket. destruct p; [|by split]. destruct (sb_stopped b); by split. Qed.

Lemma sorted_snoc (l : list Z) x : StronglySorted Z.lt l -> (forall i, i ∈ l -> i < x) -> StronglySorted Z.lt (l ++ [x]).
Proof.
  intros Hl Hx. apply StronglySorted_app. split_and!; [|done|by repeat constructor].
  intros i j Hi ->%list_elem_of_singleton. by apply Hx.
Qed.

Lemma enqueuePacket_ids e seen b :
  (forall id, id ∈ video_ids (sb_packets b) -> id ∈ seen.1) -> allowed seen (CallEnqueuePacket (Some e)) ->
  StronglySorted Z.lt (video_ids (sb_packets b)) ->
  StronglySorted Z.lt (video_ids (sb_packets (enqueuePacket (Some e) b).2)) /\
  forall i, i ∈ video_ids (sb_packets (enqueuePacket (Some e) b).2) ->
    i ∈ video_ids (sb_packets b) \/ forall k, k ∈ seen.1 -> k < i.
Proof.
  intros Hin Ha Hs. unfold enqueuePacket. destruct (sb_stopped b); cbn; [by auto|].
  rewrite video_ids_app, video_ids_one. case_bool_decide as Hv; [|by rewrite app_nil_r; auto].
  destruct (Ha Hv) as [_ Hnew]. split.
  - apply sorted_snoc; [done|]. intros i Hi. by apply Hnew, Hin.
  - intros i [?| ->%list_elem_of_singleton]%elem_of_app; auto.
Qed.

Lemma inv_packet b p seen held ph :
  stream_inv (streaming b seen held ph) -> allowed seen (CallEnqueuePacket p) ->
  stream_inv (streaming (enqueuePacket p b).2 (note seen (CallEnqueuePacket p)) held ph).
Proof.
  intros Hinv Ha. destruct p as [e|]; [|done]. pose proof Hinv as [H1 H2 H3 _ _ _ _ H8]. cbn in H1, H2, H3, H8.
  destruct (enqueuePacket_ids e seen b (fq_ids _ _ _ H2) Ha H3) as [Hs Hnew].
  pose proof (enqueuePacket_frames (Some e) b) as Hf.
  apply (inv_same_frames b _ seen _ held ph ph); [done|by apply enqueuePacket_wf|done| |done|].
  - by apply (frames_queued_apply _ _ (CallEnqueuePacket (Some e))).
  - assert (Hv : forall packet, sending_video b seen packet ->
              sending_video (enqueuePacket (Some e) b).2 (note seen (CallEnqueuePacket (Some e))) packet).
    { intros packet Hsend. apply (sending_same_frames b _ seen); [done| | | |done].
      - intros i Hi. cbn. case_bool_decide; [by right|done].
      - intros i Hi. cbn. by case_bool_decide.
      - intros i [?|Hi]%Hnew; [by left|right]. apply Z.lt_le_incl, Hi. apply (sv_seen _ _ _ Hsend). }
    destruct ph as [|packet|packet]; cbn [phase_ok] in *; [done| |by auto].
    destruct H8 as [[rest Hrest] H8]. split; [|by auto].
    unfold enqueuePacket. destruct (sb_stopped b); cbn; [by exists rest|]. rewrite Hrest. by eexists.
Qed.

(** A frame newer than all others, not yet looked at. *)
Lemma inv_new_frame b f seen held ph :
  stream_inv (streaming b seen held ph) -> allowed seen (CallEnqueueFrame (Some f)) -> sb_stopped b = false ->
  stream_inv (streaming (enqueueFrame (Some f) b).2 (note seen (CallEnqueueFrame (Some f))) held ph).
Proof.
  intros [H1 H2 H3 H4 H5 H6 H7 H8] Ha Hs. pose proof Ha as (Hid & Hnew & Hidle). cbn in H1, H2, H3, H4, H5, H6, H7, H8.
  pose proof (fun i => enqueueFrame_find f b i H1 Hs) as Hfind.
  set (b' := (enqueueFrame (Some f) b).2) in *. set (k := fb_frame_id f) in *.
  assert (Hp : sb_packets b' = sb_packets b) by (unfold b', enqueueFrame; by rewrite Hs).
  assert (Hlt : forall i, is_Some (sb_frames b !! i) -> i < k) by (intros i Hi; by apply Hnew, (fq_frames _ _ _ H2 i Hi)).
  assert (Hin : forall i, inferring_at b' i -> inferring_at b i).
  { intros i (g & Hg & Hi & Hst). rewrite Hfind in Hg. case_bool_decide; [|by exists g].
    injection Hg as <-. by rewrite Hidle in Hst. }
  assert (Hkeep : forall i, i <> k -> findFrame i b' = findFrame i b) by (intros i Hi; by rewrite Hfind, bool_decide_false).
  assert (Hdec : forall i, decoded_at b i -> decoded_at b' i /\ i < k).
  { intros i Hi. pose proof (Hlt i (decoded_in_frames _ _ Hi)). split; [|done]. unfold decoded_at. by rewrite Hkeep by lia. }
  assert (Hsend : forall packet, sending_video b seen packet -> sending_video b' (note seen (CallEnqueueFrame (Some f))) packet).
  { intros packet [(A1 & A2 & A3) B C D]. split; cbn.
    - split_and!; [done|done|by right].
    - by rewrite Hp.
    - intros i Hi. by apply C, Hin.
    - intros (g & Hg & Hi). specialize (Hnew _ A3). rewrite Hkeep in Hg by lia.
      destruct D as (j & Hj & Hdj); [by exists g|]. exists j. split; [done|by apply Hdec]. }
  split; cbn.
  - by apply enqueueFrame_wf.
  - by apply (frames_queued_apply _ _ (CallEnqueueFrame (Some f))).
  - by rewrite Hp.
  - unfold b', enqueueFrame. rewrite Hs. cbn. apply sorted_snoc; [done|].
    intros i Hi. by apply Hlt, (wf_order b H1).
  - intros i j Hij (g & Hg & Hi) (h & Hh & Hhi & Hst)%selectable_true. rewrite Hfind in Hg, Hh.
    destruct (decide (j = k)) as [->|Hj].
    + apply selectable_true. exists f. rewrite Hfind, bool_decide_true in * by done. by injection Hg as <-.
    + rewrite bool_decide_false in Hg by done. assert (Hdj : decoded_at b j) by (by exists g).
      pose proof (Hdec j Hdj) as [_ Hjk]. rewrite bool_decide_false in Hh by lia.
      rewrite selectable_find, Hkeep, <- selectable_find by done. apply (H5 i j Hij Hdj). apply selectable_true. by exists h.
  - intros i j Hi%Hin Hj%Hin. by apply H6.
  - intros i Hi. destruct (H7 i Hi) as (g & Hg & Himg & Hst). exists g. rewrite Hkeep; [done|].
    pose proof (Hlt i (decoded_in_frames b i ltac:(by exists g))). lia.
  - destruct ph as [|packet|packet]; cbn [phase_ok] in *; [done| |by auto]. rewrite Hp. destruct H8. split; auto.
Qed.

Lemma inv_puller b c seen held ph :
  stream_inv (streaming b seen held ph) -> puller_call c -> allowed seen c ->
  stream_inv (streaming (sb_apply c b) (note seen c) held ph).
Proof.
  intros Hinv Hc Ha. destruct c as [p|[f|]| | | | | | | | |]; try done; [by apply inv_packet|].
  cbn [sb_apply]. destruct (sb_stopped b) eqn:Hs; [|by apply inv_new_frame].
  pose proof Hinv as [H1 H2 H3 _ _ _ _ H8]. cbn in H1, H2, H3, H8.
  pose proof (frames_queued_apply _ _ (CallEnqueueFrame (Some f)) _ ltac:(done) Ha H2) as H2'.
  assert (E : (enqueueFrame (Some f) b).2 = b) by (cbn; by rewrite Hs). cbn [sb_apply] in H2'. rewrite E in *.
  apply (inv_same_frames b b seen _ held ph ph); try done.
  assert (Hsend : forall packet, sending_video b seen packet -> sending_video b (note seen (CallEnqueueFrame (Some f))) packet).
  { intros packet. apply sending_same_frames; [done|done| |by left]. intros i Hi. by right. }
  destruct ph as [|packet|packet]; cbn [phase_ok] in *; [done| |by auto]. destruct H8. split; auto.
Qed.

(** ** The publishing thread *)

Lemma inferring_reported b i : sb_wf b -> inferring_at b i -> exists j, inferringFrameIdLocked b = Some j.
Proof.
  intros Hwf (f & Hf & Hi & Hst). unfold inferringFrameIdLocked.
  destruct (first_inferring b (sb_frame_order b)) as [j|] eqn:E; [by exists j|]. exfalso.
  apply first_inferring_None in E. rewrite Forall_forall in E.
  assert (i ∈ sb_frame_order b) as Hin by (apply (wf_order b Hwf), decoded_in_frames; by exists f).
  specialize (E i Hin f Hf Hi). congruence.
Qed.

(** Passing the gates is what [sending_video] says. *)
Lemma gate_sending b packet rest seen held :
  stream_inv (streaming b seen held Waiting) -> waitForPublishable kMinVideoWatermark b = true ->
  sb_packets b = Some packet :: rest -> ep_media_type packet = Video -> sending_video b seen packet.
Proof.
  intros [H1 H2 H3 _ _ H6 _ _] Hw Hp Hv. cbn in *.
  destruct (published_frame_seen None seen b packet rest H1 H2 Hp Hv Hw) as [H0 Hseen].
  apply (waitForPublishable_video kMinVideoWatermark b packet rest H1 ltac:(done) Hp Hv) in Hw as [_ [G1 G2 _]].
  assert (Hhead : ep_frame_id packet ∈ video_ids (sb_packets b)).
  { rewrite Hp. cbn. rewrite bool_decide_true by done. left. }
  assert (Hqueue : forall i, i ∈ video_ids (sb_packets b) -> ep_frame_id packet <= i).
  { rewrite Hp in *. cbn in H3 |- *. rewrite bool_decide_true in * by done. intros i [->|Hi]%elem_of_cons; [done|].
    apply StronglySorted_inv in H3 as [_ H3]. rewrite Forall_forall in H3. by apply Z.lt_le_incl, H3. }
  split; [|done|..].
  - split_and!; [done|by apply (fq_ids _ _ _ H2)|done].
  - intros i Hi. destruct (inferring_reported b i H1 Hi) as [j Hj]. rewrite (H6 i j Hi); [by apply G1|].
    apply first_inferring_Some in Hj as (_ & _ & f & _ & ? & ? & ? & _). by exists f.
  - intros (f & Hf & Hi). destruct (G2 H0) as (f' & Hf' & Hother). assert (f' = f) as -> by congruence.
    destruct (Hother Hi) as (j & g & Hne & Hg & Hgi). assert (Hdj : decoded_at b j) by (by exists g).
    exists j. split; [|done]. destruct (fq_frames _ _ _ H2 j (decoded_in_frames _ _ Hdj)) as [[Hj|?] _]; [|done].
    specialize (Hqueue j Hj). lia.
Qed.

Lemma inv_gate b packet seen held :
  stream_inv (streaming b seen held Waiting) -> waitForPublishable kMinVideoWatermark b = true ->
  peekPacket b = Some packet -> stream_inv (streaming b seen held (Sending packet)).
Proof.
  intros Hinv Hw Hp. unfold peekPacket in Hp. destruct (sb_packets b) as [|front rest] eqn:E; [done|]. subst front.
  pose proof Hinv as [H1 H2 H3 _ _ _ _ _]. cbn in H1, H2, H3.
  apply (inv_same_frames b b seen seen held Waiting (Sending packet)); try done.
  split; [by exists rest|]. intros Hv. by eapply gate_sending.
Qed.

Lemma inv_pop b packet seen held :
  stream_inv (streaming b seen held (Sending packet)) ->
  stream_inv (streaming (popPacket b) seen held (Sent packet)).
Proof.
  intros Hinv. pose proof Hinv as [H1 H2 H3 _ _ _ _ [[rest Hp] H8]]. cbn in H1, H2, H3, Hp, H8.
  destruct (popPacket_front b _ _ Hp) as (E1 & E2 & E3 & E4).
  assert (Hf : same_frames b (popPacket b)) by (split; [done|done|]; unfold popPacket; by rewrite Hp).
  apply (inv_same_frames b _ seen _ held (Sending packet)); [done|by apply popPacket_wf|done|..].
  - apply (frames_queued_pop seen b packet rest Hp); [|done]. intros Hv. apply (sv_seen _ _ _ (H8 Hv)).
  - rewrite E1. rewrite Hp in H3. cbn in H3. case_bool_decide; [|done]. by apply StronglySorted_inv in H3 as [? _].
  - intros Hv. apply (sending_same_frames b _ seen); [done|done|done| |by apply H8].
    rewrite E1, Hp. intros i Hi. left. cbn. case_bool_decide; [by right|done].
Qed.

(** Releasing a frame that is not under inference. *)
Lemma release_restricts b id i :
  (decoded_at (releaseFrame id b) i <-> i <> id /\ decoded_at b i) /\
  (inferring_at (releaseFrame id b) i <-> i <> id /\ inferring_at b i) /\
  selectable (releaseFrame id b) i = (if bool_decide (i = id) then false else selectable b i).
Proof.
  unfold decoded_at, inferring_at. rewrite !selectable_find, findFrame_release. case_bool_decide; [|naive_solver].
  split_and!; [split; naive_solver|split; naive_solver|done].
Qed.

Lemma inv_release b packet seen held :
  stream_inv (streaming b seen held (Sent packet)) ->
  stream_inv (streaming (if bool_decide (ep_media_type packet = Video) && (0 <=? ep_frame_id packet)
                             then releaseFrame (ep_frame_id packet) b else b) seen held Waiting).
Proof.
  intros [H1 H2 H3 H4 H5 H6 H7 H8]. cbn in *. case_bool_decide as Hv; cbn [andb]; [|by split].
  specialize (H8 Hv). destruct (sv_seen _ _ _ H8) as [H0 _]. rewrite (proj2 (Z.leb_le _ _)) by done.
  pose proof (fun i => release_restricts b (ep_frame_id packet) i) as Hr.
  set (b' := releaseFrame (ep_frame_id packet) b) in *. split; cbn [sy_shared sh_buffer sh_seen sh_held sy_phase popped_frame phase_ok].
  - by apply releaseFrame_wf.
  - by apply frames_queued_release.
  - done.
  - by eapply sublist_StronglySorted; [apply sublist_filter|].
  - intros i j Hij. destruct (Hr j) as (-> & _ & ->), (Hr i) as (_ & _ & ->). intros [Hj Hd].
    rewrite (bool_decide_false (j = _)) by done. case_bool_decide; [done|]. by apply H5.
  - intros i j. destruct (Hr j) as (_ & -> & _), (Hr i) as (_ & -> & _). intros [_ ?] [_ ?]. by apply H6.
  - intros i Hi. destruct (Hr i) as (_ & -> & _). specialize (H7 i Hi). split; [|done].
    pose proof (sv_inferring _ _ _ H8 i H7). lia.
  - done.
Qed.

Lemma takeCached_frames iter id pts now b : same_frames b (takeCachedInferenceResult iter id pts now b).2.
Proof. unfold takeCachedInferenceResult. repeat case_match; by split. Qed.

Lemma updateCached_frames r b :
  same_frames b (updateCachedInferenceResult r b) /\ sb_packets (updateCachedInferenceResult r b) = sb_packets b /\
  sb_stopped (updateCachedInferenceResult r b) = sb_stopped b.
Proof. unfold updateCachedInferenceResult. by case_match; split_and!; try split. Qed.

Lemma inv_unheld b seen held ph :
  stream_inv (streaming b seen held ph) -> stream_inv (streaming b seen None ph).
Proof. intros [H1 H2 H3 H4 H5 H6 H7 H8]. by split. Qed.

(** A result without a frame id changes no frame. *)
Lemma markInferenceDone_none b r seen held ph :
  stream_inv (streaming b seen held ph) -> fr_frame_id r < 0 -> markInferenceDone r b = b.
Proof.
  intros Hinv Hr. unfold markInferenceDone, clearInferenceSelection.
  destruct (sb_frame_at b (fr_frame_id r)) as [[p f]|] eqn:E; [|done]. exfalso.
  apply sb_frame_at_Some in E as [Hp _]. pose proof (si_queued _ Hinv) as Hq. cbn in Hq.
  destruct (fq_frames _ _ _ Hq (fr_frame_id r)) as [[Hin|Hpop] _]; [by exists p| |].
  - pose proof (fq_nonneg _ _ _ Hq _ (fq_ids _ _ _ Hq _ Hin)). lia.
  - destruct ph as [|packet|packet]; try done. cbn in Hpop. case_bool_decide as Hv; [|done]. injection Hpop as Hpop.
    pose proof (si_phase _ Hinv Hv) as Hs. destruct (sv_seen _ _ _ Hs). lia.
Qed.

(** Every call of every thread keeps the invariant. *)
Lemma inv_other c s ph : enabled c s -> stream_inv (mkStreamState s ph) -> stream_inv (mkStreamState (after c s) ph).
Proof.
  intros Hc Hinv. pose proof (si_wf _ Hinv) as Hwf. destruct s as [b seen held]. cbn in Hwf.
  destruct c as [p|f| |id|r|id st| |id|r|iter id pts now|]; try done; unfold after; cbn in Hc; cbn [sh_buffer sh_seen sh_held held_after].
  - by apply inv_packet.
  - destruct f as [f|]; [|done]. by apply inv_puller.
  - subst held. cbn. destruct (selectFrameForInference b) as [[q|] b'] eqn:Hsel;
      pose proof (selectFrame_cases b Hwf) as Hcase; rewrite Hsel in Hcase.
    + destruct (sb_store b' !! q) as [f|] eqn:Hq; [cbn; rewrite Hq; by eapply inv_select|].
      destruct Hcase as (l & g & Hs). apply selection_frame in Hs. congruence.
    + by destruct Hcase as [-> _].
  - subst held. apply inv_clear; [done|done|by right].
  - destruct Hc as (id & -> & [Hr|Hr]); cbn.
    + unfold markInferenceDone. rewrite Hr. apply inv_clear; [done|done|by left].
    + rewrite (markInferenceDone_none b r seen (Some id) ph); [by eapply inv_unheld|done|lia].
  - destruct Hc as [-> ->]. apply inv_clear; [done|done|by left].
  - destruct (updateCached_frames r b) as (Hf & Hpk & Hs).
    apply (inv_same b); [done|by apply updateCached_wf|done|done|by cbn; rewrite Hs].
  - apply (inv_same b); [done|by apply (sb_apply_wf CallStop)|by split|done|done].
Qed.

Lemma inv_step x y : stream_step x y -> stream_inv x -> stream_inv y.
Proof.
  intros Hstep Hinv. pose proof (si_wf _ Hinv) as Hwf.
  destruct Hstep as [c s ph Hc|[b seen held] packet Hw Hp|iter id pts now [b seen held] packet|[b seen held] packet
    |[b seen held] packet]; cbn in Hwf.
  - by apply inv_other.
  - by apply inv_gate.
  - destruct (takeCached_packets iter id pts now b) as (Hpk & Hs & _).
    apply (inv_same b); [done|by apply takeCached_wf|apply takeCached_frames|done|by cbn; rewrite Hs].
  - by apply inv_pop.
  - pose proof (inv_release b packet seen held Hinv) as H. by destruct (_ && _).
Qed.

Lemma inv_start id : stream_inv (stream_start id).
Proof.
  assert (Hno : forall i f, findFrame i (createStreamBuffer id) <> Some f).
  { intros i f. unfold findFrame, sb_frame_at. cbn. by rewrite lookup_empty. }
  split; cbn.
  - apply sb_wf_new.
  - split; cbn; [by intros ? ?%elem_of_nil|constructor|by intros ? ?%elem_of_nil|by intros ? [? ?]|by intros ? ?%elem_of_nil].
  - constructor.
  - constructor.
  - intros i j _ (f & Hf & _). by destruct (Hno j f).
  - intros i j (f & Hf & _). by destruct (Hno i f).
  - done.
  - done.
Qed.

Lemma reachable_inv id x : rtc stream_step (stream_start id) x -> stream_inv x.
Proof. generalize (inv_start id). generalize (stream_start id). intros y Hy Hrun. induction Hrun; eauto using inv_step. Qed.

(** C13: However the calls of the threads of a stream interleave, a frame an inference
    thread works on is never taken away: it stays in the buffer, decoded and under
    inference, until that thread finishes with it; and while the publishing thread has a
    video packet in hand, that frame comes strictly after the packet's, the packet's own
    frame is not under inference, and unless it was not decoded another decoded frame lies
    behind it - so the release that follows leaves something to infer on. *)
Theorem inference_frame_stays (stream_id : string) (x : stream_state)
    (Hrun : rtc stream_step (stream_start stream_id) x) :
  (forall id, sy_held x = Some id -> inferring_at (sy_buffer x) id) /\
  (forall packet, busy_with (sy_phase x) packet ->
     (forall id, sy_held x = Some id -> ep_frame_id packet < id) /\
     ~ inferring_at (sy_buffer x) (ep_frame_id packet) /\
     (decoded_at (sy_buffer x) (ep_frame_id packet) ->
        exists id, ep_frame_id packet < id /\ decoded_at (releaseFrame (ep_frame_id packet) (sy_buffer x)) id)).
Proof.
  pose proof (reachable_inv stream_id x Hrun) as Hinv. split; [apply (si_held _ Hinv)|].
  intros packet [Hph Hv].
  assert (Hs : sending_video (sy_buffer x) (sy_seen x) packet).
  { pose proof (si_phase _ Hinv) as H8. destruct Hph as [Hph|Hph]; rewrite Hph in H8; cbn in H8; [by apply H8|by apply H8]. }
  split_and!.
  - intros id Hid. by apply (sv_inferring _ _ _ Hs), (si_held _ Hinv).
  - intros Hi%(sv_inferring _ _ _ Hs). lia.
  - intros (id & Hlt & Hd)%(sv_other _ _ _ Hs). exists id. split; [done|].
    apply release_restricts. split; [lia|done].
Qed.


(** ** The publishing loop makes these steps *)

Lemma after_all_shared cs : forall s,
  sh_buffer (after_all cs s) = sb_run cs (sh_buffer s) /\ sh_seen (after_all cs s) = foldl note (sh_seen s) cs.
Proof. induction cs as [|c cs IH]; intros s; [done|]. apply (IH (after c s)). Qed.

Lemma after_all_app cs ds s : after_all (cs ++ ds) s = after_all ds (after_all cs s).
Proof. apply foldl_app. Qed.

(** In a sequence of calls of all threads, the other threads keep to their protocol. *)
Fixpoint others_allowed (cs : list sb_call) (s : shared) : Prop :=
  match cs with
  | [] => True
  | c :: cs => (foreign_to_publisher c -> enabled c s) /\ others_allowed cs (after c s)
  end.

Lemma others_allowed_app cs ds : forall s,
  others_allowed (cs ++ ds) s <-> others_allowed cs s /\ others_allowed ds (after_all cs s).
Proof. induction cs as [|c cs IH]; intros s; cbn; [tauto|]. rewrite IH. tauto. Qed.

Lemma others_steps cs ph : forall s,
  Forall foreign_to_publisher cs -> others_allowed cs s ->
  rtc stream_step (mkStreamState s ph) (mkStreamState (after_all cs s) ph).
Proof.
  induction cs as [|c cs IH]; intros s Hcs Hok; [done|]. apply Forall_cons in Hcs as [Hc Hcs]. destruct Hok as [Hen Hok].
  eapply rtc_l; [by apply step_other, Hen|]. by apply IH.
Qed.

Section Publishing.
Context (av_rescale_q : Z -> AVRational -> AVRational -> Z)
        (av_packet_rescale_ts : AVPacket -> AVRational -> AVRational -> AVPacket)
        (pub_write_ok rec_write_ok : nat -> bool) (ref_ok clone_ok : AVPacket -> bool)
        (rename_ok : string -> string -> bool) (lib : PacketLibrary)
        (iter : gmap Z FrameInferenceResult -> list (Z * FrameInferenceResult)).
Abbreviation publish_turn := (publish_turn av_rescale_q av_packet_rescale_ts pub_write_ok rec_write_ok ref_ok clone_ok
                                rename_ok lib iter).
Abbreviation publish_run := (publish_run av_rescale_q av_packet_rescale_ts pub_write_ok rec_write_ok ref_ok clone_ok
                               rename_ok lib iter).

(** All the calls on the buffer in a turn with this outcome, the publishing thread's own
    ones between those of the others. *)
Definition turn_calls (o : publish_answers * option publication) : list sb_call :=
  let '(an, out) := o in
  match out with
  | None => pa_before an
  | Some (packet, _) =>
      let video := bool_decide (ep_media_type packet = Video) in
      pa_before an ++ pa_peeked an ++
      (if video then [CallTakeCached iter (ep_frame_id packet) (ep_pts packet) (pa_cache_ms an)] else []) ++
      pa_injected an ++ [CallPopPacket] ++ pa_popped an ++
      (if video && (0 <=? ep_frame_id packet) then [CallReleaseFrame (ep_frame_id packet)] else [])
  end.

(** A turn makes these calls, and sends the packet that was in front when they let it. *)
Lemma publish_turn_calls an s out s' :
  publish_turn an s = Some (out, s') ->
  ps_buffer s' = sb_run (turn_calls (an, out)) (ps_buffer s) /\
  forall packet final, out = Some (packet, final) ->
    let b1 := sb_run (pa_before an) (ps_buffer s) in
    waitForPublishable kMinVideoWatermark b1 = true /\ peekPacket b1 = Some packet.
Proof.
  unfold Publish.publish_turn. set (b1 := sb_run (pa_before an) (ps_buffer s)).
  destruct (waitForPublishable _ b1) eqn:Hw; cbn [negb]; [|by intros [= <- <-]].
  destruct (peekPacket b1) as [packet|] eqn:Hp; [|by intros [= <- <-]]. cbv zeta.
  set (r := if bool_decide _ then inject_video _ _ _ _ _ _ _ else _).
  destruct r as [[override b2]|] eqn:Er; cbn [mbind option_bind]; [|done].
  destruct (offer_publisher _ _ _ _ _ _) as [publisher mux]. destruct (offer_recorder _ _ _ _ _ _ _ _) as [recorder rec].
  intros [= <- <-]. split; [|by intros ? ? [= <- <-]]. cbn [ps_buffer turn_calls]. rewrite !sb_run_app. fold b1.
  assert (b2 = sb_run (if bool_decide (ep_media_type packet = Video)
                       then [CallTakeCached iter (ep_frame_id packet) (ep_pts packet) (pa_cache_ms an)] else [])
                 (sb_run (pa_peeked an) b1)) as ->.
  { revert Er. unfold r. case_bool_decide; [|by intros [= _ <-]]. unfold inject_video.
    change (sb_run [CallTakeCached iter ?i ?p ?t] ?b) with (takeCachedInferenceResult iter i p t b).2.
    destruct (takeCachedInferenceResult _ _ _ _ _) as [cached b3]. destruct (inject _ _ _ _ _) as [[? ?]|]; [|done].
    by intros [= _ <-]. }
  by destruct (_ && _).
Qed.

Lemma publish_turn_steps an s out s' seen held :
  answers_foreign an -> publish_turn an s = Some (out, s') ->
  others_allowed (turn_calls (an, out)) (mkShared (ps_buffer s) seen held) ->
  rtc stream_step (streaming (ps_buffer s) seen held Waiting)
    (mkStreamState (after_all (turn_calls (an, out)) (mkShared (ps_buffer s) seen held)) Waiting).
Proof.
  intros (Hf1 & Hf2 & Hf3 & Hf4)%foreign_parts [_ Hgate]%publish_turn_calls. set (s0 := mkShared _ _ _).
  destruct out as [[packet final]|]; cbn [turn_calls]; [|by apply others_steps].
  destruct (Hgate packet final eq_refl) as [Hw Hp]. rewrite !others_allowed_app, !after_all_app.
  destruct (after_all_shared (pa_before an) s0) as [Hb _]. intros (O1 & O2 & _ & O3 & _ & O4 & _).
  etrans; [by apply (others_steps (pa_before an) Waiting)|].
  eapply rtc_l; [apply (step_gate _ packet); by rewrite Hb|].
  etrans; [by apply (others_steps (pa_peeked an) (Sending packet))|]. set (s2 := after_all (pa_peeked an) _) in *.
  etrans; [|etrans; [by apply (others_steps (pa_injected an) (Sending packet))|]].
  { case_bool_decide; [|done]. apply rtc_once, step_take. }
  set (s3 := after_all (pa_injected an) _) in *. eapply rtc_l; [apply step_pop|].
  etrans; [by apply (others_steps (pa_popped an) (Sent packet))|]. set (s4 := after_all (pa_popped an) _) in *.
  pose proof (step_release s4 packet) as Hrel. apply rtc_once. by destruct (_ && _).
Qed.

(** C16: The publishing loop makes the publishing thread's steps: a run of it in which the
    other threads' calls keep to their protocol - whatever they do between its own - is a
    run of the interleaved system, from the buffer it starts with to the one it ends with. *)
Theorem publishing_interleaves (ans : list publish_answers) (s s' : publish_state)
    (outs : list (publish_answers * option publication)) (seen : ids_seen) (held : option Z)
    (Hforeign : Forall answers_foreign ans) (Hrun : publish_run ans s = Some (outs, s'))
    (Hothers : others_allowed (outs ≫= turn_calls) (mkShared (ps_buffer s) seen held)) :
  let last := after_all (outs ≫= turn_calls) (mkShared (ps_buffer s) seen held) in
  sh_buffer last = ps_buffer s' /\
  rtc stream_step (streaming (ps_buffer s) seen held Waiting) (mkStreamState last Waiting).
Proof.
  revert s outs seen held Hforeign Hrun Hothers.
  induction ans as [|an ans IH]; intros s outs seen held Hforeign Hrun Hothers; [by injection Hrun as <- <-|].
  apply Forall_cons in Hforeign as [Han Hans].
  apply publish_run_cons in Hrun as (out & s1 & rest & Hturn & Hrun & ->).
  cbn [mbind list_bind] in *. rewrite after_all_app in *. apply others_allowed_app in Hothers as [O1 O2].
  pose proof (publish_turn_steps an s out s1 seen held Han Hturn O1) as Hsteps.
  destruct (publish_turn_calls an s out s1 Hturn) as [Hb _].
  destruct (after_all_shared (turn_calls (an, out)) (mkShared (ps_buffer s) seen held)) as [Hb1 _].
  set (y := after_all (turn_calls (an, out)) _) in *. cbn [sh_buffer] in Hb1. rewrite <- Hb in Hb1.
  destruct y as [b1 seen1 held1]. cbn in Hb1. subst b1.
  destruct (IH s1 rest seen1 held1 Hans Hrun O2) as [Hlast Hsteps2]. split; [done|by etrans].
Qed.
End Publishing.

(** ** The inference loop makes these steps *)

Section Inference.
Context `{MessageDifferencer} `{EnvelopeCodec} (api : TrackerApi) (edge : EdgeInferApi)
        (av_rescale_q : Z -> AVRational -> AVRational -> Z)
        (av_packet_rescale_ts : AVPacket -> AVRational -> AVRational -> AVPacket)
        (rec_write_ok : nat -> bool) (clone_ok : AVPacket -> bool) (rename_ok : string -> string -> bool).

Abbreviation infer_task := (infer_task api edge av_rescale_q av_packet_rescale_ts rec_write_ok clone_ok rename_ok).

(** How a task leaves its buffer: the frame dropped, or a result filed. *)
Inductive task_end (id : Z) (sb1 sb2 : StreamBuffer) : StreamBuffer -> Prop :=
| te_dropped : task_end id sb1 sb2 (clearInferenceSelection id Dropped sb1)
| te_filed r : fr_frame_id r = id \/ fr_frame_id r = -1 ->
    task_end id sb1 sb2 (updateCachedInferenceResult r (markInferenceDone r sb2)).

Lemma infer_task_buffer an task w w' b frame sb sb1 sb2 :
  it_buffer task = Some b -> task_frame task (iw_pipe w) = Some frame -> pl_buffers (iw_pipe w) !! b = Some sb ->
  (forall p, pl_buffers p !! b = Some (markInferenceRunning (fb_frame_id frame) sb) ->
     pl_buffers (ia_meanwhile an p) !! b = Some sb1) ->
  (forall p, pl_buffers p !! b = Some sb1 -> pl_buffers (ia_during an p) !! b = Some sb2) ->
  infer_task an task w = Some w' ->
  exists sb', pl_buffers (iw_pipe w') !! b = Some sb' /\ task_end (fb_frame_id frame) sb1 sb2 sb'.
Proof.
  intros Hb Hf Hsb Hmean Hdur Hrun.
  set (p1 := on_buffer b (markInferenceRunning (fb_frame_id frame)) (iw_pipe w)).
  assert (H1 : pl_buffers (ia_meanwhile an p1) !! b = Some sb1).
  { apply Hmean. cbn. by rewrite lookup_alter_eq, Hsb. }
  assert (Hdrop : forall ipc tr,
            Some (mkInferWorld (drop_task b (it_stream_id task) (fb_frame_id frame) (ia_meanwhile an p1)) ipc tr) = Some w' ->
            exists sb', pl_buffers (iw_pipe w') !! b = Some sb' /\ task_end (fb_frame_id frame) sb1 sb2 sb').
  { intros ipc tr [= <-]. eexists. split; [cbn; by rewrite lookup_alter_eq, H1|constructor]. }
  destruct (if has_image frame then live_stream (it_stream_id task) (ia_meanwhile an p1) else None) as [[ptr c]|] eqn:El;
    [destruct (de_detector (sx_detector_runtime c)) as [d|] eqn:Ed|].
  - destruct (has_image frame) eqn:Hi; [|done].
    pose proof (infer_task_detected api edge av_rescale_q av_packet_rescale_ts rec_write_ok clone_ok rename_ok
                  an task w b frame ptr c d w' (Build_detects _ _ _ _ _ _ _ _ Hb Hf Hi El Ed) Hrun) as Hbufs.
    pose proof (detect_frame_id api edge (ia_clock an) frame (de_config (sx_detector_runtime c)) d (iw_tracker w)) as Hr.
    destruct (detect _ _ _ _ _ _ _) as [[r d'] tracker]. cbn in Hr. rewrite Hbufs, lookup_alter_eq.
    unfold after_detect. fold p1. rewrite Hdur by done. eexists. by split; [|constructor].
  - revert Hrun. unfold Infer.infer_task. rewrite Hb, Hf. fold p1. rewrite El, Ed. apply Hdrop.
  - revert Hrun. unfold Infer.infer_task. rewrite Hb, Hf. fold p1. rewrite El. apply Hdrop.
Qed.

(** The inference loop makes an inference thread's steps: a task that works on a frame
    of a stream takes the frame from selected to running and, whichever way the task ends,
    hands it back, all in steps of the interleaved system - when what the other threads do
    to the stream's buffer while it runs are such steps, too. *)
Theorem inference_interleaves (an : infer_answers) (task : InferTask frame_ptr) (w w' : InferWorld)
    (b : buffer_ptr) (frame : FrameBundle) (sb sb1 sb2 : StreamBuffer) (seen seen1 seen2 : ids_seen)
    (ph ph1 ph2 : publish_phase)
    (Hb : it_buffer task = Some b) (Hframe : task_frame task (iw_pipe w) = Some frame)
    (Hsb : pl_buffers (iw_pipe w) !! b = Some sb)
    (Hmeanwhile : forall p, pl_buffers p !! b = Some (markInferenceRunning (fb_frame_id frame) sb) ->
                    pl_buffers (ia_meanwhile an p) !! b = Some sb1)
    (Hduring : forall p, pl_buffers p !! b = Some sb1 -> pl_buffers (ia_during an p) !! b = Some sb2)
    (Hsteps1 : rtc stream_step (streaming (markInferenceRunning (fb_frame_id frame) sb) seen (Some (fb_frame_id frame)) ph)
                 (streaming sb1 seen1 (Some (fb_frame_id frame)) ph1))
    (Hsteps2 : rtc stream_step (streaming sb1 seen1 (Some (fb_frame_id frame)) ph1)
                 (streaming sb2 seen2 (Some (fb_frame_id frame)) ph2))
    (Hrun : infer_task an task w = Some w') :
  exists y, sy_held y = None /\ pl_buffers (iw_pipe w') !! b = Some (sy_buffer y) /\
    rtc stream_step (streaming sb seen (Some (fb_frame_id frame)) ph) y.
Proof.
  destruct (infer_task_buffer an task w w' b frame sb sb1 sb2 Hb Hframe Hsb Hmeanwhile Hduring Hrun) as (sb' & Hsb' & Hend).
  set (id := fb_frame_id frame) in *.
  assert (Hstart : stream_step (streaming sb seen (Some id) ph) (streaming (markInferenceRunning id sb) seen (Some id) ph))
    by (by apply (step_other (CallMarkRunning id) (mkShared sb seen (Some id)))).
  destruct Hend as [|r Hr].
  - exists (streaming (clearInferenceSelection id Dropped sb1) seen1 None ph1). split_and!; [done|done|].
    eapply rtc_l; [done|]. etrans; [done|]. apply rtc_once.
    by apply (step_other (CallClear id Dropped) (mkShared sb1 seen1 (Some id))).
  - exists (streaming (updateCachedInferenceResult r (markInferenceDone r sb2)) seen2 None ph2). split_and!; [done|done|].
    eapply rtc_l; [done|]. etrans; [done|]. etrans; [done|].
    eapply rtc_l; [apply (step_other (CallMarkDone r) (mkShared sb2 seen2 (Some id))); by exists id|].
    apply rtc_once. by apply (step_other (CallUpdateCached r) (mkShared (markInferenceDone r sb2) seen2 None)).
Qed.
End Inference.

(** ** Concrete runs

    Two pictures arrive and a thread starts on the second; the publishing thread sends the
    first, whose frame goes while the second stays with its thread, and then waits. *)
Definition ex_before : list sb_call := ex_arrives 0 ++ ex_arrives 1 ++ [CallSelect; CallMarkRunning 1].
Definition ex_start : shared := mkShared (createStreamBuffer "s") ([], []) None.
Definition ex_running : shared := after_all ex_before ex_start.

Lemma ex_before_allowed : others_allowed ex_before ex_start.
Proof. vm_compute. split_and!; try done; intros; try (split; [done|]); set_solver. Qed.

Lemma ex_reached :
  rtc stream_step (stream_start "s") (mkStreamState (after CallPopPacket ex_running) (Sent (ex_video_packet 0))).
Proof.
  etrans; [apply (others_steps ex_before Waiting ex_start); [by repeat constructor|apply ex_before_allowed]|].
  eapply rtc_l; [apply (step_gate _ (ex_video_packet 0)); by vm_compute|]. apply rtc_once, step_pop.
Qed.

Lemma inference_frame_stays_witness :
  inferring_at (sh_buffer (after CallPopPacket ex_running)) 1 /\
  exists id, 0 < id /\ decoded_at (releaseFrame 0 (sh_buffer (after CallPopPacket ex_running))) id.
Proof.
  destruct (inference_frame_stays "s" _ ex_reached) as [Hheld Hsent].
  split; [apply Hheld; by vm_compute|].
  destruct (Hsent (ex_video_packet 0)) as (_ & _ & Hother); [by split; [right|]|].
  apply Hother. eexists. by split; vm_compute.
Defined.

Definition ex_interleaved : list publish_answers :=
  [ex_turn (ex_arrives 0) []; ex_turn (ex_arrives 1 ++ [CallSelect; CallMarkRunning 1]) (ex_arrives 2); ex_turn [] []].

Lemma ex_interleaved_foreign : Forall answers_foreign ex_interleaved.
Proof. by repeat constructor. Qed.

Lemma ex_interleaved_result :
  exists outs s', ex_run ex_interleaved ex_publish_state = Some (outs, s') /\
    ((fun o => ep_frame_id o.2.1) <$> published outs = [0] /\
     others_allowed (outs ≫= turn_calls map_to_list) ex_start /\
     sh_held (after_all (outs ≫= turn_calls map_to_list) ex_start) = Some 1).
Proof.
  apply some_pair. vm_compute. split; [done|]. split; [|done].
  split_and!; try done; intros; try (split; [done|]); set_solver.
Qed.

Lemma publishing_interleaves_witness :
  exists outs s', ex_run ex_interleaved ex_publish_state = Some (outs, s') /\
    rtc stream_step (stream_start "s") (mkStreamState (after_all (outs ≫= turn_calls map_to_list) ex_start) Waiting).
Proof.
  destruct ex_interleaved_result as (outs & s' & Hrun & _ & Hothers & _). exists outs, s'. split; [exact Hrun|].
  apply (publishing_interleaves ex_rescale_q ex_rescale_ts (fun _ => true) (fun _ => true) (fun _ => true) (fun _ => true)
           (fun _ _ => true) ex_library map_to_list ex_interleaved ex_publish_state s' outs ([], []) None
           ex_interleaved_foreign Hrun Hothers).
Defined.

(** A third picture arrives while the task runs. *)
Definition ex_meanwhile (p : Pipeline) : Pipeline := on_buffer 1%positive (sb_run (ex_arrives 2)) p.
Definition ex_busy_answers : infer_answers :=
  mkInferAnswers (mkDetectClock 5 10 20) 1000 (ex_record true) ex_snap_answers (fun _ => ("id"%string, 77))
    (fun c => c) ex_meanwhile (fun p => p).
Abbreviation ex_busy_run edge :=
  (infer_task (H0 := ex_codec) ex_tracker_api edge ex_rescale_q ex_rescale_ts (fun _ => true) (fun _ => true) ex_rename
    ex_busy_answers (ex_acquired edge).1 (ex_acquired edge).2).
Definition ex_busy_buffer : StreamBuffer := sb_run (ex_arrives 2) (markInferenceRunning 1 (ex_task_buffer ex_infer_edge)).

Lemma ex_arrival_steps sb :
  rtc stream_step (streaming sb ([1; 0], [1; 0]) (Some 1) Waiting)
    (streaming (sb_run (ex_arrives 2) sb) ([2; 1; 0], [2; 1; 0]) (Some 1) Waiting).
Proof.
  apply (others_steps (ex_arrives 2) Waiting (mkShared sb ([1; 0], [1; 0]) (Some 1))).
  - by repeat constructor.
  - cbn. split_and!; try done; intros; try (split; [done|]); set_solver.
Qed.

Lemma inference_interleaves_witness :
  exists w', ex_busy_run ex_infer_edge = Some w' /\
    exists y, sy_held y = None /\ pl_buffers (iw_pipe w') !! 1%positive = Some (sy_buffer y) /\
      rtc stream_step (streaming (ex_task_buffer ex_infer_edge) ([1; 0], [1; 0]) (Some 1) Waiting) y.
Proof.
  assert (exists w', ex_busy_run ex_infer_edge = Some w' /\ True) as (w' & Hrun & _)
    by (apply some_ex; vm_compute; done).
  exists w'. split; [exact Hrun|].
  exact (inference_interleaves (H0 := ex_codec) ex_tracker_api ex_infer_edge ex_rescale_q ex_rescale_ts (fun _ => true)
    (fun _ => true) ex_rename ex_busy_answers (ex_acquired ex_infer_edge).1 (ex_acquired ex_infer_edge).2 w' 1%positive
    ex_task_frame (ex_task_buffer ex_infer_edge) ex_busy_buffer ex_busy_buffer ([1; 0], [1; 0]) ([2; 1; 0], [2; 1; 0])
    ([2; 1; 0], [2; 1; 0]) Waiting Waiting Waiting ltac:(vm_compute; reflexivity) ltac:(vm_compute; reflexivity)
    ltac:(vm_compute; reflexivity)
    (fun p Hp => eq_trans (lookup_alter_eq _ _ _) (f_equal (fmap _) Hp)) (fun p Hp => Hp) (ex_arrival_steps _) (rtc_refl _ _) Hrun).
Defined.
