(* ===== verification/Progress.v ===== *)
(** * A stream's publishing never gets stuck

    The publishing thread waits for the inference thread, for the puller and for further
    pictures, and the others never wait for it: from every state the threads of a stream
    reach, unless the buffer is stopped or the front packet's frame was lost, the front
    packet can go out ([publishing_not_stuck]). *)
From S2P Require Import Prelude StdMap Float32 Messages SafeQueue StreamBuffer BufferSpec Puller Mux Recorder Pipeline.
From S2P Require Import Publish Interleaving.

(** ** Queued packets keep their frames *)

Record kept_inv (x : stream_state) : Prop := {
  ki_seen i : i ∈ (sy_seen x).2 -> i ∈ (sy_seen x).1;
  (** the frame of a queued packet stays in the buffer *)
  ki_kept i : sb_stopped (sy_buffer x) = false -> i ∈ video_ids (sb_packets (sy_buffer x)) -> i ∈ (sy_seen x).2 ->
              is_Some (sb_frames (sy_buffer x) !! i);
  (** the packet that is out of the queue came before those in it *)
  ki_sent packet i : sy_phase x = Sent packet -> ep_media_type packet = Video ->
                     i ∈ video_ids (sb_packets (sy_buffer x)) -> ep_frame_id packet < i;
}.

(** A call that queues no video packet, files no frame and releases none. *)
Lemma kept_same b b' seen held held' ph ph' :
  kept_inv (streaming b seen held ph) -> sb_packets b' = sb_packets b -> sb_frames b' = sb_frames b ->
  (sb_stopped b = true -> sb_stopped b' = true) -> (forall packet, ph' = Sent packet -> ph = Sent packet) ->
  kept_inv (streaming b' seen held' ph').
Proof.
  intros [H1 H2 H3] Ep Ef Es Hph. split; cbn in *; rewrite ?Ep, ?Ef; [done| |by eauto].
  intros i Hs. apply H2. destruct (sb_stopped b); [by rewrite Es in Hs|done].
Qed.

Lemma kept_other c s ph :
  stream_inv (mkStreamState s ph) -> enabled c s -> kept_inv (mkStreamState s ph) -> kept_inv (mkStreamState (after c s) ph).
Proof.
  intros Hinv Hc Hk. destruct s as [b seen held]. pose proof Hinv as [Hwf Hq Hs _ _ _ _ Hph]. cbn in Hwf, Hq, Hs, Hph.
  pose proof Hk as [H1 H2 H3]. cbn in H1, H2, H3.
  destruct c as [p|f| |id|r|id st| |id|r|iter id pts now|]; try done; unfold after;
    cbn [sh_buffer sh_seen sh_held held_after sb_apply].
  - destruct p as [e|]; [|by apply (kept_same b _ seen held _ ph ph Hk)].
    destruct (enqueuePacket_ids e seen b (fq_ids _ _ _ Hq) Hc Hs) as [_ Hids].
    assert (Hf : sb_frames (enqueuePacket (Some e) b).2 = sb_frames b /\
                 sb_stopped (enqueuePacket (Some e) b).2 = sb_stopped b)
      by (unfold enqueuePacket; destruct (sb_stopped b) eqn:E; split; cbn; congruence).
    destruct Hf as [Ef Es]. split; cbn [sy_shared sh_buffer sh_seen sh_held sy_phase]; rewrite ?Ef, ?Es; cbn [note].
    + intros i. case_bool_decide; [intros Hi; right|]; by apply H1.
    + intros i Hst [Hi|Hi]%Hids Hin; [apply H2; [done|done|]; by case_bool_decide|].
      exfalso. assert (i ∈ seen.2) as Hi2 by by case_bool_decide. specialize (Hi i (H1 i Hi2)). lia.
    + intros packet i Heq Hv [Hi|Hi]%Hids; [by eapply H3|]. apply Hi. subst ph. apply (sv_seen _ _ _ (Hph Hv)).
  - destruct f as [f|]; [|by apply (kept_same b _ seen held _ ph ph Hk)]. destruct Hc as (Hin & Hnew & _).
    assert (Ep : sb_packets (enqueueFrame (Some f) b).2 = sb_packets b) by (unfold enqueueFrame; by destruct (sb_stopped b)).
    split; cbn [sy_shared sh_buffer sh_seen sh_held sy_phase note]; rewrite ?Ep; [|unfold enqueueFrame|done].
    + intros i [->|Hi]%elem_of_cons; [done|by apply H1].
    + intros i Hst Hi Hf. destruct (sb_stopped b) eqn:E; cbn in Hst |- *; [congruence|].
      apply lookup_insert_is_Some'. apply elem_of_cons in Hf as [->|Hf]; [by left|right; by apply H2].
  - unfold selectFrameForInference. destruct (latest_idle _ _) as [q|]; [|by apply (kept_same b _ seen held _ ph ph Hk)]. cbn [fst snd].
    destruct (mark_others_done_with_store q (sb_frame_order b) (sb_set_state q Selected b)) as [st ->]. by apply (kept_same b _ seen held _ ph ph Hk).
  - unfold markInferenceRunning, clearInferenceSelection. destruct (sb_frame_at b id) as [[??]|]; by apply (kept_same b _ seen held _ ph ph Hk).
  - unfold markInferenceDone, clearInferenceSelection. destruct (sb_frame_at b _) as [[??]|]; by apply (kept_same b _ seen held _ ph ph Hk).
  - unfold clearInferenceSelection. destruct (sb_frame_at b id) as [[??]|]; by apply (kept_same b _ seen held _ ph ph Hk).
  - unfold updateCachedInferenceResult. destruct (_ <? _); by apply (kept_same b _ seen held _ ph ph Hk).
Qed.

Lemma kept_step x y : stream_step x y -> stream_inv x -> kept_inv x -> kept_inv y.
Proof.
  intros Hstep Hinv Hk.
  destruct Hstep as [c s ph Hc|[b seen held] packet Hw Hp|iter id pts now [b seen held] packet|[b seen held] packet
    |[b seen held] packet].
  - by apply kept_other.
  - by apply (kept_same b b seen held held Waiting (Sending packet) Hk).
  - destruct (takeCached_packets iter id pts now b) as (Hpk & Hs & Hf & _).
    eapply kept_same; [exact Hk|done|done|by cbn; rewrite Hs|done].
  - pose proof Hinv as [_ _ Hs _ _ _ _ [[rest Hp] _]]. cbn in Hp, Hs. destruct Hk as [H1 H2 H3]. cbn in *.
    destruct (popPacket_front b _ _ Hp) as (E1 & E2 & E3 & _). rewrite Hp in *. cbn in *. split; cbn; rewrite ?E1, ?E2, ?E3; [done|..].
    + intros i Hst Hi. apply H2; [done|]. case_bool_decide; [by right|done].
    + intros packet' i [= <-] Hv Hi. rewrite bool_decide_true in Hs by done.
      apply StronglySorted_inv in Hs as [_ Hs]. rewrite Forall_forall in Hs. by apply Hs.
  - destruct Hk as [H1 H2 H3]. cbn in *. case_bool_decide as Hv; cbn [andb]; [|by split].
    destruct (0 <=? ep_frame_id packet); [|by split]. split; cbn; [done| |done].
    intros i Hst Hi Hin. specialize (H3 packet i eq_refl Hv Hi). rewrite lookup_delete_ne by lia. by apply H2.
Qed.

Lemma invs_run x y : rtc stream_step x y -> stream_inv x -> kept_inv x -> stream_inv y /\ kept_inv y.
Proof.
  induction 1 as [|y1 y2 y3 Hstep _ IH]; [done|]. intros Hinv Hk. apply IH; [by eapply inv_step|by eapply kept_step].
Qed.

Lemma reachable_kept id x : rtc stream_step (stream_start id) x -> stream_inv x /\ kept_inv x.
Proof.
  intros Hrun. apply (invs_run _ _ Hrun); [apply inv_start|].
  split; cbn; [by intros i ?%elem_of_nil|by intros i _ ?%elem_of_nil|done].
Qed.

(** ** The gate opens *)

Lemma gate_opens b seen packet rest :
  stream_inv (streaming b seen None Waiting) -> kept_inv (streaming b seen None Waiting) ->
  sb_stopped b = false -> sb_packets b = Some packet :: rest -> (forall i, ~ inferring_at b i) ->
  (ep_media_type packet = Video ->
     ep_frame_id packet ∈ seen.2 /\ 1 < count_video (sb_packets b) /\
     exists i, i <> ep_frame_id packet /\ decoded_at b i) ->
  waitForPublishable kMinVideoWatermark b = true.
Proof.
  intros [Hwf Hq _ _ _ _ _ _] [_ Hkept _] Hst Hp Hno Hv. cbn in *.
  destruct (ep_media_type packet) eqn:Hm.
  - destruct (Hv eq_refl) as (Hseen & Hcount & i & Hne & g & Hg & Hgi).
    apply (waitForPublishable_video kMinVideoWatermark b packet rest Hwf eq_refl Hp Hm). split; [done|].
    assert (Hin : ep_frame_id packet ∈ video_ids (sb_packets b)).
    { rewrite Hp. cbn. rewrite bool_decide_true by done. left. }
    split; [|intros _|done].
    + intros id Hid. apply first_inferring_Some in Hid as (_ & _ & f & _ & Hf & Hi & Hs & _). destruct (Hno id). by exists f.
    + destruct (Hkept _ Hst Hin Hseen) as [q Hfr]. destruct (wf_frames b Hwf _ _ Hfr) as (f & Hs & _).
      exists f. split; [apply findFrame_Some; exists q; by apply sb_frame_at_Some|]. intros _. by exists i, g.
  - rewrite waitForPublishable_and, Hst. cbn. unfold canPublishLocked. rewrite Hp, Hm. cbn. by destruct (_ =? 0).
Qed.

(** ** What has to happen *)

(** A decoded picture of the puller, and a frame whose picture could not be decoded. *)
Definition picture_packet (id : Z) : EncodedPacket := mkEncodedPacket Video None 0 id id 0 id false id 0.
Definition picture_frame (id : Z) (image : option DmaImage) : FrameBundle :=
  mkFrameBundle "" id id id 0 id false 0 0 0 0 0 AV_CODEC_ID_H264 image Idle.
Definition some_image : DmaImage := mkDmaImage 0 None 0 0 0 0 0 0.
Definition result_of (id : Z) : FrameInferenceResult := mkFrameInferenceResult "" id 0 "" [] [] 0 0 0.

(** An id above all those used so far. *)
Definition next_id (seen : ids_seen) : Z := foldr Z.max 0 (seen.1 ++ seen.2) + 1.

Lemma next_id_above seen i : i ∈ seen.1 ++ seen.2 -> i < next_id seen.
Proof.
  unfold next_id. induction (seen.1 ++ seen.2) as [|j l IH]; [by intros ?%elem_of_nil|].
  intros [->|Hi]%elem_of_cons; cbn; [lia|]. specialize (IH Hi). lia.
Qed.

Lemma next_id_pos seen : 0 <= next_id seen.
Proof. unfold next_id. induction (seen.1 ++ seen.2); cbn; lia. Qed.

(** The inference thread finishes. *)
Lemma finish_steps b seen held :
  exists b', rtc stream_step (streaming b seen held Waiting) (streaming b' seen None Waiting) /\
    sb_packets b' = sb_packets b /\ sb_stopped b' = sb_stopped b.
Proof.
  destruct held as [id|]; [|by exists b]. exists (markInferenceDone (result_of id) b). split.
  - apply rtc_once, (step_other (CallMarkDone (result_of id)) (mkShared b seen (Some id))). exists id. by split; [|left].
  - unfold markInferenceDone, clearInferenceSelection. by destruct (sb_frame_at b _) as [[??]|].
Qed.

(** The frames that have not come yet come, in order. *)
Lemma missing_frames_steps missing : forall b seen held ph,
  sb_stopped b = false -> StronglySorted Z.lt missing ->
  (forall i, i ∈ missing -> i ∈ seen.1 /\ forall j, j ∈ seen.2 -> j < i) ->
  exists b' seen', rtc stream_step (streaming b seen held ph) (streaming b' seen' held ph) /\
    sb_packets b' = sb_packets b /\ sb_stopped b' = false /\ (forall i, i ∈ missing \/ i ∈ seen.2 -> i ∈ seen'.2).
Proof.
  induction missing as [|k missing IH]; intros b seen held ph Hs Hsort Hm.
  { exists b, seen. split_and!; try done. by intros i [?%elem_of_nil|?]. }
  apply StronglySorted_inv in Hsort as [Hsort Hk]. rewrite Forall_forall in Hk.
  destruct (Hm k) as [Hin Hlt]; [by left|]. set (f := picture_frame k None).
  assert (E : sb_packets (enqueueFrame (Some f) b).2 = sb_packets b /\ sb_stopped (enqueueFrame (Some f) b).2 = false)
    by (unfold enqueueFrame; by rewrite Hs).
  destruct E as [Ep Es].
  destruct (IH (enqueueFrame (Some f) b).2 (seen.1, k :: seen.2) held ph Es Hsort) as (b' & seen' & Hrun & Hp' & Hs' & Hin').
  { intros i Hi. cbn. destruct (Hm i) as [? Hlt']; [by right|]. split; [done|].
    intros j [->|Hj]%elem_of_cons; [by apply Hk|by apply Hlt']. }
  exists b', seen'. split_and!; [|by rewrite Hp'|done|].
  - eapply rtc_l; [|exact Hrun]. by apply (step_other (CallEnqueueFrame (Some f)) (mkShared b seen held)).
  - intros i [[->|Hi]%elem_of_cons|Hi]; apply Hin'; cbn; [by right; left|by left|by right; right].
Qed.

(** A decoded picture comes and is looked at: no frame is under inference any more. *)
Lemma picture_steps b seen packet rest :
  stream_inv (streaming b seen None Waiting) -> sb_stopped b = false -> sb_packets b = Some packet :: rest ->
  exists b' seen' more, rtc stream_step (streaming b seen None Waiting) (streaming b' seen' None Waiting) /\
    sb_packets b' = Some packet :: rest ++ more /\ sb_stopped b' = false /\
    (forall i, ~ inferring_at b' i) /\ (forall i, i ∈ seen.2 -> i ∈ seen'.2) /\
    1 <= count_video (rest ++ more) /\ (forall i, i ∈ video_ids more -> i ∈ seen'.2) /\
    exists n, decoded_at b' n /\ ~ n ∈ seen.1 ++ seen.2.
Proof.
  intros Hinv Hs Hp. set (n := next_id seen). set (f := picture_frame n (Some some_image)).
  pose proof (next_id_above seen) as Hn. fold n in Hn.
  set (s1 := mkShared b seen None). set (s2 := after (CallEnqueuePacket (Some (picture_packet n))) s1).
  set (s3 := after (CallEnqueueFrame (Some f)) s2).
  assert (H12 : stream_step (mkStreamState s1 Waiting) (mkStreamState s2 Waiting)).
  { apply step_other. intros _. split; [apply next_id_pos|]. intros i Hi. apply Hn, elem_of_app. by left. }
  assert (H23 : stream_step (mkStreamState s2 Waiting) (mkStreamState s3 Waiting)).
  { apply step_other. split; [left|]. split; [|done]. intros i Hi. apply Hn, elem_of_app. by right. }
  pose proof (inv_step _ _ H23 (inv_step _ _ H12 Hinv)) as Hinv3.
  pose proof (si_wf _ (inv_step _ _ H12 Hinv)) as Hwf2. pose proof (si_wf _ Hinv3) as Hwf3.
  assert (Hp3 : sb_packets (sh_buffer s3) = Some packet :: rest ++ [Some (picture_packet n)] /\ sb_stopped (sh_buffer s3) = false).
  { unfold s3, s2, s1, after. cbn. unfold enqueueFrame, enqueuePacket. rewrite Hs. cbn. by rewrite ?Hs, Hp. }
  assert (Hs2 : sb_stopped (sh_buffer s2) = false) by (unfold s2, s1, after; cbn; by rewrite Hs).
  assert (Hf3 : findFrame n (sh_buffer s3) = Some f).
  { unfold s3, after. cbn [sh_buffer sb_apply]. rewrite enqueueFrame_find by done. by rewrite bool_decide_true. }
  destruct Hp3 as [Hp3 Hs3]. change (sb_wf (sh_buffer s3)) in Hwf3. change (sb_wf (sh_buffer s2)) in Hwf2. 
  assert (Hheld3 : sh_held s3 = None /\ sh_seen s3 = (n :: seen.1, n :: seen.2)) by done.
  destruct Hheld3 as [Hheld3 Hseen3]. clearbody s3.
  pose proof (selectFrame_cases _ Hwf3) as Hcase. destruct (selectFrameForInference (sh_buffer s3)) as [[q|] b4] eqn:Hsel; rewrite ?Hsel in Hcase.
  2: { destruct Hcase as [_ Hno]. specialize (Hno n). rewrite selectable_find, Hf3 in Hno. done. }
  destruct Hcase as (l & g & Hg). pose proof (restated_select _ _ _ _ _ Hwf3 Hg) as Hr4.
  set (s4 := after CallSelect s3).
  assert (Hs4 : sh_buffer s4 = b4 /\ sh_seen s4 = sh_seen s3 /\ sh_held s4 = Some l).
  { unfold s4, after. cbn [sb_apply note held_after sh_buffer sh_seen sh_held]. rewrite Hsel. cbn. split_and!; [done..|].
    rewrite (selection_frame _ _ _ _ _ Hg). cbn. f_equal. apply (sb_frame_at_wf _ l q g Hwf3), Hg. }
  destruct Hs4 as (Hb4 & Hseen4 & Hheld4).
  assert (H34 : stream_step (mkStreamState s3 Waiting) (mkStreamState s4 Waiting)) by by apply step_other.
  assert (H45 : stream_step (mkStreamState s4 Waiting) (mkStreamState (after (CallMarkDone (result_of l)) s4) Waiting)).
  { apply step_other. exists l. by split; [|left]. }
  assert (Hwf4 : sb_wf b4) by (rewrite <- Hb4; apply (si_wf _ (inv_step _ _ H34 Hinv3))).
  pose proof (restated_clear l Done b4 Hwf4) as Hr5. set (b5 := clearInferenceSelection l Done b4) in *.
  exists b5, (sh_seen s3), [Some (picture_packet n)]. split_and!.
  - eapply rtc_l; [exact H12|]. eapply rtc_l; [exact H23|]. eapply rtc_l; [exact H34|]. apply rtc_once.
    assert (after (CallMarkDone (result_of l)) s4 = mkShared b5 (sh_seen s3) None) as <-; [|exact H45].
    unfold after. cbn [sb_apply note held_after]. by rewrite Hb4, Hseen4.
  - by rewrite (rs_packets _ _ _ Hr5), (rs_packets _ _ _ Hr4).
  - by rewrite (rs_stopped _ _ _ Hr5), (rs_stopped _ _ _ Hr4).
  - intros i (h & Hh & _ & Hst)%(restated_inferring _ _ _ _ Hr5).
    rewrite (rs_find _ _ _ Hr4) in Hh. destruct (findFrame i (sh_buffer s3)) as [h'|]; [|done]. cbn in Hh.
    injection Hh as <-. cbn in Hst. unfold select_states in Hst. case_bool_decide; [done|]. by destruct (fb_infer_state h').
  - intros i Hi. rewrite Hseen3. by right.
  - rewrite count_video_app. pose proof (count_video_nonneg rest). change (count_video [Some (picture_packet n)]) with 1. lia.
  - intros i. cbn. rewrite Hseen3. intros ->%list_elem_of_singleton. left.
  - exists n. split; [|intros Hin; specialize (Hn n Hin); lia].
    apply (restated_decoded _ _ _ _ Hr5), (restated_decoded _ _ _ _ Hr4). by exists f.
Qed.

(** ** Packets go out *)

(** The packets [l] are taken out of the queue, one after the other. *)
Inductive sends : list EncodedPacket -> stream_state -> stream_state -> Prop :=
| sends_nil x y : rtc stream_step x y -> sends [] x y
| sends_cons packet l x y1 y2 z :
    rtc stream_step x y1 -> sy_phase y1 = Sending packet ->
    stream_step y1 y2 -> sy_phase y2 = Sent packet -> sends l y2 z -> sends (packet :: l) x z.

Definition frames_came (x : stream_state) : Prop :=
  forall i, i ∈ video_ids (sb_packets (sy_buffer x)) -> i ∈ (sy_seen x).2.

Lemma sending_goes_out b seen held packet rest :
  sb_packets b = Some packet :: rest ->
  exists y, stream_step (streaming b seen held (Sending packet)) y /\ sy_phase y = Sent packet /\
    sb_packets (sy_buffer y) = rest /\ sb_stopped (sy_buffer y) = sb_stopped b /\ sy_seen y = seen.
Proof.
  intros Hp. eexists. split; [apply step_pop|]. destruct (popPacket_front b _ _ Hp) as (E1 & E2 & _).
  cbn. by rewrite E1, E2.
Qed.

Lemma waiting_goes_out b seen packet rest :
  stream_inv (streaming b seen None Waiting) -> kept_inv (streaming b seen None Waiting) ->
  sb_stopped b = false -> sb_packets b = Some packet :: rest -> frames_came (streaming b seen None Waiting) ->
  exists y1 y2 more, rtc stream_step (streaming b seen None Waiting) y1 /\ sy_phase y1 = Sending packet /\
    stream_step y1 y2 /\ sy_phase y2 = Sent packet /\ sb_packets (sy_buffer y2) = rest ++ more /\
    sb_stopped (sy_buffer y2) = false /\ frames_came y2.
Proof.
  intros Hinv Hk Hs Hp Hcame.
  destruct (picture_steps b seen packet rest Hinv Hs Hp) as (b' & seen' & more & Hrun & Hp' & Hs' & Hno & Hmono & Hcount & Hmore & n & Hn & Hnew).
  destruct (invs_run _ _ Hrun Hinv Hk) as [Hinv' Hk'].
  assert (Hcame' : forall i, i ∈ video_ids (Some packet :: rest ++ more) -> i ∈ seen'.2).
  { intros i. change (Some packet :: rest ++ more) with ((Some packet :: rest) ++ more). rewrite video_ids_app, <- Hp.
    intros [Hi|Hi]%elem_of_app; [by apply Hmono, Hcame|by apply Hmore]. }
  assert (Hw : waitForPublishable kMinVideoWatermark b' = true).
  { apply (gate_opens b' seen' packet (rest ++ more)); try done. intros Hv.
    assert (Hin : ep_frame_id packet ∈ video_ids (sb_packets b)) by (rewrite Hp; cbn; rewrite bool_decide_true by done; left).
    split_and!.
    - by apply Hmono, Hcame.
    - rewrite Hp', count_video_cons. cbn [is_video]. rewrite bool_decide_true by done. lia.
    - exists n. split; [|done]. intros ->. apply Hnew, elem_of_app. right. by apply Hcame. }
  destruct (sending_goes_out b' seen' None packet (rest ++ more) Hp') as (y & Hstep & Hph & Hpy & Hsy & Hseen).
  exists (streaming b' seen' None (Sending packet)), y, more. split_and!; try done; [|by rewrite Hsy|].
  - etrans; [exact Hrun|]. apply rtc_once, (step_gate (mkShared b' seen' None)); [done|].
    cbn. unfold peekPacket. by rewrite Hp'.
  - intros i. rewrite Hpy, Hseen. intros Hi. apply Hcame'. cbn. case_bool_decide; [by right|done].
Qed.

Lemma front_goes_out x packet rest :
  stream_inv x -> kept_inv x -> sb_stopped (sy_buffer x) = false -> sb_packets (sy_buffer x) = Some packet :: rest ->
  frames_came x ->
  exists y1 y2 more, rtc stream_step x y1 /\ sy_phase y1 = Sending packet /\
    stream_step y1 y2 /\ sy_phase y2 = Sent packet /\ sb_packets (sy_buffer y2) = rest ++ more /\
    sb_stopped (sy_buffer y2) = false /\ frames_came y2.
Proof.
  destruct x as [[b seen held] ph]. intros Hinv Hk Hs Hp Hcame. cbn in Hs, Hp.
  assert (Hcase : ph = Sending packet \/ forall q, ph <> Sending q).
  { destruct ph as [|q|q]; [by right| |by right]. left. destruct (si_phase _ Hinv) as [[rest' Hp'] _]. cbn in Hp'. congruence. }
  destruct Hcase as [->|Hph].
  { destruct (sending_goes_out b seen held packet rest Hp) as (y & Hstep & Hph & Hpy & Hsy & Hseen).
    exists (streaming b seen held (Sending packet)), y, []. split_and!; try done; [by rewrite app_nil_r|by rewrite Hsy|].
    intros i. rewrite Hpy, Hseen. intros Hi. apply Hcame. cbn. rewrite Hp. cbn. case_bool_decide; [by right|done]. }
  assert (exists b1, rtc stream_step (streaming b seen held ph) (streaming b1 seen held Waiting) /\
            sb_packets b1 = sb_packets b /\ sb_stopped b1 = sb_stopped b) as (b1 & Hrun1 & Hp1 & Hs1).
  { destruct ph as [|q|q]; [by exists b| |].
    - by destruct (Hph q).
    - pose proof (step_release (mkShared b seen held) q) as Hstep. cbn in Hstep.
      destruct (_ && _); eexists; (split; [by apply rtc_once|done]). }
  destruct (finish_steps b1 seen held) as (b2 & Hrun2 & Hp2 & Hs2).
  assert (Hrun : rtc stream_step (streaming b seen held ph) (streaming b2 seen None Waiting)) by by etrans.
  destruct (invs_run _ _ Hrun Hinv Hk) as [Hinv2 Hk2].
  destruct (waiting_goes_out b2 seen packet rest) as (y1 & y2 & more & H); try done; [congruence|congruence| |].
  - intros i. cbn. rewrite Hp2, Hp1. apply Hcame.
  - exists y1, y2, more. destruct H as (Hr & H). split; [by etrans|done].
Qed.

Lemma sends_after l x y z : rtc stream_step x y -> sends l y z -> sends l x z.
Proof.
  intros Hr Hs. destruct Hs as [x1 y Hr1|packet l x1 y1 y2 z Hr1 H1 H2 H3 H4]; [constructor; by etrans|].
  by eapply sends_cons; [etrans| | | |].
Qed.

Lemma queued_go_out queued : forall x more,
  stream_inv x -> kept_inv x -> sb_stopped (sy_buffer x) = false -> frames_came x ->
  sb_packets (sy_buffer x) = fmap (M:=list) Some queued ++ more -> exists y, sends queued x y.
Proof.
  induction queued as [|packet queued IH]; intros x more Hinv Hk Hs Hcame Hq; [exists x; by constructor|].
  destruct (front_goes_out x packet (fmap (M:=list) Some queued ++ more) Hinv Hk Hs Hq Hcame)
    as (y1 & y2 & more' & Hr & Hp1 & Hstep & Hp2 & Hpk & Hs2 & Hcame2).
  destruct (invs_run x y2) as [Hinv2 Hk2]; [by eapply rtc_r|done|done|].
  destruct (IH y2 (more ++ more') Hinv2 Hk2 Hs2 Hcame2) as [z Hz]; [by rewrite Hpk, <- app_assoc|].
  exists z. by econstructor.
Qed.

(** Once the missing frames have come. *)
Lemma missing_frames_come x :
  stream_inv x -> sb_stopped (sy_buffer x) = false ->
  (forall i, i ∈ video_ids (sb_packets (sy_buffer x)) -> i ∈ (sy_seen x).2 \/ forall j, j ∈ (sy_seen x).2 -> j < i) ->
  exists y, rtc stream_step x y /\ sb_packets (sy_buffer y) = sb_packets (sy_buffer x) /\
    sb_stopped (sy_buffer y) = false /\ frames_came y.
Proof.
  destruct x as [[b seen held] ph]. cbn. intros Hinv Hs Hframes.
  set (missing := base.filter (fun i => i ∉ seen.2) (video_ids (sb_packets b))).
  destruct (missing_frames_steps missing b seen held ph Hs) as (b' & seen' & Hrun & Hp' & Hs' & Hin).
  - eapply sublist_StronglySorted; [apply sublist_filter|apply (si_ids _ Hinv)].
  - intros i [Hni Hi]%list_elem_of_filter. split; [apply (fq_ids _ _ _ (si_queued _ Hinv)), Hi|].
    by destruct (Hframes i Hi) as [?|?].
  - exists (streaming b' seen' held ph). split_and!; [done|done|done|]. intros i. cbn. rewrite Hp'. intros Hi. apply Hin.
    destruct (decide (i ∈ seen.2)); [by right|left]. by apply list_elem_of_filter.
Qed.

(** C7: The publishing thread never gets stuck: from every state that the threads of a stream
    can reach, in any interleaving, and in which the buffer is not stopped and no queued
    packet was passed over by the frames, there is a continuation - the missing frames come,
    the inference thread finishes, further pictures come - in which every queued packet goes
    out, in order. *)
Theorem publishing_not_stuck (stream_id : string) (x : stream_state) (queued : list EncodedPacket)
    (Hrun : rtc stream_step (stream_start stream_id) x) (Hs : sb_stopped (sy_buffer x) = false)
    (Hqueued : sb_packets (sy_buffer x) = Some <$> queued)
    (Hframes : forall i, i ∈ video_ids (sb_packets (sy_buffer x)) ->
                 i ∈ (sy_seen x).2 \/ forall j, j ∈ (sy_seen x).2 -> j < i) :
  exists y, sends queued x y.
Proof.
  destruct (reachable_kept stream_id x Hrun) as [Hinv Hk].
  destruct (missing_frames_come x Hinv Hs Hframes) as (x1 & Hrun1 & Hp1 & Hs1 & Hcame1).
  destruct (invs_run _ _ Hrun1 Hinv Hk) as [Hinv1 Hk1].
  destruct (queued_go_out queued x1 [] Hinv1 Hk1 Hs1 Hcame1) as [y Hy]; [by rewrite Hp1, Hqueued, app_nil_r|].
  exists y. by eapply sends_after.
Qed.

(** Packet 1 waits behind packet 0, which is being sent while a thread works on frame 1. *)
Lemma publishing_not_stuck_witness :
  exists y, sends [ex_video_packet 1] (mkStreamState (after CallPopPacket ex_running) (Sent (ex_video_packet 0))) y.
Proof.
  apply (publishing_not_stuck "s" _ [ex_video_packet 1] ex_reached).
  - vm_compute. reflexivity.
  - vm_compute. reflexivity.
  - intros i Hi. left. vm_compute in Hi |- *. set_solver.
Defined.
