(* ===== verification/System.v ===== *)
(** * All streams and the scheduler

    The streams of the agent with their buffers, the scheduler they share and the tasks in
    the hands of the inference threads.  A stream's threads call its buffer as in
    Interleaving; the scheduler selects frames in the buffers (InferScheduler.cpp), and the
    main loop registers, updates and removes streams (Pipeline.cpp). *)
From S2P Require Import Prelude StdMap Float32 Messages SafeQueue StreamBuffer BufferSpec Scheduler Puller Mux Recorder.
From S2P Require Import Pipeline Publish Interleaving Progress.

(** A buffer with the stream it was created for, the ids enqueued so far and the publishing
    thread of its context.  A stream may have several, of which the scheduler knows the one
    it was told of last. *)
Record stream_side := mkSide {
  sd_stream : string;
  sd_buffer : StreamBuffer;
  sd_seen : ids_seen;
  sd_phase : publish_phase;
}.
Definition new_side (stream_id : string) : stream_side := mkSide stream_id (createStreamBuffer stream_id) ([], []) Waiting.
Definition sd_with_buffer (b : StreamBuffer) (x : stream_side) : stream_side := mkSide (sd_stream x) b (sd_seen x) (sd_phase x).

(** A task in the hands of an inference thread; [ts_frame]: the frame it works on, until it
    has handed that frame back to the buffer. *)
Record task := mkTask {
  ts_stream : string;
  ts_buffer : buffer_ptr;
  ts_frame : option Z;
}.

Record media_system := mkMedia {
  ms_scheduler : RoundRobinInferScheduler;
  ms_sides : gmap buffer_ptr stream_side;
  ms_tasks : list task;
}.

(** A stream as its own threads see it. *)
Definition side_state (x : stream_side) (held : option Z) : stream_state :=
  streaming (sd_buffer x) (sd_seen x) held (sd_phase x).

(** An inference thread acquires a task. *)
Definition acquire (y : media_system) : option media_system :=
  match tryAcquireLocked (ms_scheduler y) (sd_buffer <$> ms_sides y) with
  | (Some t, s, w) =>
      p ← it_buffer t; q ← it_frame t;
      x ← ms_sides y !! p; b ← w !! p; f ← sb_store b !! q;
      Some (mkMedia s (<[p := sd_with_buffer b x]> (ms_sides y))
              (mkTask (it_stream_id t) p (Some (fb_frame_id f)) :: ms_tasks y))
  | (None, _, _) => None
  end.

(** A call of the thread that holds a task on its frame. *)
Definition of_inference (c : sb_call) : Prop :=
  match c with CallMarkRunning _ | CallMarkDone _ | CallClear _ _ => True | _ => False end.

(** What the threads do.  A context is built with a new buffer, whether or not its stream is
    registered already (a changed transport configuration builds two); its runtime is
    updated with the buffer it has, whatever buffer is registered then, if any.  With
    [quiesce], a stream is removed only when none of its tasks is in a thread's hands. *)
Inductive media_step (quiesce : bool) : media_system -> media_system -> Prop :=
| media_register id cfg p s sides tasks :
    sides !! p = None ->
    media_step quiesce (mkMedia s sides tasks) (mkMedia (upsertStream id cfg (Some p) s) (<[p := new_side id]> sides) tasks)
| media_update cfg p x s sides tasks :
    sides !! p = Some x ->
    media_step quiesce (mkMedia s sides tasks) (mkMedia (upsertStream (sd_stream x) cfg (Some p) s) sides tasks)
| media_remove id s sides tasks :
    (quiesce = true -> id ∉ ts_stream <$> tasks) ->
    media_step quiesce (mkMedia s sides tasks) (mkMedia (removeStream id s) sides tasks)
| media_acquire y y' :
    rr_stopped (ms_scheduler y) = false -> acquire y = Some y' -> media_step quiesce y y'
| media_task id p frame c x s sides tasks rest :
    tasks ≡ₚ mkTask id p frame :: rest -> sides !! p = Some x -> of_inference c ->
    enabled c (mkShared (sd_buffer x) (sd_seen x) frame) ->
    media_step quiesce (mkMedia s sides tasks)
      (mkMedia s (<[p := sd_with_buffer (sb_apply c (sd_buffer x)) x]> sides)
         (mkTask id p (held_after c (mkShared (sd_buffer x) (sd_seen x) frame)) :: rest))
| media_complete id p frame_id s sides tasks rest :
    tasks ≡ₚ mkTask id p None :: rest ->
    media_step quiesce (mkMedia s sides tasks) (mkMedia (completeTask id frame_id s) sides rest)
| media_cancel id p frame_id s sides tasks rest :
    tasks ≡ₚ mkTask id p None :: rest ->
    media_step quiesce (mkMedia s sides tasks) (mkMedia (cancelTask id frame_id s) sides rest)
| media_stream p x x' s sides tasks :
    sides !! p = Some x -> sd_stream x' = sd_stream x -> stream_step (side_state x None) (side_state x' None) ->
    media_step quiesce (mkMedia s sides tasks) (mkMedia s (<[p := x']> sides) tasks)
| media_stop s sides tasks : media_step quiesce (mkMedia s sides tasks) (mkMedia (rr_stop s) sides tasks).

Definition media_start : media_system := mkMedia createRoundRobinInferScheduler ∅ [].

(** ** Each stream's threads keep to their protocol *)

(** What the inference threads hold of the buffer [p]. *)
Definition holds (p : buffer_ptr) (tasks : list task) (held : option Z) : Prop :=
  (exists t, t ∈ tasks /\ ts_buffer t = p /\ ts_frame t = held) \/
  (held = None /\ forall t, t ∈ tasks -> ts_buffer t <> p).

Record media_inv (y : media_system) : Prop := {
  mi_wf : rr_wf (ms_scheduler y);
  mi_tasks : NoDup (ts_stream <$> ms_tasks y);
  (** a task's stream is registered and marked, and its buffer is one of the stream's *)
  mi_marked t : t ∈ ms_tasks y -> exists e, rr_entries (ms_scheduler y) !! ts_stream t = Some e /\ en_inflight e = true;
  mi_owned t : t ∈ ms_tasks y -> exists x, ms_sides y !! ts_buffer t = Some x /\ sd_stream x = ts_stream t;
  (** a stream is registered with a buffer of its own *)
  mi_known i e p : rr_entries (ms_scheduler y) !! i = Some e -> en_buffer e = Some p ->
                  exists x, ms_sides y !! p = Some x /\ sd_stream x = i;
  (** the buffer's threads made the steps of an interleaved run *)
  mi_sides p x held : ms_sides y !! p = Some x -> holds p (ms_tasks y) held ->
                  rtc stream_step (stream_start (sd_stream x)) (side_state x held);
}.

Lemma one_task_per_buffer y t t' :
  media_inv y -> t ∈ ms_tasks y -> t' ∈ ms_tasks y -> ts_buffer t = ts_buffer t' -> t = t'.
Proof.
  intros Hinv Ht Ht' Hb. destruct (mi_owned y Hinv t Ht) as (x & Hx & Hid), (mi_owned y Hinv t' Ht') as (x' & Hx' & Hid').
  rewrite Hb, Hx' in Hx. injection Hx as <-. rewrite Hid' in Hid.
  apply list_elem_of_lookup_1 in Ht as [i Hi], Ht' as [j Hj].
  assert (i = j) as ->; [|congruence]. eapply (NoDup_lookup (ts_stream <$> ms_tasks y)); [by apply mi_tasks| |];
    rewrite list_lookup_fmap, ?Hi, ?Hj; cbn; by rewrite ?Hid.
Qed.

(** Whatever a thread that holds nothing can do, it can do while another holds a frame. *)
Lemma step_with_held x x' held :
  sb_wf (sd_buffer x) -> stream_step (side_state x None) (side_state x' None) ->
  rtc stream_step (side_state x held) (side_state x' held).
Proof.
  destruct x as [own b seen ph], x' as [own' b' seen' ph']. unfold side_state. cbn. intros Hwf.
  remember (streaming b seen None ph) as u eqn:Hu. remember (streaming b' seen' None ph') as v eqn:Hv. intros Hstep.
  destruct Hstep as [c s ph0 Hc|s packet Hw Hp|it id pts now s packet|s packet|s packet]; simplify_eq/=.
  - match goal with H : held_after _ _ = None |- _ => rename H into Hheld end.
    destruct c as [p|f| |id|r|id st| |id|r|it id pts now|]; try done; cbn in Hc.
    + by apply rtc_once, (step_other (CallEnqueuePacket p) (mkShared b seen held)).
    + by apply rtc_once, (step_other (CallEnqueueFrame f) (mkShared b seen held)).
    + cbn in Hheld |- *. pose proof (selectFrame_cases b Hwf) as Hcase.
      destruct (selectFrameForInference b) as [[q|] b1] eqn:Hsel; cbn in *; [|by destruct Hcase as [-> _]].
      destruct Hcase as (l & g & Hs). apply selection_frame in Hs. by rewrite Hs in Hheld.
    + by destruct Hc as (? & ? & _).
    + by destruct Hc.
    + by apply rtc_once, (step_other (CallUpdateCached r) (mkShared b seen held)).
    + by apply rtc_once, (step_other CallStop (mkShared b seen held)).
  - by apply rtc_once, (step_gate (mkShared b seen held)).
  - apply rtc_once, (step_take it id pts now (mkShared b seen held)).
  - apply rtc_once, (step_pop (mkShared b seen held)).
  - pose proof (step_release (mkShared b seen held) packet) as H. apply rtc_once.
    destruct (_ && _); unfold after in *; cbn in *; injection Hv as <- <-; exact H.
Qed.

(** ** The invariant is kept *)

#[export] Instance holds_perm p : Proper ((≡ₚ) ==> eq ==> iff) (holds p).
Proof. intros l k Hlk held _ <-. unfold holds. by setoid_rewrite Hlk. Qed.

Lemma media_inv_perm s sides tasks tasks' :
  tasks ≡ₚ tasks' -> media_inv (mkMedia s sides tasks) -> media_inv (mkMedia s sides tasks').
Proof.
  intros Hp [H1 H2 H3 H4 H5 H6]. cbn in *. split; cbn; try done.
  - by rewrite <- Hp.
  - intros t. rewrite <- Hp. apply H3.
  - intros t. rewrite <- Hp. apply H4.
  - intros p x held. rewrite <- Hp. apply H6.
Qed.

(** The buffer of the first task is in no other hands. *)
Lemma first_task s sides t rest :
  media_inv (mkMedia s sides (t :: rest)) -> (ts_stream t ∉ ts_stream <$> rest) /\ forall t', t' ∈ rest -> ts_buffer t' <> ts_buffer t.
Proof.
  intros Hinv. pose proof (mi_tasks _ Hinv) as Hnd. cbn in Hnd. apply NoDup_cons in Hnd as [Hni _]. split; [done|].
  intros t' Ht Hb. assert (t' = t) as -> by (apply (one_task_per_buffer _ t' t Hinv); [by right|by left|done]).
  apply Hni, list_elem_of_fmap. by exists t.
Qed.

Lemma holds_first p t rest held :
  ts_buffer t = p -> (forall t', t' ∈ rest -> ts_buffer t' <> p) -> holds p (t :: rest) held -> held = ts_frame t.
Proof.
  intros Hb Hno [(t' & [->|Ht]%elem_of_cons & Hb' & <-)|[_ Hall]]; [done|by destruct (Hno t' Ht)|].
  by destruct (Hall t ltac:(left)).
Qed.

Lemma holds_other p t t' rest held :
  ts_buffer t <> p -> ts_buffer t' <> p -> holds p (t' :: rest) held -> holds p (t :: rest) held.
Proof.
  intros Hb Hb' [(u & [->|Hu]%elem_of_cons & Hbu & Hf)|[-> Hno]]; [done|left; exists u; by split; [right|]|].
  right. split; [done|]. intros u [->|Hu]%elem_of_cons; [done|apply Hno; by right].
Qed.

Lemma holds_tail p t rest held : ts_buffer t <> p -> holds p (t :: rest) held <-> holds p rest held.
Proof.
  intros Hb. unfold holds. setoid_rewrite elem_of_cons. naive_solver.
Qed.

(** Tasks and buffers stay; the scheduler keeps the marks of the streams with tasks, and
    knows no buffer of another stream. *)
Lemma inv_scheduler s s' sides tasks :
  media_inv (mkMedia s sides tasks) -> rr_wf s' ->
  (forall t e, t ∈ tasks -> rr_entries s !! ts_stream t = Some e -> en_inflight e = true ->
     exists e', rr_entries s' !! ts_stream t = Some e' /\ en_inflight e' = true) ->
  (forall i e p, rr_entries s' !! i = Some e -> en_buffer e = Some p ->
     (exists e0, rr_entries s !! i = Some e0 /\ en_buffer e0 = Some p) \/ exists x, sides !! p = Some x /\ sd_stream x = i) ->
  media_inv (mkMedia s' sides tasks).
Proof.
  intros [H1 H2 H3 H4 H5 H6] Hwf Hm Hb. cbn in *. split; cbn; try done.
  - intros t Ht. destruct (H3 t Ht) as (e & He & Hf). by apply (Hm t e).
  - intros i e p Hi Hp. destruct (Hb i e p Hi Hp) as [(e0 & ? & ?)|?]; [by apply (H5 i e0 p)|done].
Qed.

(** A stream is registered with a buffer of its own, for the first time or again: its mark stays. *)
Lemma inv_upsert id cfg p x s sides tasks :
  media_inv (mkMedia s sides tasks) -> sides !! p = Some x -> sd_stream x = id ->
  media_inv (mkMedia (upsertStream id cfg (Some p) s) sides tasks).
Proof.
  intros Hinv Hx Hid. pose proof (mi_wf _ Hinv) as H1. cbn in H1. apply (inv_scheduler s); [done|by apply upsert_wf|..]; cbn.
  - intros t e Ht He Hf. destruct (decide (id = ts_stream t)) as [->|Hne].
    + rewrite lookup_insert_eq, He. by eexists.
    + rewrite lookup_insert_ne by done. by exists e.
  - intros i e q [[<- <-]|[_ Hi]]%lookup_insert_Some Hq; [right|left; by exists e]. cbn in Hq. injection Hq as <-. by exists x.
Qed.

(** A new buffer changes nothing for the others. *)
Lemma inv_new_side id p s sides tasks :
  media_inv (mkMedia s sides tasks) -> sides !! p = None -> media_inv (mkMedia s (<[p := new_side id]> sides) tasks).
Proof.
  intros [H1 H2 H3 H4 H5 H6] Hp. cbn in *.
  assert (Hkeep : forall q i, (exists x, sides !! q = Some x /\ sd_stream x = i) ->
            exists x, <[p := new_side id]> sides !! q = Some x /\ sd_stream x = i).
  { intros q i (x & Hx & Hi). exists x. rewrite lookup_insert_ne by congruence. done. }
  split; cbn; [done|done|done|..].
  - intros t Ht. by apply Hkeep, H4.
  - intros i e q Hi Hq. apply Hkeep. by apply (H5 i e).
  - intros q x held Hx Hheld. apply lookup_insert_Some in Hx as [[<- <-]|[_ Hx]]; [|by apply (H6 q)].
    assert (held = None) as ->; [|done].
    destruct Hheld as [(t & Ht & Hb & _)|[-> _]]; [|done]. destruct (H4 t Ht) as (x & Hx & _). congruence.
Qed.

Lemma inv_remove id s sides tasks :
  media_inv (mkMedia s sides tasks) -> id ∉ ts_stream <$> tasks -> media_inv (mkMedia (removeStream id s) sides tasks).
Proof.
  intros Hinv Hid. pose proof (mi_wf _ Hinv) as H1. cbn in H1. apply (inv_scheduler s); [done|by apply remove_wf|..]; cbn.
  - intros t e Ht He Hf. exists e. split; [|done]. rewrite lookup_delete_ne; [done|].
    intros ->. apply Hid, list_elem_of_fmap. by exists t.
  - intros i e p [_ Hi]%lookup_delete_Some Hp. left. by exists e.
Qed.

Lemma inv_finish id p frame_id s sides rest :
  media_inv (mkMedia s sides (mkTask id p None :: rest)) -> media_inv (mkMedia (completeTask id frame_id s) sides rest).
Proof.
  intros Hinv. destruct (first_task _ _ _ _ Hinv) as [Hid Hbuf]. cbn in Hid, Hbuf.
  assert (Hrest : media_inv (mkMedia s sides rest)).
  { destruct Hinv as [H1 H2 H3 H4 H5 H6]. cbn in *. split; cbn; try done.
    - by apply NoDup_cons in H2 as [_ ?].
    - intros t Ht. apply H3. by right.
    - intros t Ht. apply H4. by right.
    - intros q x held Hx Hheld. apply (H6 q x held Hx). destruct (decide (q = p)) as [->|Hne]; [|by apply holds_tail].
      left. exists (mkTask id p None). split; [left|]. split; [done|].
      destruct Hheld as [(t & Ht & Hb & _)|[-> _]]; [by destruct (Hbuf t Ht)|done]. }
  pose proof (mi_wf _ Hrest) as H1. cbn in H1. apply (inv_scheduler s); [done|by apply complete_wf|..].
  - intros t e Ht He Hf. unfold completeTask. destruct (rr_entries s !! id); [|by exists e].
    cbn. rewrite lookup_insert_ne; [by exists e|]. intros ->. apply Hid, list_elem_of_fmap. by exists t.
  - unfold completeTask. intros i e q. destruct (rr_entries s !! id) as [e0|] eqn:E; [|by left; exists e]. cbn.
    intros [[<- <-]|[_ Hi]]%lookup_insert_Some Hq; left; [by exists e0|by exists e].
Qed.

(** What an acquisition does. *)
Lemma acquire_cases s sides tasks y :
  rr_wf s -> acquire (mkMedia s sides tasks) = Some y ->
  exists id e p x b' q f s',
    rr_entries s !! id = Some e /\ en_inflight e = false /\ en_buffer e = Some p /\ sides !! p = Some x /\
    selectFrameForInference (sd_buffer x) = (Some q, b') /\ sb_store b' !! q = Some f /\ rr_wf s' /\
    rr_entries s' = <[id := set_inflight true e]> (rr_entries s) /\
    y = mkMedia s' (<[p := sd_with_buffer b' x]> sides) (mkTask id p (Some (fb_frame_id f)) :: tasks).
Proof.
  intros Hwf. unfold acquire. cbn. set (w := sd_buffer <$> sides).
  destruct (tryAcquire_cases s w Hwf) as [(o & t & s' & w' & E & _ & Hs & _)|[-> _]]; [|done].
  rewrite E. pose proof (served_wf _ _ _ _ _ _ Hwf Hs) as Hwf'.
  destruct (sv_entry _ _ _ _ _ _ Hs) as (e & p & b & q & b' & He & Hf & Hp & Hsel & Ht & Hs' & -> & Hb).
  rewrite Ht. cbn. intros (x & Hx & (b0 & Hb0 & (f & Hq & [= <-])%bind_Some)%bind_Some)%bind_Some.
  rewrite lookup_insert_eq in Hb0. injection Hb0 as <-. subst w. rewrite lookup_fmap, Hx in Hp. injection Hp as <-.
  by exists (it_stream_id t), e, p, x, b', q, f, s'.
Qed.

(** A buffer stays its stream's. *)
Lemma owned_insert p x x' (sides : gmap buffer_ptr stream_side) q i :
  sides !! p = Some x -> sd_stream x' = sd_stream x ->
  (exists y, sides !! q = Some y /\ sd_stream y = i) -> exists y, <[p := x']> sides !! q = Some y /\ sd_stream y = i.
Proof.
  intros Hx Hid (y & Hy & Hi). destruct (decide (p = q)) as [<-|Hne].
  - rewrite lookup_insert_eq. exists x'. split; [done|congruence].
  - rewrite lookup_insert_ne by done. by exists y.
Qed.

Lemma inv_acquire s sides tasks y :
  media_inv (mkMedia s sides tasks) -> acquire (mkMedia s sides tasks) = Some y -> media_inv y.
Proof.
  intros [H1 H2 H3 H4 H5 H6] Hacq. cbn in *.
  destruct (acquire_cases s sides tasks y H1 Hacq) as (id & e & p & x & b' & q & f & s' & He & Hf & Hp & Hx & Hsel & Hq & Hwf' & Hs' & ->).
  destruct (H5 id e p He Hp) as (x0 & Hx0 & Hid). assert (x0 = x) as -> by congruence.
  assert (Hfree : forall t, t ∈ tasks -> ts_stream t <> id /\ ts_buffer t <> p).
  { intros t Ht. destruct (H3 t Ht) as (e' & He' & Hf'). assert (ts_stream t <> id) as Hne by congruence.
    split; [done|]. intros Hb. destruct (H4 t Ht) as (x' & Hx' & Hid'). apply Hne. congruence. }
  split; cbn; try done.
  - apply NoDup_cons. split; [|done]. intros (t & Ht & Hin)%list_elem_of_fmap. by destruct (Hfree t Hin).
  - intros t [->|Ht]%elem_of_cons; rewrite Hs'; cbn.
    + rewrite lookup_insert_eq. by eexists.
    + destruct (H3 t Ht) as (e' & He' & ?). rewrite lookup_insert_ne by (by destruct (Hfree t Ht)). by exists e'.
  - intros t [->|Ht]%elem_of_cons; apply (owned_insert p x); try done; [by exists x|by apply H4].
  - intros i e' r Hi Hr. rewrite Hs' in Hi. apply (owned_insert p x); [done|done|].
    apply lookup_insert_Some in Hi as [[<- <-]|[_ Hi]]; [by apply (H5 id e)|by apply (H5 i e')].
  - intros r x' held Hx' Hheld. apply lookup_insert_Some in Hx' as [[<- <-]|[Hne Hx']].
    + rewrite (holds_first p (mkTask id p (Some (fb_frame_id f))) tasks held) by (try done; intros t Ht; by apply Hfree).
      eapply rtc_r; [apply (H6 p x None Hx); by right; split; [|intros t Ht; apply Hfree]|].
      pose proof (step_other CallSelect (mkShared (sd_buffer x) (sd_seen x) None) (sd_phase x) eq_refl) as Hstep.
      unfold after in Hstep. cbn in Hstep. rewrite Hsel in Hstep. cbn in Hstep. rewrite Hq in Hstep. exact Hstep.
    + apply (H6 r x' held Hx'). by apply (holds_tail r (mkTask id p (Some (fb_frame_id f)))).
Qed.

Lemma inv_task id p frame c x s sides rest :
  media_inv (mkMedia s sides (mkTask id p frame :: rest)) -> sides !! p = Some x ->
  enabled c (mkShared (sd_buffer x) (sd_seen x) frame) -> of_inference c ->
  media_inv (mkMedia s (<[p := sd_with_buffer (sb_apply c (sd_buffer x)) x]> sides)
               (mkTask id p (held_after c (mkShared (sd_buffer x) (sd_seen x) frame)) :: rest)).
Proof.
  intros Hinv Hx Hc Hof. destruct (first_task _ _ _ _ Hinv) as [Hid Hbuf]. cbn in Hid, Hbuf.
  destruct Hinv as [H1 H2 H3 H4 H5 H6]. cbn in *. set (frame' := held_after c _). split; cbn; try done.
  - intros t [->|Ht]%elem_of_cons; [apply (H3 (mkTask id p frame)); by left|apply H3; by right].
  - intros t Ht. apply (owned_insert p x); [done|done|].
    apply elem_of_cons in Ht as [->|Ht]; [apply (H4 (mkTask id p frame)); by left|apply H4; by right].
  - intros i e r Hi Hr. apply (owned_insert p x); [done|done|]. by apply (H5 i e).
  - intros r x' held Hx' Hheld. apply lookup_insert_Some in Hx' as [[<- <-]|[Hne Hx']].
    + apply holds_first in Hheld as ->; [|done|done]. cbn.
      eapply rtc_r; [apply (H6 p x frame Hx); left; exists (mkTask id p frame); by split; [left|]|].
      pose proof (step_other c (mkShared (sd_buffer x) (sd_seen x) frame) (sd_phase x) Hc) as Hstep.
      unfold after in Hstep. cbn in Hstep. fold frame' in Hstep.
      assert (note (sd_seen x) c = sd_seen x) as E by by destruct c. by rewrite E in Hstep.
    + apply (H6 r x' held Hx'). apply holds_tail; [done|]. by apply holds_tail in Hheld.
Qed.

Lemma inv_stream p x x' s sides tasks :
  media_inv (mkMedia s sides tasks) -> sides !! p = Some x -> sd_stream x' = sd_stream x ->
  stream_step (side_state x None) (side_state x' None) ->
  media_inv (mkMedia s (<[p := x']> sides) tasks).
Proof.
  intros [H1 H2 H3 H4 H5 H6] Hx Hid Hstep. cbn in *. split; cbn; try done.
  - intros t Ht. apply (owned_insert p x); [done|done|]. by apply H4.
  - intros i e r Hi Hr. apply (owned_insert p x); [done|done|]. by apply (H5 i e).
  - intros r x1 held Hx1 Hheld. apply lookup_insert_Some in Hx1 as [[<- <-]|[Hne Hx1]]; [|by apply (H6 r)].
    rewrite Hid. etrans; [by apply (H6 p x held)|]. apply step_with_held; [|done].
    apply (si_wf _ (reachable_inv (sd_stream x) _ (H6 p x held Hx Hheld))).
Qed.

Lemma inv_media_step y y' : media_step true y y' -> media_inv y -> media_inv y'.
Proof.
  destruct 1 as [id cfg p s sides tasks Hp|cfg p x s sides tasks Hx|id s sides tasks Hq|y y' Hs Hacq
    |id p frame c x s sides tasks rest Hp Hx Hof Hc|id p fid s sides tasks rest Hp|id p fid s sides tasks rest Hp
    |p x x' s sides tasks Hx Hid Hstep|s sides tasks]; intros Hinv.
  - apply (inv_upsert id cfg p (new_side id)); [by apply inv_new_side|by rewrite lookup_insert_eq|done].
  - by apply (inv_upsert _ cfg p x).
  - apply inv_remove; auto.
  - destruct y as [s sides tasks]. by eapply inv_acquire.
  - apply (media_inv_perm _ _ _ _ Hp) in Hinv. by apply inv_task.
  - apply (media_inv_perm _ _ _ _ Hp) in Hinv. by eapply inv_finish.
  - apply (media_inv_perm _ _ _ _ Hp) in Hinv. by eapply (inv_finish id p fid).
  - by eapply inv_stream.
  - apply (inv_scheduler s); [done|..]; destruct Hinv as [[? ? ?] ? ? ? ? ?]; [by split|intros t e; by exists e|].
    intros i e p ? ?. left. by exists e.
Qed.

Lemma media_reachable_inv y : rtc (media_step true) media_start y -> media_inv y.
Proof.
  assert (H0 : media_inv media_start).
  { split; cbn; [|constructor|..]; try by intros ? ?%elem_of_nil.
    - split; cbn; [constructor| |by right]. intros id. rewrite lookup_empty. split; [by intros ?%elem_of_nil|by intros [? ?]].
    - done.
    - done. }
  revert H0. generalize media_start. intros y0 H0 Hrun. induction Hrun; eauto using inv_media_step.
Qed.

(** ** Running the system *)

(** Whole actions of the threads, one stream's picture, one task or one packet each; a stream
    may be registered again while it is registered. *)
Inductive media_action :=
| Register (id : string) (p : buffer_ptr)
| Remove (id : string)
| Arrive (p : buffer_ptr) (id : Z)
| Acquire
| Finish (i : nat)
| Publish (p : buffer_ptr).

Definition arrived (id : Z) (x : stream_side) : stream_side :=
  mkSide (sd_stream x)
    (enqueueFrame (Some (picture_frame id (Some some_image))) (enqueuePacket (Some (picture_packet id)) (sd_buffer x)).2).2
    (id :: (sd_seen x).1, id :: (sd_seen x).2) (sd_phase x).

Definition media_do (a : media_action) (y : media_system) : option media_system :=
  let '(mkMedia s sides tasks) := y in
  match a with
  | Register id p =>
      match sides !! p with
      | None => Some (mkMedia (upsertStream id StreamConfig_default (Some p) s) (<[p := new_side id]> sides) tasks)
      | Some _ => None
      end
  | Remove id => Some (mkMedia (removeStream id s) sides tasks)
  | Arrive p id =>
      x ← sides !! p;
      if (0 <=? id) && forallb (fun i => i <? id) ((sd_seen x).1 ++ (sd_seen x).2)
      then Some (mkMedia s (<[p := arrived id x]> sides) tasks) else None
  | Acquire => if rr_stopped s then None else acquire y
  | Finish i =>
      t ← tasks !! i; x ← sides !! ts_buffer t; id ← ts_frame t;
      Some (mkMedia (completeTask (ts_stream t) id s)
              (<[ts_buffer t := sd_with_buffer (markInferenceDone (result_of id) (sd_buffer x)) x]> sides)
              (delete i tasks))
  | Publish p =>
      x ← sides !! p; packet ← peekPacket (sd_buffer x);
      match sd_phase x with
      | Waiting =>
          if waitForPublishable kMinVideoWatermark (sd_buffer x) then
            let b := popPacket (sd_buffer x) in
            let b := if bool_decide (ep_media_type packet = Video) && (0 <=? ep_frame_id packet)
                     then releaseFrame (ep_frame_id packet) b else b in
            Some (mkMedia s (<[p := sd_with_buffer b x]> sides) tasks)
          else None
      | _ => None
      end
  end.

Fixpoint media_run (l : list media_action) (y : media_system) : option media_system :=
  match l with
  | [] => Some y
  | a :: l => y ← media_do a y; media_run l y
  end.

Lemma side_steps q p x y s sides tasks :
  rtc (fun x x' => sd_stream x' = sd_stream x /\ stream_step (side_state x None) (side_state x' None)) x y -> sides !! p = Some x ->
  rtc (media_step q) (mkMedia s sides tasks) (mkMedia s (<[p := y]> sides) tasks).
Proof.
  intros Hrun. revert sides. induction Hrun as [x|x1 x2 x3 [Hid Hstep] _ IH]; intros sides Hx; [by rewrite insert_id|].
  eapply rtc_l; [by apply (media_stream q p x1 x2)|]. rewrite <- (insert_insert_eq sides p x3 x2). apply IH. by rewrite lookup_insert_eq.
Qed.

Lemma media_do_steps q a y y' :
  (q = true -> forall id, a <> Remove id) -> media_do a y = Some y' -> rtc (media_step q) y y'.
Proof.
  destruct y as [s sides tasks]. intros Hq. destruct a as [id p|id|p id| |i|p]; cbn.
  - destruct (sides !! p) eqn:?; [done|]. intros [= <-]. by apply rtc_once, media_register.
  - intros [= <-]. apply rtc_once, media_remove. intros E. by destruct (Hq E id).
  - intros (x & Hx & H)%bind_Some. destruct (_ && _) eqn:Hid; [|done]. injection H as <-.
    apply andb_true_iff in Hid as [H0%Z.leb_le Hall]. rewrite forallb_forall in Hall.
    assert (Hlt : forall i, i ∈ (sd_seen x).1 ++ (sd_seen x).2 -> i < id)
      by (intros i Hi; by apply Z.ltb_lt, Hall, list_elem_of_In).
    apply (side_steps q p x); [|done]. destruct x as [sid b seen ph]. cbn in *.
    apply (rtc_l _ _ (mkSide sid (enqueuePacket (Some (picture_packet id)) b).2 (id :: seen.1, seen.2) ph)); [|apply rtc_once]; (split; [done|]).
    + apply (step_other (CallEnqueuePacket (Some (picture_packet id))) (mkShared b seen None)). intros _. split; [done|].
      intros i Hi. apply Hlt, elem_of_app. by left.
    + apply (step_other (CallEnqueueFrame (Some (picture_frame id (Some some_image))))
               (mkShared (enqueuePacket (Some (picture_packet id)) b).2 (id :: seen.1, seen.2) None)).
      split; [left|]. split; [|done]. intros i Hi. apply Hlt, elem_of_app. by right.
  - destruct (rr_stopped s) eqn:Hs; [done|]. intros Hacq. by apply rtc_once, media_acquire.
  - intros ([id p frame] & Ht & (x & Hx & (fid & Hf & [= <-])%bind_Some)%bind_Some)%bind_Some. cbn in *. subst frame.
    pose proof (delete_Permutation tasks i _ Ht) as Hperm.
    eapply rtc_l; [|apply rtc_once].
    + apply (media_task q id p (Some fid) (CallMarkDone (result_of fid)) x s sides tasks (delete i tasks)); [done|done|done|].
      exists fid. by split; [|left].
    + by apply media_complete with (p := p).
  - intros (x & Hx & (packet & Hpk & H)%bind_Some)%bind_Some. destruct x as [sid b seen ph]. cbn in *. destruct ph; [|done..].
    destruct (waitForPublishable _ b) eqn:Hw; [|done]. injection H as <-. apply (side_steps q p (mkSide sid b seen Waiting)); [|done].
    apply (rtc_l _ _ (mkSide sid b seen (Sending packet))); [split; [done|]; by apply (step_gate (mkShared b seen None))|].
    apply (rtc_l _ _ (mkSide sid (popPacket b) seen (Sent packet))); [split; [done|]; apply (step_pop (mkShared b seen None))|].
    apply rtc_once. split; [done|]. pose proof (step_release (mkShared (popPacket b) seen None) packet) as Hrel. by destruct (_ && _).
Qed.

Lemma media_run_steps q l : forall y y',
  (q = true -> forall id, Remove id ∉ l) -> media_run l y = Some y' -> rtc (media_step q) y y'.
Proof.
  induction l as [|a l IH]; intros y y' Hq; cbn; [by intros [= <-]|]. intros (y1 & Ha & Hl)%bind_Some.
  etrans; [apply (media_do_steps q a); [|done]|apply IH; [|done]].
  - intros E id ->. apply (Hq E id). left.
  - intros E id Hin. apply (Hq E id). by right.
Qed.

(** C3: The streams share the scheduler and the inference threads without getting in each
    other's way: in every state the whole system reaches - streams registered, registered
    again with another buffer while a thread works on the old one, updated with any buffer
    they ever had, removed, tasks acquired, worked on and given back, pullers and publishing
    threads running, as long as no stream is removed while a thread has a task of it - two
    threads never work on the same stream or buffer, every task's frame is in a buffer of
    its own stream, decoded and under inference, behind whatever the buffer's publishing
    thread has in hand; a stream is only ever registered with a buffer of its own; and what
    happened to each buffer is a run of its stream's own threads. *)
Theorem streams_do_not_interfere (y : media_system) (Hrun : rtc (media_step true) media_start y) :
  NoDup (ts_stream <$> ms_tasks y) /\ NoDup (ts_buffer <$> ms_tasks y) /\
  (forall t, t ∈ ms_tasks y -> exists x, ms_sides y !! ts_buffer t = Some x /\ sd_stream x = ts_stream t /\
     rtc stream_step (stream_start (ts_stream t)) (side_state x (ts_frame t)) /\
     forall id, ts_frame t = Some id -> inferring_at (sd_buffer x) id /\
       forall packet, busy_with (sd_phase x) packet -> ep_frame_id packet < id) /\
  (forall i e p, rr_entries (ms_scheduler y) !! i = Some e -> en_buffer e = Some p ->
     exists x, ms_sides y !! p = Some x /\ sd_stream x = i) /\
  (forall p x, ms_sides y !! p = Some x -> (forall t, t ∈ ms_tasks y -> ts_buffer t <> p) ->
     rtc stream_step (stream_start (sd_stream x)) (side_state x None)).
Proof.
  pose proof (media_reachable_inv y Hrun) as Hinv. split_and!.
  - apply (mi_tasks y Hinv).
  - apply NoDup_fmap_2_strong; [|by eapply NoDup_fmap_1, mi_tasks]. intros t t' Ht Ht' Hb. by apply (one_task_per_buffer y).
  - intros t Ht. destruct (mi_owned y Hinv t Ht) as (x & Hx & Hown).
    assert (rtc stream_step (stream_start (ts_stream t)) (side_state x (ts_frame t))) as Hside
      by (rewrite <- Hown; apply (mi_sides y Hinv (ts_buffer t) x (ts_frame t) Hx); by left; exists t).
    exists x. split_and!; [done|done|done|]. intros id Hid. rewrite Hid in Hside.
    pose proof (reachable_inv _ _ Hside) as Hsi. pose proof (si_held _ Hsi id eq_refl) as Hh. split; [done|].
    intros packet [Hph Hv]. pose proof (si_phase _ Hsi) as Hphase. cbn in Hphase.
    destruct Hph as [Hph|Hph]; rewrite Hph in Hphase; [destruct Hphase as [_ Hphase]|]; by apply (sv_inferring _ _ _ (Hphase Hv)).
  - apply (mi_known y Hinv).
  - intros p x Hx Hno. apply (mi_sides y Hinv p x None Hx). by right.
Qed.

(** Two streams, a task of each in a thread's hands, one registered again with a second
    buffer. *)
Definition ex_actions : list media_action :=
  [Register "a" 1%positive; Register "b" 2%positive; Arrive 1 0; Arrive 2 0; Arrive 1 1; Acquire; Acquire;
   Register "a" 3%positive; Arrive 3 0].

Lemma ex_actions_quiet id : Remove id ∉ ex_actions.
Proof. unfold ex_actions. rewrite !not_elem_of_cons. split_and!; try done. apply not_elem_of_nil. Qed.

Lemma ex_actions_run :
  exists y, media_run ex_actions media_start = Some y /\ length (ms_tasks y) = 2%nat /\
    en_buffer <$> rr_entries (ms_scheduler y) !! "a" = Some (Some 3%positive) /\ exists t, t ∈ ms_tasks y /\ ts_buffer t = 1%positive.
Proof.
  apply some_ex. vm_compute. split; [done|]. split; [done|]. eexists. split; [right; left|done].
Qed.

Lemma streams_do_not_interfere_witness :
  exists y, media_run ex_actions media_start = Some y /\ length (ms_tasks y) = 2%nat /\
    NoDup (ts_buffer <$> ms_tasks y) /\
    (exists t, t ∈ ms_tasks y /\ en_buffer <$> rr_entries (ms_scheduler y) !! "a" <> Some (Some (ts_buffer t)) /\
       exists x, ms_sides y !! ts_buffer t = Some x /\ sd_stream x = ts_stream t) /\
    forall t, t ∈ ms_tasks y -> exists x, ms_sides y !! ts_buffer t = Some x /\
      forall id, ts_frame t = Some id -> inferring_at (sd_buffer x) id.
Proof.
  destruct ex_actions_run as (y & Hy & Hlen & Ha & t1 & Ht1 & Hb1). exists y. split; [exact Hy|]. split; [exact Hlen|].
  destruct (streams_do_not_interfere y (media_run_steps true _ _ _ (fun _ => ex_actions_quiet) Hy)) as (_ & Hb & Ht & _).
  split; [exact Hb|]. split.
  - exists t1. split; [exact Ht1|]. split; [by rewrite Ha, Hb1|]. destruct (Ht t1 Ht1) as (x & Hx & Hown & _). by exists x.
  - intros t Hin. destruct (Ht t Hin) as (x & Hx & _ & _ & Hi). exists x. split; [exact Hx|].
    intros id Hid. by destruct (Hi id Hid).
Defined.

Definition ex_restart : list media_action :=
  [Register "a" 1%positive; Arrive 1 0; Acquire; Remove "a"; Register "a" 2%positive; Arrive 2 0; Arrive 2 1; Acquire;
   Finish 1; Arrive 2 2; Acquire; Finish 0; Publish 2; Publish 2].

Lemma ex_restart_run :
  exists y, rtc (media_step false) media_start y /\
    exists t, ms_tasks y = [t] /\ ts_frame t = Some 1 /\
      match ms_sides y !! ts_buffer t with Some x => findFrame 1 (sd_buffer x) = None | None => False end.
Proof.
  assert (exists y, media_run ex_restart media_start = Some y /\
    (exists t, ms_tasks y = [t] /\ ts_frame t = Some 1 /\
       match ms_sides y !! ts_buffer t with Some x => findFrame 1 (sd_buffer x) = None | None => False end))
    as (y & Hy & Hend) by (apply some_ex; vm_compute; by eexists).
  exists y. split; [|exact Hend]. refine (media_run_steps false ex_restart media_start y _ Hy). discriminate.
Qed.

(** C6: The guarantees end when a stream is removed while one of its tasks is in a thread's hands
    and is registered again, as a changed transport configuration does: when that thread
    completes its old task, the mark of the new registration is cleared, a second thread
    takes a frame of the same new buffer, and the frame the first one works on is finished
    under its hands, published past and released. *)
Theorem restart_loses_frame :
  exists y t x id, rtc (media_step false) media_start y /\ t ∈ ms_tasks y /\ ts_frame t = Some id /\
    ms_sides y !! ts_buffer t = Some x /\ findFrame id (sd_buffer x) = None.
Proof.
  destruct ex_restart_run as (y & Hrun & t & Ht & Hf & Hx).
  destruct (ms_sides y !! ts_buffer t) as [x|] eqn:E; [|done]. exists y, t, x, 1. split_and!; try done. rewrite Ht. left.
Qed.
