(* ===== verification/Loops.v ===== *)
(** * The inference loop in the whole system

    [infer_turn] (Infer.v) works on the pipeline's scheduler and buffers; [media_step]
    (System.v) is what all threads together may do to them.  Here a turn of the loop -
    waiting for a task, acquiring it, working on the frame, giving it back - is a run of the
    system, for any number of streams and threads around it. *)
From S2P Require Import Prelude StdMap Float32 Messages SafeQueue StreamBuffer BufferSpec Scheduler Common Config Sei Socket.
From S2P Require Import Ipc Stats Detector Decoder Puller Mux Recorder Snapshot Pipeline Publish Infer Interleaving Progress System.

(** The scheduler and the buffers a part of the program has before it are those of the system. *)
Definition matches (sw : RoundRobinInferScheduler * gmap buffer_ptr StreamBuffer) (y : media_system) : Prop :=
  ms_scheduler y = sw.1 /\ sd_buffer <$> ms_sides y = sw.2.
Definition agrees (p : Pipeline) (y : media_system) : Prop := matches (pl_scheduler p, pl_buffers p) y.

#[export] Instance task_eq_dec : EqDecision task.
Proof. solve_decision. Defined.

(** ** A call on the task's buffer *)

Lemma task_side y t :
  rtc (media_step true) media_start y -> t ∈ ms_tasks y -> exists x, ms_sides y !! ts_buffer t = Some x.
Proof.
  intros Hy%media_reachable_inv Ht. destruct (mi_owned y Hy t Ht) as (x & Hx & _). by exists x.
Qed.

Lemma matches_alter s w y p x x' f :
  matches (s, w) y -> ms_sides y !! p = Some x -> sd_buffer x' = f (sd_buffer x) ->
  matches (s, alter f p w) (mkMedia s (<[p := x']> (ms_sides y)) (ms_tasks y)).
Proof.
  intros [_ Hw] Hx Hx'. split; [done|]. cbn in *. subst w. rewrite fmap_insert, Hx'. apply map_eq. intros q.
  destruct (decide (p = q)) as [->|Hne]; [by rewrite lookup_insert_eq, lookup_alter_eq, lookup_fmap, Hx|].
  by rewrite lookup_insert_ne, lookup_alter_ne.
Qed.

(** The state after the call [c] of the thread that has the task [t]; the task's frame is now
    [frame]. *)
Definition call_of (t : task) (c : sb_call) (frame : option Z) (y : media_system) : media_system :=
  mkMedia (ms_scheduler y) (alter (fun x => sd_with_buffer (sb_apply c (sd_buffer x)) x) (ts_buffer t) (ms_sides y))
    (mkTask (ts_stream t) (ts_buffer t) frame :: base.filter (fun u => u <> t) (ms_tasks y)).

Lemma task_call c p y t frame :
  agrees p y -> rtc (media_step true) media_start y -> t ∈ ms_tasks y -> of_inference c ->
  (forall sb seen, enabled c (mkShared sb seen (ts_frame t)) /\ held_after c (mkShared sb seen (ts_frame t)) = frame) ->
  media_step true y (call_of t c frame y) /\ agrees (on_buffer (ts_buffer t) (sb_apply c) p) (call_of t c frame y).
Proof.
  intros Hag Hy Ht Hof Hen. destruct (task_side y _ Hy Ht) as [x Hx].
  assert (Hrest : ms_tasks y ≡ₚ t :: base.filter (fun u => u <> t) (ms_tasks y)).
  { pose proof (NoDup_fmap_1 _ _ (mi_tasks y (media_reachable_inv y Hy))) as Hnd.
    pose proof (proj1 (elem_of_Permutation (ms_tasks y) t) Ht) as [rest Hp]. rewrite Hp in Hnd |- *.
    apply NoDup_cons in Hnd as [Hni _]. rewrite filter_cons_False by naive_solver. f_equiv. enough (base.filter (fun u => u <> t) rest = rest) as -> by done.
    clear -Hni. induction rest as [|u rest IH]; [done|]. apply not_elem_of_cons in Hni as [Hne Hni].
    by rewrite filter_cons_True, IH by done. }
  assert (Hside : alter (fun x => sd_with_buffer (sb_apply c (sd_buffer x)) x) (ts_buffer t) (ms_sides y) =
            <[ts_buffer t := sd_with_buffer (sb_apply c (sd_buffer x)) x]> (ms_sides y)).
  { apply map_eq. intros q. destruct (decide (ts_buffer t = q)) as [<-|Hne]; [by rewrite lookup_alter_eq, lookup_insert_eq, Hx|].
    by rewrite lookup_alter_ne, lookup_insert_ne. }
  unfold call_of. rewrite Hside. destruct t as [id b held], y as [s sides tasks]. cbn in *.
  destruct (Hen (sd_buffer x) (sd_seen x)) as [Hc <-].
  split; [exact (media_task true id b held c x s sides tasks _ Hrest Hx Hof Hc)|].
  destruct (matches_alter _ _ _ b x (sd_with_buffer (sb_apply c (sd_buffer x)) x) (sb_apply c) Hag Hx eq_refl) as [_ H2].
  destruct Hag as [Hs _]. by split.
Qed.

(** The result of a task whose frame was handed back is cached. *)
Lemma cache_call r p y id b :
  agrees p y -> rtc (media_step true) media_start y -> mkTask id b None ∈ ms_tasks y ->
  exists y', media_step true y y' /\ agrees (on_buffer b (updateCachedInferenceResult r) p) y' /\ mkTask id b None ∈ ms_tasks y'.
Proof.
  intros Hag Hy Ht. destruct (task_side y _ Hy Ht) as [x Hx]. cbn in Hx. destruct y as [s sides tasks]. cbn in *.
  eexists. split; [apply (media_stream true b x (sd_with_buffer (updateCachedInferenceResult r (sd_buffer x)) x) s sides tasks Hx eq_refl)|].
  - by apply (step_other (CallUpdateCached r) (mkShared (sd_buffer x) (sd_seen x) None)).
  - split; [|exact Ht].
    destruct (matches_alter _ _ _ b x (sd_with_buffer (updateCachedInferenceResult r (sd_buffer x)) x)
                (updateCachedInferenceResult r) Hag Hx eq_refl) as [_ H2].
    destruct Hag as [Hs _]. by split.
Qed.

(** The task ends: the scheduler takes the mark back. *)
Lemma end_call (f : string -> Z -> RoundRobinInferScheduler -> RoundRobinInferScheduler) p y id b frame_id :
  f = completeTask \/ f = cancelTask -> agrees p y -> mkTask id b None ∈ ms_tasks y ->
  exists y', media_step true y y' /\ agrees (on_scheduler (f id frame_id) p) y' /\ ms_tasks y ≡ₚ mkTask id b None :: ms_tasks y'.
Proof.
  intros Hf [Hs Hw] Ht. pose proof (proj1 (elem_of_Permutation (ms_tasks y) (mkTask id b None)) Ht) as [rest Hrest].
  destruct y as [s sides tasks]. cbn in *. subst s. exists (mkMedia (f id frame_id (pl_scheduler p)) sides rest).
  split; [|by split]. destruct Hf as [-> | ->]; [by eapply media_complete|by eapply media_cancel].
Qed.

(** ** A task *)

Section Loops.
Context `{MessageDifferencer} `{EnvelopeCodec} (api : TrackerApi) (edge : EdgeInferApi)
        (av_rescale_q : Z -> AVRational -> AVRational -> Z)
        (av_packet_rescale_ts : AVPacket -> AVRational -> AVRational -> AVPacket)
        (rec_write_ok : nat -> bool) (clone_ok : AVPacket -> bool) (rename_ok : string -> string -> bool).

Abbreviation infer_task := (infer_task api edge av_rescale_q av_packet_rescale_ts rec_write_ok clone_ok rename_ok).
Abbreviation infer_turn := (infer_turn api edge av_rescale_q av_packet_rescale_ts rec_write_ok clone_ok rename_ok).
Abbreviation reached := (rtc (media_step true) media_start).

(** The system got from [y] to [z], and the task [id] of the buffer [b] is over. *)
Definition given_up (id : string) (b : buffer_ptr) (y z : media_system) : Prop :=
  exists y1, rtc (media_step true) y y1 /\ media_step true y1 z /\ ms_tasks y1 ≡ₚ mkTask id b None :: ms_tasks z.

Lemma given_up_after id b x y z : rtc (media_step true) x y -> given_up id b y z -> given_up id b x z.
Proof. intros Hxy (y1 & H1 & H2 & H3). exists y1. split; [by etrans|done]. Qed.

Lemma dropped_steps p y id b frame_id :
  agrees p y -> reached y -> mkTask id b (Some frame_id) ∈ ms_tasks y ->
  exists y', given_up id b y y' /\ agrees (drop_task b id frame_id p) y'.
Proof.
  intros Hag Hy Ht. destruct (task_call (CallClear frame_id Dropped) p y _ None Hag Hy Ht I) as [H1 A1]; [done|].
  destruct (end_call cancelTask _ _ id b frame_id ltac:(by right) A1 ltac:(left)) as (y2 & H2 & A2 & P2).
  exists y2. split; [eexists; split; [by apply rtc_once|done]|exact A2].
Qed.

Lemma filed_steps r p y id b frame_id :
  agrees p y -> reached y -> mkTask id b (Some frame_id) ∈ ms_tasks y -> fr_frame_id r = frame_id \/ fr_frame_id r = -1 ->
  exists y', rtc (media_step true) y y' /\ agrees (file_result b id r p) y' /\ mkTask id b None ∈ ms_tasks y'.
Proof.
  intros Hag Hy Ht Hr. destruct (task_call (CallMarkDone r) p y _ None Hag Hy Ht I) as [H1 A1].
  { intros sb seen. split; [by exists frame_id|done]. }
  destruct (cache_call r _ _ id b A1 ltac:(by eapply rtc_r) ltac:(left)) as (y2 & H2 & A2 & T2).
  exists y2. split; [eapply rtc_l; [done|by apply rtc_once]|]. by split.
Qed.

(** What the other threads do while this one works on the task, from the state [y] in which it
    was acquired: after the frame was marked as running, and while the detector runs, they
    make steps of the system that leave the task alone. *)
Definition others_while (an : infer_answers) (t : task) (frame_id : Z) (p : Pipeline) (y : media_system) : Prop :=
  let p1 := on_buffer (ts_buffer t) (markInferenceRunning frame_id) p in
  exists y2, rtc (media_step true) (call_of t (CallMarkRunning frame_id) (Some frame_id) y) y2 /\
    agrees (ia_meanwhile an p1) y2 /\ t ∈ ms_tasks y2 /\
    forall ptr d, exists y3, rtc (media_step true) y2 y3 /\
      agrees (ia_during an (on_context ptr (sx_with_detector d) (ia_meanwhile an p1))) y3 /\ t ∈ ms_tasks y3.

Lemma infer_task_steps (an : infer_answers) (task : InferTask frame_ptr) (w w' : InferWorld) (y : media_system)
    (b : buffer_ptr) (frame : FrameBundle) :
  it_buffer task = Some b -> task_frame task (iw_pipe w) = Some frame ->
  agrees (iw_pipe w) y -> reached y -> mkTask (it_stream_id task) b (Some (fb_frame_id frame)) ∈ ms_tasks y ->
  others_while an (mkTask (it_stream_id task) b (Some (fb_frame_id frame))) (fb_frame_id frame) (iw_pipe w) y ->
  infer_task an task w = Some w' ->
  exists y', given_up (it_stream_id task) b y y' /\ agrees (iw_pipe w') y'.
Proof.
  intros Hb Hf Hag Hy Ht Hothers. unfold Infer.infer_task. rewrite Hb, Hf.
  set (id := it_stream_id task) in *. set (fid := fb_frame_id frame) in *.
  destruct (task_call (CallMarkRunning fid) (iw_pipe w) y _ (Some fid) Hag Hy Ht I) as [H1 _]; [done|].
  unfold others_while in Hothers. cbn [ts_buffer] in Hothers.
  destruct Hothers as (y2 & H2 & A2 & T2 & Hdur).
  assert (Hy2 : rtc (media_step true) y y2) by (by eapply rtc_l). assert (R2 : reached y2) by (by etrans).
  set (p2 := ia_meanwhile an _) in *. clearbody p2.
  assert (Hdrop : forall ipc tr, Some (mkInferWorld (drop_task b id fid p2) ipc tr) = Some w' ->
            exists y', given_up id b y y' /\ agrees (iw_pipe w') y').
  { intros ipc tr [= <-]. destruct (dropped_steps p2 y2 id b fid A2 R2 T2) as (y3 & H3 & A3). exists y3.
    split; [by eapply given_up_after|exact A3]. }
  destruct (if has_image frame then live_stream id p2 else None) as [[ptr c]|]; [|by apply Hdrop].
  destruct (de_detector (sx_detector_runtime c)) as [d|]; [|by apply Hdrop].
  pose proof (detect_frame_id api edge (ia_clock an) frame (de_config (sx_detector_runtime c)) d (iw_tracker w)) as Hr.
  destruct (detect _ _ _ _ _ _ _) as [[r d'] tracker]. cbn in Hr.
  destruct (Hdur ptr (Some d')) as (y3 & H3 & A3 & T3).
  set (p3 := ia_during an _) in *. clearbody p3.
  destruct (filed_steps r p3 y3 id b fid A3 ltac:(by etrans) T3 Hr) as (y4 & H4 & A4 & T4).
  set (p4 := file_result b id r p3) in *. clearbody p4.
  destruct (alarm_media _ _ _ _ _ _ _ _ _ _) as [[[rn sn] p5]|] eqn:Hm; [|done].
  apply alarm_media_scheduler in Hm as [Hs5 Hb5]. cbn [mbind option_bind].
  assert (A5 : agrees p5 y4) by (unfold agrees; by rewrite Hs5, Hb5).
  destruct (end_call completeTask p5 y4 id b fid ltac:(by left) A5 T4) as (y5 & H5 & A6 & P5).
  assert (Hup : given_up id b y y5) by (exists y4; split; [etrans; [done|]; by etrans|done]).
  destruct (iw_ipc w) as [ic|]; cbn [mbind option_bind]; [destruct (push_alarms _ ic); [|done]; cbn [mbind option_bind]|];
    intros [= <-]; by exists y5.
Qed.

(** ** Acquiring it *)

Lemma side_wf y p x : reached y -> ms_sides y !! p = Some x -> sb_wf (sd_buffer x).
Proof.
  intros Hy%media_reachable_inv Hx.
  assert (Hheld : exists held, holds p (ms_tasks y) held).
  { destruct (decide (Exists (fun t => ts_buffer t = p) (ms_tasks y))) as [Hex|Hno].
    - apply Exists_exists in Hex as (t & Ht & Hp). exists (ts_frame t). left. by exists t.
    - exists None. right. split; [done|]. intros t Ht Hp. apply Hno, Exists_exists. by exists t. }
  destruct Hheld as [held Hheld]. exact (si_wf _ (reachable_inv _ _ (mi_sides y Hy p x held Hx Hheld))).
Qed.

(** A task that was acquired, with the buffers at that moment. *)
Definition in_hands (t : InferTask frame_ptr) (w : gmap buffer_ptr StreamBuffer) (y : media_system) : Prop :=
  exists b q sb f, it_buffer t = Some b /\ it_frame t = Some q /\ w !! b = Some sb /\ sb_store sb !! q = Some f /\
    mkTask (it_stream_id t) b (Some (fb_frame_id f)) ∈ ms_tasks y.

Lemma acquire_step s w y t s' w' :
  reached y -> matches (s, w) y -> rr_stopped s = false -> tryAcquireLocked s w = (Some t, s', w') ->
  exists y', acquire y = Some y' /\ media_step true y y' /\ matches (s', w') y' /\ in_hands t w' y'.
Proof.
  intros Hy [Es Ew] Hstop Htry. pose proof (media_reachable_inv y Hy) as Hinv. cbn in Es, Ew.
  assert (Hwf : rr_wf s) by (rewrite <- Es; apply (mi_wf y Hinv)).
  destruct (tryAcquire_cases s w Hwf) as [(o & t0 & s0 & w0 & E & _ & Hs & _)|[E _]]; rewrite Htry in E; [|done].
  injection E as <- <- <-. destruct (sv_entry _ _ _ _ _ _ Hs) as (e & p & sb & q & sb' & He & Hf & Hp & Hsel & Ht & Hs' & Hw' & Hb).
  assert (Hx : exists x, ms_sides y !! p = Some x /\ sd_buffer x = sb).
  { rewrite <- Ew, lookup_fmap in Hp. destruct (ms_sides y !! p) as [x|]; [|done]. exists x. by injection Hp. }
  destruct Hx as (x & Hx & Hsb). pose proof (side_wf y p x Hy Hx) as Hsbwf. rewrite Hsb in Hsbwf.
  pose proof (selectFrame_cases sb Hsbwf) as Hcase. cbn in Hsel. rewrite Hsel in Hcase. destruct Hcase as (l & g & Hl).
  apply selection_frame in Hl.
  assert (Hacq : acquire y = Some (mkMedia s' (<[p := sd_with_buffer sb' x]> (ms_sides y))
            (mkTask (it_stream_id t) p (Some (fb_frame_id (fb_set_infer_state Selected g))) :: ms_tasks y))).
  { unfold acquire. rewrite Es, Ew, Htry, Ht. cbn. rewrite Hx. cbn. rewrite Hw', lookup_insert_eq. cbn. by rewrite Hl. }
  eexists. split; [exact Hacq|]. split; [apply media_acquire; [by rewrite Es|exact Hacq]|]. split.
  - split; [done|]. cbn. by rewrite fmap_insert, Ew, Hw'.
  - exists p, q, sb', (fb_set_infer_state Selected g). rewrite Ht, Hw', lookup_insert_eq. split_and!; try done. cbn. left.
Qed.

Lemma no_task s w y :
  reached y -> matches (s, w) y -> forall s' w', tryAcquireLocked s w = (None, s', w') -> s' = s /\ w' = w.
Proof.
  intros Hy [Es _] s' w' Htry. cbn in Es.
  assert (Hwf : rr_wf s) by (rewrite <- Es; apply (mi_wf y), media_reachable_inv, Hy).
  destruct (tryAcquire_cases s w Hwf) as [(o & t0 & s1 & w1 & E & _)|[E _]]; rewrite Htry in E; [done|]. by injection E.
Qed.

(** What the other threads do during a turn that starts in [y]: while it waits, [env], from
    one look at the scheduler to the next, and then while it works on the task. *)
Fixpoint others_around (an : infer_answers)
    (env : list (RoundRobinInferScheduler * gmap buffer_ptr StreamBuffer -> RoundRobinInferScheduler * gmap buffer_ptr StreamBuffer))
    (p : Pipeline) (s : RoundRobinInferScheduler) (w : gmap buffer_ptr StreamBuffer) (y : media_system) : Prop :=
  if rr_stopped s then True
  else match tryAcquireLocked s w with
  | (Some t, s', w') =>
      forall y' b frame, acquire y = Some y' -> it_buffer t = Some b ->
        task_frame t (pp_with_buffers w' (pp_with_scheduler s' p)) = Some frame ->
        others_while an (mkTask (it_stream_id t) b (Some (fb_frame_id frame))) (fb_frame_id frame)
          (pp_with_buffers w' (pp_with_scheduler s' p)) y'
  | (None, _, _) =>
      match env with
      | [] => True
      | e :: env =>
          let sw := e (s, w) in
          exists y', rtc (media_step true) y y' /\ matches sw y' /\ others_around an env p sw.1 sw.2 y'
      end
  end.

(** How the wait of [acquireTask] ends: with a task of which the others leave the thread
    the use, or without. *)
Definition wait_ends (an : infer_answers) (p : Pipeline) (t : InferTask frame_ptr) s' w' (y : media_system) : Prop :=
  exists y', rtc (media_step true) y y' /\ matches (s', w') y' /\
    (it_frame t = None \/
     in_hands t w' y' /\
     forall b frame, it_buffer t = Some b -> task_frame t (pp_with_buffers w' (pp_with_scheduler s' p)) = Some frame ->
       others_while an (mkTask (it_stream_id t) b (Some (fb_frame_id frame))) (fb_frame_id frame)
         (pp_with_buffers w' (pp_with_scheduler s' p)) y').

Lemma acquire_wait_steps an p env : forall s w y t s' w' ok,
  reached y -> matches (s, w) y -> others_around an env p s w y ->
  acquire_wait env InferTask_default s w = (ok, t, s', w') -> wait_ends an p t s' w' y.
Proof.
  induction env as [|e env IH]; intros s w y t s' w' ok Hy Hm Ho; cbn [acquire_wait others_around] in *; unfold acquire_pred;
    (destruct (rr_stopped s) eqn:Hs; [intros [= <- <- <- <-]; exists y; split_and!; [done|done|by left]|]);
    destruct (tryAcquireLocked s w) as [[[t0|] s0] w0] eqn:Htry.
  1, 3: intros [= <- <- <- <-]; destruct (acquire_step s w y t0 s0 w0 Hy Hm Hs Htry) as (y' & Ha0 & H1 & H2 & H3);
    exists y'; (split_and!; [by apply rtc_once|done|]); right; split; [done|]; intros b frame; by apply Ho.
  all: destruct (no_task s w y Hy Hm s0 w0 Htry) as [-> ->].
  - intros [= <- <- <- <-]. exists y. split_and!; [done|done|by left].
  - destruct Ho as (y2 & H2 & M2 & Ho). destruct (e (s, w)) as [s2 w2]. intros Hrun.
    destruct (IH s2 w2 y2 t s' w' ok ltac:(by etrans) M2 Ho Hrun) as (y3 & H3 & M3 & Ht3).
    exists y3. split; [by etrans|done].
Qed.

Lemma acquireTask_steps an p env s w y t s' w' ok :
  reached y -> matches (s, w) y -> others_around an env p s w y ->
  acquireTask 200 env InferTask_default s w = (ok, t, s', w') ->
  wait_ends an p t s' w' y /\ (ok = Some true -> it_frame t <> None).
Proof.
  intros Hy Hm Ho. unfold acquireTask. destruct (rr_stopped s) eqn:Hs.
  { intros [= <- <- <- <-]. split; [|done]. exists y. split_and!; [done|done|by left]. }
  destruct (tryAcquireLocked s w) as [[[t0|] s0] w0] eqn:Htry.
  - intros [= <- <- <- <-]. destruct (acquire_step s w y t0 s0 w0 Hy Hm Hs Htry) as (y' & Ha0 & H1 & H2 & H3). split.
    + exists y'. split_and!; [by apply rtc_once|done|]. right. split; [done|]. intros b frame.
      destruct env; cbn [others_around] in Ho; rewrite Hs, Htry in Ho; by apply Ho.
    + intros _. destruct H3 as (? & ? & ? & ? & _ & -> & _). done.
  - destruct (no_task s w y Hy Hm s0 w0 Htry) as [-> ->].
    destruct (acquire_wait env InferTask_default s w) as [[[okw tw] sw] ww] eqn:Hw.
    pose proof (acquire_wait_steps an p env s w y tw sw ww okw Hy Hm Ho Hw) as Hend.
    destruct okw; cbn; intros [= <- <- <- <-]; (split; [done|]); [|done]. by destruct (it_frame tw).
Qed.

(** C4: A turn of the inference loop is a run of the whole system: from any state the system
    reaches, when what the other threads do while the turn waits for a task and while it
    works on one are steps of the system that leave the task alone, the scheduler and the
    buffers the turn leaves are those of a state the system reaches in steps; and a task that
    was acquired has been handed back on the way, whichever way it ended. *)
Theorem infer_turn_in_system (an : infer_answers)
    (env : list (RoundRobinInferScheduler * gmap buffer_ptr StreamBuffer -> RoundRobinInferScheduler * gmap buffer_ptr StreamBuffer))
    (w w' : InferWorld) (y : media_system)
    (Hag : agrees (iw_pipe w) y) (Hy : rtc (media_step true) media_start y)
    (Hothers : others_around an env (iw_pipe w) (pl_scheduler (iw_pipe w)) (pl_buffers (iw_pipe w)) y)
    (Hrun : infer_turn an env w = Some w') :
  exists y', rtc (media_step true) y y' /\ agrees (iw_pipe w') y' /\
    match acquireTask 200 env InferTask_default (pl_scheduler (iw_pipe w)) (pl_buffers (iw_pipe w)) with
    | (Some true, t, _, _) => exists b, it_buffer t = Some b /\ given_up (it_stream_id t) b y y'
    | _ => True
    end.
Proof.
  revert Hrun. unfold Infer.infer_turn. destruct (acquireTask _ _ _ _ _) as [[[ok t] s1] w1] eqn:Ha.
  destruct (acquireTask_steps an (iw_pipe w) env _ _ y t s1 w1 ok Hy Hag Hothers Ha) as [(y1 & H1 & M1 & Ht) Hok].
  set (v := mkInferWorld _ _ _).
  assert (Av : agrees (iw_pipe v) y1) by exact M1. assert (R1 : reached y1) by (by etrans).
  destruct ok as [[]|]; [|intros [= <-]; by exists y1|intros [= <-]; by exists y1].
  destruct Ht as [Hnone|[(b & q & sb & f & Hb & Hq & Hsb & Hf & Hin) Hwhile]]; [by destruct (Hok eq_refl)|]. intros Hrun.
  assert (Hframe : task_frame t (iw_pipe v) = Some f) by (unfold task_frame; rewrite Hb, Hq; cbn; by rewrite Hsb).
  destruct (infer_task_steps an t v w' y1 b f Hb Hframe Av R1 Hin (Hwhile b f Hb Hframe) Hrun) as (y2 & H2 & A2).
  exists y2. split_and!; [|exact A2|exists b; split; [done|by eapply given_up_after]].
  destruct H2 as (z & Hz1 & Hz2 & _). etrans; [exact H1|]. etrans; [exact Hz1|]. by apply rtc_once.
Qed.
End Loops.

(** ** A turn while another picture arrives *)

Definition is_arrival (c : sb_call) : Prop :=
  match c with CallEnqueuePacket _ | CallEnqueueFrame _ => True | _ => False end.

(** What the puller enqueues, as steps of the system. *)
Lemma arrivals_in_system cs p s tasks : forall x sides,
  Forall is_arrival cs -> others_allowed cs (mkShared (sd_buffer x) (sd_seen x) None) -> sides !! p = Some x ->
  rtc (media_step true) (mkMedia s sides tasks)
    (mkMedia s (<[p := mkSide (sd_stream x) (sb_run cs (sd_buffer x)) (foldl note (sd_seen x) cs) (sd_phase x)]> sides) tasks).
Proof.
  intros x sides Hcs Hok. apply side_steps. revert x Hok.
  induction Hcs as [|c cs Hc _ IH]; intros [own b seen ph] Hok; [done|]. destruct Hok as [Hen Hok].
  apply (rtc_l _ _ (mkSide own (sb_apply c b) (note seen c) ph)).
  - split; [done|]. pose proof (step_other c (mkShared b seen None) ph) as Hstep.
    destruct c; try done; by apply Hstep, Hen.
  - apply (IH (mkSide own (sb_apply c b) (note seen c) ph)). by destruct c.
Qed.

Definition ex_loop_arrivals : list sb_call :=
  [CallEnqueuePacket (Some (ex_packet 0)); CallEnqueueFrame (Some (StreamBuffer.ex_frame 0 true));
   CallEnqueuePacket (Some (ex_packet 1)); CallEnqueueFrame (Some (StreamBuffer.ex_frame 1 true))].
Definition ex_loop_start : media_system :=
  mkMedia (pl_scheduler (ex_infer_pipe ex_infer_edge))
    {[1%positive := mkSide "cam" (sb_run ex_loop_arrivals (createStreamBuffer "cam")) ([1; 0], [1; 0]) Waiting]} [].
Abbreviation ex_loop_world := (mkInferWorld (ex_infer_pipe ex_infer_edge) (Some ex_client) []).
Abbreviation ex_loop_run :=
  (Infer.infer_turn (H0 := ex_codec) ex_tracker_api ex_infer_edge ex_rescale_q ex_rescale_ts (fun _ => true) (fun _ => true) ex_rename
    ex_busy_answers [] ex_loop_world).

Lemma ex_loop_agrees : agrees (ex_infer_pipe ex_infer_edge) ex_loop_start.
Proof. split; by vm_compute. Qed.

Lemma ex_loop_reached : rtc (media_step true) media_start ex_loop_start.
Proof.
  set (cfg := default StreamConfig_default (en_config <$> rr_entries (pl_scheduler (ex_infer_pipe ex_infer_edge)) !! "cam"%string)).
  assert (E : ex_loop_start = mkMedia (upsertStream "cam" cfg (Some 1%positive) createRoundRobinInferScheduler)
    (<[1%positive := mkSide "cam" (sb_run ex_loop_arrivals (createStreamBuffer "cam")) ([1; 0], [1; 0]) Waiting]>
       {[1%positive := new_side "cam"]}) []) by by vm_compute.
  rewrite E. eapply rtc_l; [by apply (media_register true "cam" cfg 1%positive createRoundRobinInferScheduler ∅ [])|].
  apply (arrivals_in_system ex_loop_arrivals 1%positive _ [] (new_side "cam")); [by repeat constructor| |done].
  cbn. split_and!; try done; intros; (split; [try done|]); set_solver.
Qed.

Lemma ex_loop_acquired y : acquire ex_loop_start = Some y ->
  ms_tasks y = [mkTask "cam" 1%positive (Some 1)] /\ exists sb, ms_sides y !! 1%positive = Some (mkSide "cam" sb ([1; 0], [1; 0]) Waiting).
Proof.
  intros Hy. assert (E : exists y, acquire ex_loop_start = Some y /\ (ms_tasks y = [mkTask "cam" 1%positive (Some 1)] /\
    exists sb, ms_sides y !! 1%positive = Some (mkSide "cam" sb ([1; 0], [1; 0]) Waiting))).
  { apply some_ex. vm_compute. split; [done|]. by eexists. }
  destruct E as (y' & E & Hres). rewrite E in Hy. by injection Hy as <-.
Qed.

(** What [ex_busy_answers] has the others do while a thread has the first task. *)
Lemma ex_arrival_while p y sb :
  agrees p y -> rtc (media_step true) media_start y -> ms_tasks y = [mkTask "cam" 1%positive (Some 1)] ->
  ms_sides y !! 1%positive = Some (mkSide "cam" sb ([1; 0], [1; 0]) Waiting) ->
  others_while ex_busy_answers (mkTask "cam" 1%positive (Some 1)) 1 p y.
Proof.
  intros Hag Hy Ht Hside.
  destruct (task_call (CallMarkRunning 1) p y (mkTask "cam" 1%positive (Some 1)) (Some 1) Hag Hy ltac:(rewrite Ht; left) I) as [_ A1];
    [done|].
  unfold others_while. cbn [ts_buffer] in *. set (z := call_of _ _ _ _) in *.
  set (x := mkSide "cam" (markInferenceRunning 1 sb) ([1; 0], [1; 0]) Waiting).
  assert (Hx : ms_sides z !! 1%positive = Some x) by (unfold z; cbn; by rewrite lookup_alter_eq, Hside).
  assert (Hin : mkTask "cam" 1%positive (Some 1) ∈ ms_tasks z) by (cbn; left). clearbody z.
  set (x' := mkSide "cam" (sb_run (ex_arrives 2) (sd_buffer x)) ([2; 1; 0], [2; 1; 0]) Waiting).
  exists (mkMedia (ms_scheduler z) (<[1%positive := x']> (ms_sides z)) (ms_tasks z)).
  destruct A1 as [As Ab].
  destruct (matches_alter _ _ z 1%positive x x' (sb_run (ex_arrives 2)) (conj As Ab) Hx eq_refl) as [_ A2].
  split_and!; [|by split|exact Hin|].
  - destruct z as [s0 sides0 tasks0]. apply (arrivals_in_system (ex_arrives 2) 1%positive s0 tasks0 x); [by repeat constructor| |done].
    cbn. split_and!; try done; intros; (split; [try done|]); set_solver.
  - intros ptr d. eexists. split; [reflexivity|]. split; [by split|exact Hin].
Qed.

Lemma ex_arrival_around p y :
  agrees p y -> rtc (media_step true) media_start y ->
  (forall y', acquire y = Some y' -> ms_tasks y' = [mkTask "cam" 1%positive (Some 1)] /\
     exists sb, ms_sides y' !! 1%positive = Some (mkSide "cam" sb ([1; 0], [1; 0]) Waiting)) ->
  others_around ex_busy_answers [] p (pl_scheduler p) (pl_buffers p) y.
Proof.
  intros Hag Hy Hacq. cbn [others_around]. destruct (rr_stopped _) eqn:Hs; [done|].
  destruct (tryAcquireLocked _ _) as [[[t|] s'] w'] eqn:Htry; [|done].
  destruct (acquire_step _ _ y t s' w' Hy Hag Hs Htry) as (y1 & Ey & Hstep & Hm & (b' & q & sb' & f & Hb' & Hq & Hsb' & Hf & Hin)).
  intros y0 b frame Hy0 Hb Hframe. rewrite Ey in Hy0. injection Hy0 as <-. destruct (Hacq y1 Ey) as (Ht & sb & Hside).
  rewrite Hb in Hb'. injection Hb' as <-.
  assert (f = frame) as ->.
  { unfold task_frame in Hframe. rewrite Hb, Hq in Hframe. cbn in Hframe. rewrite Hsb' in Hframe. cbn in Hframe. congruence. }
  rewrite Ht in Hin. apply list_elem_of_singleton in Hin. injection Hin as -> -> ->.
  apply (ex_arrival_while _ _ sb); [exact Hm|by eapply rtc_r|done|done].
Qed.

Lemma infer_turn_in_system_witness :
  exists w', ex_loop_run = Some w' /\ exists y', rtc (media_step true) ex_loop_start y' /\ agrees (iw_pipe w') y' /\
    exists b, given_up "cam" b ex_loop_start y'.
Proof.
  assert (exists w', ex_loop_run = Some w' /\ True) as (w' & Hrun & _) by (apply some_ex; vm_compute; done).
  exists w'. split; [exact Hrun|].
  pose proof (infer_turn_in_system (H0 := ex_codec) ex_tracker_api ex_infer_edge ex_rescale_q ex_rescale_ts (fun _ => true)
    (fun _ => true) ex_rename ex_busy_answers [] ex_loop_world w' ex_loop_start ex_loop_agrees ex_loop_reached
      (ex_arrival_around _ _ ex_loop_agrees ex_loop_reached ex_loop_acquired) Hrun)
    as (y' & H1 & H2 & H3).
  exists y'. split; [exact H1|]. split; [exact H2|].
  assert (E : exists r, (r = acquireTask 200 [] InferTask_default (pl_scheduler (ex_infer_pipe ex_infer_edge))
      (pl_buffers (ex_infer_pipe ex_infer_edge))) /\ r.1.1.1 = Some true /\ it_stream_id r.1.1.2 = "cam"%string)
    by (eexists; split; [reflexivity|]; split; by vm_compute).
  destruct E as ([[[ok t] s'] w1] & E & Hok & Hid). cbn in Hok, Hid. subst ok.
  cbn [iw_pipe] in H3. rewrite <- E in H3. destruct H3 as (b & _ & H3). exists b. rewrite Hid in H3. exact H3.
Defined.
