(* ===== verification/Waits.v ===== *)
(** * Who wakes whom

    The program's waits as instances of CondVar: the publishing thread on its buffer's
    condition variable (StreamBuffer.cpp), the inference threads on the scheduler's
    (InferScheduler.cpp), whose predicate looks at buffers that change without the
    scheduler's mutex, the consumers of a queue (ThreadSafeQueue.h) and the main loop on
    [config_cv_] (Pipeline.cpp).  Each change comes
    with the notifications the code sends after it.

    The publishing and the inference threads wait 200 ms at a time, which also ends their
    sleep ([cv_wake]); the theorems show that they do not depend on it.  The main loop waits
    without a limit. *)
From S2P Require Import Prelude CondVar StdMap Float32 Messages SafeQueue StreamBuffer BufferSpec Scheduler Common Config.
From S2P Require Import Sei Socket Ipc Stats Detector Decoder Puller Mux Recorder Snapshot Pipeline Publish Infer Interleaving.
From S2P Require Import Progress System.

(** ** The publishing thread *)

(** Whether a call of the buffer ends in [cv_.notify_all()]. *)
Definition notifies (c : sb_call) (b : StreamBuffer) : bool :=
  match c with
  | CallEnqueuePacket p => (enqueuePacket p b).1
  | CallEnqueueFrame f => (enqueueFrame f b).1
  | CallSelect => match (selectFrameForInference b).1 with Some _ => true | None => false end
  | CallMarkDone _ | CallClear _ _ | CallStop => true
  | _ => false
  end.

(** The other threads call the buffer, which locks its mutex, as in Interleaving. *)
Inductive buffer_change : bool -> list notice -> stream_state -> stream_state -> Prop :=
| buffer_call c s ph :
    enabled c s ->
    buffer_change true (if notifies c (sh_buffer s) then [mkNotice true true] else [])
      (mkStreamState s ph) (mkStreamState (after c s) ph).

(** The predicate of [waitForPublishable]. *)
Definition gate_ready (x : stream_state) : bool := publish_ready kMinVideoWatermark (sy_buffer x).

Lemma head_filter_fmap {A} (P : A -> bool) (h : A -> A) (l : list A) :
  (forall x, x ∈ l -> P (h x) = P x) ->
  head (base.filter (fun x => P x = true) (h <$> l)) = h <$> head (base.filter (fun x => P x = true) l).
Proof.
  induction l as [|x l IH]; intros Hp; [done|]. rewrite fmap_cons, !filter_cons, (Hp x) by left.
  destruct (P x) eqn:E; [by rewrite !decide_True by done|]. rewrite !decide_False by done. apply IH. intros y Hy. apply Hp. by right.
Qed.

(** Publishing depends on which frames are under inference, not on their other states. *)
Lemma spec_publishable_states wm (h : FrameBundle -> FrameBundle) v :
  (forall f, f ∈ bv_frames v -> fb_frame_id (h f) = fb_frame_id f /\ has_image (h f) = has_image f /\
     under_inference (h f) = under_inference f) ->
  spec_publishable wm (bv_with_frames (h <$> bv_frames v) v) = spec_publishable wm v.
Proof.
  intros Hh. unfold spec_publishable. cbn [bv_packets bv_with_frames bv_frames].
  destruct (bv_packets v) as [|[p|] rest]; [done| |done]. f_equal. f_equal. f_equal. f_equal; [|f_equal].
  - rewrite head_filter_fmap by (intros f Hf; by destruct (Hh f Hf) as (_ & _ & ?)).
    destruct (head _) as [f|] eqn:E; [|done]. cbn. assert (Hf : f ∈ bv_frames v).
    { apply head_Some_elem_of in E. by apply list_elem_of_filter in E as [_ ?]. }
    by destruct (Hh f Hf) as (-> & _).
  - unfold frame_of. set (id := ep_frame_id p).
    assert (Heq : forall l, (forall f, f ∈ l -> f ∈ bv_frames v) ->
              head (base.filter (fun g => fb_frame_id g = id) (h <$> l)) = h <$> head (base.filter (fun g => fb_frame_id g = id) l)).
    { induction l as [|f l IH]; intros Hl; [done|]. rewrite fmap_cons, !filter_cons.
      destruct (Hh f (Hl f ltac:(left))) as (-> & _). case_decide; [done|]. apply IH. intros g Hg. apply Hl. by right. }
    rewrite Heq by done. destruct (head (base.filter _ (bv_frames v))) as [f|] eqn:E; [|done]. cbn.
    assert (Hf : f ∈ bv_frames v) by (apply head_Some_elem_of in E; by apply list_elem_of_filter in E as [_ ?]).
    destruct (Hh f Hf) as (_ & -> & _). f_equal. clear Hf E Heq. induction (bv_frames v) as [|g l IH]; [done|]. cbn.
    destruct (Hh g ltac:(left)) as (-> & -> & _). f_equal. apply IH. intros f' Hf'. apply Hh. by right.
Qed.

(** A call that sends no notification does not let a packet through. *)
Lemma silent_call wm c s ph :
  stream_inv (mkStreamState s ph) -> enabled c s -> notifies c (sh_buffer s) = false ->
  publish_ready wm (sb_apply c (sh_buffer s)) = publish_ready wm (sh_buffer s).
Proof.
  destruct s as [b seen held]. intros Hinv Hc Hn. pose proof (si_wf _ Hinv) as Hwf. cbn in *.
  destruct c as [p|f| |id|r|id st| |id|r|it id pts now|]; cbn in *; try done.
  - unfold enqueuePacket in *. destruct p; [|done]. destruct (sb_stopped b) eqn:E; done.
  - unfold enqueueFrame in *. destruct f; [|done]. destruct (sb_stopped b) eqn:E; done.
  - pose proof (selectFrame_cases b Hwf) as Hcase. destruct (selectFrameForInference b) as [[q|] b1]; [done|].
    by destruct Hcase as [-> _].
  - subst held. assert (Hwf' : sb_wf (markInferenceRunning id b)) by (by apply clearInferenceSelection_wf).
    unfold publish_ready. rewrite !publishable_refines by done. f_equal; [apply (rs_stopped _ _ _ (restated_clear id Running b Hwf))|].
    unfold markInferenceRunning. rewrite view_clear by done. apply spec_publishable_states.
    intros f Hf. case_bool_decide as Hid; [|done]. split_and!; [by destruct f..|].
    apply (view_frame_in b f Hwf) in Hf. rewrite Hid in Hf.
    destruct (si_held _ Hinv id eq_refl) as (g & Hg & Hi & Hs). cbn in Hg. simplify_eq. unfold under_inference.
    rewrite Hi, Hs. unfold has_image in *. destruct f; cbn in *. by rewrite Hi.
  - assert (Hwf2 : sb_wf (updateCachedInferenceResult r b)) by (by apply updateCached_wf).
    unfold publish_ready. rewrite !publishable_refines by done. unfold updateCachedInferenceResult. by destruct (fr_frame_id r <? 0).
Qed.

Lemma publisher_discipline stream_id :
  discipline gate_ready (fun x y => y = x) stream_step buffer_change (fun x => rtc stream_step (stream_start stream_id) x).
Proof.
  split.
  - by intros x y Hx ->.
  - intros x y Hx Hy. by eapply rtc_r.
  - intros locked notices x y Hx Hch. destruct Hch as [c s ph Hc]. eapply rtc_r; [done|by apply step_other].
  - intros locked notices x y Hx Hch Hf Ht. destruct Hch as [c s ph Hc]. unfold heard. destruct (notifies c (sh_buffer s)) eqn:E.
    + exists (mkNotice true true). split; [left|by left].
    + exfalso. unfold gate_ready in *. cbn in *.
      rewrite (silent_call kMinVideoWatermark c s ph (reachable_inv _ _ Hx) Hc E) in Ht. congruence.
Qed.

(** C8: The publishing thread does not sleep through its packets: in every state that its
    waits and the calls of the other threads of the stream reach, if the front packet may go
    out or the buffer is stopped, the thread is awake or a notification that wakes it is
    about to be sent - every call that opens the gate notifies. *)
Theorem publisher_never_oversleeps (stream_id : string) (y : cv_state (State := stream_state))
    (Hrun : rtc (cv_step gate_ready (fun x y => y = x) stream_step buffer_change true)
              (cv_start 1 (stream_start stream_id)) y) :
  attended gate_ready (fun x y => y = x) stream_step buffer_change y /\
  rtc stream_step (stream_start stream_id) (cv_shared y).
Proof.
  destruct (always_attended _ _ _ _ _ true 1 (stream_start stream_id) y (publisher_discipline stream_id)) as [? ?]; [done|lia|done|].
  by split.
Qed.

(** A packet arrives while the thread sleeps. *)
Definition ex_audio : EncodedPacket := mkEncodedPacket Audio None 1 0 0 0 (-1) false 0 0.

Lemma ex_asleep :
  rtc (cv_step gate_ready (fun x y => y = x) stream_step buffer_change true) (cv_start 1 (stream_start "s"))
    (mkCv (mkStreamState (after (CallEnqueuePacket (Some ex_audio)) (sy_shared (stream_start "s"))) Waiting)
       [Asleep] [mkNotice true true]).
Proof.
  eapply rtc_l; [apply (cv_lock _ _ _ _ _ _ _ _ 0 Away); [done|by left|]|].
  { intros w Hw. by apply list_elem_of_singleton in Hw as ->. }
  eapply rtc_l; [by apply (cv_wait _ _ _ _ _ _ _ _ 0)|]. eapply rtc_l; [by apply (cv_sleep _ _ _ _ _ _ _ _ 0)|].
  eapply rtc_l; [|apply rtc_refl]. apply (cv_change _ _ _ _ _ (stream_start "s") _ [Asleep] [] true [mkNotice true true]).
  - intros _ w Hw. by apply list_elem_of_singleton in Hw as ->.
  - by apply (buffer_call (CallEnqueuePacket (Some ex_audio)) (sy_shared (stream_start "s")) Waiting).
Qed.

Lemma publisher_never_oversleeps_witness :
  exists y, gate_ready (cv_shared y) = true /\ cv_waiters y = [Asleep] /\
    exists z, cv_step gate_ready (fun x y => y = x) stream_step buffer_change false y z /\ Woken ∈ cv_waiters z.
Proof.
  destruct (publisher_never_oversleeps "s" _ ex_asleep) as [Ha _].
  destruct (Ha ltac:(vm_compute; reflexivity)) as [(w & Hw & Hne)|(z & Hz & _ & Hw)].
  - exfalso. by apply list_elem_of_singleton in Hw.
  - eexists. split; [|split; [|exists z; split; [exact Hz|exact Hw]]]; [vm_compute; reflexivity|reflexivity].
Defined.

(** ** The inference threads *)

(** [RTSPPuller::enqueuePendingFrame]: after a decoded frame was accepted, and without the
    buffer's mutex, the scheduler is told; [notifyFrameReady] takes the scheduler's mutex.
    Whether there is a picture is computed in the caller (RTSPPuller.cpp:310), after the
    picture was moved away if the compiler evaluates the arguments in that order
    ([move_first], as in Puller). *)
Definition frame_notices (move_first : bool) (c : sb_call) (b : StreamBuffer) : list notice :=
  match c with
  | CallEnqueueFrame (Some f) =>
      let notify_frame_ready := negb move_first && has_image f in
      if (enqueueFrame (Some f) b).1 && notify_frame_ready then [mkNotice false true] else []
  | _ => []
  end.

(** The calls of the publishing thread. *)
Definition of_publisher (c : sb_call) : Prop :=
  match c with CallPopPacket | CallReleaseFrame _ | CallTakeCached _ _ _ _ => True | _ => False end.

(** The steps of the whole system other than an acquisition, with the scheduler's mutex
    where they take it. *)
Inductive media_change (move_first quiesce : bool) : bool -> list notice -> media_system -> media_system -> Prop :=
| change_register id cfg p s sides tasks :
    sides !! p = None ->
    media_change move_first quiesce true [mkNotice true true] (mkMedia s sides tasks)
      (mkMedia (upsertStream id cfg (Some p) s) (<[p := new_side id]> sides) tasks)
| change_update cfg p x s sides tasks :
    sides !! p = Some x ->
    media_change move_first quiesce true [mkNotice true true] (mkMedia s sides tasks)
      (mkMedia (upsertStream (sd_stream x) cfg (Some p) s) sides tasks)
| change_remove id s sides tasks :
    (quiesce = true -> id ∉ ts_stream <$> tasks) ->
    media_change move_first quiesce true [mkNotice true true] (mkMedia s sides tasks) (mkMedia (removeStream id s) sides tasks)
| change_task id p frame c x s sides tasks rest :
    tasks ≡ₚ mkTask id p frame :: rest -> sides !! p = Some x -> of_inference c ->
    enabled c (mkShared (sd_buffer x) (sd_seen x) frame) ->
    media_change move_first quiesce false [] (mkMedia s sides tasks)
      (mkMedia s (<[p := sd_with_buffer (sb_apply c (sd_buffer x)) x]> sides)
         (mkTask id p (held_after c (mkShared (sd_buffer x) (sd_seen x) frame)) :: rest))
| change_complete id p frame_id s sides tasks rest :
    tasks ≡ₚ mkTask id p None :: rest ->
    media_change move_first quiesce true [mkNotice true true] (mkMedia s sides tasks) (mkMedia (completeTask id frame_id s) sides rest)
| change_cancel id p frame_id s sides tasks rest :
    tasks ≡ₚ mkTask id p None :: rest ->
    media_change move_first quiesce true [mkNotice true true] (mkMedia s sides tasks) (mkMedia (cancelTask id frame_id s) sides rest)
| change_call c p x s sides tasks :
    sides !! p = Some x -> enabled c (mkShared (sd_buffer x) (sd_seen x) None) ->
    held_after c (mkShared (sd_buffer x) (sd_seen x) None) = None ->
    media_change move_first quiesce false (frame_notices move_first c (sd_buffer x)) (mkMedia s sides tasks)
      (mkMedia s (<[p := mkSide (sd_stream x) (sb_apply c (sd_buffer x)) (note (sd_seen x) c) (sd_phase x)]> sides) tasks)
| change_publish p x x' s sides tasks :
    sides !! p = Some x -> sd_stream x' = sd_stream x -> stream_step (side_state x None) (side_state x' None) ->
    sd_buffer x' = sd_buffer x \/ (exists c, of_publisher c /\ sd_buffer x' = sb_apply c (sd_buffer x)) ->
    media_change move_first quiesce false [] (mkMedia s sides tasks) (mkMedia s (<[p := x']> sides) tasks)
| change_stop s sides tasks :
    media_change move_first quiesce true [mkNotice true true] (mkMedia s sides tasks) (mkMedia (rr_stop s) sides tasks).

(** The wait predicate of [acquireTask] and what it does when it holds. *)
Definition task_ready (y : media_system) : bool :=
  rr_stopped (ms_scheduler y) ||
  match (tryAcquireLocked (ms_scheduler y) (sd_buffer <$> ms_sides y)).1.1 with Some _ => true | None => false end.
Definition acquires (y y' : media_system) : Prop :=
  if rr_stopped (ms_scheduler y) then y' = y else acquire y = Some y'.

(** These are the steps of System. *)
Lemma change_is_step m q locked notices y y' : media_change m q locked notices y y' -> media_step q y y'.
Proof.
  destruct 1; [by constructor|by constructor|by constructor|by econstructor|by econstructor|by econstructor
    | |by eapply media_stream|by constructor].
  eapply media_stream; [done|done|].
  match goal with H : held_after _ _ = None, E : enabled _ _ |- _ => pose proof (step_other _ _ (sd_phase x) E) as Hs;
    unfold after in Hs; rewrite H in Hs; exact Hs end.
Qed.

(** Streams registered once per round, and buffers as their methods leave them. *)
Record media_ok (y : media_system) : Prop := {
  mo_wf : rr_wf (ms_scheduler y);
  mo_sides p x : ms_sides y !! p = Some x -> sb_wf (sd_buffer x);
}.

Lemma media_ok_side s sides tasks tasks' p x' :
  media_ok (mkMedia s sides tasks) -> sb_wf (sd_buffer x') -> media_ok (mkMedia s (<[p := x']> sides) tasks').
Proof.
  intros [H1 H2] Hx. cbn in *. split; cbn; [done|]. intros q x [[<- <-]|[_ Hq]]%lookup_insert_Some; [done|by apply (H2 q)].
Qed.

Lemma media_ok_change m q locked notices y y' : media_change m q locked notices y y' -> media_ok y -> media_ok y'.
Proof.
  destruct 1 as [id cfg p s sides tasks Hp|cfg p x s sides tasks Hx|id s sides tasks Hq|id p frame c x s sides tasks rest Hp Hx Hof Hc
    |id p fid s sides tasks rest Hp|id p fid s sides tasks rest Hp|c p x s sides tasks Hx Hc Hh|p x x' s sides tasks Hx Hid Hstep Hb|s sides tasks];
    intros Hok; pose proof Hok as [H1 H2]; cbn in *.
  - apply (media_ok_side _ _ tasks); [split; [by apply upsert_wf|exact H2]|apply sb_wf_new].
  - split; [by apply upsert_wf|done].
  - split; [by apply remove_wf|done].
  - apply (media_ok_side _ _ tasks); [done|]. by eapply sb_apply_wf, H2.
  - split; [by apply complete_wf|done].
  - split; [by apply (complete_wf id fid)|done].
  - apply (media_ok_side _ _ tasks); [done|]. by eapply sb_apply_wf, H2.
  - apply (media_ok_side _ _ tasks); [done|]. destruct Hb as [->|(c & _ & ->)]; [by eapply H2|by eapply sb_apply_wf, H2].
  - destruct H1. split; [by split|done].
Qed.

Lemma media_ok_acquires y y' : acquires y y' -> media_ok y -> media_ok y'.
Proof.
  unfold acquires. intros Ha Hok. destruct (rr_stopped _); [by subst|]. destruct y as [s sides tasks], Hok as [H1 H2]. cbn in *.
  apply (acquire_cases s sides tasks y' H1) in Ha as (id & e & p & x & b' & q & f & s' & _ & _ & _ & Hx & Hsel & _ & Hwf & _ & ->).
  split; cbn; [done|]. intros r x' [[<- <-]|[_ Hr]]%lookup_insert_Some; [|by apply (H2 r)].
  cbn. pose proof (selectFrame_wf _ (H2 p x Hx)) as H. by rewrite Hsel in H.
Qed.

(** ** Which steps make a task *)

Lemma task_ready_iff y :
  media_ok y ->
  task_ready y = true <->
  rr_stopped (ms_scheduler y) = true \/
  exists id e p x i, rr_entries (ms_scheduler y) !! id = Some e /\ en_inflight e = false /\ en_buffer e = Some p /\
    ms_sides y !! p = Some x /\ selectable (sd_buffer x) i = true.
Proof.
  intros [Hwf Hb]. destruct y as [s sides tasks]. unfold task_ready. cbn in *. rewrite orb_true_iff. apply or_iff_compat_l.
  set (w := sd_buffer <$> sides). destruct (tryAcquire_cases s w Hwf) as [(o & t & s' & w' & -> & _ & Hs & _)|[-> Hno]]; cbn.
  - split; [intros _|done]. destruct (sv_entry _ _ _ _ _ _ Hs) as (e & p & b & q & b' & He & Hf & Hp & Hsel & _ & _ & _ & Hen).
    subst w. rewrite lookup_fmap in Hp. destruct (sides !! p) as [x|] eqn:Hx; [|done]. injection Hp as <-.
    pose proof (selectFrame_cases (sd_buffer x) (Hb p x Hx)) as Hcase. cbn in Hsel. rewrite Hsel in Hcase.
    destruct Hcase as (l & g & Hl). exists (it_stream_id t), e, p, x, l. split_and!; try done.
    destruct Hl as [Hat Hi Hidle _ _ _ _]. apply selectable_true. exists g. unfold findFrame. by rewrite Hat.
  - split; [done|]. intros (id & e & p & x & i & He & Hf & Hp & Hx & Hi). exfalso. apply (Hno id).
    pose proof (selectFrame_cases (sd_buffer x) (Hb p x Hx)) as Hcase. destruct (selectFrameForInference (sd_buffer x)) as [[q|] b'] eqn:Hsel.
    + exists e, p, (sd_buffer x), q, b'. split_and!; try done. subst w. by rewrite lookup_fmap, Hx.
    + destruct Hcase as [_ Hcase]. by rewrite Hcase in Hi.
Qed.

Lemma restated_selectable st b b' i :
  restated st b b' -> (forall k t, st k t = Idle -> t = Idle) -> selectable b' i = true -> selectable b i = true.
Proof.
  intros Hr Hst (f & Hf & Hi & Hs)%selectable_true. destruct (restated_find _ _ _ _ _ Hr Hf) as (g & Hg & E1 & E2).
  apply selectable_true. exists g. split_and!; [done|congruence|]. apply (Hst i). congruence.
Qed.

(** No call makes a candidate but the one that brings a decoded frame. *)
Lemma selectable_after c b i :
  sb_wf b -> (forall id, c <> CallClear id Idle) -> frame_notices false c b = [] ->
  selectable (sb_apply c b) i = true -> selectable b i = true.
Proof.
  intros Hwf Hc Hn. destruct c as [p|[f|]| |id|r|id st| |id|r|it id pts now|]; cbn [sb_apply frame_notices] in *.
  - by rewrite (same_selectable _ _ i (enqueuePacket_frames p b)).
  - destruct (sb_stopped b) eqn:E; [unfold enqueueFrame; by rewrite E|]. unfold enqueueFrame in Hn. rewrite E in Hn. cbn in Hn.
    destruct (has_image f) eqn:Hi; [done|]. rewrite !selectable_find, enqueueFrame_find by done.
    case_bool_decide; [by rewrite Hi|done].
  - done.
  - pose proof (selectFrame_cases b Hwf) as Hcase. destruct (selectFrameForInference b) as [[q|] b'].
    + destruct Hcase as (l & g & Hl). apply (restated_selectable _ _ _ _ (restated_select b b' q l g Hwf Hl)).
      intros k t. unfold select_states. by case_bool_decide; destruct t.
    + by destruct Hcase as [-> _].
  - apply (restated_selectable _ _ _ _ (restated_clear id Running b Hwf)). intros k t. by case_bool_decide.
  - apply (restated_selectable _ _ _ _ (restated_clear (fr_frame_id r) Done b Hwf)). intros k t. by case_bool_decide.
  - apply (restated_selectable _ _ _ _ (restated_clear id st b Hwf)). intros k t. case_bool_decide; [|done].
    intros ->. by destruct (Hc id).
  - unfold popPacket. destruct (sb_packets b); [done|]. done.
  - destruct (release_restricts b id i) as (_ & _ & ->). by case_bool_decide.
  - by rewrite (same_selectable _ _ i (proj1 (updateCached_frames r b))).
  - by rewrite (same_selectable _ _ i (takeCached_frames it id pts now b)).
  - done.
Qed.

Lemma side_unready s sides tasks tasks' p x x' :
  media_ok (mkMedia s sides tasks) -> sides !! p = Some x -> sb_wf (sd_buffer x') ->
  (forall i, selectable (sd_buffer x') i = true -> selectable (sd_buffer x) i = true) ->
  task_ready (mkMedia s sides tasks) = false -> task_ready (mkMedia s (<[p := x']> sides) tasks') = false.
Proof.
  intros Hok Hx Hwf Hsel Hf. apply not_true_is_false. intros Ht. apply not_true_iff_false in Hf. apply Hf.
  apply (task_ready_iff _ Hok). apply task_ready_iff in Ht; [|by apply (media_ok_side _ _ tasks)].
  destruct Ht as [?|(id & e & q & x2 & i & He & Hin & Hp & Hq & Hi)]; [by left|]. right. cbn in *.
  apply lookup_insert_Some in Hq as [[<- <-]|[_ Hq]].
  - exists id, e, p, x, i. split_and!; auto.
  - by exists id, e, q, x2, i.
Qed.

Lemma task_heard q locked notices y y' :
  media_ok y -> media_change false q locked notices y y' -> task_ready y = false -> task_ready y' = true -> heard locked notices.
Proof.
  intros Hok Hc Hf Ht.
  destruct Hc as [id cfg p s sides tasks Hp|cfg p x s sides tasks Hx|id s sides tasks Hq|id p frame c x s sides tasks rest Hp Hx Hof Hc
    |id p fid s sides tasks rest Hp|id p fid s sides tasks rest Hp|c p x s sides tasks Hx Hc Hh|p x x' s sides tasks Hx Hid Hstep Hb|s sides tasks].
  all: try (eexists; split; [left|by left]).
  - exfalso. pose proof (mo_sides _ Hok p x Hx) as Hwf.
    assert (task_ready (mkMedia s (<[p := sd_with_buffer (sb_apply c (sd_buffer x)) x]> sides)
       (mkTask id p (held_after c (mkShared (sd_buffer x) (sd_seen x) frame)) :: rest)) = false); [|congruence].
    apply (side_unready _ _ tasks _ p x); [done|done|by apply sb_apply_wf| |done].
    intros i. apply selectable_after; [done| |by destruct c]. intros id' ->. destruct Hc as [_ ?]. done.
  - destruct (frame_notices false c (sd_buffer x)) as [|n notices] eqn:En.
    + exfalso. pose proof (mo_sides _ Hok p x Hx) as Hwf.
      assert (task_ready (mkMedia s (<[p := mkSide (sd_stream x) (sb_apply c (sd_buffer x)) (note (sd_seen x) c) (sd_phase x)]> sides) tasks) = false);
        [|congruence].
      apply (side_unready _ _ tasks _ p x); [done|done|by apply sb_apply_wf| |done].
      intros i. apply selectable_after; [done| |done]. intros id' ->. destruct Hc as [? _]. done.
    + exists n. split; [left|]. right. unfold frame_notices in En. destruct c as [|[f|]| | | | | | | | |]; try done.
      destruct (_ && _); [|done]. by injection En as <- _.
  - exfalso. pose proof (mo_sides _ Hok p x Hx) as Hwf.
    assert (Hx' : sb_wf (sd_buffer x') /\ forall i, selectable (sd_buffer x') i = true -> selectable (sd_buffer x) i = true).
    { destruct Hb as [->|(c & Hc & ->)]; [done|]. split; [by apply sb_apply_wf|]. intros i. apply selectable_after; [done| |]; by destruct c. }
    assert (task_ready (mkMedia s (<[p := x']> sides) tasks) = false); [|congruence].
    destruct Hx' as [? ?]. by apply (side_unready _ _ tasks _ p x).
Qed.

Lemma inference_discipline q :
  discipline task_ready acquires (fun _ _ => False) (media_change false q) (fun y => rtc (media_step q) media_start y /\ media_ok y).
Proof.
  split.
  - intros y y' [Hr Hok] Ha. split; [|by eapply media_ok_acquires]. unfold acquires in Ha.
    destruct (rr_stopped (ms_scheduler y)) eqn:E; [by subst|]. eapply rtc_r; [done|by apply media_acquire].
  - done.
  - intros locked notices y y' [Hr Hok] Hc. split; [|by eapply media_ok_change].
    eapply rtc_r; [done|by eapply change_is_step].
  - intros locked notices y y' [_ Hok]. by apply task_heard.
Qed.

(** C9: No frame waits while all inference threads sleep, when the compiler evaluates
    [image != nullptr] before it moves the picture away: in every state of the whole system
    that the waits of [n] inference threads and the other threads reach, if some stream has
    a frame and no task, or the scheduler is stopped, then one of the threads is awake or a
    notification that wakes one is about to be sent - although frames arrive in buffers
    whose changes the scheduler's mutex does not cover, and a frame wakes one thread only.
    With the other order, which C++ allows as well, this does not hold
    ([moved_frame_unheard]). *)
Theorem inference_never_oversleeps (move_first quiesce : bool) (n : nat) (y : cv_state (State := media_system)) (Hn : (0 < n)%nat)
    (Hcompiler : move_first = false)
    (Hrun : rtc (cv_step task_ready acquires (fun _ _ => False) (media_change move_first quiesce) true) (cv_start n media_start) y) :
  attended task_ready acquires (fun _ _ => False) (media_change move_first quiesce) y /\
  rtc (media_step quiesce) media_start (cv_shared y).
Proof.
  subst move_first.
  destruct (always_attended _ _ _ _ _ true n media_start y (inference_discipline quiesce)) as [[? _] ?]; [|done|done|done].
  split; [done|]. split; [apply mi_wf, media_reachable_inv, rtc_refl|done].
Qed.

(** A stream is registered and its first frame arrives while both threads sleep. *)
Definition ex_ready : media_system :=
  let x := mkSide "a" (sb_apply (CallEnqueuePacket (Some (picture_packet 0))) (createStreamBuffer "a")) ([0], []) Waiting in
  mkMedia (upsertStream "a" StreamConfig_default (Some 1%positive) createRoundRobinInferScheduler)
    (<[1%positive := mkSide "a" (sb_apply (CallEnqueueFrame (Some (picture_frame 0 (Some some_image)))) (sd_buffer x)) ([0], [0]) Waiting]>
       (<[1%positive := x]> (<[1%positive := new_side "a"]> ∅))) [].

Lemma both_free w : w = Away \/ w = Asleep -> mutex_free [w; w].
Proof. intros [-> | ->] v [->|[->|[]%elem_of_nil]%elem_of_cons]%elem_of_cons; done. Qed.

Lemma ex_both_sleep m P sp s due :
  task_ready s = false ->
  rtc (cv_step task_ready acquires P (media_change m true) sp) (mkCv s [Away; Away] due) (mkCv s [Asleep; Asleep] due).
Proof.
  intros Hf. eapply rtc_l; [apply (cv_lock _ _ _ _ _ _ _ _ 0 Away); [done|by left|apply both_free; by left]|].
  eapply rtc_l; [by apply (cv_wait _ _ _ _ _ _ _ _ 0)|]. eapply rtc_l; [by apply (cv_sleep _ _ _ _ _ _ _ _ 0)|].
  eapply rtc_l; [apply (cv_lock _ _ _ _ _ _ _ _ 1 Away); [done|by left|]|].
  { intros w [->|[->|[]%elem_of_nil]%elem_of_cons]%elem_of_cons; done. }
  eapply rtc_l; [by apply (cv_wait _ _ _ _ _ _ _ _ 1)|]. eapply rtc_l; [by apply (cv_sleep _ _ _ _ _ _ _ _ 1)|]. apply rtc_refl.
Qed.

(** The stream is registered. *)
Definition ex_registered : media_system :=
  mkMedia (upsertStream "a" StreamConfig_default (Some 1%positive) createRoundRobinInferScheduler) (<[1%positive := new_side "a"]> ∅) [].

Lemma ex_register m P sp ws due :
  mutex_free ws ->
  rtc (cv_step task_ready acquires P (media_change m true) sp) (mkCv media_start ws due) (mkCv ex_registered ws (due ++ [mkNotice true true])).
Proof.
  intros Hfree. eapply rtc_l; [|apply rtc_refl].
  apply (cv_change _ _ _ _ _ _ _ _ _ true [mkNotice true true]); [done|by apply (change_register m true "a" StreamConfig_default 1%positive)].
Qed.

(** Its first picture arrives: the puller tells the scheduler, or not. *)
Lemma ex_frame_arrives m P sp ws due :
  rtc (cv_step task_ready acquires P (media_change m true) sp) (mkCv ex_registered ws due)
    (mkCv ex_ready ws (due ++ if m then [] else [mkNotice false true])).
Proof.
  eapply rtc_l; [eapply (cv_change _ _ _ _ _ ex_registered _ ws due false []); [done|]|].
  { apply (change_call m true (CallEnqueuePacket (Some (picture_packet 0))) 1%positive (new_side "a")); [done| |done].
    cbn. intros _. split; [done|]. by intros i []%elem_of_nil. }
  rewrite app_nil_r. eapply rtc_l; [|apply rtc_refl].
  apply (cv_change _ _ _ _ _ _ ex_ready ws due false (if m then [] else [mkNotice false true])); [done|].
  assert (Hn : (if m then [] else [mkNotice false true]) =
    frame_notices m (CallEnqueueFrame (Some (picture_frame 0 (Some some_image)))) (sb_apply (CallEnqueuePacket (Some (picture_packet 0))) (createStreamBuffer "a")))
    by (destruct m; vm_compute; reflexivity).
  rewrite Hn.
  apply (change_call m true (CallEnqueueFrame (Some (picture_frame 0 (Some some_image)))) 1%positive
           (mkSide "a" (sb_apply (CallEnqueuePacket (Some (picture_packet 0))) (createStreamBuffer "a")) ([0], []) Waiting)); [done| |done].
  cbn. split_and!; [left|by intros i []%elem_of_nil|done].
Qed.

Lemma ex_ready_asleep :
  rtc (cv_step task_ready acquires (fun _ _ => False) (media_change false true) true) (cv_start 2 media_start)
    (mkCv ex_ready [Asleep; Asleep] [mkNotice true true; mkNotice false true]).
Proof.
  etrans; [apply ex_both_sleep; vm_compute; reflexivity|].
  etrans; [apply ex_register, both_free; by right|]. apply (ex_frame_arrives false).
Qed.

(** If the picture is moved away before the comparison, a frame can be ready while all
    inference threads sleep and no notification is on its way: only the end of their
    200 ms wakes them. *)
Theorem moved_frame_unheard :
  exists y, rtc (cv_step task_ready acquires (fun _ _ => False) (media_change true true) false) (cv_start 2 media_start) y /\
    rr_stopped (ms_scheduler (cv_shared y)) = false /\ oversleeps task_ready y.
Proof.
  exists (mkCv ex_ready [Asleep; Asleep] []). split; [|split; [by vm_compute|split; [by vm_compute|split; [|done]]]].
  - etrans; [apply (ex_register true), both_free; by left|].
    eapply rtc_l; [eapply (cv_notify _ _ _ _ _ _ _ _ _ (mkNotice true true) []); [done| |apply woken_all]; intros _; apply both_free; by left|].
    etrans; [apply ex_both_sleep; vm_compute; reflexivity|]. apply (ex_frame_arrives true).
  - cbn. by intros w [->|[->|[]%elem_of_nil]%elem_of_cons]%elem_of_cons.
Qed.

Lemma inference_never_oversleeps_witness :
  exists z, task_ready ex_ready = true /\
    cv_step task_ready acquires (fun _ _ => False) (media_change false true) false
      (mkCv ex_ready [Asleep; Asleep] [mkNotice true true; mkNotice false true]) z /\ Woken ∈ cv_waiters z.
Proof.
  assert (Hready : task_ready ex_ready = true) by (vm_compute; reflexivity).
  destruct (inference_never_oversleeps false true 2 _ ltac:(lia) eq_refl ex_ready_asleep) as [Ha _].
  destruct (Ha Hready) as [(w & Hw & Hne)|(z & Hz & _ & Hw)].
  - exfalso. cbn in Hw. by apply elem_of_cons in Hw as [->|[->|[]%elem_of_nil]%elem_of_cons].
  - exists z. split; [exact Hready|]. split; [exact Hz|exact Hw].
Defined.

(** ** Consumers of a queue *)

Section Queue.
Context {T : Type}.

(** The producers and whoever stops or empties the queue.  [push] notifies one consumer after
    it has given the mutex back. *)
Inductive queue_change : bool -> list notice -> ThreadSafeQueue T -> ThreadSafeQueue T -> Prop :=
| change_push x ok q q' :
    tsq_push x q = PushOk ok q' -> queue_change true (if ok then [mkNotice false false] else []) q q'
| change_queue_stop q : queue_change true [mkNotice true true] q (tsq_stop q)
| change_reset q : queue_change true [] q (tsq_reset q)
| change_clear q : queue_change true [] q (tsq_clear q).

Definition pops (q q' : ThreadSafeQueue T) : Prop := q' = (tsq_pop q).2.

(** The consumers of a queue, [n] of them, do not sleep through its items: whenever there is
    an item, or the queue is stopped, one of them is awake or is about to be woken. *)
Theorem consumers_never_oversleep (size : Z) (n : nat) (y : cv_state (State := ThreadSafeQueue T)) (Hn : (0 < n)%nat)
    (Hrun : rtc (cv_step tsq_pop_ready pops (fun _ _ => False) queue_change true) (cv_start n (tsq_new size)) y) :
  attended tsq_pop_ready pops (fun _ _ => False) queue_change y.
Proof.
  apply (always_attended _ _ _ _ (fun _ => True) true n (tsq_new size)); [|done|done|done]. split; try done.
  intros locked notices q q' _ Hc Hf Ht. destruct Hc as [x ok q q' Hp|q|q|q].
  - destruct ok; [eexists; split; [left|by left]|]. exfalso. unfold tsq_push in Hp.
    destruct (tsq_stopped q); [simplify_eq; congruence|]. repeat case_match; by simplify_eq.
  - eexists. split; [left|by left].
  - done.
  - unfold tsq_pop_ready in *. cbn in Ht. destruct (tsq_items q); congruence.
Qed.
End Queue.

(** ** The main loop *)

Section MainLoop.
Context `{MessageDifferencer} (rename_ok : string -> string -> bool) (edge : EdgeInferApi).

(** The stop flag and the pipeline. *)
Abbreviation main_state := (bool * Pipeline)%type.

(** The predicate of the main loop's wait on [config_cv_]. *)
Definition main_wakes (y : main_state) : bool :=
  y.1 || pl_has_pending_config y.2 || negb (bool_decide (pl_pending_stop_streams y.2 = [])).

(** With [config_mutex_] still held the main loop takes over what is pending, unless it has to
    stop. *)
Definition main_takes (y y' : main_state) : Prop :=
  y' = if y.1 then y else (y.1, pp_with_pending (pl_configs y.2) false [] y.2).

(** The rest of the turn, without that mutex. *)
Definition main_rest (early late : ctx_ptr -> bool) (has_config_update : bool) (configs : list (Z * AgentConfig))
    (stops : list ctx_ptr) (p : Pipeline) : Pipeline :=
  let p := foldl (fun p ptr => stopStream rename_ok ptr p) p stops in
  if has_config_update then applyConfigBatch rename_ok edge early late configs p else p.
Definition main_works (y y' : main_state) : Prop :=
  exists early late has_config_update configs stops, y' = (y.1, main_rest early late has_config_update configs stops y.2).

Lemma mainLoop_turn_split early late p y :
  main_takes (false, p) y ->
  mainLoop_turn rename_ok edge early late p =
    main_rest early late (pl_has_pending_config p) (pl_configs p) (pl_pending_stop_streams p) y.2.
Proof. by intros ->. Qed.

(** The other threads: a configuration arrives, a stream asks to be stopped (both store
    their request under [config_mutex_] and then notify), [stop] sets its flag and notifies,
    both without the mutex. *)
Inductive main_change : bool -> list notice -> main_state -> main_state -> Prop :=
| main_config cfg f p :
    str_empty (agc_agent_id cfg) || str_eqb (agc_agent_id cfg) (skc_agent_id (app_socket (pl_app p))) = true ->
    main_change true [mkNotice false false] (f, p) (f, handleSocketConfig cfg p)
| main_async_stop ptr c f p :
    pl_contexts p !! ptr = Some c -> sx_stop_flag c = false ->
    main_change true [mkNotice false false] (f, p) (f, requestAsyncStopStream ptr p)
| main_stop p : main_change false [mkNotice true false] (false, p) (true, p).

(** Only requests, or only [stop]. *)
Definition requests locked notices (y y' : main_state) : Prop := main_change locked notices y y' /\ y'.1 = y.1.
Definition stopping locked notices (y y' : main_state) : Prop := main_change locked notices y y' /\ y'.1 <> y.1.

(** The main loop hears every request: as long as the agent is not being stopped,
    whenever a configuration or a stream to be stopped is pending, the main loop is awake or
    a notification that wakes it is about to be sent. *)
Theorem main_hears_requests (app : AppConfig) (y : cv_state (State := main_state))
    (Hrun : rtc (cv_step main_wakes main_takes main_works requests true) (cv_start 1 (false, Pipeline_new app)) y) :
  attended main_wakes main_takes main_works requests y.
Proof.
  apply (always_attended _ _ _ _ (fun y => y.1 = false) true 1 (false, Pipeline_new app)); [|done|lia|done]. split.
  - intros z z' Hz ->. by destruct z as [[] p].
  - by intros z z' Hz (? & ? & ? & ? & ? & ->).
  - intros locked notices z z' Hz [_ E]. by rewrite E.
  - intros locked notices z z' Hz [Hc E] _ _. destruct Hc; [| |done]; (eexists; split; [left|by left]).
Qed.

(** C10: The request to stop may go unheard: [stop] sets its flag and notifies without
    [config_mutex_], so both can fall between the main loop's look at the flag and its sleep.
    Then the main loop sleeps although the flag is set, and unless some other request comes
    or it wakes up for no reason, nothing ever happens: [stop] waits for it to end. *)
Theorem stop_goes_unheard (app : AppConfig) :
  exists y, rtc (cv_step main_wakes main_takes main_works main_change false) (cv_start 1 (false, Pipeline_new app)) y /\
    (cv_shared y).1 = true /\ oversleeps main_wakes y /\
    forall z, ~ cv_step main_wakes main_takes main_works stopping false y z.
Proof.
  set (p := Pipeline_new app). exists (mkCv (true, p) [Asleep] []). split_and!; [|done| |].
  - eapply rtc_l; [apply (cv_lock _ _ _ _ _ _ _ _ 0 Away); [done|by left|]|].
    { intros w Hw. by apply list_elem_of_singleton in Hw as ->. }
    eapply rtc_l; [by apply (cv_wait _ _ _ _ _ _ _ _ 0)|].
    eapply rtc_l; [by eapply (cv_change _ _ _ _ _ _ _ _ _ false [mkNotice true false]); [|apply main_stop]|].
    eapply rtc_l; [by eapply (cv_notify _ _ _ _ _ _ _ _ _ (mkNotice true false) []); [| |apply woken_all]|].
    eapply rtc_l; [by apply (cv_sleep _ _ _ _ _ _ _ _ 0)|]. apply rtc_refl.
  - split_and!; [done| |done]. intros w Hw. by apply list_elem_of_singleton in Hw.
  - intros z Hz. inversion Hz; subst;
      try match goal with Hi : [Asleep] !! ?i = Some _ |- _ => destruct i as [|[]]; naive_solver end.
    + match goal with Hs : stopping _ _ _ _ |- _ => destruct Hs as [Hc Hne]; inversion Hc; subst; by apply Hne end.
    + match goal with Hn : [] ≡ₚ _ |- _ => by apply Permutation_nil_cons in Hn end.
Qed.
End MainLoop.

(** A configuration arrives while the main loop sleeps. *)
Lemma main_hears_requests_witness :
  exists y z, (cv_shared y).1 = false /\ pl_has_pending_config (cv_shared y).2 = true /\ cv_waiters y = [Asleep] /\
    cv_step main_wakes main_takes (main_works ex_rename ex_edge_ok) requests false y z /\ Woken ∈ cv_waiters z.
Proof.
  set (p := Pipeline_new AppConfig_default).
  assert (Hrun : rtc (cv_step main_wakes main_takes (main_works ex_rename ex_edge_ok) requests true) (cv_start 1 (false, p))
                   (mkCv (false, handleSocketConfig (mkAgentConfig "" 1 []) p) [Asleep] [mkNotice false false])).
  { eapply rtc_l; [apply (cv_lock _ _ _ _ _ _ _ _ 0 Away); [done|by left|]|].
    { intros w Hw. by apply list_elem_of_singleton in Hw as ->. }
    eapply rtc_l; [by apply (cv_wait _ _ _ _ _ _ _ _ 0)|]. eapply rtc_l; [by apply (cv_sleep _ _ _ _ _ _ _ _ 0)|].
    eapply rtc_l; [|apply rtc_refl]. apply (cv_change _ _ _ _ _ (false, p) _ [Asleep] [] true [mkNotice false false]).
    - intros _ w Hw. by apply list_elem_of_singleton in Hw as ->.
    - split; [by apply main_config|done]. }
  destruct (main_hears_requests ex_rename ex_edge_ok AppConfig_default _ Hrun ltac:(vm_compute; reflexivity)) as [(w & Hw & Hne)|(z & Hz & _ & Hw)].
  - exfalso. by apply list_elem_of_singleton in Hw.
  - eexists _, z. split; [|split; [|split; [|split; [exact Hz|exact Hw]]]]; [reflexivity|vm_compute; reflexivity|reflexivity].
Defined.

(** An item is pushed while the only consumer sleeps. *)
Lemma consumers_never_oversleep_witness :
  exists y z, tsq_items (cv_shared y) = [7] /\ cv_waiters y = [Asleep] /\
    cv_step tsq_pop_ready pops (fun _ _ => False) queue_change false y z /\ Woken ∈ cv_waiters z.
Proof.
  set (q := tsq_new (T := Z) 4).
  assert (Hrun : rtc (cv_step tsq_pop_ready pops (fun _ _ => False) queue_change true) (cv_start 1 q)
                   (mkCv (mkTSQ [7] 4 false 0) [Asleep] [mkNotice false false])).
  { eapply rtc_l; [apply (cv_lock _ _ _ _ _ _ _ _ 0 Away); [done|by left|]|].
    { intros w Hw. by apply list_elem_of_singleton in Hw as ->. }
    eapply rtc_l; [by apply (cv_wait _ _ _ _ _ _ _ _ 0)|]. eapply rtc_l; [by apply (cv_sleep _ _ _ _ _ _ _ _ 0)|].
    eapply rtc_l; [|apply rtc_refl]. apply (cv_change _ _ _ _ _ q _ [Asleep] [] true [mkNotice false false]).
    - intros _ w Hw. by apply list_elem_of_singleton in Hw as ->.
    - by apply (change_push 7 true q). }
  destruct (consumers_never_oversleep 4 1 _ ltac:(lia) Hrun ltac:(reflexivity)) as [(w & Hw & Hne)|(z & Hz & _ & Hw)].
  - exfalso. by apply list_elem_of_singleton in Hw.
  - eexists _, z. split; [|split; [|split; [exact Hz|exact Hw]]]; reflexivity.
Defined.
