(* ===== verification/Lifecycle.v ===== *)
(** * The agent's life (src/src/pipeline/Pipeline.cpp: start, stop, the destructor)

    The members of [Pipeline] that [start] and [stop] create and destroy - the threads, the
    connection to the server, the scheduler - around the streams of Pipeline.v.  The main
    loop may still be busy with a batch when [stop] takes the streams out of the table:
    what it does until it is joined is an argument. *)
From S2P Require Import Prelude StdMap Float32 Messages SafeQueue StreamBuffer Scheduler Common Config Sei Socket.
From S2P Require Import Ipc Stats Detector Decoder Puller Mux Recorder Snapshot Pipeline.

(** [ag_created]: [infer_scheduler_] and [sei_injector_] are not null; the threads that
    are joinable. *)
Record Agent := mkAgent {
  ag_pipe : Pipeline;
  ag_ipc : option IpcClient;
  ag_created : bool;
  ag_infer_threads : Z;
  ag_config_thread : bool;
  ag_heartbeat_thread : bool;
  ag_running : bool;
  ag_stop_flag : bool;
}.

Definition Agent_new (app : AppConfig) : Agent := mkAgent (Pipeline_new app) None false 0 false false false false.

Section Life.
Context `{MessageDifferencer} (rename_ok : string -> string -> bool) (edge : EdgeInferApi).

(** [start].  The reporting interval is computed in [int]: [None] when that overflows.
    [IpcClient::start] starts a new sender, which cannot fail. *)
Definition agent_start (a : Agent) : option (bool * Agent) :=
  if ag_running a then Some (true, a)
  else
    let p := ag_pipe a in
    let statistics_interval_s := Z.max 1 (plc_statistics_interval_s (app_pipeline (pl_app p))) in
    if negb (bool_decide (in_signed 32 (statistics_interval_s * 1000))) then None
    else
      let p := pp_with_statistics (st_start (u32 (statistics_interval_s * 1000)) (pl_statistics p)) p in
      let p := pp_with_scheduler createRoundRobinInferScheduler p in
      let socket := app_socket (pl_app p) in
      let ipc := ic_start (setConfigCallback (IpcClient_new (skc_agent_id socket) (skc_send_queue_size socket))) in
      let num_infer := Z.max 1 (plc_num_infer_threads (app_pipeline (pl_app p))) in
      Some (true, mkAgent p (Some ipc) true (ag_infer_threads a + num_infer) true true true false).

(** [stop] and the destructor. *)
Definition agent_stop (main_loop : Pipeline -> Pipeline) (a : Agent) : Agent :=
  if negb (ag_running a) then a
  else
    let p := ag_pipe a in
    let streams := pl_streams p in
    let pending := pl_pending_stop_streams p in
    let p := pp_with_pending (pl_configs p) (pl_has_pending_config p) []
               (pp_with_scheduler (rr_stop (pl_scheduler p)) (pp_with_streams [] p)) in
    let p := foldl (fun p e => stopStream rename_ok e.2 p) p streams in
    let p := foldl (fun p ptr => stopStream rename_ok ptr p) p pending in
    let p := main_loop p in
    let p := pp_with_statistics (st_stop (pl_statistics p)) (pp_with_pending [] false [] p) in
    mkAgent p (ic_stop <$> ag_ipc a) false 0 false false false true.

(** ** Threads *)

Definition num_infer_threads (a : Agent) : Z := Z.max 1 (plc_num_infer_threads (app_pipeline (pl_app (ag_pipe a)))).

(** The sender of a started or stopped client. *)
Definition sender_running (a : Agent) : bool :=
  match ag_ipc a with
  | Some c => match ic_sender c with Some s => ss_running s | None => false end
  | None => false
  end.

(** A running agent has its threads, its scheduler and its sender; a stopped one has none
    of them, and no request or configuration is left. *)
Record agent_ok (a : Agent) : Prop := {
  ao_created : ag_created a = ag_running a;
  ao_infer : ag_infer_threads a = if ag_running a then num_infer_threads a else 0;
  ao_config : ag_config_thread a = ag_running a;
  ao_heartbeat : ag_heartbeat_thread a = ag_running a;
  ao_sender : sender_running a = ag_running a;
  ao_statistics : st_running (pl_statistics (ag_pipe a)) = ag_running a;
  ao_idle : ag_running a = false -> pl_configs (ag_pipe a) = [] /\ pl_pending_stop_streams (ag_pipe a) = [] /\
              pl_has_pending_config (ag_pipe a) = false;
  ao_flag : ag_running a = true -> ag_stop_flag a = false;
}.

(** What happens to an agent: it is started, stopped, and its streams change while it runs.
    The statistics' own thread and the configuration are not touched by the streams. *)
Inductive agent_op :=
| AgentStart
| AgentStop (main_loop : Pipeline -> Pipeline)
| AgentWork (f : Pipeline -> Pipeline).

Definition keeps_service (f : Pipeline -> Pipeline) : Prop :=
  forall p, pl_app (f p) = pl_app p /\ st_running (pl_statistics (f p)) = st_running (pl_statistics p).

Definition op_fits (o : agent_op) : Prop :=
  match o with AgentStart => True | AgentStop f | AgentWork f => keeps_service f end.

Definition agent_apply (o : agent_op) (a : Agent) : option Agent :=
  match o with
  | AgentStart => snd <$> agent_start a
  | AgentStop main_loop => Some (agent_stop main_loop a)
  | AgentWork f =>
      if ag_running a
      then Some (mkAgent (f (ag_pipe a)) (ag_ipc a) (ag_created a) (ag_infer_threads a) (ag_config_thread a)
                   (ag_heartbeat_thread a) (ag_running a) (ag_stop_flag a))
      else Some a
  end.

Fixpoint agent_run (ops : list agent_op) (a : Agent) : option Agent :=
  match ops with
  | [] => Some a
  | o :: ops => a ← agent_apply o a; agent_run ops a
  end.

Lemma stopStream_app ptr p : pl_app (stopStream rename_ok ptr p) = pl_app p.
Proof. unfold stopStream. by destruct (pl_contexts p !! ptr). Qed.

Lemma stop_all_app {A} (g : A -> ctx_ptr) l : forall p, pl_app (foldl (fun p e => stopStream rename_ok (g e) p) p l) = pl_app p.
Proof. induction l as [|e l IH]; intros p; [done|]. cbn [foldl]. by rewrite IH, stopStream_app. Qed.

(** The reporting interval in milliseconds is an [int]. *)
Definition interval_fits (app : AppConfig) : Prop :=
  in_signed 32 (Z.max 1 (plc_statistics_interval_s (app_pipeline app)) * 1000).

Lemma agent_apply_ok o a :
  op_fits o -> agent_ok a -> interval_fits (pl_app (ag_pipe a)) ->
  exists a', agent_apply o a = Some a' /\ agent_ok a' /\ pl_app (ag_pipe a') = pl_app (ag_pipe a).
Proof.
  intros Ho Ha Hfits. destruct o as [|f|f]; cbn [agent_apply].
  - unfold agent_start. destruct (ag_running a) eqn:Er; [by exists a|].
    rewrite bool_decide_true by exact Hfits. cbn. eexists. split; [done|]. split; [|done].
    split; try done. cbn. pose proof (ao_infer a Ha) as Hn. rewrite Er in Hn. by rewrite Hn.
  - unfold agent_stop. destruct (ag_running a) eqn:Er; cbn [negb]; [|by exists a].
    eexists. split; [done|]. split; [split; try done|].
    + unfold sender_running. cbn. destruct (ag_ipc a) as [c|]; [|done]. cbn. by destruct (ic_sender c).
    + cbn -[stopStream]. rewrite (proj1 (Ho _)). by rewrite !stop_all_app.
  - destruct (ag_running a) eqn:Er; [|by exists a]. destruct (Ho (ag_pipe a)) as [Happ Hst].
    eexists. split; [done|]. split; [|done]. destruct Ha as [H1 H2 H3 H4 H5 H6 H7 H8]. rewrite Er in *.
    split; cbn; rewrite ?Happ, ?Hst; try done.
    unfold num_infer_threads in *. cbn. by rewrite Happ.
Qed.

(** C30: Whatever the order in which an agent is started and stopped, repeatedly or while it
    already runs or is stopped, and whatever happens to its streams in between: while it
    runs it has exactly the configured number of inference threads and one of every other
    thread, its scheduler and its sender; while it does not, none of them and no
    configuration or request is left; and no call is undefined when the reporting interval
    in milliseconds is an [int]. *)
Theorem agent_threads_match (app : AppConfig) (ops : list agent_op)
    (Hfits : interval_fits app) (Hops : Forall op_fits ops) :
  exists a, agent_run ops (Agent_new app) = Some a /\ agent_ok a.
Proof.
  assert (Hgen : forall a, agent_ok a -> interval_fits (pl_app (ag_pipe a)) ->
            exists a', agent_run ops a = Some a' /\ agent_ok a').
  { induction Hops as [|o ops Ho _ IH]; intros a Ha Hi; cbn [agent_run]; [by exists a|].
    destruct (agent_apply_ok o a Ho Ha Hi) as (a1 & -> & Ha1 & Happ). cbn. apply IH; [done|]. by rewrite Happ. }
  apply Hgen; [|done]. by split.
Qed.

(** C20: [stop] takes the streams out of the table before it joins the main loop: a stream
    that a batch still starts in between is inserted into the emptied table and never
    stopped - after [stop] it is registered, its puller and its publishing thread are not
    joined, and neither a second [stop] nor the destructor does anything about it. *)
Theorem late_start_survives_stop (a : Agent) (config : StreamConfig) (Hrun : ag_running a = true) :
  let main_loop p := start_stream rename_ok edge never never p config in
  let a' := agent_stop main_loop a in
  ag_running a' = false /\ (forall f, agent_stop f a' = a') /\
  exists ptr c, std_find (sc_stream_id config) (pl_streams (ag_pipe a')) = Some ptr /\
    pl_contexts (ag_pipe a') !! ptr = Some c /\ sx_running c = true /\ sx_stop_flag c = false.
Proof.
  intros main_loop a'. unfold a', agent_stop. rewrite Hrun. cbn [negb].
  set (p1 := foldl _ _ (pl_pending_stop_streams _)). clearbody p1. split; [done|]. split; [done|].
  unfold main_loop, start_stream, buildStreamContext. cbn -[new_context].
  set (ptr := fresh (dom (pl_contexts p1))). set (buffer := fresh (dom (pl_buffers p1))).
  rewrite lookup_insert_eq. destruct (new_context_ok edge config buffer) as (Hid & Hflag & Hr & _).
  rewrite Hflag. exists ptr, (new_context edge config buffer). cbn -[new_context]. split.
  - rewrite Hid. apply std_find_insert_eq.
  - split; [apply lookup_insert_eq|done].
Qed.
End Life.

(** *** A run *)

Definition ex_agent_ops : list agent_op :=
  [AgentStart; AgentStart; AgentStop id; AgentStop id; AgentStart].

Theorem agent_threads_match_witness :
  exists a, agent_run ex_rename ex_agent_ops (Agent_new AppConfig_default) = Some a /\
    ag_infer_threads a = 3 /\ agent_ok a.
Proof.
  destruct (agent_threads_match ex_rename AppConfig_default ex_agent_ops) as (a & Hrun & Ha).
  - unfold interval_fits, in_signed. vm_compute. by split.
  - by repeat constructor.
  - exists a. split; [exact Hrun|]. split; [|exact Ha].
    assert (E : option_map ag_infer_threads (agent_run ex_rename ex_agent_ops (Agent_new AppConfig_default)) = Some 3)
      by (vm_compute; reflexivity).
    rewrite Hrun in E. by injection E.
Defined.

(** The agent stops while the main loop starts the stream of a batch. *)
Theorem late_start_survives_stop_witness :
  exists a, agent_run ex_rename [AgentStart] (Agent_new AppConfig_default) = Some a /\
    let main_loop p := start_stream ex_rename ex_edge_ok never never p (ex_stream "rtsp://a" [] None) in
    ag_running (agent_stop ex_rename main_loop a) = false /\
    running_contexts (ag_pipe (agent_stop ex_rename main_loop a)) = [1%positive] /\
    forall f, agent_stop ex_rename f (agent_stop ex_rename main_loop a) = agent_stop ex_rename main_loop a.
Proof.
  assert (exists a, agent_run ex_rename [AgentStart] (Agent_new AppConfig_default) = Some a /\
            (ag_running a = true /\
             running_contexts (ag_pipe (agent_stop ex_rename
               (fun p => start_stream ex_rename ex_edge_ok never never p (ex_stream "rtsp://a" [] None)) a)) = [1%positive]))
    as (a & Hrun & Hr & Hc) by (apply some_ex; vm_compute; split; reflexivity).
  exists a. split; [exact Hrun|].
  destruct (late_start_survives_stop ex_rename ex_edge_ok a (ex_stream "rtsp://a" [] None) Hr) as (Hs & Hagain & _).
  split; [exact Hs|]. split; [exact Hc|exact Hagain].
Defined.
