(* ===== verification/Threads.v ===== *)
(** * The threads of the agent and their mutexes

    For every thread of the program the mutexes it takes, one inside the other, and the
    threads it starts and joins, function by function as in the code: [publish_locks], [infer_locks],
    [pull_locks], [main_loop_locks], [heartbeat_locks], [start_locks] and [stop_locks] (Pipeline.cpp,
    RTSPPuller.cpp), [send_locks] and [receive_locks] (SocketSender.cpp, IpcClient.cpp) and
    [report_locks] (Statistics.cpp).  The branches a function takes, the turns of its loops
    and the wake-ups of its waits are arguments.  Calls of the system and of libraries are
    taken to return, and waits to be woken or to time out as often as the argument says:
    where a call may not return, see SenderStop, and where a wake-up may be lost, Waits.
    Streams have a non-empty id (the statistics turn away an empty one before they lock). *)
From S2P Require Import Prelude Locks.
From stdpp Require Import relations.

(** A stream context, by its pointer. *)
Abbreviation ctx := positive.

Inductive mutex :=
| StreamsMutex | ConfigMutex | StopMutex                              (* Pipeline *)
| RuntimeMutex (s : ctx) | RecorderMutex (s : ctx) | SnapshotMutex (s : ctx)
| TrackerMutex (s : ctx) | DedupMutex (s : ctx)                       (* of the stream's detector *)
| BufferMutex (s : ctx) | PublisherMutex (s : ctx) | PullerStopMutex (s : ctx)
| SchedulerMutex | StatisticsMutex
| QueueMutex | SendMutex | FdMutex | SenderStopMutex.                 (* SocketSender *)

Inductive thread_id :=
| MainThread
| ConfigThread
| HeartbeatThread
| InferThread (n : nat)
| PullerThread (s : ctx)
| PublishThread (s : ctx)
| SendThread
| RecvThread
| StatisticsThread.

#[export] Instance mutex_eq_dec : EqDecision mutex.
Proof. solve_decision. Defined.
#[export] Instance thread_id_eq_dec : EqDecision thread_id.
Proof. solve_decision. Defined.

Abbreviation script := (list (act mutex thread_id)).

Definition when (b : bool) (k : script) : script := if b then k else [].
Fixpoint times (n : nat) (k : script) : script := match n with O => [] | S n => k ++ times n k end.

(** ** The components' methods *)

(** Every method of a stream buffer, of the statistics, of the scheduler without a buffer,
    of the send queue. *)
Definition buffer_call (s : ctx) : script := with_lock (BufferMutex s) [].
Definition statistics_call : script := with_lock StatisticsMutex [].
Definition scheduler_call : script := with_lock SchedulerMutex [].
Definition queue_call : script := with_lock QueueMutex [].
Definition fd_call : script := with_lock FdMutex [].

Definition waitForPublishable_locks (s : ctx) (rounds : nat) : script :=
  with_lock (BufferMutex s) (wait_rounds (BufferMutex s) rounds).

(** [tryAcquireLocked] asks the buffers of the streams it comes to; [acquireTask] calls it
    once and after every wake-up. *)
Definition tryAcquire_locks (asked : list ctx) : script := concat (buffer_call <$> asked).
Definition acquireTask_locks (asked : list ctx) (wakeups : list (list ctx)) : script :=
  with_lock SchedulerMutex
    (tryAcquire_locks asked ++ concat ((fun asked => wait_rounds SchedulerMutex 1 ++ tryAcquire_locks asked) <$> wakeups)).

(** ** Publishing: one turn of [publishLoop] *)

Record publish_case := mkPublishCase {
  pc_rounds : nat;
  pc_publishable : bool;        (* [waitForPublishable] returned true *)
  pc_packet : bool;             (* [peekPacket] returned a packet *)
  pc_video : bool;
  pc_final : bool;              (* there is an [AVPacket] to send *)
  pc_release : bool;            (* the packet is a video packet with a frame id *)
}.

Definition publish_locks (s : ctx) (c : publish_case) : script :=
  waitForPublishable_locks s (pc_rounds c) ++
  when (pc_publishable c)
    (buffer_call s ++
     when (pc_packet c)
       (when (pc_video c) (buffer_call s ++ buffer_call s ++ statistics_call) ++
        when (pc_final c) (with_lock (PublisherMutex s) [] ++ with_lock (RecorderMutex s) []) ++
        buffer_call s ++
        when (pc_release c) (buffer_call s))).

(** ** Inference: one turn of [inferLoop] *)

Inductive infer_end :=
| NoTask
| EmptyTask                                     (* no buffer or no frame *)
| DroppedTask (s : ctx)                         (* the stream is gone *)
| NoDetector (s : ctx)
| Detected (s : ctx) (objects dedup : bool) (alarms recording snapshot : bool) (messages : nat).

(** [detect]: [TrackingPostprocessStep] and [DeduplicateAlarmPostprocessStep] lock when there
    is something to track or to keep. *)
Definition detect_locks (s : ctx) (objects dedup : bool) : script :=
  when objects (with_lock (TrackerMutex s) []) ++ when dedup (with_lock (DedupMutex s) []).

Definition file_locks (s : ctx) : script :=
  buffer_call s ++ buffer_call s ++ statistics_call ++ buffer_call s ++ statistics_call.

Definition alarm_locks (s : ctx) (recording snapshot : bool) (messages : nat) : script :=
  when recording (with_lock (RecorderMutex s) []) ++ when snapshot (with_lock (SnapshotMutex s) []) ++
  times messages queue_call.

Definition infer_locks (asked : list ctx) (wakeups : list (list ctx)) (e : infer_end) : script :=
  acquireTask_locks asked wakeups ++
  match e with
  | NoTask => []
  | EmptyTask => scheduler_call
  | DroppedTask s => buffer_call s ++ with_lock StreamsMutex [] ++ buffer_call s ++ scheduler_call
  | NoDetector s =>
      buffer_call s ++ with_lock StreamsMutex [] ++ with_lock (RuntimeMutex s) [] ++ buffer_call s ++ scheduler_call
  | Detected s objects dedup alarms recording snapshot messages =>
      buffer_call s ++ with_lock StreamsMutex [] ++
      with_lock (RuntimeMutex s)
        (detect_locks s objects dedup ++ file_locks s ++ when alarms (alarm_locks s recording snapshot messages)) ++
      scheduler_call
  end.

(** ** Pulling: a connection of [pullLoop] *)

Definition requestAsyncStop_locks : script := with_lock StreamsMutex [] ++ with_lock ConfigMutex [].

(** The stream-ready callback. *)
Inductive ready_case :=
| NoOutput (records : bool)                     (* nothing to publish to *)
| OutputFailed (first : bool)                   (* [configure] failed; the stop is asked for once *)
| OutputReady (records : bool).

Definition stream_ready_locks (s : ctx) (c : ready_case) : script :=
  match c with
  | NoOutput records => when records (with_lock (RecorderMutex s) [])
  | OutputFailed first => with_lock (PublisherMutex s) [] ++ when first requestAsyncStop_locks
  | OutputReady records => with_lock (PublisherMutex s) [] ++ when records (with_lock (RecorderMutex s) [])
  end.

(** [enqueuePendingFrame]; the callback tells the scheduler. *)
Definition enqueueFrame_locks (s : ctx) (notify : bool) : script := buffer_call s ++ when notify scheduler_call.

(** A decoded frame: the packets skipped before it, and whether the scheduler is told;
    [None]: no packet belongs to it. *)
Definition decoded_locks (s : ctx) (frame : option (nat * bool)) : script :=
  statistics_call ++
  match frame with
  | None => []
  | Some (skipped, notify) => times skipped (enqueueFrame_locks s false) ++ enqueueFrame_locks s notify
  end.

Inductive pull_case :=
| PullVideo (frames : list (option (nat * bool)))
| PullAudio
| PullOther.

Definition packet_locks (s : ctx) (c : pull_case) : script :=
  match c with
  | PullVideo frames =>
      statistics_call ++ buffer_call s ++ buffer_call s ++ statistics_call ++ concat (decoded_locks s <$> frames)
  | PullAudio => buffer_call s
  | PullOther => []
  end.

(** A connection: [None] when it could not be opened; then the wait before the next one,
    when the puller waits. *)
Definition pull_locks (s : ctx) (c : option (ready_case * list pull_case) * option nat) : script :=
  match c.1 with None => [] | Some (ready, packets) => stream_ready_locks s ready ++ concat (packet_locks s <$> packets) end ++
  match c.2 with None => [] | Some rounds => with_lock (PullerStopMutex s) (wait_rounds (PullerStopMutex s) rounds) end.

(** ** The main loop and stopping *)

Definition stopStream_locks (s : ctx) : script :=
  scheduler_call ++ [JoinThread (PullerThread s)] ++ buffer_call s ++ [JoinThread (PublishThread s)] ++
  with_lock (PublisherMutex s) [] ++ with_lock (RecorderMutex s) [] ++ with_lock (SnapshotMutex s) [] ++
  with_lock (RuntimeMutex s) [] ++ statistics_call.

Definition updateStreamRuntime_locks (s : ctx) : script := with_lock (RuntimeMutex s) [] ++ scheduler_call.

(** [buildStreamContext], in which the puller's [start] always succeeds, and what follows: the
    stream is stopped at once or entered. *)
Definition start_stream_locks (e : ctx * bool) : script :=
  statistics_call ++ scheduler_call ++ [StartThread (PublishThread e.1)] ++ [StartThread (PullerThread e.1)] ++
  if e.2 then stopStream_locks e.1 else with_lock StreamsMutex [].

Record batch := mkBatch { ba_stops : list ctx; ba_updates : list ctx; ba_starts : list (ctx * bool) }.

Definition applyConfigBatch_locks (b : batch) : script :=
  with_lock StreamsMutex [] ++ concat (stopStream_locks <$> ba_stops b) ++
  concat (updateStreamRuntime_locks <$> ba_updates b) ++ concat (start_stream_locks <$> ba_starts b) ++
  with_lock StreamsMutex [].

(** A turn of [mainLoop]: the wait, the streams to be stopped, the configurations. *)
Definition main_loop_locks (c : nat * list ctx * option batch) : script :=
  with_lock ConfigMutex (wait_rounds ConfigMutex c.1.1) ++ concat (stopStream_locks <$> c.1.2) ++
  match c.2 with Some b => applyConfigBatch_locks b | None => [] end.

(** A turn of [heartbeatLoop]; [sends]: it was not told to stop and has a client. *)
Definition heartbeat_locks (c : nat * bool * bool) : script :=
  with_lock StopMutex (wait_rounds StopMutex c.1.1) ++ when c.1.2 (with_lock StreamsMutex [] ++ when c.2 queue_call).

(** [IpcClient::stop] and [SocketSender::stop]. *)
Definition sender_stop_locks : script := queue_call ++ fd_call ++ [JoinThread RecvThread] ++ [JoinThread SendThread].

(** [Pipeline::start]: [Statistics::start] stops what ran before. *)
Definition start_locks (infer_threads : nat) : script :=
  [JoinThread StatisticsThread] ++ statistics_call ++ [StartThread StatisticsThread] ++
  [StartThread SendThread] ++ [StartThread RecvThread] ++
  concat ((fun n => [StartThread (InferThread n)]) <$> seq 0 infer_threads) ++
  [StartThread ConfigThread] ++ [StartThread HeartbeatThread].

(** [Pipeline::stop], with the streams of [streams_] and [pending_stop_streams_] and the
    number of inference threads. *)
Definition stop_locks (streams pending : list ctx) (infer_threads : nat) : script :=
  scheduler_call ++ with_lock StreamsMutex [] ++ with_lock ConfigMutex [] ++
  concat (stopStream_locks <$> streams) ++ concat (stopStream_locks <$> pending) ++
  [JoinThread ConfigThread] ++ [JoinThread HeartbeatThread] ++
  concat ((fun n => [JoinThread (InferThread n)]) <$> seq 0 infer_threads) ++
  sender_stop_locks ++ with_lock ConfigMutex [] ++ [JoinThread StatisticsThread].

(** ** The sender's threads and the statistics *)

(** A turn of [sendLoop]: whether it connects, which may fail; then the rounds of its waits,
    and for an item the calls of [send] and whether they failed. *)
Inductive send_case :=
| SendBackoff (rounds : nat)
| SendPop (connects : bool) (rounds : nat) (item : option (nat * bool)).

Definition send_locks (c : send_case) : script :=
  match c with
  | SendBackoff rounds => with_lock SenderStopMutex (wait_rounds SenderStopMutex rounds)
  | SendPop connects rounds item =>
      when connects fd_call ++ with_lock QueueMutex (wait_rounds QueueMutex rounds) ++
      match item with
      | None => []
      | Some (sends, failed) => with_lock SendMutex (times sends fd_call) ++ when failed fd_call
      end
  end.

(** A turn of [recvLoop]: the calls of [recv]; then it disconnects, or hands over a frame: a
    configuration, which is stored unless it is for another agent, and acknowledged. *)
Definition receive_locks (c : nat * bool * option bool) : script :=
  times c.1.1 fd_call ++ when c.1.2 fd_call ++
  match c.2 with None => [] | Some stored => when stored (with_lock ConfigMutex []) ++ queue_call end.

(** A turn of [Statistics::loop]; [reports]: it has streams to report on. *)
Definition report_locks (c : nat * bool) : script :=
  with_lock StatisticsMutex (wait_rounds StatisticsMutex c.1) ++ when c.2 statistics_call.

(** What each thread does from its start to its end. *)
Inductive runs : thread_id -> script -> Prop :=
| runs_main streams pending n : runs MainThread (start_locks n ++ stop_locks streams pending n)
| runs_config turns : runs ConfigThread (concat (main_loop_locks <$> turns))
| runs_heartbeat turns : runs HeartbeatThread (concat (heartbeat_locks <$> turns))
| runs_infer n turns : runs (InferThread n) (concat ((fun c => infer_locks c.1.1 c.1.2 c.2) <$> turns))
| runs_puller s turns : runs (PullerThread s) (concat (pull_locks s <$> turns))
| runs_publish s turns : runs (PublishThread s) (concat (publish_locks s <$> turns))
| runs_send turns : runs SendThread (concat (send_locks <$> turns))
| runs_recv turns : runs RecvThread (concat (receive_locks <$> turns))
| runs_statistics turns : runs StatisticsThread (concat (report_locks <$> turns)).

(** ** The order *)

(** The mutexes other components' methods are called under come first. *)
Definition rank (m : mutex) : nat :=
  match m with RuntimeMutex _ | SchedulerMutex | SendMutex => 0 | _ => 1 end.

(** [stop] joins the main loop, which joins the threads of streams. *)
Definition level (t : thread_id) : nat :=
  match t with MainThread => 0 | ConfigThread => 1 | _ => 2 end.

Lemma rank_le m : (rank m <= 1)%nat.
Proof. destruct m; cbn; lia. Qed.
Lemma level_le t : (level t <= 2)%nat.
Proof. destruct t; cbn; lia. Qed.

Create HintDb locks discriminated.
#[export] Hint Resolve balanced_nil balanced_app balanced_concat balanced_start : locks.
#[export] Hint Extern 5 (balanced _ _ _ _ (with_lock _ _)) => apply balanced_with_lock; [reflexivity|] : locks.
#[export] Hint Extern 5 (balanced _ _ _ _ (wait_rounds _ _)) => apply balanced_wait_rounds; reflexivity : locks.
#[export] Hint Extern 5 (balanced _ _ _ _ [JoinThread _]) => apply balanced_join; cbn; lia : locks.

Abbreviation holding lvl held k := (balanced rank level lvl held k).

Lemma balanced_when lvl held b k : holding lvl held k -> holding lvl held (when b k).
Proof. by destruct b. Qed.
Lemma balanced_times lvl held n k : holding lvl held k -> holding lvl held (times n k).
Proof. intros Hk. induction n; cbn; auto with locks. Qed.
#[export] Hint Resolve balanced_when balanced_times : locks.

(** Case analysis on what a function does, then the rules above. *)
Ltac locks := repeat case_match; auto 30 with locks.

(** ** Each function keeps to it *)

Lemma leaf_balanced lvl held m :
  rank m = 1%nat -> forallb (fun h => (rank h <? 1)%nat) held = true -> holding lvl held (with_lock m []).
Proof. intros Hm Hh. apply balanced_with_lock; [by rewrite Hm|apply balanced_nil]. Qed.

Lemma buffer_balanced lvl held s : forallb (fun h => (rank h <? 1)%nat) held = true -> holding lvl held (buffer_call s).
Proof. by apply leaf_balanced. Qed.
Lemma statistics_balanced lvl held : forallb (fun h => (rank h <? 1)%nat) held = true -> holding lvl held statistics_call.
Proof. by apply leaf_balanced. Qed.
Lemma queue_balanced lvl held : forallb (fun h => (rank h <? 1)%nat) held = true -> holding lvl held queue_call.
Proof. by apply leaf_balanced. Qed.
Lemma fd_balanced lvl held : forallb (fun h => (rank h <? 1)%nat) held = true -> holding lvl held fd_call.
Proof. by apply leaf_balanced. Qed.
Lemma scheduler_balanced lvl : holding lvl [] scheduler_call.
Proof. unfold scheduler_call. locks. Qed.
#[export] Hint Resolve buffer_balanced statistics_balanced queue_balanced fd_balanced scheduler_balanced : locks.

Lemma publish_balanced lvl s c : holding lvl [] (publish_locks s c).
Proof. unfold publish_locks, waitForPublishable_locks. locks. Qed.

Lemma tryAcquire_balanced lvl asked : holding lvl [SchedulerMutex] (tryAcquire_locks asked).
Proof. unfold tryAcquire_locks. locks. Qed.
#[export] Hint Resolve tryAcquire_balanced : locks.

Lemma acquire_balanced lvl asked wakeups : holding lvl [] (acquireTask_locks asked wakeups).
Proof. unfold acquireTask_locks. locks. Qed.

Lemma detect_balanced lvl s objects dedup : holding lvl [RuntimeMutex s] (detect_locks s objects dedup).
Proof. unfold detect_locks. locks. Qed.
Lemma file_balanced lvl s : holding lvl [RuntimeMutex s] (file_locks s).
Proof. unfold file_locks. locks. Qed.
Lemma alarm_balanced lvl s recording snapshot messages : holding lvl [RuntimeMutex s] (alarm_locks s recording snapshot messages).
Proof. unfold alarm_locks. locks. Qed.
#[export] Hint Resolve acquire_balanced detect_balanced file_balanced alarm_balanced : locks.

Lemma infer_balanced lvl asked wakeups e : holding lvl [] (infer_locks asked wakeups e).
Proof. unfold infer_locks. locks. Qed.

Lemma ready_balanced lvl s c : holding lvl [] (stream_ready_locks s c).
Proof. unfold stream_ready_locks, requestAsyncStop_locks. locks. Qed.
Lemma enqueueFrame_balanced lvl s notify : holding lvl [] (enqueueFrame_locks s notify).
Proof. unfold enqueueFrame_locks. locks. Qed.
#[export] Hint Resolve ready_balanced enqueueFrame_balanced : locks.
Lemma decoded_balanced lvl s frame : holding lvl [] (decoded_locks s frame).
Proof. unfold decoded_locks. locks. Qed.
#[export] Hint Resolve decoded_balanced : locks.
Lemma packet_balanced lvl s c : holding lvl [] (packet_locks s c).
Proof. unfold packet_locks. locks. Qed.
#[export] Hint Resolve packet_balanced : locks.
Lemma pull_balanced lvl s c : holding lvl [] (pull_locks s c).
Proof. unfold pull_locks. locks. Qed.

(** Whoever stops streams is below their threads. *)
Lemma stopStream_balanced lvl s : (lvl < 2)%nat -> holding lvl [] (stopStream_locks s).
Proof. intros Hl. unfold stopStream_locks. locks. Qed.
#[export] Hint Extern 5 (balanced _ _ _ _ (stopStream_locks _)) => apply stopStream_balanced; lia : locks.
Lemma start_stream_balanced e : holding 1 [] (start_stream_locks e).
Proof. unfold start_stream_locks. locks. Qed.
Lemma update_balanced lvl s : holding lvl [] (updateStreamRuntime_locks s).
Proof. unfold updateStreamRuntime_locks. locks. Qed.
#[export] Hint Resolve start_stream_balanced update_balanced : locks.
Lemma batch_balanced b : holding 1 [] (applyConfigBatch_locks b).
Proof. unfold applyConfigBatch_locks. locks. Qed.
#[export] Hint Resolve batch_balanced : locks.
Lemma main_loop_balanced c : holding 1 [] (main_loop_locks c).
Proof. unfold main_loop_locks. locks. Qed.

Lemma heartbeat_balanced lvl c : holding lvl [] (heartbeat_locks c).
Proof. unfold heartbeat_locks. locks. Qed.
Lemma start_balanced n : holding 0 [] (start_locks n).
Proof. unfold start_locks. locks. Qed.
Lemma stop_balanced streams pending n : holding 0 [] (stop_locks streams pending n).
Proof. unfold stop_locks, sender_stop_locks. locks. Qed.
Lemma send_balanced lvl c : holding lvl [] (send_locks c).
Proof. unfold send_locks. locks. Qed.
Lemma receive_balanced lvl c : holding lvl [] (receive_locks c).
Proof. unfold receive_locks. locks. Qed.
Lemma report_balanced lvl c : holding lvl [] (report_locks c).
Proof. unfold report_locks. locks. Qed.
#[export] Hint Resolve publish_balanced infer_balanced pull_balanced main_loop_balanced heartbeat_balanced start_balanced
  stop_balanced send_balanced receive_balanced report_balanced : locks.

Lemma runs_ok t k : runs t k -> script_ok rank level (level t) [] k = true.
Proof. intros Hr. apply balanced_ok. destruct Hr; locks. Qed.

(** C5: The threads of the agent cannot deadlock on their mutexes and joins: whatever turns
    each thread makes from its start on (with waits that are woken or time out and system
    calls that return), and however they are interleaved, no mutex is ever held twice,
    a run is at most as long as the threads' scripts together, and it stops only when every
    thread that was started has ended - the main thread with all of [stop] done. *)
Theorem threads_cannot_deadlock (ts : list (thread_id * script)) (Hts : Forall (fun e => runs e.1 e.2) ts) :
  let start := launched MainThread ts in
  (forall n ts', nsteps thread_step n start ts' -> (n <= work start)%nat) /\
  (forall ts', rtc thread_step start ts' ->
     held_once ts' /\ (nf thread_step ts' -> all_ended ts') /\ exists ts'', rtc thread_step ts' ts'' /\ all_ended ts'').
Proof.
  intros start. assert (Hok : threads_ok rank level start).
  { apply launched_ok. eapply Forall_impl; [exact Hts|]. intros [t k]. apply runs_ok. }
  destruct (threads_end rank level 1 2 rank_le level_le start Hok) as [Hlen Hend]. split; [done|].
  intros ts' Hrun. split; [|by apply Hend]. by apply (held_once_run start), launched_held.
Qed.

(** One stream: the main loop starts it and stops it again, while it is pulled, published
    and worked on. *)
Definition ex_threads : list (thread_id * script) :=
  [(MainThread, start_locks 1 ++ stop_locks [] [] 1);
   (ConfigThread, concat (main_loop_locks <$> [(1%nat, [], Some (mkBatch [] [] [(1%positive, false)])); (1%nat, [1%positive], None)]));
   (InferThread 0, concat ((fun c => infer_locks c.1.1 c.1.2 c.2) <$> [([], [[1%positive]], Detected 1 true true true true true 2)]));
   (PullerThread 1, concat (pull_locks 1 <$> [(Some (OutputReady true, [PullVideo [Some (1%nat, true)]; PullAudio]), None)]));
   (PublishThread 1, concat (publish_locks 1 <$> [mkPublishCase 1 true true true true true]));
   (HeartbeatThread, concat (heartbeat_locks <$> [(1%nat, true, true)]));
   (SendThread, concat (send_locks <$> [SendPop true 1 (Some (3%nat, false))]));
   (RecvThread, concat (receive_locks <$> [(3%nat, false, Some true)]));
   (StatisticsThread, concat (report_locks <$> [(1%nat, true)]))].

Lemma threads_cannot_deadlock_witness :
  exists ts', rtc thread_step (launched MainThread ex_threads) ts' /\ all_ended ts'.
Proof.
  destruct (threads_cannot_deadlock ex_threads) as [_ H].
  { repeat (constructor; [cbn [fst snd]; constructor|]). constructor. }
  destruct (H _ (rtc_refl _ _)) as (_ & _ & ts' & Hr & He). exists ts'. split; [exact Hr|exact He].
Defined.
