(* ===== verification/Main.v ===== *)
(** * The process (src/src/main.cpp, src/src/common/Logger.h)

    [main]: arguments, configuration, logging, the agent's life until a signal arrives, and
    how the process ends.  The options [getopt_long] finds, the files, the signals, what the
    agent's threads do meanwhile and whether they let [stop] return are arguments. *)
From S2P Require Import Prelude StdMap Float32 Messages SafeQueue StreamBuffer Scheduler Common Config Sei Socket.
From S2P Require Import Ipc Stats Detector Decoder Puller Mux Recorder Snapshot Pipeline Lifecycle.

(** ** Logging *)

(** Where messages go; spdlog's own logger before it is replaced. *)
Inductive log_sink :=
| SpdlogDefault
| ConsoleSink
| FileSink (path : string) (max_size max_files : Z).
Record logger := mkLogger { lg_sink : log_sink; lg_level : Z }.

(** [strcasecmp(s, t) == 0] for a [t] without capitals. *)
Definition lower (c : Ascii.ascii) : Ascii.ascii :=
  if ascii_between 65 90 c then Ascii.ascii_of_N (Ascii.N_of_ascii c + 32) else c.
Definition same_ignoring_case (s t : string) : bool :=
  bool_decide (String.string_of_list_ascii (lower <$> String.list_ascii_of_string s) = t).

(** [static_cast<size_t>(max_file_mb) * 1024 * 1024]. *)
Definition log_file_size (max_file_mb : Z) : Z := wrap 64 (wrap 64 (wrap 64 max_file_mb * 1024) * 1024).

Section Main.
(** spdlog: the level a name stands for, and whether a rotating file can be opened (else it
    throws [spdlog_ex]).  The file system: whether the log directory can be created. *)
Context (level_of : string -> Z) (rotating_ok : string -> Z -> Z -> bool) (create_ok : string -> bool).

(** [Logger::init].  It catches [spdlog_ex] only: [None] is the [filesystem_error] of
    [create_directories], which nobody catches. *)
Definition logger_init (cfg : LogConfig) (l : logger) : option logger :=
  let level := level_of (lgc_level cfg) in
  if same_ignoring_case (lgc_output cfg) "console" then Some (mkLogger ConsoleSink level)
  else if negb (create_ok (lgc_log_dir cfg)) then None
  else
    let path := (lgc_log_dir cfg ++ "/media_agent.log")%string in
    let size := log_file_size (lgc_max_file_mb cfg) in
    let files := wrap 64 (lgc_max_files cfg) in
    Some (if rotating_ok path size files then mkLogger (FileSink path size files) level else l).

(** ** main *)

Context `{JsonLibrary} (rename_ok : string -> string -> bool).

(** [Aborted]: by an exception nobody catches.  [Hangs]: in [stop], which waits for a thread
    that does not end.  [Terminated]: a [std::thread] that was not joined is destroyed. *)
Inductive process_end :=
| ExitCode (code : Z)
| Aborted
| UndefinedBehaviour
| Hangs
| Terminated.
Definition EXIT_SUCCESS : Z := 0.
Definition EXIT_FAILURE : Z := 1.

(** The wait for [g_stop]: at each poll the flag, and what the agent's threads do in the
    200 ms after a poll that finds it unset.  [None]: no signal has arrived yet. *)
Fixpoint wait_for_signal (polls : list (bool * (Pipeline -> Pipeline))) (a : Agent) : option Agent :=
  match polls with
  | [] => None
  | (true, _) :: _ => Some a
  | (false, work) :: polls =>
      a ← agent_apply rename_ok (AgentWork work) a;
      wait_for_signal polls a
  end.

(** What [stop] meets: what the main loop still does before it ends; whether all the threads
    [stop] joins do end (the main loop need not hear the request, see [stop_goes_unheard] in
    Waits, nor the receiver be woken, see [stop_leaves_receiver_blocked] in SenderStop); and
    whether the process is gone before a context whose publishing thread nobody joined is
    destroyed. *)
Record stop_answers := mkStopAnswers {
  sp_main_loop : Pipeline -> Pipeline;
  sp_returns : bool;
  sp_exits_first : bool;
}.

(** Some publishing thread was not joined.  It sees the agent's stop flag, ends, and drops
    its pointer to its context, whose [publish_thread] is still joinable. *)
Definition unjoined (a : Agent) : bool := existsb (fun e => sx_publish_thread e.2) (map_to_list (pl_contexts (ag_pipe a))).

(** From the signal on. *)
Definition finish (sp : stop_answers) (l : logger) (a : Agent) : process_end * logger * option Agent :=
  let a := agent_stop rename_ok (sp_main_loop sp) a in
  if unjoined a && negb (sp_returns sp && sp_exits_first sp) then (Terminated, l, Some a)
  else if sp_returns sp then (ExitCode EXIT_SUCCESS, l, Some a)
  else (Hangs, l, None).

(** How the process ends, with its logger and the agent it leaves; [None]: it still runs. *)
Definition main (options : list getopt_result) (files : string -> option string)
    (polls : list (bool * (Pipeline -> Pipeline))) (sp : stop_answers) (l : logger)
  : option (process_end * logger * option Agent) :=
  match parseArgs options "config/config.json" with
  | None => Some (ExitCode EXIT_FAILURE, l, None)
  | Some config_path =>
      match loadFromFile (files config_path) with
      | None => Some (ExitCode EXIT_FAILURE, l, None)
      | Some cfg =>
          match logger_init (app_log cfg) l with
          | None => Some (Aborted, l, None)
          | Some l =>
              match agent_start (Agent_new cfg) with
              | None => Some (UndefinedBehaviour, l, None)
              | Some (false, a) => Some (ExitCode EXIT_FAILURE, l, Some (agent_stop rename_ok (sp_main_loop sp) a))
              | Some (true, a) =>
                  a ← wait_for_signal polls a;
                  Some (finish sp l a)
              end
          end
      end
  end.

(** ** How the process ends *)












End Main.

(** ** Log files *)

(** A negative size in megabytes is a limit no file reaches. *)
Theorem log_file_size_spec (mb : Z) (Hmb : in_signed 32 mb) :
  log_file_size mb = if 0 <=? mb then mb * 2 ^ 20 else 2 ^ 64 + mb * 2 ^ 20.
Proof.
  unfold in_signed, log_file_size, wrap in *. rewrite Zmult_mod_idemp_l, <- Z.mul_assoc, Zmult_mod_idemp_l.
  change (1024 * 1024) with 1048576. change (2 ^ 20) with 1048576. change (2 ^ 64) with 18446744073709551616.
  change (2 ^ (32 - 1)) with 2147483648 in Hmb.
  destruct (Z.leb_spec 0 mb).
  - rewrite Z.mod_small; lia.
  - symmetry. apply (Z.mod_unique _ _ (-1)); lia.
Qed.

Lemma log_file_size_spec_witness : log_file_size (-1) = 2 ^ 64 - 2 ^ 20.
Proof. rewrite (log_file_size_spec (-1)); [reflexivity|]. by vm_compute. Defined.

(** The process with a configuration file that sets nothing. *)
Definition ex_main (polls : list (bool * (Pipeline -> Pipeline))) (sp : stop_answers) : option (process_end * logger * option Agent) :=
  main (fun _ => 0) (fun _ _ _ => true) (fun _ => true) ex_rename [OptConfig "c"] (fun _ => Some "{}"%string) polls sp (mkLogger SpdlogDefault 2).


(** A stream's URL changes while the agent runs: the context that was leaked then
    ([transport_change_leaks_context]) terminates the process on its way out. *)
Theorem transport_change_terminates :
  exists l a, ex_main [(false, ex_apply "rtsp://a"); (false, ex_apply "rtsp://b"); (true, id)] (mkStopAnswers id true false) =
    Some (Terminated, l, Some a) /\ running_contexts (ag_pipe a) = [2%positive].
Proof.
  assert (exists r, ex_main [(false, ex_apply "rtsp://a"); (false, ex_apply "rtsp://b"); (true, id)] (mkStopAnswers id true false) = Some r /\
    (r.1.1 = Terminated /\ match r.2 with Some a => running_contexts (ag_pipe a) = [2%positive] | None => False end))
    as ([[e l] [a|]] & Hr & He & Ha) by (apply some_ex; vm_compute; done).
  - cbn in He, Ha. subst e. by exists l, a.
  - done.
Qed.
